(* ===== verification/_CoqProject ===== *)
-Q . S2P
Prelude.v
Layout.v
Blocks.v
Store.v
Treedisk.v
Tree.v
TreediskOps.v
TreediskFs.v
TreediskCreate.v
Ramdisk.v
FsDisk.v
FileSystem.v
FsCorrect.v
Dir.v
Mkfs.v
Uart.v
Ring.v
Tty.v
TtyOps.v
Intr.v
TtyCorrect.v
Sd.v
SdSpec.v
SdDemo.v
SdCorrect.v
Earth.v
Process.v
Kernel.v
KernelInv.v
KernelOps.v
Delivery.v
Sched.v
KernelCorrect.v
Machine.v
KernelThms.v
LostCall.v
TableThms.v
User.v
Servers.v
Net.v
NetKernel.v
ServersCorrect.v
Paging.v
PagingOps.v
Mmu.v
MmuOps.v
MmuCorrect.v
PageTable.v
PtCorrect.v
Elf.v
SysProc.v
ElfCorrect.v
ElfThms.v
SysProcCorrect.v
SpawnCorrect.v
SpawnThms.v
MkfsCorrect.v
Mkrom.v
NetThms.v
Apps.v
AppsCorrect.v
AppsThms.v
Timer.v
Boot.v
BootCorrect.v
BootDemo.v
BootThms.v
Libc.v
Context.v
ContextCorrect.v
ResumeThms.v
SwitchThms.v
Shell.v
ShellCorrect.v
ShellMain.v
ShellThms.v
ImageThms.v
Start.v
StartThms.v
SystemThms.v
