(* ===== verification/Prelude.v ===== *)
(** * egos-2000: a verification library

    This library models the operating system egos-2000 in its variant with
    interrupt-driven input and output, and proves the properties that make its
    parts, and their composition, correct.

    ** The program

    The system has three layers.  The earth layer (src/earth) drives the
    hardware: UART and tty, timer, interrupt controller, SD card and flash disk,
    paging device and memory management; it boots the system.  The grass layer
    (src/grass) is the kernel: interrupt entry, system calls, messages, scheduling
    and the process table.  On top run four server processes (src/apps/system)
    for processes, files, directories and the shell, and user applications
    (src/apps/user).  src/library holds what several layers use: the tree file
    system, the ELF loader, the server stubs, hooks of the C library, and in egos.h
    the two interface structures, [struct earth] and [struct grass].  src/tools
    builds the disk image and the boot ROM on the host.

    ** How C is modelled

    A C function is a function from the state it can touch to an [outcome]
    (below): a return with the new state, a FATAL stop, undefined behaviour, or
    a loop that used up its rounds.  Integers are [Z]; where C wraps around, the
    wrap is written out ([u32], [s32]).  Arrays are lists, and an access outside
    is [Undef].  Loops are [Fixpoint]s over the number of rounds left, or over
    the data they run through.  User code (servers, shell, applications) is a
    program tree (User.v) whose effects are actions on shared state and requests
    to the kernel; a set of such programs with the kernel's message buffer is a
    network (Net.v), whose steps are the steps of any one process.

    Code that is not part of the program is a parameter, with what is assumed of
    it as the laws of a class: the UART ([Uart], Uart.v), the interrupt controller
    ([Plic], Intr.v, and [PlicRegs], BootCorrect.v), the SPI controller and the
    SD card ([SpiPort], [SdProto], SdSpec.v), one block transfer of a card
    ([SdCard], FsDisk.v), the buffering of [printf] ([Stdio], Boot.v, with
    [StdioLaws], BootCorrect.v).  Each class has an instance that keeps the laws,
    used in the witnesses.  The C library's [rand], the running clock, the files of
    the host and the requests that a [printf] of a user program makes are
    arguments.

    ** The files

    - Prelude.v: outcomes, the monad and its rules ([returns m s Q]: run in [s],
      [m] returns and [Q] holds), machine integers, lists.
    - Layout.v: constants of disk.h, file.h, inode.h, egos.h, character.h,
      servers.h, process.h and syscall.h.
    - Blocks.v, Store.v: blocks of 512 bytes and their 32-bit words; the
      interface [struct inode_store] and the class [BlockStore] of stores that
      keep blocks.
    - Treedisk.v: library/file/file.c, one definition per function and per loop.
      Tree.v, TreediskOps.v, TreediskFs.v, TreediskCreate.v: block trees and free
      lists, and the effect of allocation, tree walk, growth, write and create
      on them.  FileSystem.v: the contract, an array of files, and the
      refinement relation.  FsCorrect.v: the theorems.
    - Ramdisk.v (the store in tools/mkfs.c) and FsDisk.v (library/file/disk.c,
      earth/dev_disk.c, the block loops of earth/sd/sd_rw.c): two
      implementations of [BlockStore].
    - Sd.v (earth/sd), SdSpec.v (controller and card), SdDemo.v (an instance) and
      SdCorrect.v: the SD card driver, an implementation of [SdCard].
    - Dir.v (the text of a directory, [dir_do_lookup]), Mkfs.v and MkfsCorrect.v
      (tools/mkfs.c), Mkrom.v (tools/mkrom.c): directories and images.
    - Uart.v (earth/bus_uart.c), Ring.v and Tty.v (earth/dev_tty.c), Intr.v
      ([trap_external] of earth/cpu_intr.c), TtyOps.v, TtyCorrect.v: the tty.
    - Earth.v: the part of [struct earth] that the kernel uses, as a class, and
      the laws [EarthLaws].  Process.v (grass/process.c) and Kernel.v
      (grass/kernel.c, and [trap_entry]) are proved against these laws in
      KernelInv.v, KernelOps.v, Delivery.v, Sched.v, KernelCorrect.v,
      KernelThms.v, LostCall.v (the software interrupt bit), TableThms.v (the process
      table under any sequence of calls) and ResumeThms.v (a process between two of
      its turns).  Machine.v is an
      earth layer made of the tty driver and of ideal memory that keeps the laws.
    - Context.v, ContextCorrect.v: the assembly of earth/earth.s, grass/grass.s and
      apps/app.s.  SwitchThms.v: this code on the memory of the software TLB.
    - Paging.v (earth/dev_page.c), Mmu.v (frames and software TLB of
      earth/cpu_mmu.c), PagingOps.v, MmuOps.v, MmuCorrect.v: memory management.
      PageTable.v, PtCorrect.v: its page tables and [mmu_init].
    - Elf.v, ElfCorrect.v, ElfThms.v: library/elf/elf.c.
    - User.v (programs; grass/syscall.c), Servers.v (library/servers/servers.c,
      sys_file.c and sys_dir.c of apps/system), SysProc.v (sys_proc.c).  Net.v: the
      network of processes.  NetKernel.v: the kernel implements the network.
      ServersCorrect.v, SysProcCorrect.v, SpawnCorrect.v, SpawnThms.v, NetThms.v:
      the servers at work.
    - Shell.v, ShellCorrect.v (line input and parsing), ShellMain.v, ShellThms.v
      (main loop): sys_shell.c.
    - Apps.v, AppsCorrect.v, AppsThms.v: apps/user.  Libc.v: library/libc.
    - Timer.v: earth/cpu_timer.c.
    - Boot.v, BootCorrect.v, BootThms.v: earth/earth.c, grass/grass.c, the set-up of
      disk and interrupts and the messages of earth/dev_tty.c, on the state of the
      whole board.  BootDemo.v: a board for the witness.
    - ImageThms.v: from the host's files to the command at the prompt.
    - Start.v (states that every run reaches, and programs that get there), StartThms.v
      (the process server starts the servers and the shell), SystemThms.v (from the
      host's files to the running system): the start-up of the whole system.

    ** What the theorems show

    - Composition: mkfs builds an image with which the system boots to the entry of
      the process server ([image_boots]), from where, under every schedule, the
      servers and the shell are loaded and started ([system_comes_up]), and with
      which every program of [bin/] can be started from the shell, on QEMU
      ([image_command_served]).
    - File system: any sequence of calls on a tree disk gives the results of an
      array of files ([treedisk_refines]), also through the driver and the card's
      protocol from power-up ([sd_file_system]); create makes an empty file
      system; the file system never touches the boot area of the SD card.
    - Kernel: every interrupt handler returns to exactly one running process, in
      its address space and with its saved context, and keeps all other contexts
      ([trap_entry_inv]), so that a process gets back what it had after any number of
      traps of others ([context_given_back]); the process table stays well formed
      under all functions of process.c ([process_table_typed]); a
      process that can run is chosen within 16 decisions; messages arrive
      unchanged, and a waiting receiver gets its message at the next external
      interrupt; a system call is a sequence of steps of the network
      ([proc_syscall_refines]), so that what is proved of the network under every
      schedule holds of the kernel's.
    - Context switches: the registers that a trap saves on the stack of a process are
      restored after other processes have used the same memory
      ([context_roundtrip], [registers_survive]).
    - Memory: processes have private memory, whatever is cached, evicted or
      switched ([address_spaces_private]); with page tables the processor
      translates exactly the memory map; programs are loaded as their files say.
    - Servers, shell and applications: a command line is served under every
      schedule, on QEMU ([shell_command_served]); lookups return what the search in the
      text of the directory finds;
      line editing and splitting into words; [cd], [ls] and [cat] do what they say.
    - Tty: under any interleaving of calls and interrupts, what is accepted for
      output is sent in order, and reads are first in first out
      ([tty_trace_refines]); a character that arrives while 128 are unread replaces
      the oldest one, so input can be lost, but not while it finds room.  The
      buffers are never left, even with the arguments the system calls let through.
    - Timer and heap: the clock is read at one instant, no interrupt is raised
      early; heap requests of non-negative sizes stay below the limit up to the
      store that is to stop the program ([sbrk_within_heap]).
    - Where the code does something else than it means to, a theorem says when: a
      system call can be lost ([syscall_lost]); two clients of the file server, or
      [killall], can leave a message in the kernel's buffer that nobody takes, after
      which nobody sends or receives any more ([file_server_deadlock],
      [killall_deadlock]); a number is found as a name in a directory where it is
      an inode number ([dir_lookup_served]).

    ** Bounds and fuel

    Tree depth: six rounds of [levels_loop] are enough, because 128^5 is more
    than 2^32 ([levels] is proved to give a tree that holds every offset).  The
    free list loop has as many rounds as blocks.  Tty loops that wait for the
    device get the number of polls the device promises at most ([tx_wait_max],
    [rx_ready]) and are shown to return; so do the loops that wait for the SPI
    controller and the card ([patient]) and, at boot, for the user ([set_up]: the
    question is answered within the given number of keys).  [proc_yield] may have
    to wait for an interrupt for ever; the number of times it may wake up is an
    argument, and a theorem that it returns holds for any number, also 0, if some
    process can run.  The message loops of the servers have a number of requests
    they may still take; the theorems hold for any number that is enough for the
    requests they are about, which they state.  [mtime_get] needs two rounds.

    ** What is not modelled

    The linker scripts; earth/bus_gpio.c, whose functions are inside a comment; the
    thread and semaphore functions of apps/user/ult.c, which are left to students and
    have no body, with the producer and the consumer that would call them and that
    [main] does not start.  The tables of
    function pointers in [struct earth] and [struct grass] are not data of the
    model: a call through them is a call of the function installed there.  The
    formatting of [printf] is not modelled: at boot a message is its final text,
    and in user programs it is a format and its arguments.  Progress messages of
    the loader, of mkfs and of the SD card driver, and the loops of [sd_reset] and of
    [clock] that only count to pass the time, are left out.  Interrupts arrive while user code runs,
    as the hardware is set up to do; server code that calls kernel functions
    directly is atomic here.  The
    instructions of compiled programs are not modelled: a process that is given the
    pages of a server's executable is from then on the model of that server
    ([server_programs], by its pid), and user processes are stepped by their models in
    the theorems about them.  Machine.v, on which the witnesses of the kernel run, has
    ideal memory for each process; that the software TLB behaves like that is
    [address_spaces_private]. *)

From stdpp Require Export base gmap list strings.
From Stdlib Require Export ZArith Lia.

#[global] Open Scope Z_scope.

(** ** Outcomes of C code

    A C function is modelled by a function from the state it can touch to an
    outcome.  [Ret] is a normal return.  [Fatal] is a call to [FATAL] (or to
    [panic] of library/file/file.c), which prints and then never returns.
    [Undef] is undefined behaviour of C: an access outside an array, or the use
    of a value that was never set.  [Spin] is a loop that used up the
    iterations it was given. *)

Inductive outcome (S A : Type) : Type :=
| Ret (a : A) (s : S)
| Fatal (why : string) (s : S)
| Undef (why : string)
| Spin.
Arguments Ret {S A} a s.
Arguments Fatal {S A} why s.
Arguments Undef {S A} why.
Arguments Spin {S A}.

Definition M (S A : Type) : Type := S → outcome S A.

#[export] Instance M_ret {S} : MRet (M S) := λ A a s, Ret a s.
#[export] Instance M_bind {S} : MBind (M S) := λ A B k m s,
  match m s with
  | Ret a s' => k a s'
  | Fatal w s' => Fatal w s'
  | Undef w => Undef w
  | Spin => Spin
  end.

Definition fatal {S A} (why : string) : M S A := λ s, Fatal why s.
Definition undef {S A} (why : string) : M S A := λ _, Undef why.
Definition spin {S A} : M S A := λ _, Spin.
Definition gets {S A} (f : S → A) : M S A := λ s, Ret (f s) s.
Definition modify {S} (f : S → S) : M S unit := λ s, Ret tt (f s).

(** Accesses to a C array; outside it they are undefined. *)
Definition arr_get {S A} (l : list A) (i : Z) : M S A :=
  if i <? 0 then undef "array index"
  else match l !! Z.to_nat i with Some x => mret x | None => undef "array index" end.
Definition arr_set {S A} (l : list A) (i : Z) (x : A) : M S (list A) :=
  if (0 <=? i) && (i <? Z.of_nat (length l)) then mret (<[Z.to_nat i:=x]> l)
  else undef "array index".

(** Code that runs in the monad [T], which has steps on a state [S] among others. *)
Class Lift (S : Type) (T : Type → Type) := lift : ∀ {A : Type}, M S A → T A.
#[export] Instance lift_self {S} : Lift S (M S) := λ A m, m.

Section outcome_lemmas.
Context {S A B : Type}.

Lemma bind_ret_eq (m : M S A) (k : A → M S B) s a s' :
  m s = Ret a s' → (m ≫= k) s = k a s'.
Proof. intros H. unfold mbind, M_bind. by rewrite H. Qed.

Lemma bind_fatal_eq (m : M S A) (k : A → M S B) s w s' :
  m s = Fatal w s' → (m ≫= k) s = Fatal w s'.
Proof. intros H. unfold mbind, M_bind. by rewrite H. Qed.

(** A bind that returned went through a return of its first half. *)
Lemma bind_ret_inv (m : M S A) (k : A → M S B) s b s' :
  (m ≫= k) s = Ret b s' → ∃ a s1, m s = Ret a s1 ∧ k a s1 = Ret b s'.
Proof. unfold mbind, M_bind. destruct (m s); naive_solver. Qed.

Lemma gets_bind (f : S → A) (k : A → M S B) s : (gets f ≫= k) s = k (f s) s.
Proof. done. Qed.
Lemma modify_bind (f : S → S) (k : unit → M S B) s : (modify f ≫= k) s = k tt (f s).
Proof. done. Qed.
Lemma mret_bind (a : A) (k : A → M S B) s : (mret a ≫= k) s = k a s.
Proof. done. Qed.

Lemma arr_get_eq `{!Inhabited A} (l : list A) i s :
  0 ≤ i < Z.of_nat (length l) → arr_get (S := S) l i s = Ret (l !!! Z.to_nat i) s.
Proof.
  intros Hi. unfold arr_get. rewrite (proj2 (Z.ltb_ge _ _)) by lia.
  by rewrite list_lookup_lookup_total_lt by lia.
Qed.

Lemma arr_set_eq (l : list A) i x s :
  0 ≤ i < Z.of_nat (length l) → arr_set (S := S) l i x s = Ret (<[Z.to_nat i:=x]> l) s.
Proof.
  intros Hi. unfold arr_set. by rewrite (proj2 (Z.leb_le _ _)), (proj2 (Z.ltb_lt _ _)) by lia.
Qed.
End outcome_lemmas.

(** [mrun H] runs the first statement of the goal's program, whose outcome is
    given by [H : m s = Ret a s'] (or [Fatal]). *)
Ltac mrun H :=
  first [ erewrite (bind_ret_eq _ _ _ _ _ H)
        | erewrite (bind_fatal_eq _ _ _ _ _ H) ]; cbv beta iota.

(** [mstep] runs first statements that only look at the state or change it. *)
Ltac mstep := repeat first [rewrite gets_bind | rewrite modify_bind | rewrite mret_bind]; cbv beta iota.

(** [returns m s Q]: run in [s], [m] returns, with a result and a state that
    satisfy [Q]. *)
Definition returns {S A} (m : M S A) (s : S) (Q : A → S → Prop) : Prop :=
  ∃ a s', m s = Ret a s' ∧ Q a s'.

Section returns_lemmas.
Context {S A B : Type}.

Lemma returns_ret (a : A) (s : S) (Q : A → S → Prop) : Q a s → returns (mret a) s Q.
Proof. intros HQ. by exists a, s. Qed.

Lemma returns_bind (m : M S A) (k : A → M S B) s (Q : B → S → Prop) :
  returns m s (λ a s', returns (k a) s' Q) → returns (m ≫= k) s Q.
Proof. intros (a & s1 & E1 & b & s2 & E2 & HQ). exists b, s2. by rewrite (bind_ret_eq _ _ _ _ _ E1). Qed.

Lemma returns_mono (m : M S A) s (P Q : A → S → Prop) :
  returns m s P → (∀ a s', P a s' → Q a s') → returns m s Q.
Proof. intros (a & s' & E & HP) HPQ. exists a, s'. auto. Qed.

Lemma returns_and (m : M S A) s (P Q : A → S → Prop) :
  returns m s P → returns m s Q → returns m s (λ a s', P a s' ∧ Q a s').
Proof.
  intros (a & s' & E & HP) (a' & s1 & E' & HQ). rewrite E in E'. injection E' as <- <-.
  by exists a, s'.
Qed.

(** For what may also end in another way. *)
Lemma run_bind (m : M S A) (k : A → M S B) s (P : A → S → Prop) (R : outcome S B → Prop) :
  returns m s P → (∀ a s', P a s' → R (k a s')) → R ((m ≫= k) s).
Proof. intros (a & s' & E & HP) HR. rewrite (bind_ret_eq _ _ _ _ _ E). auto. Qed.

Lemma returns_gets (f : S → A) s (Q : A → S → Prop) : Q (f s) s → returns (gets f) s Q.
Proof. intros HQ. by exists (f s), s. Qed.

Lemma returns_modify (f : S → S) s (Q : unit → S → Prop) : Q tt (f s) → returns (modify f) s Q.
Proof. intros HQ. by exists tt, (f s). Qed.
End returns_lemmas.

(** Goes through binds, reads and writes of a program. *)
Ltac rstep :=
  repeat first
    [ apply returns_gets; cbv beta
    | apply returns_modify; cbv beta
    | apply returns_ret; cbv beta
    | apply returns_bind ].

(** Runs the first statement of a program by a lemma about what it returns. *)
Tactic Notation "rcall" tactic3(t) :=
  apply returns_bind; eapply returns_mono; [t|cbv beta].

(** ** Machine integers *)

Definition u32 (z : Z) : Z := z mod 2 ^ 32.
Definition s32 (z : Z) : Z := (z + 2 ^ 31) mod 2 ^ 32 - 2 ^ 31.
Definition is_u32 (z : Z) : Prop := 0 ≤ z < 2 ^ 32.
Definition is_s32 (z : Z) : Prop := - 2 ^ 31 ≤ z < 2 ^ 31.

Create HintDb egos.

Lemma u32_range z : is_u32 (u32 z).
Proof. unfold is_u32, u32. by apply Z.mod_pos_bound. Qed.

Lemma u32_small z : is_u32 z → u32 z = z.
Proof. intros H. by apply Z.mod_small. Qed.

(** A number below a multiple of a power of two. *)
Lemma lor_low k h l : 0 ≤ k → 0 ≤ l < 2 ^ k → Z.lor (h * 2 ^ k) l = h * 2 ^ k + l.
Proof.
  intros Hk Hl. symmetry. apply Z.add_nocarry_lor.
  apply Z.bits_inj'. intros n Hn. rewrite Z.land_spec, Z.bits_0.
  destruct (decide (n < k)) as [Hlt|Hge].
  - by rewrite Z.mul_pow2_bits_low.
  - rewrite andb_false_iff. right. rewrite <-(Z.mod_small l (2 ^ k)) by done.
    apply Z.mod_pow2_bits_high. lia.
Qed.

Lemma s32_small z : is_s32 z → s32 z = z.
Proof. unfold is_s32, s32. intros H. rewrite Z.mod_small; lia. Qed.

(** An [int] that was kept as 32 bits. *)
Lemma s32_u32 z : is_s32 z → s32 (u32 z) = z.
Proof.
  intros H. rewrite <-(s32_small z H) at 2. unfold s32, u32. by rewrite Zplus_mod_idemp_l.
Qed.

#[export] Hint Resolve u32_range : egos.

(** ** Lists *)

Lemma list_delete_insert {A} (l : list A) i y : delete i (<[i:=y]> l) = delete i l.
Proof.
  revert i. induction l as [|a l IH]; intros [|i]; simpl; [done..|].
  f_equal. apply IH.
Qed.

(** Two lists of the same shape that differ in one element: the elements
    produced from it are exchanged. *)
Lemma bind_insert_perm {A B} (f : A → list B) (l : list A) i x y :
  l !! i = Some x → (<[i:=y]> l ≫= f) ++ f x ≡ₚ (l ≫= f) ++ f y.
Proof.
  intros Hi.
  rewrite (delete_Permutation l i x Hi) at 2.
  assert (Hi' : <[i:=y]> l !! i = Some y).
  { apply list_lookup_insert_eq. by eapply lookup_lt_Some. }
  rewrite (delete_Permutation (<[i:=y]> l) i y Hi').
  rewrite list_delete_insert. simpl. rewrite <-!(assoc_L app).
  rewrite (Permutation_app_comm (f y)), (Permutation_app_comm (f x)).
  rewrite <-!(assoc_L app). by rewrite (Permutation_app_comm (f x)).
Qed.

Lemma bind_perm_split {A B} (f : A → list B) (l : list A) i x :
  l !! i = Some x → l ≫= f ≡ₚ f x ++ (delete i l ≫= f).
Proof. intros Hi. by rewrite (delete_Permutation l i x Hi) at 1. Qed.

Lemma bind_ext_in {A B} (f g : A → list B) (l : list A) :
  (∀ x, x ∈ l → f x = g x) → l ≫= f = l ≫= g.
Proof.
  induction l as [|a l IH]; intros H; [done|].
  csimpl. f_equal; [apply H; set_solver|apply IH; set_solver].
Qed.

Lemma elem_of_delete_ne {A} (l : list A) i j x :
  l !! j = Some x → i ≠ j → x ∈ delete i l.
Proof.
  revert i j. induction l as [|a l IH]; intros i j Hj Hij; [done|].
  destruct i as [|i], j as [|j]; simpl in *; simplify_eq; [..|].
  - by apply list_elem_of_lookup_2 in Hj.
  - left.
  - right. eapply IH; [done|lia].
Qed.

Lemma bind_replicate_nil {A B} (f : A → list B) n x :
  f x = [] → replicate n x ≫= f = [].
Proof. intros Hf. induction n as [|n IH]; [done|]. simpl. by rewrite Hf. Qed.

Lemma list_filter_all {A} (P : A → Prop) `{∀ x, Decision (P x)} (l : list A) :
  Forall P l → filter P l = l.
Proof. induction 1 as [|x l Hx _ IH]; [done|]. by rewrite filter_cons_True, IH. Qed.

Lemma list_filter_none {A} (P : A → Prop) `{∀ x, Decision (P x)} (l : list A) :
  Forall (λ x, ¬ P x) l → filter P l = [].
Proof. induction 1 as [|x l Hx _ IH]; [done|]. by rewrite filter_cons_False, IH. Qed.

(** Lists related to themselves after one element changed. *)
Lemma Forall2_insert_self {A} (R : A → A → Prop) `{!Reflexive R} (l : list A) i x y :
  l !! i = Some x → R x y → Forall2 R l (<[i:=y]> l).
Proof.
  intros Hi HR. apply Forall2_same_length_lookup. split; [by rewrite length_insert|].
  intros j a b Ha Hb. apply list_lookup_insert_Some in Hb as [(-> & -> & _)|[_ Hb]];
    simplify_eq; [done|reflexivity].
Qed.

Lemma list_alter_as_insert {A} (f : A → A) (l : list A) i x :
  l !! i = Some x → alter f i l = <[i:=f x]> l.
Proof.
  intros Hi. apply list_eq. intros j. destruct (decide (i = j)) as [<-|Hne].
  - rewrite list_lookup_alter_eq, list_lookup_insert_eq by (by eapply lookup_lt_Some). by rewrite Hi.
  - by rewrite list_lookup_alter_ne, list_lookup_insert_ne.
Qed.
