(* ===== verification/Layout.v ===== *)
(** * Constants of the memory and disk layout

    library/file/disk.h, library/file/file.h, library/egos.h,
    library/servers/servers.h, library/character.h and the enumerations of
    grass/process.h and grass/syscall.h.  The disk macros are written as the
    header writes them (without the parentheses it leaves out), at their C
    precedence. *)

From S2P Require Import Prelude.

(** ** Disk layout (library/file/disk.h) *)

Definition BLOCK_SIZE : Z := 512.
Definition PAGING_DEV_SIZE : Z := 1024 * 1024.
Definition GRASS_NEXEC : Z := 8.
Definition GRASS_EXEC_SIZE : Z := 1024 * 1024.
Definition FS_DISK_SIZE : Z := 1024 * 1024 * 2.
Definition GRASS_EXEC_SEGMENT : Z := GRASS_EXEC_SIZE / GRASS_NEXEC / BLOCK_SIZE.

Definition GRASS_EXEC_START : Z := PAGING_DEV_SIZE / BLOCK_SIZE.
Definition SYS_PROC_EXEC_START : Z := GRASS_EXEC_START + GRASS_EXEC_SEGMENT.
Definition SYS_FILE_EXEC_START : Z := GRASS_EXEC_START + GRASS_EXEC_SEGMENT * 2.
Definition SYS_DIR_EXEC_START : Z := GRASS_EXEC_START + GRASS_EXEC_SEGMENT * 3.
Definition SYS_SHELL_EXEC_START : Z := GRASS_EXEC_START + GRASS_EXEC_SEGMENT * 4.
Definition GRASS_FS_START : Z := (PAGING_DEV_SIZE + GRASS_EXEC_SIZE) / BLOCK_SIZE.

(** ** The tree file system (library/file/file.h, library/file/inode.h) *)

(** [sizeof(block_no)] and [sizeof(struct treedisk_inode)] on the 32-bit target. *)
Definition REFS_PER_BLOCK : Z := BLOCK_SIZE / 4.
Definition INODES_PER_BLOCK : Z := BLOCK_SIZE / 8.
Definition NINODES : Z := 128.

(** ** Memory layout (library/egos.h) *)

Definition PAGE_SIZE : Z := 4096.
Definition FRAME_CACHE_END : Z := 0x80020000.
Definition FRAME_CACHE_START : Z := 0x80004000.
Definition GRASS_STACK_TOP : Z := 0x80003f80.
Definition GRASS_STACK_SIZE : Z := 0x00001f80.
Definition APPS_STACK_TOP : Z := 0x80002000.
Definition SYSCALL_ARG : Z := 0x80000400.
Definition APPS_ARG : Z := 0x80000000.
Definition APPS_SIZE : Z := 0x00003000.
Definition APPS_ENTRY : Z := 0x08005000.
Definition GRASS_SIZE : Z := 0x00002800.
Definition GRASS_ENTRY : Z := 0x08002800.
Definition DEV_BUFF_SIZE : Z := 128.

Definition RET_SUCCESS : Z := 0.
Definition RET_FAIL : Z := -1.
Definition RET_ERR : Z := -2.
(** library/character.h *)
Definition RET_SPECIAL_CHAR : Z := -3.
Definition SPECIAL_CTRL_C : Z := 3.

(** ** Servers and messages (library/servers/servers.h) *)

Definition SYSCALL_MSG_LEN : Z := 1024.
Definition CMD_NARGS : Z := 16.
Definition CMD_ARG_LEN : Z := 32.
Definition DIR_NAME_SIZE : Z := 32.

Definition GPID_UNUSED : Z := 0.
Definition GPID_PROCESS : Z := 1.
Definition GPID_FILE : Z := 2.
Definition GPID_DIR : Z := 3.
Definition GPID_SHELL : Z := 4.
Definition GPID_USER_START : Z := 5.

Definition PROC_SPAWN : Z := 0.
Definition PROC_EXIT : Z := 1.
Definition PROC_KILLALL : Z := 2.
Definition CMD_OK : Z := 0.
Definition CMD_ERROR : Z := 1.
Definition FILE_UNUSED : Z := 0.
Definition FILE_READ : Z := 1.
Definition FILE_WRITE : Z := 2.
Definition FILE_OK : Z := 0.
Definition FILE_ERROR : Z := 1.
Definition DIR_UNUSED : Z := 0.
Definition DIR_LOOKUP : Z := 1.
Definition DIR_INSERT : Z := 2.
Definition DIR_REMOVE : Z := 3.
Definition DIR_OK : Z := 0.
Definition DIR_ERROR : Z := 1.

(** ** Process states and system calls (grass/process.h, grass/syscall.h) *)

Definition MAX_NPROCESS : Z := 16.

Inductive proc_status :=
| PROC_UNUSED | PROC_LOADING | PROC_READY | PROC_RUNNING
| PROC_RUNNABLE | PROC_REQUESTING | PROC_ZOMBIE.

#[export] Instance proc_status_eq_dec : EqDecision proc_status.
Proof. solve_decision. Defined.

Definition SYS_UNUSED : Z := 0.
Definition SYS_RECV : Z := 1.
Definition SYS_SEND : Z := 2.
Definition TTY_READ : Z := 3.
Definition TTY_WRITE : Z := 4.
