(* ===== verification/Blocks.v ===== *)
(** * Disk blocks as bytes and as words

    A [block_t] of library/file/disk.h is 512 bytes.  The union
    [treedisk_block] of library/file/file.h overlays it with arrays of 32-bit
    little-endian words: [words_of_block] and [block_of_words] are the two
    directions of that reinterpretation, [get_word] and [set_word] an access
    to one field through it. *)

From coqutil Require Import Byte Word.LittleEndianList.
From S2P Require Import Prelude Layout.

Abbreviation byte := Init.Byte.byte.
Abbreviation block := (list byte).

(** The number of bytes, and of words, of a block. *)
Definition nbytes : nat := Z.to_nat BLOCK_SIZE.
Definition nrefs : nat := Z.to_nat REFS_PER_BLOCK.

Definition wf_block (b : block) : Prop := length b = nbytes.

(** A block filled with null bytes ([memset(block, 0, BLOCK_SIZE)]). *)
Definition null_block : block := replicate nbytes Byte.x00.

Fixpoint words_of_bytes (l : list byte) : list Z :=
  match l with
  | b0 :: b1 :: b2 :: b3 :: l => le_combine [b0; b1; b2; b3] :: words_of_bytes l
  | _ => []
  end.

Definition words_of_block (b : block) : list Z := words_of_bytes b.
Definition block_of_words (ws : list Z) : block := ws ≫= le_split 4.

Definition get_word (b : block) (i : nat) : Z := words_of_block b !!! i.
Definition set_word (b : block) (i : nat) (v : Z) : block :=
  block_of_words (<[i:=v]> (words_of_block b)).

(** ** The two views are inverse *)

Lemma le_split_4 w : ∃ b0 b1 b2 b3, le_split 4 w = [b0; b1; b2; b3].
Proof.
  pose proof (length_le_split 4 w) as H.
  destruct (le_split 4 w) as [|b0 [|b1 [|b2 [|b3 [|]]]]]; try done; eauto.
Qed.

Lemma words_of_block_of_words ws :
  Forall is_u32 ws → words_of_bytes (block_of_words ws) = ws.
Proof.
  unfold block_of_words. induction ws as [|w ws IH]; intros H; [done|].
  inversion_clear H as [|?? Hw Hws]. rewrite bind_cons.
  destruct (le_split_4 w) as (b0 & b1 & b2 & b3 & E). rewrite E. simpl.
  rewrite IH by done. f_equal. rewrite <-E, le_combine_split. by apply u32_small.
Qed.

Lemma words_of_bytes_length n l :
  length l = (4 * n)%nat → length (words_of_bytes l) = n.
Proof.
  revert l. induction n as [|n IH]; intros l H.
  - by destruct l.
  - destruct l as [|b0 [|b1 [|b2 [|b3 l]]]]; simpl in *; try lia.
    f_equal. apply IH. lia.
Qed.

Lemma words_of_bytes_u32 l : Forall is_u32 (words_of_bytes l).
Proof.
  remember (length l) as n eqn:Hn. revert l Hn.
  induction (lt_wf n) as [n _ IH]. intros l ->.
  destruct l as [|b0 [|b1 [|b2 [|b3 l]]]]; simpl; try constructor.
  - apply (le_combine_bound [b0; b1; b2; b3]).
  - eapply IH; [|done]. simpl. lia.
Qed.

Lemma block_of_words_of_bytes n l :
  length l = (4 * n)%nat → block_of_words (words_of_bytes l) = l.
Proof.
  revert l. induction n as [|n IH]; intros l H.
  - by destruct l.
  - destruct l as [|b0 [|b1 [|b2 [|b3 l]]]]; simpl in H; try lia.
    unfold block_of_words in *. cbn [words_of_bytes].
    rewrite bind_cons, IH by lia.
    change (le_split 4 (le_combine [b0; b1; b2; b3]))
      with (le_split (length [b0; b1; b2; b3]) (le_combine [b0; b1; b2; b3])).
    by rewrite split_le_combine.
Qed.

Lemma block_of_words_length ws : length (block_of_words ws) = (4 * length ws)%nat.
Proof.
  unfold block_of_words. induction ws as [|w ws IH]; [done|].
  rewrite bind_cons, length_app, length_le_split, IH. simpl. lia.
Qed.

Lemma words_of_block_length b : wf_block b → length (words_of_block b) = nrefs.
Proof. intros H. by apply words_of_bytes_length. Qed.

Lemma wf_block_of_words ws : length ws = nrefs → wf_block (block_of_words ws).
Proof. intros H. unfold wf_block. by rewrite block_of_words_length, H. Qed.

Lemma wf_null_block : wf_block null_block.
Proof. done. Qed.

(** ** Access to one word *)

Lemma get_word_u32 b i : is_u32 (get_word b i).
Proof.
  unfold get_word, words_of_block. rewrite list_lookup_total_alt.
  destruct (words_of_bytes b !! i) as [w|] eqn:E; simpl; [|done].
  eapply Forall_lookup_1; [apply words_of_bytes_u32|done].
Qed.

Lemma words_lookup b i :
  wf_block b → (i < nrefs)%nat → words_of_block b !! i = Some (get_word b i).
Proof.
  intros Hb Hi. apply list_lookup_lookup_total_lt. by rewrite words_of_block_length.
Qed.

Lemma words_of_set_word b i v :
  is_u32 v → words_of_block (set_word b i v) = <[i:=v]> (words_of_block b).
Proof.
  intros Hv. unfold words_of_block at 1, set_word. apply words_of_block_of_words.
  apply Forall_insert; [apply words_of_bytes_u32|done].
Qed.

Lemma wf_set_word b i v : wf_block b → wf_block (set_word b i v).
Proof.
  intros Hb. apply wf_block_of_words. by rewrite length_insert, words_of_block_length.
Qed.

Lemma get_set_word_eq b i v :
  wf_block b → (i < nrefs)%nat → is_u32 v → get_word (set_word b i v) i = v.
Proof.
  intros Hb Hi Hv. unfold get_word. rewrite words_of_set_word by done.
  apply list_lookup_total_insert_eq. by rewrite words_of_block_length.
Qed.

Lemma get_set_word_ne b i j v :
  is_u32 v → i ≠ j → get_word (set_word b i v) j = get_word b j.
Proof.
  intros Hv Hij. unfold get_word. rewrite words_of_set_word by done.
  by apply list_lookup_total_insert_ne.
Qed.

Lemma set_word_id b i :
  wf_block b → (i < nrefs)%nat → set_word b i (get_word b i) = b.
Proof.
  intros Hb Hi. unfold set_word. rewrite list_insert_id by by apply words_lookup.
  by apply (block_of_words_of_bytes nrefs).
Qed.

Lemma set_set_word b i v w :
  is_u32 v → set_word (set_word b i v) i w = set_word b i w.
Proof.
  intros Hv. unfold set_word at 1 3. rewrite words_of_set_word by done.
  by rewrite list_insert_insert_eq.
Qed.

Lemma nrefs_eq : nrefs = 128%nat.
Proof. done. Qed.

(** Side conditions of the word lemmas: ranges of indices and of words, and
    sizes of blocks. *)
Ltac word_side :=
  first [ done | apply get_word_u32 | by apply wf_set_word
        | rewrite ?nrefs_eq in *; unfold is_u32 in *; lia ].

Lemma words_of_null_block : words_of_block null_block = replicate nrefs 0.
Proof. vm_compute. reflexivity. Qed.

Lemma get_word_null i : (i < nrefs)%nat → get_word null_block i = 0.
Proof.
  intros Hi. unfold get_word. rewrite words_of_null_block.
  by apply lookup_total_replicate_2.
Qed.

#[export] Hint Resolve get_word_u32 wf_set_word wf_null_block : egos.

(** ** Bytes in a buffer *)

(** The buffer with the bytes [bs] at offset [o]. *)
Definition overwrite (x : list byte) (o : nat) (bs : list byte) : list byte :=
  take o x ++ bs ++ drop (o + length bs) x.

Lemma overwrite_length x o bs :
  (o + length bs ≤ length x)%nat → length (overwrite x o bs) = length x.
Proof. intros H. unfold overwrite. rewrite !length_app, length_take, length_drop. lia. Qed.

Lemma overwrite_lookup x o bs i :
  (o + length bs ≤ length x)%nat →
  overwrite x o bs !! i = if decide (o ≤ i < o + length bs)%nat then bs !! (i - o)%nat else x !! i.
Proof.
  intros H. unfold overwrite. case_decide as Hi.
  - rewrite lookup_app_r by (rewrite length_take; lia).
    rewrite length_take, Nat.min_l by lia. by rewrite lookup_app_l by lia.
  - destruct (decide (i < o)%nat).
    + rewrite lookup_app_l by (rewrite length_take; lia). by rewrite lookup_take_lt by lia.
    + rewrite lookup_app_r by (rewrite length_take; lia). rewrite length_take, Nat.min_l by lia.
      rewrite lookup_app_r by lia. rewrite lookup_drop. f_equal. lia.
Qed.

Lemma overwrite_nil x o : overwrite x o [] = x.
Proof. unfold overwrite. simpl. by rewrite Nat.add_0_r, take_drop. Qed.

(** [n] bytes from offset [o] on, after a write elsewhere or right there. *)
Definition bytes_at (x : list byte) (o n : nat) : list byte := take n (drop o x).

Lemma bytes_at_other x o bs o' n :
  (o + length bs ≤ length x)%nat → (o' + n ≤ o ∨ o + length bs ≤ o')%nat →
  bytes_at (overwrite x o bs) o' n = bytes_at x o' n.
Proof.
  intros H Hd. unfold bytes_at. apply list_eq. intros k.
  destruct (decide (k < n)%nat) as [Hk|Hk]; [|by rewrite !lookup_take_ge by lia].
  rewrite !lookup_take_lt, !lookup_drop, overwrite_lookup by done. by rewrite decide_False by lia.
Qed.

Lemma bytes_at_same x o bs :
  (o + length bs ≤ length x)%nat → bytes_at (overwrite x o bs) o (length bs) = bs.
Proof.
  intros H. unfold bytes_at, overwrite. rewrite drop_app_length' by (rewrite length_take; lia).
  by rewrite take_app_length.
Qed.
