(* ===== verification/Store.v ===== *)
(** * Inode stores

    [inode_store_t] of library/file/inode.h: a record of four operations on a
    state.  The C methods take a pointer to the caller's block, so [read] takes
    the old contents of that buffer and returns the new ones beside its return
    code.  [BlockStore] is what a module stacked on a store relies on: one
    inode of the store is an array of [N] blocks.  The instances for the two
    physical stores of the program (the ramdisk of tools/mkfs.c and the disk of
    library/file/disk.c) are in Ramdisk.v and FsDisk.v; Treedisk.v is proved
    against the class. *)

From S2P Require Import Prelude Layout Blocks.

Record inode_store (S : Type) := InodeStore {
  getsize : Z → M S Z;
  setsize : Z → Z → M S Z;
  read : Z → Z → block → M S (Z * block);
  write : Z → Z → block → M S Z;
}.
Arguments InodeStore {S} _ _ _ _.
Arguments getsize {S} _ _.
Arguments setsize {S} _ _ _.
Arguments read {S} _ _ _ _.
Arguments write {S} _ _ _ _.

(** The contents of an inode, as a map from block numbers to blocks; all
    blocks below [N] are there and have the right size. *)
Definition disk_wf (N : Z) (d : gmap Z block) : Prop :=
  ∀ b, 0 ≤ b < N → wf_block (d !!! b).

Class BlockStore {S} (st : inode_store S) (ino : Z) (N : Z) := {
  holds : S → gmap Z block → Prop;
  holds_wf s d : holds s d → disk_wf N d;
  getsize_spec s d : holds s d →
    ∃ s', getsize st ino s = Ret N s' ∧ holds s' d;
  read_spec s d b buf : holds s d → 0 ≤ b < N →
    ∃ s', read st ino b buf s = Ret (0, d !!! b) s' ∧ holds s' d;
  write_spec s d b blk : holds s d → 0 ≤ b < N → wf_block blk →
    ∃ s', write st ino b blk s = Ret 0 s' ∧ holds s' (<[b:=blk]> d);
}.

Lemma disk_wf_insert N d b blk :
  disk_wf N d → wf_block blk → disk_wf N (<[b:=blk]> d).
Proof.
  intros Hd Hb x Hx. destruct (decide (b = x)) as [->|Hne].
  - by rewrite lookup_total_insert_eq.
  - rewrite lookup_total_insert_ne by done. by apply Hd.
Qed.

#[export] Hint Resolve disk_wf_insert : egos.
