(* ===== verification/Treedisk.v ===== *)
(** * The tree file system: the program

    Every function of library/file/file.c.  A treedisk is an inode store that
    keeps many inodes inside one inode of the store below it.  C structures
    overlaid on a block ([union treedisk_block]) are read and written through
    the word view of Blocks.v:

    - the superblock is words 0 ([n_inodeblocks]) and 1 ([free_list]);
    - inode [k] of an inode block is words [2k] ([root]) and [2k+1]
      ([nblocks]);
    - an indirect or a freelist block is its array of references.

    Pointers into a block ([snapshot->inode], [parent_no]) are word indices
    into the block they point into.  Automatic variables that C leaves
    uninitialised start with the arbitrary contents [uninit].  The counter
    [count] of [treedisk_alloc_block] is written and never read, and is left
    out. *)

From S2P Require Import Prelude Layout Blocks Store.

Record treedisk_snapshot := Snapshot {
  superblock : block;
  inodeblock : block;
  inode_blockno : Z;
  inode : nat;              (* index of the inode in [inodeblock] *)
}.

Record treedisk_state (S : Type) := TreediskState {
  below : inode_store S;
  below_ino : Z;
  ninodes : Z;
}.
Arguments TreediskState {S} _ _ _.
Arguments below {S} _.
Arguments below_ino {S} _.
Arguments ninodes {S} _.

(** ** Fields of the overlaid structures *)

Definition n_inodeblocks (sb : block) : Z := get_word sb 0.
Definition free_list (sb : block) : Z := get_word sb 1.
Definition set_free_list (sb : block) (b : Z) : block := set_word sb 1 b.

Definition root_idx (k : nat) : nat := (2 * k)%nat.
Definition nblocks_idx (k : nat) : nat := (2 * k + 1)%nat.

Definition inode_root (sn : treedisk_snapshot) : Z :=
  get_word (inodeblock sn) (root_idx (inode sn)).
Definition inode_nblocks (sn : treedisk_snapshot) : Z :=
  get_word (inodeblock sn) (nblocks_idx (inode sn)).

Definition with_superblock (sn : treedisk_snapshot) (b : block) :=
  Snapshot b (inodeblock sn) (inode_blockno sn) (inode sn).
Definition with_inodeblock (sn : treedisk_snapshot) (b : block) :=
  Snapshot (superblock sn) b (inode_blockno sn) (inode sn).
Definition set_inode_root (sn : treedisk_snapshot) (b : Z) :=
  with_inodeblock sn (set_word (inodeblock sn) (root_idx (inode sn)) b).
Definition set_inode_nblocks (sn : treedisk_snapshot) (n : Z) :=
  with_inodeblock sn (set_word (inodeblock sn) (nblocks_idx (inode sn)) n).

(** ** Levels of the tree *)

(** [treedisk_init] computes [log_rpb] once, from 0, with a do-while loop:
    seven rounds, and the fuel is the width of the shifted number. *)
Fixpoint log_rpb_loop (fuel : nat) (log : Z) : Z :=
  match fuel with
  | O => log
  | S fuel =>
      let log := log + 1 in
      if Z.shiftr (REFS_PER_BLOCK - 1) log =? 0 then log else log_rpb_loop fuel log
  end.
Definition log_rpb : Z := log_rpb_loop 32 0.

Definition log_shift_r (x nbits : Z) : Z :=
  if 4 * 8 <=? nbits then 0 else Z.shiftr x nbits.

(** [while (log_shift_r(x, nlevels * log_rpb) != 0) nlevels++;]  Six rounds
    are enough for any 32-bit [x] (see [count_levels_exit]). *)
Fixpoint levels_loop (fuel : nat) (x : Z) (nlevels : nat) : nat :=
  match fuel with
  | O => nlevels
  | S fuel =>
      if log_shift_r x (Z.of_nat nlevels * log_rpb) =? 0 then nlevels
      else levels_loop fuel x (S nlevels)
  end.
Definition count_levels (x : Z) : nat := levels_loop 6 x 0.

(** The number of levels of a file of [nblocks] blocks. *)
Definition levels (nblocks : Z) : nat :=
  if 0 <? nblocks then count_levels (nblocks - 1) else 0%nat.

(** The index into an indirect block on the way to block [offset], when
    [nlevels] levels remain below it. *)
Definition ref_index (offset : Z) (nlevels : nat) : nat :=
  Z.to_nat (log_shift_r offset (Z.of_nat nlevels * log_rpb) mod REFS_PER_BLOCK).

(** [for (i = REFS_PER_BLOCK; --i > 0;) if (refs[i] != 0) break;] entered with
    the decremented [i]; 0 when no slot above slot 0 is in use. *)
Fixpoint scan_refs (refs : block) (i : nat) : nat :=
  match i with
  | O => O
  | S i' => if get_word refs i =? 0 then scan_refs refs i' else i
  end.

Section treedisk.
Context {S : Type} (uninit : block).
Implicit Types ts : treedisk_state S.

Definition below_read ts (b : Z) (buf : block) : M S (Z * block) :=
  read (below ts) (below_ino ts) b buf.
Definition below_write ts (b : Z) (blk : block) : M S Z :=
  write (below ts) (below_ino ts) b blk.

(** A write whose failure is a panic. *)
Definition write_or_panic ts (b : Z) (blk : block) (why : string) : M S unit :=
  rc ← below_write ts b blk;
  if rc <? 0 then fatal why else mret tt.

Definition treedisk_get_snapshot ts (inode_no : Z) : M S (option treedisk_snapshot) :=
  '(rc, sb) ← below_read ts 0 uninit;
  if rc <? 0 then mret None
  else if u32 (n_inodeblocks sb * INODES_PER_BLOCK) <=? inode_no then mret None
  else
    let blockno := 1 + inode_no / INODES_PER_BLOCK in
    '(rc, ib) ← below_read ts blockno uninit;
    if rc <? 0 then mret None
    else mret (Some (Snapshot sb ib blockno (Z.to_nat (inode_no mod INODES_PER_BLOCK)))).

Definition treedisk_alloc_block ts (sn : treedisk_snapshot)
    : M S (Z * treedisk_snapshot) :=
  let b := free_list (superblock sn) in
  if b =? 0 then fatal "treedisk_alloc_block: inode store is full"
  else
    '(_, fb) ← below_read ts b uninit;
    match scan_refs fb (nrefs - 1) with
    | O =>
        let sb := set_free_list (superblock sn) (get_word fb 0) in
        _ ← write_or_panic ts 0 sb "treedisk_alloc_block: superblock";
        mret (b, with_superblock sn sb)
    | i =>
        _ ← write_or_panic ts b (set_word fb i 0) "treedisk_alloc_block: freelistblock";
        mret (get_word fb i, sn)
    end.

Definition treedisk_getsize ts (ino : Z) : M S Z :=
  sn ← treedisk_get_snapshot ts ino;
  match sn with
  | None => mret (-1)
  | Some sn => mret (s32 (inode_nblocks sn))
  end.

Definition treedisk_setsize ts (ino nblocks : Z) : M S Z := mret (-1).

(** The [for (;;)] of [treedisk_read]: one round per level. *)
Fixpoint read_walk ts (nlevels : nat) (b offset : Z) (blk : block)
    : M S (Z * block) :=
  if b =? 0 then mret (0, null_block)
  else
    '(result, blk) ← below_read ts b blk;
    if result <? 0 then mret (result, blk)
    else
      match nlevels with
      | O => mret (0, blk)
      | Datatypes.S nlevels =>
          read_walk ts nlevels (get_word blk (ref_index offset nlevels)) offset blk
      end.

Definition treedisk_read ts (ino offset : Z) (blk : block) : M S (Z * block) :=
  sn ← treedisk_get_snapshot ts ino;
  match sn with
  | None => mret (-1, blk)
  | Some sn =>
      if inode_nblocks sn <=? offset then mret (-1, blk)
      else read_walk ts (levels (inode_nblocks sn)) (inode_root sn) offset blk
  end.

(** [while (nlevels_after > nlevels)]: [n] is the difference. *)
Fixpoint grow_levels ts (n : nat) (sn : treedisk_snapshot) : M S treedisk_snapshot :=
  match n with
  | O => mret sn
  | Datatypes.S n =>
      '(indir, sn) ← treedisk_alloc_block ts sn;
      let tib := set_word null_block 0 (inode_root sn) in
      let sn := set_inode_root sn indir in
      _ ← write_or_panic ts indir tib "treedisk_write: indirect block";
      grow_levels ts n sn
  end.

(** "Get or allocate the next block": the reference at word [parent_no] of
    [parent_block], allocated and written to the parent when it is a hole.
    The flag says that it was. *)
Definition next_block ts (sn : treedisk_snapshot) (parent_block : block)
    (parent_no : nat) (parent_off : Z) : M S (Z * bool * treedisk_snapshot) :=
  let b := get_word parent_block parent_no in
  if b =? 0 then
    '(b, sn) ← treedisk_alloc_block ts sn;
    _ ← write_or_panic ts parent_off (set_word parent_block parent_no b)
          "treedisk_write: parent";
    mret (b, true, sn)
  else mret (b, false, sn).

(** The [for (;;)] of [treedisk_write]: the number of the data block. *)
Fixpoint write_walk ts (offset : Z) (nlevels : nat) (sn : treedisk_snapshot)
    (parent_block : block) (parent_no : nat) (parent_off : Z) : M S Z :=
  '(b, fresh, sn) ← next_block ts sn parent_block parent_no parent_off;
  match nlevels with
  | O => mret b
  | Datatypes.S nlevels =>
      tib ← (if fresh : bool then mret null_block
             else '(rc, tib) ← below_read ts b uninit;
                  if rc <? 0 then fatal "treedisk_write" else mret tib);
      write_walk ts offset nlevels sn tib (ref_index offset nlevels) b
  end.

Definition treedisk_write ts (ino offset : Z) (blk : block) : M S Z :=
  sn ← treedisk_get_snapshot ts ino;
  match sn with
  | None => mret (-1)
  | Some sn =>
      let nlevels := levels (inode_nblocks sn) in
      let '(sn, dirty_inode, nlevels_after) :=
        if inode_nblocks sn <=? offset
        then (set_inode_nblocks sn (u32 (offset + 1)), true, count_levels offset)
        else (sn, false, nlevels) in
      '(sn, dirty_inode, nlevels) ←
        (if inode_nblocks sn =? 0 then mret (sn, dirty_inode, nlevels_after)
         else if (nlevels <? nlevels_after)%nat then
           sn ← grow_levels ts (nlevels_after - nlevels) sn;
           mret (sn, true, nlevels_after)
         else mret (sn, dirty_inode, nlevels));
      _ ← (if dirty_inode : bool then
             write_or_panic ts (inode_blockno sn) (inodeblock sn)
               "treedisk_write: inode block"
           else mret tt);
      b ← write_walk ts offset nlevels sn (inodeblock sn) (root_idx (inode sn))
            (inode_blockno sn);
      _ ← write_or_panic ts b blk "treedisk_write: data block";
      mret 0
  end.

Definition treedisk_init (bs : inode_store S) (bino : Z) : inode_store S :=
  let ts := TreediskState bs bino 0 in
  InodeStore (treedisk_getsize ts) (treedisk_setsize ts)
             (treedisk_read ts) (treedisk_write ts).

(** ** Creating a file system *)

(** [for (i = 1; i < REFS_PER_BLOCK && next_free < nblocks; i++)
       freelist_data[i] = next_free++;]
    [n] is [REFS_PER_BLOCK - i]; the loop returns the final [i] as well. *)
Fixpoint fill_refs (n i : nat) (data : list Z) (next_free nblocks : Z)
    : nat * list Z * Z :=
  match n with
  | O => (i, data, next_free)
  | Datatypes.S n =>
      if next_free <? nblocks
      then fill_refs n (Datatypes.S i) (<[i:=next_free]> data) (u32 (next_free + 1)) nblocks
      else (i, data, next_free)
  end.

(** [for (; i < REFS_PER_BLOCK; i++) freelist_data[i] = 0;] *)
Fixpoint zero_refs (n i : nat) (data : list Z) : list Z :=
  match n with
  | O => data
  | Datatypes.S n => zero_refs n (Datatypes.S i) (<[i:=0]> data)
  end.

(** The outer loop of [setup_freelist]: each round takes at least the block
    [freelist_block] itself, so [nblocks - next_free] rounds are enough. *)
Fixpoint setup_freelist_loop (fuel : nat) (bs : inode_store S) (bino : Z)
    (data : list Z) (freelist_block next_free nblocks : Z) : M S Z :=
  if next_free <? nblocks then
    match fuel with
    | O => spin
    | Datatypes.S fuel =>
        let data := <[0%nat:=freelist_block]> data in
        let freelist_block := next_free in
        let '(i, data, next_free) :=
          fill_refs (nrefs - 1) 1 data (u32 (next_free + 1)) nblocks in
        let data := zero_refs (nrefs - i) i data in
        rc ← write bs bino freelist_block (block_of_words data);
        if rc <? 0 then fatal "treedisk_setup_freelist"
        else setup_freelist_loop fuel bs bino data freelist_block next_free nblocks
    end
  else mret freelist_block.

Definition setup_freelist (bs : inode_store S) (bino next_free nblocks : Z) : M S Z :=
  setup_freelist_loop (Z.to_nat (nblocks - next_free)) bs bino
    (words_of_block uninit) 0 next_free nblocks.

(** [for (int i = 1; i <= n_inodeblocks; i++)] writing null blocks. *)
Fixpoint clear_inodes (n : nat) (bs : inode_store S) (bino i : Z) : M S Z :=
  match n with
  | O => mret 0
  | Datatypes.S n =>
      rc ← write bs bino i null_block;
      if rc <? 0 then mret (-1) else clear_inodes n bs bino (i + 1)
  end.

Definition treedisk_create (bs : inode_store S) (bino nino : Z) : M S Z :=
  let n_ib := u32 (nino + INODES_PER_BLOCK - 1) / INODES_PER_BLOCK in
  nblocks ← getsize bs bino;
  let nblocks := u32 nblocks in
  if nblocks <? u32 (n_ib + 2) then mret (-1)
  else
    '(rc, sb) ← read bs bino 0 uninit;
    if rc <? 0 then mret (-1)
    else if n_inodeblocks sb =? 0 then
      fl ← setup_freelist bs bino (n_ib + 1) nblocks;
      let sb := set_free_list (set_word null_block 0 n_ib) fl in
      rc ← write bs bino 0 sb;
      if rc <? 0 then mret (-1)
      else clear_inodes (Z.to_nat n_ib) bs bino 1
    else mret 0.
End treedisk.
