(* ===== verification/Tree.v ===== *)
(** * Trees of blocks and the free list

    The two data structures that library/file/file.c keeps on the disk, read
    off a disk image [d]: the tree of blocks of a file ([tree_blocks],
    [tree_lookup]) and the free list ([free_rep]).  The lemmas are the ones the
    proofs of the file system operations share: what a write to one block does
    to a structure that does not contain it, the arithmetic of the paths
    through a tree, and the allocation of one block. *)

From S2P Require Import Prelude Layout Blocks Store Treedisk.

(** The contents of block [off] of the tree of depth [l] rooted at [b];
    reference 0 is a hole. *)
Fixpoint tree_lookup (d : gmap Z block) (l : nat) (b off : Z) : block :=
  if b =? 0 then null_block
  else match l with
       | O => d !!! b
       | S l => tree_lookup d l (get_word (d !!! b) (ref_index off l)) off
       end.

(** The blocks a tree occupies, indirect and data blocks. *)
Fixpoint tree_blocks (d : gmap Z block) (l : nat) (b : Z) : list Z :=
  if b =? 0 then []
  else match l with
       | O => [b]
       | S l => b :: (words_of_block (d !!! b) ≫= tree_blocks d l)
       end.

(** The number of blocks a write at [off] has to allocate: the part of its
    path that is a hole. *)
Fixpoint tree_need (d : gmap Z block) (l : nat) (b off : Z) : nat :=
  if b =? 0 then S l
  else match l with
       | O => 0
       | S l => tree_need d l (get_word (d !!! b) (ref_index off l)) off
       end.

(** The references of a freelist block, apart from the link in slot 0. *)
Definition free_slots (blk : block) : list Z :=
  filter (λ w, w ≠ 0) (drop 1 (words_of_block blk)).

(** [free_rep d b L]: the free list that starts at block [b] holds the blocks
    [L], the freelist blocks themselves included. *)
Inductive free_rep (d : gmap Z block) : Z → list Z → Prop :=
| free_nil : free_rep d 0 []
| free_cons b L :
    b ≠ 0 →
    free_rep d (get_word (d !!! b) 0) L →
    free_rep d b (b :: free_slots (d !!! b) ++ L).

(** ** Arithmetic of levels and paths *)

Lemma log_rpb_7 : log_rpb = 7.
Proof. vm_compute. reflexivity. Qed.

Lemma pow128 (l : nat) : 128 ^ Z.of_nat l = 2 ^ (7 * Z.of_nat l).
Proof. change 128 with (2 ^ 7). by rewrite <-Z.pow_mul_r by lia. Qed.

Lemma pow128_S (l : nat) : 128 ^ Z.of_nat (S l) = 128 ^ Z.of_nat l * 128.
Proof. rewrite Nat2Z.inj_succ, Z.pow_succ_r by lia. lia. Qed.

Lemma pow128_pos (l : nat) : 0 < 128 ^ Z.of_nat l.
Proof. apply Z.pow_pos_nonneg; lia. Qed.

(** On 32-bit numbers the guarded shift is division by a power of 128. *)
Lemma log_shift_r_div x (l : nat) :
  is_u32 x → log_shift_r x (Z.of_nat l * log_rpb) = x / 128 ^ Z.of_nat l.
Proof.
  intros Hx. unfold log_shift_r. rewrite log_rpb_7, pow128.
  destruct (Z.leb_spec (4 * 8) (Z.of_nat l * 7)) as [H|H].
  - symmetry. apply Z.div_small. split; [apply Hx|].
    apply Z.lt_le_trans with (2 ^ 32); [apply Hx|]. apply Z.pow_le_mono_r; lia.
  - rewrite Z.shiftr_div_pow2 by lia. do 2 f_equal. lia.
Qed.

Lemma log_shift_r_zero x (l : nat) :
  is_u32 x → (log_shift_r x (Z.of_nat l * log_rpb) =? 0) = (x <? 128 ^ Z.of_nat l).
Proof.
  intros Hx. rewrite log_shift_r_div by done. pose proof (pow128_pos l).
  destruct Hx as [Hx _].
  destruct (Z.ltb_spec x (128 ^ Z.of_nat l)).
  - rewrite Z.div_small by lia. done.
  - apply Z.eqb_neq. pose proof (Z.div_str_pos x (128 ^ Z.of_nat l)). lia.
Qed.

(** The level loop leaves by its condition, with the least depth that
    reaches [x]. *)
Lemma count_levels_exit x :
  is_u32 x →
  x < 128 ^ Z.of_nat (count_levels x) ∧
  (∀ l, (l < count_levels x)%nat → 128 ^ Z.of_nat l ≤ x) ∧
  (count_levels x ≤ 5)%nat.
Proof.
  intros Hx. unfold count_levels.
  assert (Hgen : ∀ fuel n, (n + fuel = 6)%nat →
    (∀ l, (l < n)%nat → 128 ^ Z.of_nat l ≤ x) →
    x < 128 ^ Z.of_nat (levels_loop fuel x n) ∧
    (∀ l, (l < levels_loop fuel x n)%nat → 128 ^ Z.of_nat l ≤ x) ∧
    (levels_loop fuel x n ≤ 5)%nat).
  { induction fuel as [|fuel IH]; intros n Hn Hl; simpl.
    - exfalso. specialize (Hl 5%nat ltac:(lia)). unfold is_u32 in Hx. lia.
    - rewrite log_shift_r_zero by done.
      destruct (Z.ltb_spec x (128 ^ Z.of_nat n)) as [Hlt|Hge].
      + split; [done|]. split; [done|].
        destruct (decide (n ≤ 5)%nat); [done|].
        specialize (Hl 5%nat ltac:(lia)). unfold is_u32 in Hx. lia.
      + apply IH; [lia|]. intros l Hln.
        destruct (decide (l = n)) as [->|]; [done|apply Hl; lia]. }
  apply Hgen; [done|]. intros l Hl. lia.
Qed.

(** Every block of a file of [n] blocks is within the reach of its tree. *)
Lemma levels_reach n off :
  0 ≤ n ≤ 2 ^ 32 → 0 ≤ off < n → off < 128 ^ Z.of_nat (levels n).
Proof.
  intros Hn Hoff. unfold levels.
  destruct (Z.ltb_spec 0 n); [|lia].
  destruct (count_levels_exit (n - 1)) as [H1 _]; [unfold is_u32; lia|]. lia.
Qed.

Lemma levels_succ off : is_u32 off → levels (off + 1) = count_levels off.
Proof.
  intros [H _]. unfold levels. rewrite (proj2 (Z.ltb_lt 0 (off + 1))) by lia.
  f_equal. lia.
Qed.

Lemma levels_mono m n : 0 ≤ m ≤ n → n ≤ 2 ^ 32 → (levels m ≤ levels n)%nat.
Proof.
  intros Hm Hn. unfold levels.
  destruct (Z.ltb_spec 0 m); [|lia]. destruct (Z.ltb_spec 0 n); [|lia].
  destruct (count_levels_exit (n - 1)) as [H1 _]; [unfold is_u32; lia|].
  destruct (count_levels_exit (m - 1)) as (_ & H2 & _); [unfold is_u32; lia|].
  destruct (decide (count_levels (m - 1) ≤ count_levels (n - 1))%nat) as [|Hc]; [done|].
  specialize (H2 (count_levels (n - 1)) ltac:(lia)). lia.
Qed.

Lemma ref_index_eq off l :
  is_u32 off → ref_index off l = Z.to_nat ((off / 128 ^ Z.of_nat l) mod 128).
Proof. intros H. unfold ref_index. by rewrite log_shift_r_div. Qed.

Lemma ref_index_lt off l : (ref_index off l < nrefs)%nat.
Proof.
  unfold ref_index.
  pose proof (Z.mod_pos_bound (log_shift_r off (Z.of_nat l * log_rpb)) REFS_PER_BLOCK eq_refl).
  unfold nrefs. lia.
Qed.

(** Two offsets take the same path through [S l] levels when they take the
    same reference at the top and the same path below it. *)
Lemma same_path_S o1 o2 l :
  is_u32 o1 → is_u32 o2 →
  o1 mod 128 ^ Z.of_nat (S l) = o2 mod 128 ^ Z.of_nat (S l) ↔
  ref_index o1 l = ref_index o2 l ∧ o1 mod 128 ^ Z.of_nat l = o2 mod 128 ^ Z.of_nat l.
Proof.
  intros H1 H2. rewrite !ref_index_eq, pow128_S by done.
  pose proof (pow128_pos l).
  rewrite !Z.rem_mul_r by lia.
  pose proof (Z.mod_pos_bound (o1 / 128 ^ Z.of_nat l) 128 eq_refl).
  pose proof (Z.mod_pos_bound (o2 / 128 ^ Z.of_nat l) 128 eq_refl).
  pose proof (Z.mod_pos_bound o1 (128 ^ Z.of_nat l) ltac:(lia)).
  pose proof (Z.mod_pos_bound o2 (128 ^ Z.of_nat l) ltac:(lia)).
  split.
  - intros E.
    destruct (Z.div_mod_unique (128 ^ Z.of_nat l)
      ((o1 / 128 ^ Z.of_nat l) mod 128) ((o2 / 128 ^ Z.of_nat l) mod 128)
      (o1 mod 128 ^ Z.of_nat l) (o2 mod 128 ^ Z.of_nat l)) as [-> ->];
      [by left..|lia|done].
  - intros [E1 E2]. apply Z2Nat.inj in E1; [|lia..]. by rewrite E1, E2.
Qed.

(** Within the reach of a tree, the first reference leads to the offsets
    that the subtree reaches. *)
Lemma ref_index_0 off l :
  is_u32 off → off < 128 ^ Z.of_nat (S l) →
  ref_index off l = 0%nat ↔ off < 128 ^ Z.of_nat l.
Proof.
  intros Hoff Hlt. rewrite ref_index_eq by done. rewrite pow128_S in Hlt.
  pose proof (pow128_pos l) as Hp. destruct Hoff as [H0 _].
  assert (Hq : 0 ≤ off / 128 ^ Z.of_nat l < 128).
  { split; [by apply Z.div_pos|]. apply Z.div_lt_upper_bound; lia. }
  rewrite Z.mod_small by done. split.
  - intros E. assert (off / 128 ^ Z.of_nat l = 0) by lia.
    apply Z.div_small_iff in H; lia.
  - intros H. by rewrite Z.div_small.
Qed.

#[export] Hint Resolve ref_index_lt : egos.

(** ** Structures that a change of the disk does not reach *)

Lemma tree_blocks_0 d l : tree_blocks d l 0 = [].
Proof. by destruct l. Qed.

Lemma tree_lookup_0 d l off : tree_lookup d l 0 off = null_block.
Proof. by destruct l. Qed.

Lemma tree_need_0 d l off : tree_need d l 0 off = S l.
Proof. by destruct l. Qed.

Lemma tree_blocks_S d l b :
  b ≠ 0 → tree_blocks d (S l) b = b :: (words_of_block (d !!! b) ≫= tree_blocks d l).
Proof. intros Hb. simpl. by rewrite (proj2 (Z.eqb_neq b 0)). Qed.

Lemma tree_lookup_S d l b off :
  b ≠ 0 →
  tree_lookup d (S l) b off = tree_lookup d l (get_word (d !!! b) (ref_index off l)) off.
Proof. intros Hb. simpl. by rewrite (proj2 (Z.eqb_neq b 0)). Qed.

Lemma tree_need_S d l b off :
  b ≠ 0 →
  tree_need d (S l) b off = tree_need d l (get_word (d !!! b) (ref_index off l)) off.
Proof. intros Hb. simpl. by rewrite (proj2 (Z.eqb_neq b 0)). Qed.

Lemma tree_leaf d b :
  b ≠ 0 → tree_blocks d 0 b = [b] ∧ (∀ off, tree_lookup d 0 b off = d !!! b) ∧
          ∀ off, tree_need d 0 b off = 0%nat.
Proof. intros Hb. simpl. by rewrite (proj2 (Z.eqb_neq b 0)). Qed.

Lemma tree_blocks_root d l b : b ≠ 0 → b ∈ tree_blocks d l b.
Proof. intros Hb. destruct l; simpl; rewrite (proj2 (Z.eqb_neq b 0)) by done; set_solver. Qed.

(** A child's blocks are among the parent's. *)
Lemma tree_blocks_child d l b i x :
  b ≠ 0 → wf_block (d !!! b) → (i < nrefs)%nat →
  x ∈ tree_blocks d l (get_word (d !!! b) i) → x ∈ tree_blocks d (S l) b.
Proof.
  intros Hb Hwf Hi Hx. rewrite tree_blocks_S by done. right.
  apply list_elem_of_bind. eexists; split; [done|].
  eapply list_elem_of_lookup_2. by apply words_lookup.
Qed.

(** The part of a tree below child [i], and the rest of it. *)
Lemma tree_blocks_split d l b i :
  b ≠ 0 → wf_block (d !!! b) → (i < nrefs)%nat →
  tree_blocks d (S l) b ≡ₚ
  b :: tree_blocks d l (get_word (d !!! b) i) ++
       (delete i (words_of_block (d !!! b)) ≫= tree_blocks d l).
Proof.
  intros Hb Hwf Hi. rewrite tree_blocks_S by done. constructor.
  by apply bind_perm_split, words_lookup.
Qed.

Lemma tree_blocks_frame d d' l b :
  (∀ x, x ∈ tree_blocks d l b → d' !!! x = d !!! x) →
  tree_blocks d' l b = tree_blocks d l b.
Proof.
  revert b. induction l as [|l IH]; intros b H; [done|].
  destruct (decide (b = 0)) as [->|Hb]; [done|].
  rewrite tree_blocks_S in H by done.
  rewrite !tree_blocks_S by done. rewrite (H b) by set_solver. f_equal.
  apply bind_ext_in. intros c Hc. apply IH. intros x Hx. apply H. right.
  apply list_elem_of_bind. eauto.
Qed.

(** A step down a tree stays within blocks that a change does not reach. *)
Lemma frame_child (d d' : gmap Z block) l b off :
  b ≠ 0 →
  (∀ x, x ∈ tree_blocks d (S l) b → wf_block (d !!! x)) →
  (∀ x, x ∈ tree_blocks d (S l) b → d' !!! x = d !!! x) →
  d' !!! b = d !!! b ∧
  (∀ x, x ∈ tree_blocks d l (get_word (d !!! b) (ref_index off l)) →
     wf_block (d !!! x) ∧ d' !!! x = d !!! x).
Proof.
  intros Hb Hwf H. pose proof (tree_blocks_root d (S l) b Hb) as Hroot.
  split; [by apply H|]. intros x Hx.
  assert (Hin : x ∈ tree_blocks d (S l) b).
  { eapply tree_blocks_child; [done|by apply Hwf|apply ref_index_lt|done]. }
  split; [by apply Hwf|by apply H].
Qed.

Lemma tree_lookup_frame d d' l b off :
  (∀ x, x ∈ tree_blocks d l b → wf_block (d !!! x)) →
  (∀ x, x ∈ tree_blocks d l b → d' !!! x = d !!! x) →
  tree_lookup d' l b off = tree_lookup d l b off.
Proof.
  revert b. induction l as [|l IH]; intros b Hwf H;
    (destruct (decide (b = 0)) as [->|Hb]; [done|]).
  - destruct (tree_leaf d b Hb) as (E & -> & _), (tree_leaf d' b Hb) as (_ & -> & _).
    apply H. rewrite E. set_solver +.
  - destruct (frame_child d d' l b off Hb Hwf H) as [E Hc].
    rewrite !tree_lookup_S, E by done. apply IH; intros x Hx; by apply Hc.
Qed.

Lemma tree_need_frame d d' l b off :
  (∀ x, x ∈ tree_blocks d l b → wf_block (d !!! x)) →
  (∀ x, x ∈ tree_blocks d l b → d' !!! x = d !!! x) →
  tree_need d' l b off = tree_need d l b off.
Proof.
  revert b. induction l as [|l IH]; intros b Hwf H; [done|].
  destruct (decide (b = 0)) as [->|Hb]; [done|].
  destruct (frame_child d d' l b off Hb Hwf H) as [E Hc].
  rewrite !tree_need_S, E by done. apply IH; intros x Hx; by apply Hc.
Qed.

(** ** The free list *)

Lemma free_rep_frame d d' b L :
  free_rep d b L → (∀ x, x ∈ L → d' !!! x = d !!! x) → free_rep d' b L.
Proof.
  induction 1 as [|b L Hb _ IH]; intros H; [constructor|].
  rewrite <-(H b) by set_solver. constructor; [done|].
  rewrite (H b) by set_solver. apply IH. set_solver.
Qed.

Lemma free_rep_nil_inv d b : free_rep d b [] → b = 0.
Proof. by inversion 1. Qed.

Lemma free_rep_0_inv d L : free_rep d 0 L → L = [].
Proof. by inversion 1. Qed.

(** The downward scan stops at a used slot, or at slot 0 when there is none. *)
Lemma scan_refs_spec blk i :
  (scan_refs blk i ≤ i)%nat ∧
  (scan_refs blk i ≠ 0%nat → get_word blk (scan_refs blk i) ≠ 0) ∧
  (∀ j, (scan_refs blk i < j ≤ i)%nat → get_word blk j = 0).
Proof.
  induction i as [|i (IH1 & IH2 & IH3)]; simpl.
  - repeat split; [lia|done|lia].
  - destruct (Z.eqb_spec (get_word blk (S i)) 0) as [E|E].
    + repeat split; [lia|done|]. intros j Hj.
      destruct (decide (j = S i)) as [->|]; [done|]. apply IH3. lia.
    + repeat split; [lia|done|lia].
Qed.

Lemma drop_words_lookup blk i :
  wf_block blk → (i < nrefs)%nat → i ≠ 0%nat →
  drop 1 (words_of_block blk) !! (i - 1)%nat = Some (get_word blk i).
Proof.
  intros Hwf Hi Hi0. rewrite lookup_drop.
  replace (1 + (i - 1))%nat with i by lia. by apply words_lookup.
Qed.

Lemma free_slots_empty blk :
  wf_block blk → scan_refs blk (nrefs - 1) = 0%nat → free_slots blk = [].
Proof.
  intros Hwf Hs. destruct (scan_refs_spec blk (nrefs - 1)) as (_ & _ & H).
  rewrite Hs in H. unfold free_slots.
  destruct (filter _ _) as [|w ws] eqn:E; [done|exfalso].
  assert (Hin : w ∈ filter (λ w, w ≠ 0) (drop 1 (words_of_block blk))) by (rewrite E; set_solver +).
  apply list_elem_of_filter in Hin as [Hw Hin].
  apply list_elem_of_lookup_1 in Hin as [j Hj].
  pose proof (lookup_lt_Some _ _ _ Hj) as Hlen.
  rewrite length_drop, words_of_block_length in Hlen by done.
  pose proof (drop_words_lookup blk (S j) Hwf ltac:(lia) ltac:(lia)) as Hj'.
  replace (S j - 1)%nat with j in Hj' by lia. rewrite Hj in Hj'. simplify_eq.
  apply Hw, H. lia.
Qed.

Lemma free_slots_take blk i :
  wf_block blk → (i < nrefs)%nat → i ≠ 0%nat → get_word blk i ≠ 0 →
  free_slots blk ≡ₚ get_word blk i :: free_slots (set_word blk i 0).
Proof.
  intros Hwf Hi Hi0 Hw. unfold free_slots.
  rewrite words_of_set_word by done.
  replace (drop 1 (<[i:=0]> (words_of_block blk)))
    with (<[(i - 1)%nat:=0]> (drop 1 (words_of_block blk)))
    by (rewrite drop_insert_ge by lia; done).
  pose proof (drop_words_lookup blk i Hwf Hi Hi0) as Hl.
  set (ws := drop 1 (words_of_block blk)) in *.
  assert (Hl' : <[(i - 1)%nat:=0]> ws !! (i - 1)%nat = Some 0).
  { apply list_lookup_insert_eq. by eapply lookup_lt_Some. }
  rewrite (delete_Permutation _ _ _ Hl') , (delete_Permutation _ _ _ Hl) at 1.
  rewrite filter_cons_True by done. rewrite filter_cons_False by naive_solver.
  by rewrite list_delete_insert.
Qed.
