(* ===== verification/TreediskOps.v ===== *)
(** * Allocation and tree walks: what one step of the file system does

    [treedisk_alloc_block], [grow_levels] and [write_walk] of Treedisk.v, each
    with its effect on the free list and on the tree it works on, over any
    store below that is a [BlockStore]. *)

From S2P Require Import Prelude Layout Blocks Store Treedisk Tree.

Section ops.
Context {S : Type} (ts : treedisk_state S) (N : Z) (uninit : block).
Context `{HB : !BlockStore (below ts) (below_ino ts) N}.
Context (HN : N ≤ 2 ^ 32).
Implicit Types (d : gmap Z block) (sn : treedisk_snapshot).

(** The store holds [d], the snapshot's superblock is the one on the disk,
    and its free list consists of the blocks [free]. *)
Record core (s : S) (sn : treedisk_snapshot) (d : gmap Z block) (free : list Z) : Prop := {
  core_holds : holds s d;
  core_sb : superblock sn = d !!! 0;
  core_free : free_rep d (free_list (d !!! 0)) free;
  core_nodup : NoDup free;
  core_range : ∀ x, x ∈ free → 0 < x < N;
}.

(** Two snapshots of the same inode. *)
Definition same_inode sn sn' : Prop :=
  inodeblock sn' = inodeblock sn ∧ inode_blockno sn' = inode_blockno sn ∧
  inode sn' = inode sn.

Lemma core_wf s sn d free x : core s sn d free → 0 ≤ x < N → wf_block (d !!! x).
Proof. intros H. by apply (holds_wf s d), H. Qed.

Lemma below_read_spec s d b buf :
  holds s d → 0 ≤ b < N →
  ∃ s', below_read ts b buf s = Ret (0, d !!! b) s' ∧ holds s' d.
Proof. apply read_spec. Qed.

Lemma write_or_panic_spec s d b blk why :
  holds s d → 0 ≤ b < N → wf_block blk →
  ∃ s', write_or_panic ts b blk why s = Ret tt s' ∧ holds s' (<[b:=blk]> d).
Proof.
  intros H Hb Hw. destruct (write_spec s d b blk H Hb Hw) as (s' & E & H').
  exists s'. split; [|done]. unfold write_or_panic, below_write. mrun E. done.
Qed.

(** Writing a block that is neither the superblock nor free. *)
Lemma core_write s sn d free b blk why :
  core s sn d free → 0 < b < N → b ∉ free → wf_block blk →
  ∃ s', write_or_panic ts b blk why s = Ret tt s' ∧ core s' sn (<[b:=blk]> d) free.
Proof.
  intros [Hh Hsb Hf Hnd Hr] Hb Hbf Hw.
  destruct (write_or_panic_spec s d b blk why) as (s' & E & H'); [done|lia|done|].
  exists s'. split; [done|]. split; [done|..|done|done].
  - by rewrite lookup_total_insert_ne by lia.
  - rewrite lookup_total_insert_ne by lia.
    apply (free_rep_frame d); [done|]. intros x Hx.
    rewrite lookup_total_insert_ne; [done|]. by intros ->.
Qed.

Lemma free_rep_inv d fl free :
  free_rep d fl free → free ≠ [] →
  fl ≠ 0 ∧ ∃ L, free = fl :: free_slots (d !!! fl) ++ L ∧ free_rep d (get_word (d !!! fl) 0) L.
Proof. intros Hf Hne. destruct Hf as [|b L Hb HL]; [done|]. split; [done|]. by exists L. Qed.

(** The freelist block [fl] itself is taken: the next one becomes the first. *)
Lemma alloc_self s sn d free L :
  core s sn d free → let fl := free_list (d !!! 0) in
  free = fl :: L → free_rep d (get_word (d !!! fl) 0) L →
  ∃ s', let sb := set_free_list (d !!! 0) (get_word (d !!! fl) 0) in
    write_or_panic ts 0 sb "treedisk_alloc_block: superblock" s = Ret tt s' ∧
    core s' (with_superblock sn sb) (<[0:=sb]> d) L ∧
    n_inodeblocks (<[0:=sb]> d !!! 0) = n_inodeblocks (d !!! 0).
Proof.
  intros Hc fl -> HL. pose proof Hc as [Hh Hsb Hf Hnd Hr].
  assert (Hbr : 0 < fl < N) by (apply Hr; set_solver +).
  assert (Hwsb : wf_block (d !!! 0)) by (eapply core_wf; [done|lia]).
  set (sb := set_free_list (d !!! 0) (get_word (d !!! fl) 0)).
  destruct (write_or_panic_spec s d 0 sb "treedisk_alloc_block: superblock")
    as (s2 & E2 & Hh2); [done|lia|by apply wf_set_word|].
  exists s2. split; [done|].
  assert (H0L : 0 ∉ L).
  { intros H0. assert (0 < 0 < N); [apply Hr; set_solver +H0|lia]. }
  split; [split; simpl|].
  - done.
  - by rewrite lookup_total_insert_eq.
  - rewrite lookup_total_insert_eq. unfold free_list, sb, set_free_list.
    rewrite get_set_word_eq by word_side. eapply free_rep_frame; [done|].
    intros x Hx. apply lookup_total_insert_ne. by intros <-.
  - by inversion Hnd.
  - intros x Hx. apply Hr. set_solver +Hx.
  - rewrite lookup_total_insert_eq. unfold n_inodeblocks, sb, set_free_list.
    by rewrite get_set_word_ne by word_side.
Qed.

(** The block in slot [i] of the freelist block [fl] is taken. *)
Lemma alloc_from_slot s sn d free L i :
  core s sn d free → let fl := free_list (d !!! 0) in
  free = fl :: free_slots (d !!! fl) ++ L → free_rep d (get_word (d !!! fl) 0) L → fl ≠ 0 →
  (0 < i < nrefs)%nat → get_word (d !!! fl) i ≠ 0 →
  ∃ s', let fb' := set_word (d !!! fl) i 0 in
    write_or_panic ts fl fb' "treedisk_alloc_block: freelistblock" s = Ret tt s' ∧
    core s' sn (<[fl:=fb']> d) (fl :: free_slots fb' ++ L) ∧
    free ≡ₚ get_word (d !!! fl) i :: (fl :: free_slots fb' ++ L).
Proof.
  intros Hc fl -> HL Hfl Hi Hw0. pose proof Hc as [Hh Hsb Hf Hnd Hr].
  assert (Hbr : 0 < fl < N) by (apply Hr; set_solver +).
  set (fb := d !!! fl) in *. assert (Hfb : wf_block fb) by (eapply core_wf; [done|lia]).
  pose proof (free_slots_take fb i Hfb ltac:(lia) ltac:(lia) Hw0) as Hp.
  set (fb' := set_word fb i 0) in *. set (w := get_word fb i) in *.
  destruct (write_or_panic_spec s d fl fb' "treedisk_alloc_block: freelistblock")
    as (s2 & E2 & Hh2); [done|lia|by apply wf_set_word|].
  assert (Hperm : fl :: free_slots fb ++ L ≡ₚ w :: (fl :: free_slots fb' ++ L)).
  { rewrite Hp. simpl. by constructor. }
  rewrite Hperm in Hnd. apply NoDup_cons in Hnd as [Hw Hnd].
  exists s2. split; [done|]. split; [|done]. split.
  - done.
  - by rewrite lookup_total_insert_ne by lia.
  - rewrite lookup_total_insert_ne by lia. fold fl.
    replace (free_slots fb') with (free_slots (<[fl:=fb']> d !!! fl))
      by (by rewrite lookup_total_insert_eq).
    constructor; [done|]. rewrite lookup_total_insert_eq. unfold fb'.
    rewrite get_set_word_ne by word_side.
    eapply free_rep_frame; [done|]. intros x Hx. apply lookup_total_insert_ne.
    intros <-. apply NoDup_cons in Hnd as [Hnd _]. set_solver +Hnd Hx.
  - done.
  - intros x Hx. apply Hr. rewrite Hperm. set_solver +Hx.
Qed.

(** [treedisk_alloc_block] panics exactly when no block is free; otherwise
    it takes one block off the free list and leaves every block that is
    neither free nor the superblock as it was. *)
Lemma alloc_full s sn d :
  core s sn d [] → ∃ w, treedisk_alloc_block uninit ts sn s = Fatal w s.
Proof.
  intros [Hh Hsb Hf _ _]. unfold treedisk_alloc_block. rewrite Hsb.
  rewrite (free_rep_nil_inv _ _ Hf). simpl. by eexists.
Qed.

Lemma alloc_spec s sn d free :
  core s sn d free → free ≠ [] →
  ∃ b sn' s' d' free',
    treedisk_alloc_block uninit ts sn s = Ret (b, sn') s' ∧
    core s' sn' d' free' ∧ free ≡ₚ b :: free' ∧ same_inode sn sn' ∧
    n_inodeblocks (d' !!! 0) = n_inodeblocks (d !!! 0) ∧
    (∀ x, x ≠ 0 → x ∉ free' → d' !!! x = d !!! x).
Proof.
  intros Hc Hne. pose proof Hc as [Hh Hsb Hf Hnd Hr].
  set (fl := free_list (d !!! 0)) in *.
  destruct (free_rep_inv d fl free Hf Hne) as (Hb & L & Efree & HL).
  assert (Hbr : 0 < fl < N) by (apply Hr; rewrite Efree; set_solver +).
  assert (Hfb : wf_block (d !!! fl)) by (eapply core_wf; [done|lia]).
  destruct (below_read_spec s d fl uninit) as (s1 & E1 & Hh1); [done|lia|].
  assert (Hc1 : core s1 sn d free) by (by destruct Hc).
  unfold treedisk_alloc_block. rewrite Hsb. fold fl. rewrite (proj2 (Z.eqb_neq _ 0)) by done.
  mrun E1. destruct (scan_refs_spec (d !!! fl) (nrefs - 1)) as (Hs1 & Hs2 & _).
  destruct (scan_refs (d !!! fl) (nrefs - 1)) as [|i] eqn:Ei.
  - rewrite (free_slots_empty _ Hfb Ei) in Efree.
    destruct (alloc_self s1 sn d free L Hc1 Efree HL) as (s2 & E2 & Hc2 & Hn2). fold fl in E2, Hc2, Hn2.
    mrun E2. do 5 eexists. split; [done|]. split; [exact Hc2|]. split; [by rewrite Efree|].
    split; [done|]. split; [done|]. intros x Hx _. by apply lookup_total_insert_ne.
  - destruct (alloc_from_slot s1 sn d free L (Datatypes.S i) Hc1 Efree HL)
      as (s2 & E2 & Hc2 & Hp2); [done|word_side|apply Hs2; lia|]. fold fl in E2, Hc2, Hp2.
    mrun E2. do 5 eexists. split; [done|]. split; [exact Hc2|]. split; [exact Hp2|].
    split; [done|]. split; [by rewrite lookup_total_insert_ne by lia|].
    intros x Hx Hx'. apply lookup_total_insert_ne. intros <-. set_solver +Hx'.
Qed.

(** ** Walking down the tree *)

(** What the walk of [treedisk_write] and the final write of the data block
    do to the tree of depth [l] whose root [b] is word [idx] of the block
    [P] at [poff]: the blocks [A] are taken from the free list into the
    tree, block [off] of the tree becomes [blk] and no other changes. *)
Record walk_post (d : gmap Z block) (free : list Z) (l : nat) (b off : Z)
    (blk P : block) (idx : nat) (poff : Z)
    (b' : Z) (s' : S) (d' : gmap Z block) (free' A : list Z) : Prop := {
  wp_holds : holds s' d';
  wp_free : free_rep d' (free_list (d' !!! 0)) free';
  wp_nib : n_inodeblocks (d' !!! 0) = n_inodeblocks (d !!! 0);
  wp_taken : free ≡ₚ A ++ free';
  wp_count : length A = tree_need d l b off;
  wp_ne : b' ≠ 0;
  wp_u32 : is_u32 b';
  wp_same : b ≠ 0 → b' = b;
  wp_blocks : tree_blocks d' l b' ≡ₚ A ++ tree_blocks d l b;
  wp_lookup o : is_u32 o →
    tree_lookup d' l b' o =
    if decide (o mod 128 ^ Z.of_nat l = off mod 128 ^ Z.of_nat l)
    then blk else tree_lookup d l b o;
  wp_parent : d' !!! poff = if decide (b = 0) then set_word P idx b' else d !!! poff;
  wp_frame x : x ≠ 0 → x ∉ free → x ∉ tree_blocks d l b → x ≠ poff →
    d' !!! x = d !!! x;
}.

Lemma next_block_fresh s sn d free P idx poff :
  core s sn d free → free ≠ [] → get_word P idx = 0 →
  wf_block P → 0 < poff < N → poff ∉ free →
  ∃ b sn' s' d' free',
    next_block uninit ts sn P idx poff s = Ret (b, true, sn') s' ∧
    core s' sn' d' free' ∧ free ≡ₚ b :: free' ∧
    n_inodeblocks (d' !!! 0) = n_inodeblocks (d !!! 0) ∧
    d' !!! poff = set_word P idx b ∧
    (∀ x, x ≠ 0 → x ∉ free' → x ≠ poff → d' !!! x = d !!! x).
Proof.
  intros Hc Hne H0 HP Hpoff Hpf.
  destruct (alloc_spec s sn d free Hc Hne) as (b & sn1 & s1 & d1 & free1 & E1 & Hc1 & Hp & _ & Hn1 & Hf1).
  unfold next_block. rewrite H0. simpl. mrun E1.
  destruct (core_write s1 sn1 d1 free1 poff (set_word P idx b) "treedisk_write: parent")
    as (s2 & E2 & Hc2); [done|done| |by apply wf_set_word|].
  { intros H. apply Hpf. rewrite Hp. set_solver +H. }
  mrun E2. do 5 eexists. split; [done|]. split; [done|]. split; [done|]. split; [|split].
  - by rewrite lookup_total_insert_ne by lia.
  - by rewrite lookup_total_insert_eq.
  - intros x Hx1 Hx2 Hx3. rewrite lookup_total_insert_ne by done. by apply Hf1.
Qed.

(** The chain of new blocks below a hole: one reference in an otherwise
    empty indirect block. *)
Lemma single_ref_blocks d l b i c :
  b ≠ 0 → is_u32 c → (i < nrefs)%nat → d !!! b = set_word null_block i c →
  tree_blocks d (Datatypes.S l) b ≡ₚ b :: tree_blocks d l c.
Proof.
  intros Hb Hc Hi E. rewrite tree_blocks_S, E, words_of_set_word, words_of_null_block by done.
  constructor.
  pose proof (bind_insert_perm (tree_blocks d l) (replicate nrefs 0) i 0 c) as H.
  rewrite tree_blocks_0, app_nil_r, bind_replicate_nil in H by apply tree_blocks_0.
  apply H. by apply lookup_replicate_2.
Qed.

Lemma single_ref_lookup d l b i c o :
  b ≠ 0 → is_u32 c → (i < nrefs)%nat → d !!! b = set_word null_block i c →
  tree_lookup d (Datatypes.S l) b o =
  if decide (ref_index o l = i) then tree_lookup d l c o else null_block.
Proof.
  intros Hb Hc Hi E. rewrite tree_lookup_S, E by done.
  destruct (decide (ref_index o l = i)) as [->|Hne].
  - by rewrite get_set_word_eq by word_side.
  - rewrite get_set_word_ne, get_word_null by (done || apply ref_index_lt).
    apply tree_lookup_0.
Qed.

Lemma single_ref_need d l b i c o :
  b ≠ 0 → is_u32 c → (i < nrefs)%nat → d !!! b = set_word null_block i c →
  tree_need d (Datatypes.S l) b o =
  if decide (ref_index o l = i) then tree_need d l c o else Datatypes.S l.
Proof.
  intros Hb Hc Hi E. rewrite tree_need_S, E by done.
  destruct (decide (ref_index o l = i)) as [->|Hne].
  - by rewrite get_set_word_eq by word_side.
  - rewrite get_set_word_ne, get_word_null by (done || apply ref_index_lt).
    apply tree_need_0.
Qed.

(** ** Adding levels on top of the tree *)

Record grow_post (sn : treedisk_snapshot) (d : gmap Z block) (free : list Z)
    (l n : nat) (sn' : treedisk_snapshot) (d' : gmap Z block) (A : list Z) : Prop := {
  gp_inode : inode sn' = inode sn;
  gp_blockno : inode_blockno sn' = inode_blockno sn;
  gp_block : inodeblock sn' =
    set_word (inodeblock sn) (root_idx (inode sn)) (inode_root sn');
  gp_count : length A = n;
  gp_nib : n_inodeblocks (d' !!! 0) = n_inodeblocks (d !!! 0);
  gp_blocks : tree_blocks d' (l + n) (inode_root sn') ≡ₚ A ++ tree_blocks d l (inode_root sn);
  gp_lookup o : is_u32 o → o < 128 ^ Z.of_nat (l + n) →
    tree_lookup d' (l + n) (inode_root sn') o =
    if decide (o < 128 ^ Z.of_nat l) then tree_lookup d l (inode_root sn) o else null_block;
  gp_need o : is_u32 o → o < 128 ^ Z.of_nat l →
    tree_need d' (l + n) (inode_root sn') o = tree_need d l (inode_root sn) o;
  gp_need_top o : is_u32 o → (0 < n)%nat →
    128 ^ Z.of_nat (l + n - 1) ≤ o < 128 ^ Z.of_nat (l + n) →
    tree_need d' (l + n) (inode_root sn') o = (l + n)%nat;
  gp_frame x : x ≠ 0 → x ∉ free → d' !!! x = d !!! x;
}.

(** One new level: the old root becomes the first reference of a new indirect
    block [b].  The tree under it: *)
Lemma grown_tree sn sn' d d' free l b :
  0 < b < N → inode sn' = inode sn → inode_blockno sn' = inode_blockno sn →
  inodeblock sn' = set_word (inodeblock sn) (root_idx (inode sn)) b → inode_root sn' = b →
  n_inodeblocks (d' !!! 0) = n_inodeblocks (d !!! 0) →
  d' !!! b = set_word null_block 0 (inode_root sn) →
  (∀ x, x ∈ tree_blocks d l (inode_root sn) → d' !!! x = d !!! x ∧ wf_block (d !!! x)) →
  (∀ x, x ≠ 0 → x ∉ free → d' !!! x = d !!! x) →
  grow_post sn d free l 1 sn' d' [b].
Proof.
  intros Hb I1 I2 I3 Er Hn Htib Hold Hfr.
  assert (Hru : is_u32 (inode_root sn)) by apply get_word_u32.
  assert (Hsame : ∀ x, x ∈ tree_blocks d l (inode_root sn) → d' !!! x = d !!! x)
    by (intros x Hx; by apply Hold).
  assert (Hwf : ∀ x, x ∈ tree_blocks d l (inode_root sn) → wf_block (d !!! x))
    by (intros x Hx; by apply Hold).
  split; rewrite ?Er, ?Nat.add_1_r; try done.
  - rewrite (single_ref_blocks d' l b 0 (inode_root sn)) by (done || lia || word_side).
    by rewrite (tree_blocks_frame d d').
  - intros o Ho Hlt. rewrite ?Nat.add_1_r in Hlt.
    rewrite (single_ref_lookup d' l b 0 (inode_root sn)) by (done || lia || word_side).
    pose proof (ref_index_0 o l Ho Hlt) as Hiff.
    rewrite (tree_lookup_frame d d') by done.
    repeat case_decide; tauto.
  - intros o Ho Hlt. pose proof (pow128_S l).
    rewrite (single_ref_need d' l b 0 (inode_root sn)) by (done || lia || word_side).
    rewrite decide_True by (apply ref_index_0; [done|lia|done]).
    by apply tree_need_frame.
  - intros o Ho _ [Hge Hlt].
    replace (Datatypes.S l - 1)%nat with l in Hge by lia.
    rewrite (single_ref_need d' l b 0 (inode_root sn)) by (done || lia || word_side).
    rewrite decide_False; [done|]. rewrite ref_index_0 by done. lia.
Qed.

Lemma grow_step s sn d free l :
  core s sn d free → free ≠ [] →
  wf_block (inodeblock sn) → (root_idx (inode sn) < nrefs)%nat →
  NoDup (free ++ tree_blocks d l (inode_root sn)) →
  (∀ x, x ∈ tree_blocks d l (inode_root sn) → 0 < x < N) →
  ∃ s' sn' d' free' b,
    (∀ n, grow_levels uninit ts (Datatypes.S n) sn s = grow_levels uninit ts n sn' s') ∧
    core s' sn' d' free' ∧ free ≡ₚ b :: free' ∧ grow_post sn d free l 1 sn' d' [b].
Proof.
  intros Hc Hne Hib Hidx Hnd Hr.
  destruct (alloc_spec s sn d free Hc Hne) as
    (b & sn1 & s1 & d1 & free1 & E1 & Hc1 & Hp & (I1 & I2 & I3) & Hn1 & Hf1).
  assert (Hbin : b ∈ free) by (rewrite Hp; set_solver +).
  assert (Hb : 0 < b < N) by (by apply (core_range _ _ _ _ Hc)).
  assert (Hbu : is_u32 b) by (unfold is_u32; lia).
  assert (Hbf : b ∉ free1).
  { pose proof (core_nodup _ _ _ _ Hc) as H. rewrite Hp in H.
    by apply NoDup_cons in H as [H _]. }
  assert (Er : inode_root sn1 = inode_root sn) by (unfold inode_root; by rewrite I1, I3).
  set (tib := set_word null_block 0 (inode_root sn1)) in *.
  destruct (core_write s1 sn1 d1 free1 b tib "treedisk_write: indirect block")
    as (s2 & E2 & Hc2); [done..|by apply wf_set_word|].
  exists s2, (set_inode_root sn1 b), (<[b:=tib]> d1), free1, b.
  split; [|split; [|split; [done|]]].
  { intros n. cbn [grow_levels]. mrun E1. fold tib. mrun E2. done. }
  { destruct Hc2. by split. }
  apply grown_tree; try done.
  - simpl. by rewrite I1, I3.
  - unfold inode_root at 1. simpl. rewrite I1, I3. by apply get_set_word_eq.
  - by rewrite lookup_total_insert_ne by lia.
  - rewrite lookup_total_insert_eq. unfold tib. by rewrite Er.
  - intros x Hx. specialize (Hr x Hx). apply NoDup_app in Hnd as (_ & Hnd & _).
    assert (Hxf : x ∉ free) by (intros H; by apply (Hnd x)).
    split; [|eapply core_wf; [done|lia]].
    rewrite lookup_total_insert_ne by (intros <-; done).
    apply Hf1; [lia|]. rewrite Hp in Hxf. set_solver +Hxf.
  - intros x Hx Hxf. rewrite Hp in Hxf.
    rewrite lookup_total_insert_ne by set_solver +Hxf. apply Hf1; set_solver +Hxf Hx.
Qed.

(** The premises of [grow_step] hold again after it. *)
Lemma grow_step_next s sn d free l sn1 d1 free1 b :
  core s sn d free → wf_block (inodeblock sn) → (root_idx (inode sn) < nrefs)%nat →
  NoDup (free ++ tree_blocks d l (inode_root sn)) →
  (∀ x, x ∈ tree_blocks d l (inode_root sn) → 0 < x < N) →
  free ≡ₚ b :: free1 → grow_post sn d free l 1 sn1 d1 [b] →
  wf_block (inodeblock sn1) ∧ (root_idx (inode sn1) < nrefs)%nat ∧
  NoDup (free1 ++ tree_blocks d1 (Datatypes.S l) (inode_root sn1)) ∧
  (∀ x, x ∈ tree_blocks d1 (Datatypes.S l) (inode_root sn1) → 0 < x < N).
Proof.
  intros Hc Hib Hidx Hnd Hr Hp [G1 _ G3 _ _ G6 _ _ _ _]. rewrite Nat.add_1_r in G6.
  split; [rewrite G3; by apply wf_set_word|]. split; [by rewrite G1|]. split.
  - rewrite G6. rewrite Hp in Hnd. simpl in *. by rewrite <-Permutation_middle.
  - intros x Hx. rewrite G6 in Hx. apply elem_of_cons in Hx as [->|Hx]; [|by apply Hr].
    apply (core_range _ _ _ _ Hc). rewrite Hp. set_solver +.
Qed.

Lemma grow_levels_spec n : ∀ s sn d free l,
  core s sn d free → (n ≤ length free)%nat →
  wf_block (inodeblock sn) → (root_idx (inode sn) < nrefs)%nat →
  NoDup (free ++ tree_blocks d l (inode_root sn)) →
  (∀ x, x ∈ tree_blocks d l (inode_root sn) → 0 < x < N) →
  ∃ s' sn' d' free' A,
    grow_levels uninit ts n sn s = Ret sn' s' ∧
    core s' sn' d' free' ∧ free ≡ₚ A ++ free' ∧ grow_post sn d free l n sn' d' A.
Proof.
  induction n as [|n IH]; intros s sn d free l Hc Hlen Hib Hidx Hnd Hr.
  - exists s, sn, d, free, []. split; [done|]. split; [done|]. split; [done|].
    split; rewrite ?Nat.add_0_r; try done.
    + unfold inode_root. by rewrite set_word_id.
    + intros o _ Ho. by rewrite decide_True.
    + intros o _ Hn. lia.
  - destruct (grow_step s sn d free l) as
      (s1 & sn1 & d1 & free1 & b & E1 & Hc1 & Hp & HG);
      [done|intros ->; simpl in Hlen; lia|done..|].
    destruct (grow_step_next s sn d free l sn1 d1 free1 b) as (N1 & N2 & N3 & N4);
      [done..|].
    destruct HG as [G1 G2 G3 _ G5 G6 G7 G9 G10 G8]. rewrite Nat.add_1_r in *.
    destruct (IH s1 sn1 d1 free1 (Datatypes.S l)) as
      (s2 & sn2 & d2 & free2 & A & E2 & Hc2 & Hp2 & [K1 K2 K3 K4 K5 K6 K7 K9 K10 K8]);
      [done| |done..|].
    { rewrite Hp in Hlen. simpl in Hlen. lia. }
    exists s2, sn2, d2, free2, (b :: A). split; [by rewrite E1|]. split; [done|].
    split; [by rewrite Hp, Hp2|].
    assert (El : (l + Datatypes.S n)%nat = (Datatypes.S l + n)%nat) by lia.
    split; rewrite ?El.
    + congruence.
    + congruence.
    + rewrite K3, G3, G1, set_set_word by apply get_word_u32. done.
    + simpl. lia.
    + congruence.
    + rewrite K6, G6. simpl. by rewrite Permutation_middle.
    + intros o Ho Hlt. rewrite K7 by done. pose proof (pow128_S l). pose proof (pow128_pos l).
      case_decide as Hd1; [by rewrite G7|]. rewrite decide_False by lia. done.
    + intros o Ho Hlt. pose proof (pow128_S l). rewrite K9 by (done || lia). by apply G9.
    + intros o Ho _ Hrange. destruct n as [|n].
      * rewrite !Nat.add_0_r in *. rewrite K9 by (done || lia). by apply G10; [|lia|].
      * by apply K10; [|lia|].
    + intros x Hx Hxf. pose proof Hxf as Hxf'. rewrite Hp in Hxf'.
      rewrite K8; [by apply G8|done|set_solver +Hxf'].
Qed.

Section walk.
Context (off : Z) (blk : block) (why : string).
Context (Hoff : is_u32 off) (Hblk : wf_block blk).

Record walk_pre (s : S) (sn : treedisk_snapshot) (d : gmap Z block) (free : list Z)
    (l : nat) (P : block) (idx : nat) (poff : Z) : Prop := {
  wr_core : core s sn d free;
  wr_P : wf_block P;
  wr_idx : (idx < nrefs)%nat;
  wr_poff : 0 < poff < N;
  wr_pfree : poff ∉ free;
  wr_nodup : NoDup (free ++ tree_blocks d l (get_word P idx));
  wr_range x : x ∈ tree_blocks d l (get_word P idx) → 0 < x < N;
  wr_ptree : poff ∉ tree_blocks d l (get_word P idx);
}.

Definition walk_prog (l : nat) sn (P : block) (idx : nat) (poff : Z) : M S unit :=
  x ← write_walk uninit ts off l sn P idx poff;
  write_or_panic ts x blk why.

Definition walk_ok (l : nat) : Prop := ∀ s sn d free P idx poff,
  walk_pre s sn d free l P idx poff →
  (tree_need d l (get_word P idx) off ≤ length free)%nat →
  ∃ b' s' d' free' A,
    walk_prog l sn P idx poff s = Ret tt s' ∧
    walk_post d free l (get_word P idx) off blk P idx poff b' s' d' free' A.

Lemma free_u32 s sn d free b : core s sn d free → b ∈ free → is_u32 b.
Proof. intros Hc Hb. pose proof (core_range _ _ _ _ Hc b Hb). unfold is_u32. lia. Qed.

Lemma hole_need d l (free : list Z) :
  (tree_need d l 0 off ≤ length free)%nat → free ≠ [].
Proof. rewrite tree_need_0. intros H ->. simpl in H. lia. Qed.

(** One round of the walk, up to the recursive call. *)
Lemma walk_step_fresh l s sn d free P idx poff :
  walk_pre s sn d free l P idx poff → get_word P idx = 0 → free ≠ [] →
  ∃ b sn1 s1 d1 free1,
    walk_prog l sn P idx poff s =
      match l with
      | O => write_or_panic ts b blk why s1
      | Datatypes.S l => walk_prog l sn1 null_block (ref_index off l) b s1
      end ∧
    core s1 sn1 d1 free1 ∧ free ≡ₚ b :: free1 ∧ NoDup (b :: free1) ∧ 0 < b < N ∧
    b ≠ poff ∧ poff ∉ free1 ∧
    n_inodeblocks (d1 !!! 0) = n_inodeblocks (d !!! 0) ∧
    d1 !!! poff = set_word P idx b ∧
    (∀ x, x ≠ 0 → x ∉ free1 → x ≠ poff → d1 !!! x = d !!! x).
Proof.
  intros [Hc HP Hi Hpo Hpf _ _ _] H0 Hne.
  destruct (next_block_fresh s sn d free P idx poff) as
    (b & sn1 & s1 & d1 & free1 & E & Hc1 & Hp & Hn & Hd & Hfr); [done..|].
  exists b, sn1, s1, d1, free1.
  assert (Hb : b ∈ free) by (rewrite Hp; set_solver +).
  split; [|split; [done|]; split; [done|]].
  { unfold walk_prog. destruct l; simpl; unfold mbind, M_bind; by rewrite E. }
  split; [rewrite <-Hp; apply Hc|]. split; [by apply (core_range _ _ _ _ Hc)|].
  split; [by intros ->|]. split; [|done].
  intros H. apply Hpf. rewrite Hp. set_solver +H.
Qed.

Lemma walk_fresh_leaf s sn d free P idx poff :
  walk_pre s sn d free 0 P idx poff → get_word P idx = 0 →
  (tree_need d 0 (get_word P idx) off ≤ length free)%nat →
  ∃ b' s' d' free' A,
    walk_prog 0 sn P idx poff s = Ret tt s' ∧
    walk_post d free 0 (get_word P idx) off blk P idx poff b' s' d' free' A.
Proof.
  intros Hpre H0 Hneed.
  assert (Hne : free ≠ []) by (rewrite H0 in Hneed; by eapply hole_need).
  destruct (walk_step_fresh 0 s sn d free P idx poff Hpre H0 Hne) as
    (b & sn1 & s1 & d1 & free1 & -> & Hc1 & Hp & Hnd & Hb & Hbp & _ & Hn & Hd & Hfr).
  apply NoDup_cons in Hnd as [Hbf _].
  destruct (core_write s1 sn1 d1 free1 b blk why) as (s2 & E2 & Hc2); [done..|].
  exists b, s2, (<[b:=blk]> d1), free1, [b]. split; [done|]. rewrite H0.
  destruct (tree_leaf (<[b:=blk]> d1) b ltac:(lia)) as (Hl1 & Hl2 & _).
  split; simpl.
  - apply Hc2.
  - apply Hc2.
  - by rewrite lookup_total_insert_ne by lia.
  - done.
  - done.
  - lia.
  - unfold is_u32; lia.
  - done.
  - rewrite (proj2 (Z.eqb_neq b 0)) by lia. done.
  - intros o Ho. rewrite !Z.mod_1_r, (proj2 (Z.eqb_neq b 0)) by lia.
    rewrite decide_True by done. apply lookup_total_insert_eq.
  - rewrite lookup_total_insert_ne by done. done.
  - intros x Hx Hxf _ Hxp.
    assert (x ≠ b ∧ x ∉ free1) as [??] by (rewrite Hp in Hxf; set_solver +Hxf).
    rewrite lookup_total_insert_ne by done. by apply Hfr.
Qed.

(** The recursive call below a hole works on another hole. *)
Lemma walk_pre_hole l s sn d free b :
  core s sn d free → 0 < b < N → b ∉ free →
  get_word null_block (ref_index off l) = 0 ∧
  walk_pre s sn d free l null_block (ref_index off l) b.
Proof.
  intros Hc Hb Hbf.
  assert (Hz : get_word null_block (ref_index off l) = 0) by apply get_word_null, ref_index_lt.
  split; [done|].
  split; rewrite ?Hz, ?tree_blocks_0, ?app_nil_r; try done; [apply ref_index_lt|apply Hc|..].
  - intros x Hx. by apply elem_of_nil in Hx.
  - apply not_elem_of_nil.
Qed.

Lemma walk_fresh_node l s sn d free P idx poff :
  walk_ok l →
  walk_pre s sn d free (Datatypes.S l) P idx poff → get_word P idx = 0 →
  (tree_need d (Datatypes.S l) (get_word P idx) off ≤ length free)%nat →
  ∃ b' s' d' free' A,
    walk_prog (Datatypes.S l) sn P idx poff s = Ret tt s' ∧
    walk_post d free (Datatypes.S l) (get_word P idx) off blk P idx poff b' s' d' free' A.
Proof.
  intros IH Hpre H0 Hneed.
  assert (Hne : free ≠ []) by (rewrite H0 in Hneed; by eapply hole_need).
  destruct (walk_step_fresh _ s sn d free P idx poff Hpre H0 Hne) as
    (b & sn1 & s1 & d1 & free1 & -> & Hc1 & Hp & Hnd & Hb & Hbp & Hpf1 & Hn & Hd & Hfr).
  apply NoDup_cons in Hnd as [Hbf Hnd].
  destruct (walk_pre_hole l s1 sn1 d1 free1 b Hc1 Hb Hbf) as [Hz Hpre1].
  destruct (IH s1 sn1 d1 free1 null_block (ref_index off l) b Hpre1) as
    (c & s2 & d2 & free2 & A & E & [Wh Wf Wn Wt Wc Wne Wu _ Wb Wl Wp Wfr]).
  { rewrite Hz, tree_need_0. rewrite H0, tree_need_0, Hp in Hneed. simpl in Hneed. lia. }
  rewrite Hz in *. rewrite tree_blocks_0 in *. rewrite decide_True in Wp by done.
  exists b, s2, d2, free2, (b :: A). split; [done|]. rewrite H0.
  split.
  - done.
  - done.
  - congruence.
  - rewrite Hp, Wt. done.
  - simpl. by rewrite Wc, tree_need_0.
  - lia.
  - unfold is_u32; lia.
  - done.
  - rewrite (single_ref_blocks d2 l b _ c) by (done || lia || apply ref_index_lt).
    rewrite Wb, tree_blocks_0. done.
  - intros o Ho.
    rewrite (single_ref_lookup d2 l b _ c) by (done || lia || apply ref_index_lt).
    rewrite tree_lookup_0, Wl, tree_lookup_0 by done.
    pose proof (same_path_S o off l Ho Hoff).
    repeat case_decide; tauto.
  - rewrite decide_True by done. pose proof (wr_poff _ _ _ _ _ _ _ _ Hpre).
    rewrite Wfr; [done|lia|done|apply not_elem_of_nil|done].
  - intros x Hx Hxf _ Hxp. rewrite Hp in Hxf.
    rewrite Wfr; [apply Hfr|done|..]; set_solver +Hxf Hx Hxp.
Qed.

Lemma walk_old_leaf s sn d free P idx poff :
  walk_pre s sn d free 0 P idx poff → get_word P idx ≠ 0 →
  ∃ b' s' d' free' A,
    walk_prog 0 sn P idx poff s = Ret tt s' ∧
    walk_post d free 0 (get_word P idx) off blk P idx poff b' s' d' free' A.
Proof.
  intros [Hc HP Hi Hpo Hpf Hnd Hr Hpt] H0.
  set (b := get_word P idx) in *.
  destruct (tree_leaf d b H0) as (T1 & T2 & T3). rewrite T1 in *.
  assert (Hb : 0 < b < N) by (apply Hr; set_solver +).
  assert (Hbf : b ∉ free) by (apply NoDup_app in Hnd as (_ & Hnd & _); set_solver +Hnd).
  destruct (core_write s sn d free b blk why) as (s1 & E1 & Hc1); [done..|].
  exists b, s1, (<[b:=blk]> d), free, [].
  split.
  { unfold walk_prog. simpl. unfold next_block. fold b.
    rewrite (proj2 (Z.eqb_neq b 0)) by done. exact E1. }
  destruct (tree_leaf (<[b:=blk]> d) b H0) as (U1 & U2 & _).
  split; rewrite ?T1, ?T3, ?U1, ?(decide_False (P := b = 0)) by done; try done.
  - apply Hc1.
  - apply Hc1.
  - by rewrite lookup_total_insert_ne by lia.
  - apply get_word_u32.
  - intros o Ho. rewrite U2, !Z.mod_1_r, decide_True by done. apply lookup_total_insert_eq.
  - apply lookup_total_insert_ne. set_solver +Hpt.
  - intros x Hx Hxf Hxt _. apply lookup_total_insert_ne. set_solver +Hxt.
Qed.

(** The subtree below the reference the walk takes, and its siblings. *)
Lemma walk_pre_child l s sn d free P idx poff (b := get_word P idx) :
  walk_pre s sn d free (Datatypes.S l) P idx poff → b ≠ 0 →
  0 < b < N ∧ wf_block (d !!! b) ∧
  (∀ s1, holds s1 d →
    walk_pre s1 sn d free l (d !!! b) (ref_index off l) b) ∧
  (∀ x, x ∈ (delete (ref_index off l) (words_of_block (d !!! b)) ≫= tree_blocks d l) →
    x ≠ b ∧ x ∉ free ∧ 0 < x < N ∧
    x ∉ tree_blocks d l (get_word (d !!! b) (ref_index off l))).
Proof.
  intros [Hc HP Hi Hpo Hpf Hnd Hr Hpt] H0. fold b in Hnd, Hr, Hpt.
  assert (Hb : 0 < b < N) by (by apply Hr, tree_blocks_root).
  assert (Hwf : wf_block (d !!! b)) by (eapply core_wf; [done|lia]).
  pose proof (tree_blocks_split d l b (ref_index off l) H0 Hwf (ref_index_lt _ _)) as Hs.
  rewrite Hs in Hnd.
  apply NoDup_app in Hnd as (Hnd1 & Hnd2 & Hnd3).
  apply NoDup_cons in Hnd3 as [Hnd3 Hnd4].
  apply NoDup_app in Hnd4 as (Hnd4 & Hnd5 & _).
  split; [done|]. split; [done|]. split.
  - intros s1 Hs1. destruct Hc as [_ Hsb Hf Hndf Hrf].
    split; [by split|done|apply ref_index_lt|done|..].
    + intros H. apply (Hnd2 _ H). set_solver +.
    + apply NoDup_app. split; [done|]. split; [|done].
      intros x Hx. specialize (Hnd2 x Hx). set_solver +Hnd2.
    + intros x Hx. apply Hr. rewrite Hs. set_solver +Hx.
    + set_solver +Hnd3.
  - intros x Hx. split; [|split; [|split]].
    + intros ->. set_solver +Hnd3 Hx.
    + intros Hxf. specialize (Hnd2 x Hxf). set_solver +Hnd2 Hx.
    + apply Hr. rewrite Hs. set_solver +Hx.
    + intros Hx'. by apply (Hnd5 x).
Qed.

(** An indirect block after the walk below it: the reference [i] became
    [c'], whether the block was written or not. *)
Lemma ref_replaced blk0 blk1 i c' :
  wf_block blk0 → (i < nrefs)%nat → is_u32 c' →
  (get_word blk0 i ≠ 0 → c' = get_word blk0 i) →
  blk1 = (if decide (get_word blk0 i = 0) then set_word blk0 i c' else blk0) →
  words_of_block blk1 = <[i:=c']> (words_of_block blk0) ∧
  get_word blk1 i = c' ∧
  (∀ j, j ≠ i → get_word blk1 j = get_word blk0 j).
Proof.
  intros Hwf Hi Hc Hsame ->. case_decide as H0.
  - split; [by apply words_of_set_word|]. split; [by apply get_set_word_eq|].
    intros j Hj. by apply get_set_word_ne.
  - specialize (Hsame H0) as ->. split; [|done].
    symmetry. by apply list_insert_id, words_lookup.
Qed.

Lemma walk_step_old l s sn d P idx poff s1 :
  get_word P idx ≠ 0 →
  below_read ts (get_word P idx) uninit s = Ret (0, d !!! get_word P idx) s1 →
  walk_prog (Datatypes.S l) sn P idx poff s =
  walk_prog l sn (d !!! get_word P idx) (ref_index off l) (get_word P idx) s1.
Proof.
  intros H0 E1. unfold walk_prog. simpl. unfold next_block.
  rewrite (proj2 (Z.eqb_neq _ 0)) by done. unfold mbind, M_bind. simpl.
  unfold mbind, M_bind. by rewrite E1.
Qed.

Lemma walk_old_node l s sn d free P idx poff :
  walk_ok l →
  walk_pre s sn d free (Datatypes.S l) P idx poff → get_word P idx ≠ 0 →
  (tree_need d (Datatypes.S l) (get_word P idx) off ≤ length free)%nat →
  ∃ b' s' d' free' A,
    walk_prog (Datatypes.S l) sn P idx poff s = Ret tt s' ∧
    walk_post d free (Datatypes.S l) (get_word P idx) off blk P idx poff b' s' d' free' A.
Proof.
  intros IH Hpre H0 Hneed. set (b := get_word P idx) in *.
  destruct (walk_pre_child l s sn d free P idx poff Hpre H0) as (Hb & Hwf & Hchild & Hsib).
  fold b in Hb, Hwf, Hchild, Hsib. set (i := ref_index off l) in *.
  assert (Hi : (i < nrefs)%nat) by apply ref_index_lt.
  destruct (below_read_spec s d b uninit) as (s1 & E1 & Hh1); [apply Hpre|lia|].
  specialize (Hchild s1 Hh1). rewrite tree_need_S in Hneed by done.
  destruct (IH _ _ _ _ _ _ _ Hchild Hneed) as
    (c & s2 & d2 & free2 & A & E & [Wh Wf Wn Wt Wc Wne Wu Ws Wb Wl Wp Wfr]).
  destruct (ref_replaced (d !!! b) (d2 !!! b) i c Hwf Hi Wu Ws Wp) as (R1 & R2 & R3).
  set (W := words_of_block (d !!! b)) in *.
  assert (Hsame : ∀ x, x ∈ (delete i W ≫= tree_blocks d l) → d2 !!! x = d !!! x).
  { intros x Hx. destruct (Hsib x Hx) as (Hx1 & Hx2 & Hx3 & Hx4). apply Wfr; [lia|done..]. }
  pose proof (tree_blocks_split d l b i H0 Hwf Hi) as Hs. fold W in Hs.
  exists b, s2, d2, free2, A. split; [rewrite <-E; by apply walk_step_old|].
  split; rewrite ?(decide_False (P := b = 0)) by done; try done.
  - by rewrite tree_need_S.
  - apply get_word_u32.
  - rewrite Hs, tree_blocks_S, R1 by done.
    rewrite (bind_perm_split _ _ i c) by
      (apply list_lookup_insert_eq; unfold W; by rewrite words_of_block_length).
    rewrite list_delete_insert, Wb.
    rewrite (bind_ext_in (tree_blocks d2 l) (tree_blocks d l) (delete i W)).
    + rewrite <-(assoc_L app). by rewrite Permutation_middle.
    + intros x Hx. apply tree_blocks_frame. intros y Hy. apply Hsame.
      apply list_elem_of_bind. eauto.
  - intros o Ho. rewrite !tree_lookup_S by done.
    pose proof (same_path_S o off l Ho Hoff) as Hpath. fold i in Hpath.
    destruct (decide (ref_index o l = i)) as [Ei|Ei].
    + rewrite Ei, R2, Wl by done. repeat case_decide; tauto.
    + rewrite R3 by done. rewrite decide_False by tauto.
      assert (Hin : ∀ x, x ∈ tree_blocks d l (get_word (d !!! b) (ref_index o l)) →
                  x ∈ (delete i W ≫= tree_blocks d l)).
      { intros x Hx. apply list_elem_of_bind. eexists. split; [done|].
        eapply elem_of_delete_ne; [apply words_lookup; [done|apply ref_index_lt]|done]. }
      apply tree_lookup_frame; [|by auto].
      intros x Hx. eapply core_wf; [apply Hpre|]. specialize (Hsib x (Hin x Hx)). lia.
  - apply Wfr.
    + pose proof (wr_poff _ _ _ _ _ _ _ _ Hpre). lia.
    + apply Hpre.
    + intros H. apply (wr_ptree _ _ _ _ _ _ _ _ Hpre). fold b. rewrite Hs. set_solver +H.
    + intros ->. apply (wr_ptree _ _ _ _ _ _ _ _ Hpre). by apply tree_blocks_root.
  - intros x Hx Hxf Hxt Hxp. rewrite Hs in Hxt. apply Wfr; [done|done|..]; set_solver +Hxt.
Qed.

(** The walk of [treedisk_write] returns when the free list holds as many
    blocks as the path lacks, with the effect of [walk_post]. *)
Lemma write_walk_spec l : walk_ok l.
Proof.
  induction l as [|l IH]; intros s sn d free P idx poff Hpre Hneed;
    destruct (decide (get_word P idx = 0)).
  - by apply walk_fresh_leaf.
  - by apply (walk_old_leaf s sn d free).
  - by apply walk_fresh_node.
  - by apply walk_old_node.
Qed.

(** With fewer free blocks than the path lacks, the walk panics. *)
Lemma write_walk_full l : ∀ s sn d free P idx poff,
  walk_pre s sn d free l P idx poff →
  (length free < tree_need d l (get_word P idx) off)%nat →
  ∃ w s', walk_prog l sn P idx poff s = Fatal w s'.
Proof.
  induction l as [|l IH]; intros s sn d free P idx poff Hpre Hneed;
    (destruct (decide (get_word P idx = 0)) as [H0|H0];
     [destruct (decide (free = [])) as [->|Hne];
      [destruct (alloc_full s sn d) as [w E]; [apply Hpre|];
       exists w, s; unfold walk_prog; simpl; unfold next_block;
       rewrite H0; unfold mbind, M_bind; simpl; unfold mbind, M_bind; by rewrite E|]|]).
  - exfalso. rewrite H0, tree_need_0 in Hneed. destruct free; [done|simpl in Hneed; lia].
  - exfalso. destruct (tree_leaf d _ H0) as (_ & _ & E). rewrite E in Hneed. lia.
  - destruct (walk_step_fresh _ s sn d free P idx poff Hpre H0 Hne) as
      (b & sn1 & s1 & d1 & free1 & -> & Hc1 & Hp & Hnd & Hb & _).
    apply NoDup_cons in Hnd as [Hbf _].
    destruct (walk_pre_hole l s1 sn1 d1 free1 b Hc1 Hb Hbf) as [Hz Hpre1].
    apply (IH _ _ _ _ _ _ _ Hpre1).
    rewrite H0, tree_need_0, Hp in Hneed. rewrite Hz, tree_need_0. simpl in Hneed. lia.
  - destruct (walk_pre_child l s sn d free P idx poff Hpre H0) as (Hb & _ & Hchild & _).
    destruct (below_read_spec s d (get_word P idx) uninit) as (s1 & E1 & Hh1);
      [apply Hpre|lia|].
    rewrite tree_need_S in Hneed by done.
    destruct (IH _ _ _ _ _ _ _ (Hchild s1 Hh1) Hneed) as (w & s2 & E2).
    exists w, s2. rewrite <-E2. by apply walk_step_old.
Qed.
End walk.

Lemma grow_levels_full n : ∀ s sn d free l,
  core s sn d free → (length free < n)%nat →
  wf_block (inodeblock sn) → (root_idx (inode sn) < nrefs)%nat →
  NoDup (free ++ tree_blocks d l (inode_root sn)) →
  (∀ x, x ∈ tree_blocks d l (inode_root sn) → 0 < x < N) →
  ∃ w s', grow_levels uninit ts n sn s = Fatal w s'.
Proof.
  induction n as [|n IH]; intros s sn d free l Hc Hlen Hib Hidx Hnd Hr; [lia|].
  destruct (decide (free = [])) as [->|Hne].
  - destruct (alloc_full s sn d Hc) as [w E]. exists w, s. simpl. by mrun E.
  - destruct (grow_step s sn d free l) as
      (s1 & sn1 & d1 & free1 & b & E1 & Hc1 & Hp & HG); [done..|].
    destruct (grow_step_next s sn d free l sn1 d1 free1 b) as (N1 & N2 & N3 & N4);
      [done..|].
    rewrite E1. apply (IH s1 sn1 d1 free1 (Datatypes.S l)); [done| |done..].
    rewrite Hp in Hlen. simpl in Hlen. lia.
Qed.
End ops.
