(* ===== verification/TreediskFs.v ===== *)
(** * The tree file system: correctness

    The invariant [fs_inv] of a file system on the disk and the behaviour of
    [treedisk_read], [treedisk_write], [treedisk_getsize] and
    [treedisk_create] on every branch, as operations on files: a file is its
    number of blocks and the contents of each, whatever tree stores it. *)

From S2P Require Import Prelude Layout Blocks Store Treedisk Tree TreediskOps.

(** ** Reading a file system off a disk *)

Definition ino_block (ino : Z) : Z := 1 + ino / INODES_PER_BLOCK.
Definition ino_slot (ino : Z) : nat := Z.to_nat (ino mod INODES_PER_BLOCK).

Definition nib (d : gmap Z block) : Z := n_inodeblocks (d !!! 0).
Definition ninode (d : gmap Z block) : Z := nib d * INODES_PER_BLOCK.

Definition root_of (d : gmap Z block) (ino : Z) : Z :=
  get_word (d !!! ino_block ino) (root_idx (ino_slot ino)).
Definition nblocks_of (d : gmap Z block) (ino : Z) : Z :=
  get_word (d !!! ino_block ino) (nblocks_idx (ino_slot ino)).
Definition depth_of (d : gmap Z block) (ino : Z) : nat := levels (nblocks_of d ino).

(** The blocks a file occupies and the contents of its block [off]. *)
Definition file_blocks (d : gmap Z block) (ino : Z) : list Z :=
  tree_blocks d (depth_of d ino) (root_of d ino).
Definition file_block (d : gmap Z block) (ino off : Z) : block :=
  tree_lookup d (depth_of d ino) (root_of d ino) off.

(** The blocks of all files. *)
Definition used_blocks (d : gmap Z block) : list Z := seqZ 0 (ninode d) ≫= file_blocks d.

(** How many blocks a write has to allocate. *)
Definition write_need (d : gmap Z block) (ino off : Z) : nat :=
  let l := depth_of d ino in
  let l' := levels (Z.max (nblocks_of d ino) (off + 1)) in
  if (l <? l')%nat then (l' - l + l')%nat else tree_need d l (root_of d ino) off.

(** The invariant.  The data blocks of the disk (the blocks after the
    superblock and the inode blocks) are partitioned: each is on the free list
    or in the tree of one file, exactly once.  Within the reach of a file's
    tree, the blocks past its end read as null blocks. *)
Record fs_inv (N : Z) (d : gmap Z block) (free : list Z) : Prop := {
  fi_wf : disk_wf N d;
  fi_N : N ≤ 2 ^ 32;
  fi_nib : 0 < nib d < N;
  fi_ninode : ninode d < 2 ^ 32;
  fi_free : free_rep d (free_list (d !!! 0)) free;
  fi_part : free ++ used_blocks d ≡ₚ seqZ (nib d + 1) (N - nib d - 1);
  fi_tail ino off : 0 ≤ ino < ninode d → is_u32 off →
    nblocks_of d ino ≤ off → off < 128 ^ Z.of_nat (depth_of d ino) →
    file_block d ino off = null_block;
}.

(** ** Consequences of the invariant *)

Section inv.
Context {N : Z} {d : gmap Z block} {free : list Z} (Hinv : fs_inv N d free).

Lemma inv_nodup : NoDup (free ++ used_blocks d).
Proof. rewrite (fi_part _ _ _ Hinv). apply NoDup_seqZ. Qed.

Lemma inv_range x : x ∈ free ++ used_blocks d → nib d < x < N.
Proof. rewrite (fi_part _ _ _ Hinv), elem_of_seqZ. lia. Qed.

Lemma ino_lookup ino :
  0 ≤ ino < ninode d → seqZ 0 (ninode d) !! Z.to_nat ino = Some ino.
Proof. intros H. rewrite lookup_seqZ. lia. Qed.

(** One file against the rest of the disk. *)
Lemma used_split ino :
  0 ≤ ino < ninode d →
  used_blocks d ≡ₚ file_blocks d ino ++
    (delete (Z.to_nat ino) (seqZ 0 (ninode d)) ≫= file_blocks d).
Proof. intros H. by apply bind_perm_split, ino_lookup. Qed.

Lemma file_nodup ino : 0 ≤ ino < ninode d → NoDup (free ++ file_blocks d ino).
Proof.
  intros H. pose proof inv_nodup as Hnd.
  rewrite (used_split ino H), (assoc_L app) in Hnd. by apply NoDup_app in Hnd as [? _].
Qed.

Lemma file_range ino x : 0 ≤ ino < ninode d → x ∈ file_blocks d ino → nib d < x < N.
Proof.
  intros H Hx. apply inv_range. rewrite (used_split ino H). set_solver +Hx.
Qed.

Lemma free_range x : x ∈ free → nib d < x < N.
Proof. intros Hx. apply inv_range. set_solver +Hx. Qed.

(** Another file's blocks are neither free nor this file's. *)
Lemma other_blocks ino ino' x :
  0 ≤ ino < ninode d → 0 ≤ ino' < ninode d → ino ≠ ino' →
  x ∈ file_blocks d ino' → x ∉ free ∧ x ∉ file_blocks d ino ∧ nib d < x < N.
Proof.
  intros H H' Hne Hx. pose proof inv_nodup as Hnd.
  rewrite (used_split ino H) in Hnd. apply NoDup_app in Hnd as (_ & Hnd1 & Hnd).
  apply NoDup_app in Hnd as (_ & Hnd2 & _).
  assert (Hin : x ∈ delete (Z.to_nat ino) (seqZ 0 (ninode d)) ≫= file_blocks d).
  { apply list_elem_of_bind. eexists. split; [done|].
    eapply elem_of_delete_ne; [by apply ino_lookup|lia]. }
  split; [intros Hf; specialize (Hnd1 x Hf); set_solver +Hnd1 Hin|].
  split; [intros Hf; by apply (Hnd2 x Hf)|]. by eapply file_range.
Qed.

Lemma ino_block_range ino : 0 ≤ ino < ninode d → 1 ≤ ino_block ino ≤ nib d.
Proof.
  intros [H1 H2]. unfold ino_block, ninode, INODES_PER_BLOCK, BLOCK_SIZE in *.
  change (512 / 8) with 64 in *.
  pose proof (Z.div_pos ino 64 H1 eq_refl).
  pose proof (Z.div_lt_upper_bound ino 64 (nib d) eq_refl). lia.
Qed.

Lemma ino_block_wf ino : 0 ≤ ino < ninode d → wf_block (d !!! ino_block ino).
Proof.
  intros H. apply (fi_wf _ _ _ Hinv). pose proof (ino_block_range ino H).
  pose proof (fi_nib _ _ _ Hinv). lia.
Qed.

Lemma ninode_u32 : u32 (n_inodeblocks (d !!! 0) * INODES_PER_BLOCK) = ninode d.
Proof.
  apply u32_small. pose proof (fi_ninode _ _ _ Hinv). pose proof (fi_nib _ _ _ Hinv).
  unfold ninode, nib, INODES_PER_BLOCK, BLOCK_SIZE in *. change (512 / 8) with 64 in *.
  unfold is_u32. lia.
Qed.
End inv.

Lemma elem_of_delete_seqZ n i x :
  0 ≤ i < n → x ∈ delete (Z.to_nat i) (seqZ 0 n) → 0 ≤ x < n ∧ x ≠ i.
Proof.
  intros Hi Hx. pose proof (NoDup_seqZ 0 n) as Hnd.
  assert (Hl : seqZ 0 n !! Z.to_nat i = Some i) by (rewrite lookup_seqZ; lia).
  rewrite (delete_Permutation _ _ _ Hl) in Hnd. apply NoDup_cons in Hnd as [Hni _].
  split; [|by intros ->]. apply (elem_of_seqZ 0 n).
  rewrite (delete_Permutation _ _ _ Hl). set_solver +Hx.
Qed.

Lemma ino_slot_lt ino : (ino_slot ino < 64)%nat.
Proof.
  unfold ino_slot, INODES_PER_BLOCK, BLOCK_SIZE. change (512 / 8) with 64.
  pose proof (Z.mod_pos_bound ino 64 eq_refl). lia.
Qed.

Lemma root_idx_lt ino : (root_idx (ino_slot ino) < nrefs)%nat.
Proof. pose proof (ino_slot_lt ino). unfold root_idx. rewrite nrefs_eq. lia. Qed.

Lemma nblocks_idx_lt ino : (nblocks_idx (ino_slot ino) < nrefs)%nat.
Proof. pose proof (ino_slot_lt ino). unfold nblocks_idx. rewrite nrefs_eq. lia. Qed.

(** Two inodes of the same block use different words of it. *)
Lemma ino_slot_inj ino ino' :
  0 ≤ ino → 0 ≤ ino' →
  ino_block ino = ino_block ino' → ino_slot ino = ino_slot ino' → ino = ino'.
Proof.
  unfold ino_block, ino_slot, INODES_PER_BLOCK, BLOCK_SIZE. change (512 / 8) with 64.
  intros H H' E1 E2.
  pose proof (Z.mod_pos_bound ino 64 eq_refl). pose proof (Z.mod_pos_bound ino' 64 eq_refl).
  apply Z2Nat.inj in E2; [|lia..].
  rewrite (Z.div_mod ino 64), (Z.div_mod ino' 64) by lia. lia.
Qed.

Lemma nblocks_u32 d ino : is_u32 (nblocks_of d ino).
Proof. apply get_word_u32. Qed.

(** ** The operations *)

Section fs.
Context {S : Type} (ts : treedisk_state S) (N : Z) (uninit : block).
Context `{HB : !BlockStore (below ts) (below_ino ts) N}.
Implicit Types d : gmap Z block.

Definition snapshot_of d (ino : Z) : treedisk_snapshot :=
  Snapshot (d !!! 0) (d !!! ino_block ino) (ino_block ino) (ino_slot ino).

Lemma get_snapshot_spec s d free ino :
  holds s d → fs_inv N d free → 0 ≤ ino < ninode d →
  ∃ s', treedisk_get_snapshot uninit ts ino s = Ret (Some (snapshot_of d ino)) s' ∧ holds s' d.
Proof.
  intros Hh Hinv Hino. pose proof (fi_nib _ _ _ Hinv). pose proof (ino_block_range ino Hino).
  destruct (below_read_spec ts N s d 0 uninit Hh) as (s1 & E1 & Hh1); [lia|].
  destruct (below_read_spec ts N s1 d (ino_block ino) uninit Hh1) as (s2 & E2 & Hh2); [lia|].
  exists s2. split; [|done]. unfold treedisk_get_snapshot. mrun E1. simpl.
  rewrite (ninode_u32 Hinv), (proj2 (Z.leb_gt _ _)) by lia. fold (ino_block ino). mrun E2. done.
Qed.

Lemma get_snapshot_none s d free ino :
  holds s d → fs_inv N d free → ninode d ≤ ino →
  ∃ s', treedisk_get_snapshot uninit ts ino s = Ret None s' ∧ holds s' d.
Proof.
  intros Hh Hinv Hino. pose proof (fi_nib _ _ _ Hinv).
  destruct (below_read_spec ts N s d 0 uninit Hh) as (s1 & E1 & Hh1); [lia|].
  exists s1. split; [|done]. unfold treedisk_get_snapshot. mrun E1. simpl.
  by rewrite (ninode_u32 Hinv), (proj2 (Z.leb_le _ _)) by lia.
Qed.

Lemma inv_core s d free ino :
  holds s d → fs_inv N d free → core ts N s (snapshot_of d ino) d free.
Proof.
  intros Hh Hinv. pose proof (inv_nodup Hinv) as Hnd.
  split; [done|done|apply Hinv| |].
  - by apply NoDup_app in Hnd as [? _].
  - intros x Hx. pose proof (free_range Hinv x Hx). pose proof (fi_nib _ _ _ Hinv). lia.
Qed.

(** [read_walk] reads the tree. *)
Lemma read_walk_spec off : ∀ l s d b buf,
  holds s d → (∀ x, x ∈ tree_blocks d l b → 0 < x < N) →
  ∃ s', read_walk ts l b off buf s = Ret (0, tree_lookup d l b off) s' ∧ holds s' d.
Proof.
  induction l as [|l IH]; intros s d b buf Hh Hr; simpl;
    (destruct (Z.eqb_spec b 0) as [->|Hb]; [by eexists|]).
  - destruct (below_read_spec ts N s d b buf Hh) as (s1 & E1 & Hh1).
    { specialize (Hr b (tree_blocks_root d 0 b Hb)). lia. }
    exists s1. split; [|done]. mrun E1. done.
  - pose proof (Hr b (tree_blocks_root d _ b Hb)) as Hbr.
    destruct (below_read_spec ts N s d b buf Hh) as (s1 & E1 & Hh1); [lia|].
    destruct (IH s1 d (get_word (d !!! b) (ref_index off l)) (d !!! b) Hh1) as (s2 & E2 & Hh2).
    { intros x Hx. apply Hr. eapply tree_blocks_child; [done| |apply ref_index_lt|done].
      apply (holds_wf s d); [done|lia]. }
    exists s2. split; [|done]. mrun E1. exact E2.
Qed.

Lemma treedisk_read_spec s d free ino off buf :
  holds s d → fs_inv N d free → 0 ≤ ino < ninode d →
  ∃ s', treedisk_read uninit ts ino off buf s =
          Ret (if off <? nblocks_of d ino then (0, file_block d ino off) else (-1, buf)) s'
        ∧ holds s' d.
Proof.
  intros Hh Hinv Hino. destruct (get_snapshot_spec s d free ino Hh Hinv Hino) as (s1 & E1 & Hh1).
  unfold treedisk_read. mrun E1.
  change (inode_nblocks (snapshot_of d ino)) with (nblocks_of d ino).
  change (inode_root (snapshot_of d ino)) with (root_of d ino).
  destruct (Z.ltb_spec off (nblocks_of d ino)).
  - rewrite (proj2 (Z.leb_gt _ _)) by done. apply read_walk_spec; [done|].
    intros x Hx. pose proof (file_range Hinv ino x Hino Hx). pose proof (fi_nib _ _ _ Hinv). lia.
  - rewrite (proj2 (Z.leb_le _ _)) by done. by exists s1.
Qed.

(** The state of [treedisk_write] before the walk: the inode has its new
    size, the tree its new depth, and the inode block is on the disk. *)
Record prepared d free (ino off : Z) (s' : S) (sn' : treedisk_snapshot) d' free' (A : list Z)
    : Prop := {
  pr_core : core ts N s' sn' d' free';
  pr_inode : inode sn' = ino_slot ino;
  pr_blockno : inode_blockno sn' = ino_block ino;
  pr_disk : d' !!! ino_block ino = inodeblock sn';
  pr_wf : wf_block (inodeblock sn');
  pr_words i : i ≠ root_idx (ino_slot ino) → i ≠ nblocks_idx (ino_slot ino) →
    get_word (inodeblock sn') i = get_word (d !!! ino_block ino) i;
  pr_size : inode_nblocks sn' = Z.max (nblocks_of d ino) (off + 1);
  pr_taken : free ≡ₚ A ++ free';
  pr_nib : nib d' = nib d;
  pr_blocks : tree_blocks d' (levels (inode_nblocks sn')) (inode_root sn') ≡ₚ
    A ++ file_blocks d ino;
  pr_lookup o : is_u32 o → o < 128 ^ Z.of_nat (levels (inode_nblocks sn')) →
    tree_lookup d' (levels (inode_nblocks sn')) (inode_root sn') o =
    if decide (o < 128 ^ Z.of_nat (depth_of d ino)) then file_block d ino o else null_block;
  pr_need : (tree_need d' (levels (inode_nblocks sn')) (inode_root sn') off + length A)%nat =
    write_need d ino off;
  pr_frame x : x ≠ 0 → x ∉ free → x ≠ ino_block ino → d' !!! x = d !!! x;
}.

Definition walk_then_return off blk sn : M S Z :=
  _ ← walk_prog ts uninit off blk "treedisk_write: data block"
        (levels (inode_nblocks sn)) sn (inodeblock sn) (root_idx (inode sn))
        (inode_blockno sn);
  mret 0.

(** The last two statements of [treedisk_write]. *)
Lemma walk_tail off blk l sn s :
  l = levels (inode_nblocks sn) →
  (b ← write_walk uninit ts off l sn (inodeblock sn) (root_idx (inode sn)) (inode_blockno sn);
   _ ← write_or_panic ts b blk "treedisk_write: data block"; mret 0) s =
  walk_then_return off blk sn s.
Proof.
  intros ->. unfold walk_then_return, walk_prog, mbind, M_bind. simpl.
  by destruct (write_walk _ _ _ _ _ _ _ _ _).
Qed.

Lemma set_nblocks_facts d ino n (sn := set_inode_nblocks (snapshot_of d ino) n) :
  wf_block (d !!! ino_block ino) → is_u32 n →
  inode_nblocks sn = n ∧ inode_root sn = root_of d ino ∧ wf_block (inodeblock sn) ∧
  (∀ i, i ≠ nblocks_idx (ino_slot ino) →
     get_word (inodeblock sn) i = get_word (d !!! ino_block ino) i).
Proof.
  intros Hwf Hn. unfold sn, inode_nblocks, inode_root. simpl.
  split; [apply get_set_word_eq; [done|apply nblocks_idx_lt|done]|].
  split; [rewrite get_set_word_ne; [done|done|unfold root_idx, nblocks_idx; lia]|].
  split; [by apply wf_set_word|]. intros i Hi. by apply get_set_word_ne.
Qed.

Lemma prepare_inside s d free ino off blk :
  holds s d → fs_inv N d free → 0 ≤ ino < ninode d → is_u32 off →
  off < nblocks_of d ino →
  ∃ s' sn', prepared d free ino off s' sn' d free [] ∧
    treedisk_write uninit ts ino off blk s = walk_then_return off blk sn' s'.
Proof.
  intros Hh Hinv Hino Hoff Hlt.
  destruct (get_snapshot_spec s d free ino Hh Hinv Hino) as (s1 & E1 & Hh1).
  assert (Emax : Z.max (nblocks_of d ino) (off + 1) = nblocks_of d ino) by lia.
  exists s1, (snapshot_of d ino). split.
  - split; try done; [by apply inv_core|by apply (ino_block_wf Hinv)|..].
    + intros o Ho Hr. by rewrite decide_True.
    + simpl. unfold write_need. rewrite Emax, Nat.ltb_irrefl. apply Nat.add_0_r.
  - unfold treedisk_write. mrun E1.
    change (inode_nblocks (snapshot_of d ino)) with (nblocks_of d ino).
    rewrite (proj2 (Z.leb_gt _ _)) by done. cbv beta iota zeta.
    change (inode_nblocks (snapshot_of d ino)) with (nblocks_of d ino).
    destruct Hoff as [Hoff _].
    rewrite (proj2 (Z.eqb_neq _ _)), Nat.ltb_irrefl by lia. by apply walk_tail.
Qed.

(** A write past the end of the file: new size, new levels, and the inode
    block back to the disk. *)
Section extend.
Context (d : gmap Z block) (free : list Z) (ino off : Z).
Context (Hinv : fs_inv N d free) (Hino : 0 ≤ ino < ninode d).
Context (Hoff : is_u32 off) (Hoff1 : off + 1 < 2 ^ 32) (Hge : nblocks_of d ino ≤ off).

Local Abbreviation l := (depth_of d ino).
Local Abbreviation l' := (count_levels off).
Local Abbreviation sn1 := (set_inode_nblocks (snapshot_of d ino) (off + 1)).

Lemma ext_size : is_u32 (off + 1) ∧ Z.max (nblocks_of d ino) (off + 1) = off + 1.
Proof. unfold is_u32 in *. lia. Qed.

Lemma ext_levels : levels (off + 1) = l' ∧ (l ≤ l')%nat.
Proof.
  rewrite levels_succ by done. split; [done|]. rewrite <-levels_succ by done.
  pose proof (nblocks_u32 d ino). unfold is_u32 in *. apply levels_mono; lia.
Qed.

Lemma ext_need :
  write_need d ino off =
  if (l <? l')%nat then (l' - l + l')%nat else tree_need d l (root_of d ino) off.
Proof. unfold write_need. by rewrite (proj2 ext_size), (proj1 ext_levels). Qed.

Lemma ext_facts :
  inode_nblocks sn1 = off + 1 ∧ inode_root sn1 = root_of d ino ∧
  wf_block (inodeblock sn1) ∧
  (∀ i, i ≠ nblocks_idx (ino_slot ino) →
     get_word (inodeblock sn1) i = get_word (d !!! ino_block ino) i).
Proof. apply set_nblocks_facts; [by apply (ino_block_wf Hinv)|apply ext_size]. Qed.

Lemma ext_grow_pre s1 :
  holds s1 d →
  core ts N s1 sn1 d free ∧ (root_idx (inode sn1) < nrefs)%nat ∧
  NoDup (free ++ tree_blocks d l (inode_root sn1)) ∧
  (∀ x, x ∈ tree_blocks d l (inode_root sn1) → 0 < x < N).
Proof.
  intros Hh. destruct ext_facts as (_ & -> & _).
  split; [destruct (inv_core s1 d free ino Hh Hinv); by split|].
  split; [apply root_idx_lt|]. split; [by apply (file_nodup Hinv)|].
  intros x Hx. pose proof (file_range Hinv ino x Hino Hx). pose proof (fi_nib _ _ _ Hinv). lia.
Qed.

Context (s2 : S) (sn2 : treedisk_snapshot) (d2 : gmap Z block) (free2 A : list Z).
Context (Hc2 : core ts N s2 sn2 d2 free2) (Hp : free ≡ₚ A ++ free2).
Context (HG : grow_post sn1 d free l (l' - l) sn2 d2 A).

Lemma ext_grown :
  inode sn2 = ino_slot ino ∧ inode_blockno sn2 = ino_block ino ∧
  wf_block (inodeblock sn2) ∧ inode_nblocks sn2 = off + 1 ∧
  ino_block ino ∉ free2 ∧ 0 < ino_block ino < N ∧
  (∀ x, x ∈ tree_blocks d2 l' (inode_root sn2) →
     ino_block ino ≠ x ∧ wf_block (d2 !!! x)).
Proof.
  destruct ext_facts as (F1 & F2 & F3 & F4). destruct ext_levels as [_ Hll].
  destruct HG as [G1 G2 G3 _ _ G6 _ _ _ _].
  replace (l + (l' - l))%nat with l' in G6 by lia. rewrite F2 in G6.
  pose proof (ino_block_range ino Hino). pose proof (fi_nib _ _ _ Hinv).
  split; [done|]. split; [done|]. split; [rewrite G3; by apply wf_set_word|]. split.
  { rewrite <-F1. unfold inode_nblocks. rewrite G1, G3.
    apply get_set_word_ne; [apply get_word_u32|unfold root_idx, nblocks_idx; lia]. }
  assert (Hfr : ∀ x, x ∈ A ++ free2 → nib d < x < N).
  { intros x. rewrite <-Hp. apply (free_range Hinv). }
  split; [intros Hx; assert (nib d < ino_block ino < N); [apply Hfr; set_solver +Hx|lia]|].
  split; [lia|]. intros x Hx. rewrite G6 in Hx.
  assert (nib d < x < N).
  { apply elem_of_app in Hx as [Hx|Hx]; [apply Hfr; set_solver +Hx|].
    by apply (file_range Hinv ino). }
  split; [lia|]. eapply core_wf; [exact Hc2|lia].
Qed.

Lemma ext_need_grown :
  (tree_need d2 l' (inode_root sn2) off + length A)%nat = write_need d ino off.
Proof.
  destruct ext_facts as (_ & F2 & _). destruct ext_levels as [_ Hll].
  destruct HG as [_ _ _ G4 _ _ _ G9 G10 _].
  replace (l + (l' - l))%nat with l' in * by lia. rewrite G4, ext_need.
  destruct (count_levels_exit off Hoff) as (X1 & X2 & _).
  destruct (Nat.ltb_spec l l') as [Hlt|Hlt].
  - rewrite G10; [lia|done|lia|]. split; [apply X2; lia|done].
  - assert (Hl : l' = l) by lia. rewrite G9, F2 by (done || by rewrite <-Hl). lia.
Qed.

Lemma ext_prepared s3 (d3 := <[ino_block ino:=inodeblock sn2]> d2) :
  core ts N s3 sn2 d3 free2 → prepared d free ino off s3 sn2 d3 free2 A.
Proof.
  intros Hc3. destruct ext_facts as (F1 & F2 & F3 & F4). destruct ext_levels as [El Hll].
  destruct ext_grown as (K1 & K2 & K3 & K4 & K5 & K6 & K7). pose proof ext_need_grown as Hneed.
  pose proof HG as [G1 G2 G3 G4 G5 G6 G7 _ _ G8].
  replace (l + (l' - l))%nat with l' in * by lia. rewrite F2 in *.
  assert (Hold : ∀ x, x ∈ tree_blocks d2 l' (inode_root sn2) → d3 !!! x = d2 !!! x).
  { intros x Hx. apply lookup_total_insert_ne, K7, Hx. }
  assert (Hwf : ∀ x, x ∈ tree_blocks d2 l' (inode_root sn2) → wf_block (d2 !!! x)).
  { intros x Hx. by apply K7. }
  split; rewrite ?K4, ?El, ?(tree_need_frame d2 d3), ?(tree_blocks_frame d2 d3) by done;
    try done.
  - apply lookup_total_insert_eq.
  - intros i Hi1 Hi2. rewrite G3, get_set_word_ne by (done || apply get_word_u32). by apply F4.
  - symmetry. apply ext_size.
  - unfold nib, d3. by rewrite lookup_total_insert_ne by lia.
  - intros o Ho Hlt. rewrite (tree_lookup_frame d2 d3) by done. by apply G7.
  - intros x Hx Hxf Hxb. unfold d3. rewrite lookup_total_insert_ne by done. by apply G8.
Qed.
End extend.

(** The statements of [treedisk_write] before the walk. *)
Lemma write_grow_eq s s1 d free ino off blk :
  holds s d → fs_inv N d free → 0 ≤ ino < ninode d → is_u32 off → off + 1 < 2 ^ 32 →
  nblocks_of d ino ≤ off →
  treedisk_get_snapshot uninit ts ino s = Ret (Some (snapshot_of d ino)) s1 →
  treedisk_write uninit ts ino off blk s =
  (sn ← grow_levels uninit ts (count_levels off - depth_of d ino)
          (set_inode_nblocks (snapshot_of d ino) (off + 1));
   _ ← write_or_panic ts (inode_blockno sn) (inodeblock sn) "treedisk_write: inode block";
   b ← write_walk uninit ts off (count_levels off) sn (inodeblock sn) (root_idx (inode sn))
         (inode_blockno sn);
   _ ← write_or_panic ts b blk "treedisk_write: data block";
   mret 0) s1.
Proof.
  intros Hh Hinv Hino Hoff Hoff1 Hge E1.
  destruct (ext_size d ino off) as [Hn1 _]; [done..|].
  destruct (ext_levels d ino off) as [_ Hll]; [done..|].
  destruct (ext_facts d free ino off) as (F1 & _); [done..|].
  unfold treedisk_write. mrun E1.
  change (inode_nblocks (snapshot_of d ino)) with (nblocks_of d ino).
  rewrite (proj2 (Z.leb_le _ _)), (u32_small _ Hn1) by done.
  fold (depth_of d ino). cbv beta iota zeta.
  rewrite F1, (proj2 (Z.eqb_neq _ _)) by (unfold is_u32 in Hoff; lia).
  destruct (Nat.ltb_spec (depth_of d ino) (count_levels off)).
  - unfold mbind, M_bind. simpl. by destruct (grow_levels _ _ _ _ _).
  - replace (count_levels off - depth_of d ino)%nat with 0%nat by lia.
    by replace (count_levels off) with (depth_of d ino) by lia.
Qed.

Lemma prepare_extend s d free ino off blk :
  holds s d → fs_inv N d free → 0 ≤ ino < ninode d → is_u32 off → off + 1 < 2 ^ 32 →
  nblocks_of d ino ≤ off →
  (count_levels off - depth_of d ino ≤ length free)%nat →
  ∃ s' sn' d' free' A, prepared d free ino off s' sn' d' free' A ∧
    treedisk_write uninit ts ino off blk s = walk_then_return off blk sn' s'.
Proof.
  intros Hh Hinv Hino Hoff Hoff1 Hge Hlen.
  destruct (get_snapshot_spec s d free ino Hh Hinv Hino) as (s1 & E1 & Hh1).
  destruct (ext_grow_pre d free ino off) with (s1 := s1) as (P1 & P2 & P3 & P4); [done..|].
  destruct (ext_facts d free ino off) as (_ & _ & F3 & _); [done..|].
  destruct (grow_levels_spec ts N uninit (fi_N _ _ _ Hinv) _ s1 _ d free (depth_of d ino)
    P1 Hlen F3 P2 P3 P4) as (s2 & sn2 & d2 & free2 & A & E2 & Hc2 & Hp & HG).
  destruct (ext_grown d free ino off) with (s2 := s2) (sn2 := sn2) (d2 := d2)
    (free2 := free2) (A := A) as (K1 & K2 & K3 & K4 & K5 & K6 & _); [done..|].
  destruct (core_write ts N s2 sn2 d2 free2 (ino_block ino) (inodeblock sn2)
    "treedisk_write: inode block") as (s3 & E3 & Hc3); [done..|].
  exists s3, sn2, (<[ino_block ino:=inodeblock sn2]> d2), free2, A.
  split; [by eapply ext_prepared|].
  rewrite (write_grow_eq s s1 d free) by done. mrun E2. rewrite K2. mrun E3.
  rewrite <-(walk_tail off blk (count_levels off)); [by rewrite K2|].
  rewrite K4. symmetry. by eapply ext_levels.
Qed.

(** What a successful write does to the file system: file [ino] has block
    [off], every other block and every other file is as before, and the
    blocks [A] went from the free list to the file. *)
Record write_post d free (ino off : Z) (blk : block) (s' : S) d' free' (A : list Z) : Prop := {
  wq_holds : holds s' d';
  wq_inv : fs_inv N d' free';
  wq_taken : free ≡ₚ A ++ free';
  wq_count : length A = write_need d ino off;
  wq_ninode : ninode d' = ninode d;
  wq_size : nblocks_of d' ino = Z.max (nblocks_of d ino) (off + 1);
  wq_data o : 0 ≤ o < nblocks_of d' ino →
    file_block d' ino o =
    if decide (o = off) then blk
    else if decide (o < nblocks_of d ino) then file_block d ino o else null_block;
  wq_other ino' : 0 ≤ ino' < ninode d → ino' ≠ ino →
    nblocks_of d' ino' = nblocks_of d ino' ∧
    ∀ o, file_block d' ino' o = file_block d ino' o;
}.

Section after_walk.
Context (d : gmap Z block) (free : list Z) (ino off : Z) (blk : block).
Context (Hinv : fs_inv N d free) (Hino : 0 ≤ ino < ninode d).
Context (Hoff : is_u32 off) (Hoff1 : off + 1 < 2 ^ 32) (Hblk : wf_block blk).
Context (s1 : S) (sn1 : treedisk_snapshot) (d1 : gmap Z block) (free1 A1 : list Z).
Context (Hprep : prepared d free ino off s1 sn1 d1 free1 A1).

Local Abbreviation l' := (levels (inode_nblocks sn1)).

Lemma prepared_ino : 0 < ino_block ino < N ∧ ino_block ino ≤ nib d.
Proof.
  pose proof (ino_block_range ino Hino). pose proof (fi_nib _ _ _ Hinv). lia.
Qed.

Lemma prepared_perm :
  free1 ++ tree_blocks d1 l' (inode_root sn1) ≡ₚ free ++ file_blocks d ino.
Proof.
  rewrite (pr_blocks _ _ _ _ _ _ _ _ _ Hprep), (pr_taken _ _ _ _ _ _ _ _ _ Hprep).
  rewrite !(assoc_L app). by rewrite (Permutation_app_comm free1).
Qed.

Lemma prepared_in x :
  x ∈ free1 ∨ x ∈ tree_blocks d1 l' (inode_root sn1) → x ∈ free ++ file_blocks d ino.
Proof. rewrite <-prepared_perm, elem_of_app. done. Qed.

Lemma prepared_range x :
  x ∈ free1 ∨ x ∈ tree_blocks d1 l' (inode_root sn1) → nib d < x < N.
Proof.
  intros Hx%prepared_in. apply elem_of_app in Hx as [Hx|Hx].
  - by apply (free_range Hinv).
  - by apply (file_range Hinv ino).
Qed.

Lemma prepared_walk_pre :
  walk_pre ts N s1 sn1 d1 free1 l' (inodeblock sn1) (root_idx (ino_slot ino)) (ino_block ino).
Proof.
  pose proof prepared_ino as [Hib1 Hib2]. pose proof (fi_nib _ _ _ Hinv).
  assert (Er : get_word (inodeblock sn1) (root_idx (ino_slot ino)) = inode_root sn1)
    by (unfold inode_root; by rewrite (pr_inode _ _ _ _ _ _ _ _ _ Hprep)).
  split; rewrite ?Er; [apply Hprep|apply Hprep|apply root_idx_lt|done|..].
  - intros Hx. pose proof (prepared_range _ (or_introl Hx)). lia.
  - rewrite prepared_perm. by apply (file_nodup Hinv).
  - intros x Hx. pose proof (prepared_range _ (or_intror Hx)). lia.
  - intros Hx. pose proof (prepared_range _ (or_intror Hx)). lia.
Qed.

Context (b' : Z) (s2 : S) (d2 : gmap Z block) (free2 A2 : list Z).
Context (Hpost : walk_post ts N d1 free1 l' (inode_root sn1) off blk (inodeblock sn1)
                   (root_idx (ino_slot ino)) (ino_block ino) b' s2 d2 free2 A2).

Lemma after_words :
  get_word (d2 !!! ino_block ino) (root_idx (ino_slot ino)) = b' ∧
  ∀ i, i ≠ root_idx (ino_slot ino) →
    get_word (d2 !!! ino_block ino) i = get_word (inodeblock sn1) i.
Proof.
  assert (Er : get_word (inodeblock sn1) (root_idx (ino_slot ino)) = inode_root sn1)
    by (unfold inode_root; by rewrite (pr_inode _ _ _ _ _ _ _ _ _ Hprep)).
  destruct (ref_replaced (inodeblock sn1) (d2 !!! ino_block ino)
    (root_idx (ino_slot ino)) b') as (_ & H1 & H2); rewrite ?Er.
  - apply Hprep.
  - apply root_idx_lt.
  - apply Hpost.
  - apply Hpost.
  - rewrite (wp_parent _ _ _ _ _ _ _ _ _ _ _ _ _ _ _ _ Hpost).
    by rewrite (pr_disk _ _ _ _ _ _ _ _ _ Hprep).
  - done.
Qed.

(** Blocks that are neither free nor of this file keep their contents. *)
Lemma after_frame x :
  x ≠ 0 → x ∉ free → x ∉ file_blocks d ino → x ≠ ino_block ino → d2 !!! x = d !!! x.
Proof.
  intros Hx Hf Ht Hib.
  assert (Hn : ¬ (x ∈ free1 ∨ x ∈ tree_blocks d1 l' (inode_root sn1))).
  { intros [Hin|Hin]%prepared_in%elem_of_app; done. }
  rewrite (wp_frame _ _ _ _ _ _ _ _ _ _ _ _ _ _ _ _ Hpost) by tauto.
  by apply (pr_frame _ _ _ _ _ _ _ _ _ Hprep).
Qed.

Lemma after_nib : nib d2 = nib d.
Proof.
  unfold nib. rewrite (wp_nib _ _ _ _ _ _ _ _ _ _ _ _ _ _ _ _ Hpost).
  apply (pr_nib _ _ _ _ _ _ _ _ _ Hprep).
Qed.

Lemma after_ino :
  root_of d2 ino = b' ∧ nblocks_of d2 ino = inode_nblocks sn1 ∧
  nblocks_of d2 ino = Z.max (nblocks_of d ino) (off + 1).
Proof.
  destruct after_words as [H1 H2]. split; [done|].
  assert (E : nblocks_of d2 ino = inode_nblocks sn1).
  { unfold nblocks_of, inode_nblocks. rewrite H2 by (unfold root_idx, nblocks_idx; lia).
    by rewrite (pr_inode _ _ _ _ _ _ _ _ _ Hprep). }
  split; [done|]. rewrite E. apply Hprep.
Qed.

(** The other files: same inode, same tree. *)
Lemma after_other_inode ino' :
  0 ≤ ino' < ninode d → ino' ≠ ino →
  root_of d2 ino' = root_of d ino' ∧ nblocks_of d2 ino' = nblocks_of d ino'.
Proof.
  intros Hino' Hne. pose proof prepared_ino as [Hib1 Hib2].
  pose proof (ino_block_range ino' Hino') as Hib'. unfold root_of, nblocks_of.
  destruct (decide (ino_block ino' = ino_block ino)) as [Eb|Eb].
  - assert (Es : ino_slot ino' ≠ ino_slot ino).
    { intros Es. apply Hne. apply ino_slot_inj; [lia|lia|done|done]. }
    destruct after_words as [_ H2]. rewrite Eb.
    rewrite !H2, !(pr_words _ _ _ _ _ _ _ _ _ Hprep)
      by (unfold root_idx, nblocks_idx; lia). done.
  - rewrite after_frame; [done|lia|..|done].
    + intros Hx. pose proof (free_range Hinv _ Hx). lia.
    + intros Hx. pose proof (file_range Hinv ino _ Hino Hx). lia.
Qed.

Lemma after_other ino' :
  0 ≤ ino' < ninode d → ino' ≠ ino →
  nblocks_of d2 ino' = nblocks_of d ino' ∧
  file_blocks d2 ino' = file_blocks d ino' ∧
  ∀ o, file_block d2 ino' o = file_block d ino' o.
Proof.
  intros Hino' Hne. destruct (after_other_inode ino' Hino' Hne) as [E1 E2].
  assert (Hfr : ∀ x, x ∈ tree_blocks d (depth_of d ino') (root_of d ino') →
                wf_block (d !!! x) ∧ d2 !!! x = d !!! x).
  { intros x Hx. pose proof prepared_ino. pose proof (fi_nib _ _ _ Hinv).
    destruct (other_blocks Hinv ino ino' x) as (H1 & H2 & H3); [done..|].
    split; [apply (fi_wf _ _ _ Hinv); lia|]. apply after_frame; [lia|done|done|lia]. }
  split; [done|]. unfold file_blocks, file_block, depth_of. rewrite E1, E2.
  split; [|intros o]; [apply tree_blocks_frame|apply tree_lookup_frame];
    intros x Hx; by apply Hfr.
Qed.

Lemma after_used : used_blocks d2 ≡ₚ (A2 ++ A1) ++ used_blocks d.
Proof.
  pose proof after_nib as En. destruct after_ino as (E1 & E2 & _).
  assert (Eni : ninode d2 = ninode d) by (unfold ninode; by rewrite En).
  rewrite (used_split (d := d2) ino) by (by rewrite Eni).
  rewrite (used_split (d := d) ino Hino), Eni, (assoc_L app).
  apply Permutation_app.
  - unfold file_blocks at 1, depth_of. rewrite E1, E2.
    rewrite (wp_blocks _ _ _ _ _ _ _ _ _ _ _ _ _ _ _ _ Hpost).
    rewrite (pr_blocks _ _ _ _ _ _ _ _ _ Hprep). by rewrite (assoc_L app).
  - apply reflexive_eq, bind_ext_in. intros x Hx.
    apply elem_of_delete_seqZ in Hx as [Hx1 Hx2]; [|done]. by apply after_other.
Qed.

(** Every block within the reach of the new tree. *)
Lemma after_lookup o :
  0 ≤ o < 128 ^ Z.of_nat (depth_of d2 ino) → o < 2 ^ 32 →
  file_block d2 ino o =
  if decide (o = off) then blk
  else if decide (o < nblocks_of d ino) then file_block d ino o else null_block.
Proof.
  intros Ho Ho32. destruct after_ino as (E1 & E2 & E3).
  assert (Hou : is_u32 o) by (unfold is_u32; lia).
  assert (Hoffr : off < 128 ^ Z.of_nat (depth_of d2 ino)).
  { apply levels_reach; pose proof (nblocks_u32 d2 ino); unfold is_u32 in *; lia. }
  unfold file_block at 1. unfold depth_of in *. rewrite E1, E2 in *.
  rewrite (wp_lookup _ _ _ _ _ _ _ _ _ _ _ _ _ _ _ _ Hpost) by done.
  rewrite !Z.mod_small by (unfold is_u32 in *; lia).
  case_decide; [done|].
  rewrite (pr_lookup _ _ _ _ _ _ _ _ _ Hprep) by (done || lia).
  destruct (decide (o < nblocks_of d ino)) as [Hlt|Hge].
  - rewrite decide_True; [done|].
    apply levels_reach; pose proof (nblocks_u32 d ino); unfold is_u32 in *; lia.
  - case_decide; [|done]. by apply (fi_tail _ _ _ Hinv); [..|lia|].
Qed.

Lemma after_inv : fs_inv N d2 free2.
Proof.
  pose proof after_nib as En. destruct after_ino as (_ & _ & E3).
  pose proof Hinv as [I1 I2 I3 I4 I5 I6 I7].
  assert (Eni : ninode d2 = ninode d) by (unfold ninode; by rewrite En).
  assert (Hp : free ≡ₚ A2 ++ A1 ++ free2).
  { rewrite (pr_taken _ _ _ _ _ _ _ _ _ Hprep).
    rewrite (wp_taken _ _ _ _ _ _ _ _ _ _ _ _ _ _ _ _ Hpost).
    rewrite !(assoc_L app). by rewrite (Permutation_app_comm A1). }
  split; rewrite ?En, ?Eni; try done.
  - eapply holds_wf, Hpost.
  - apply Hpost.
  - rewrite <-I6, after_used, Hp, !(assoc_L app). f_equiv.
    rewrite <-(assoc_L app). apply Permutation_app_comm.
  - intros ino' o Hino' Ho Hge Hlt. destruct (decide (ino' = ino)) as [->|Hne].
    + rewrite E3 in Hge. rewrite after_lookup by (unfold is_u32 in *; lia).
      rewrite !decide_False by lia. done.
    + destruct (after_other ino' Hino' Hne) as (O1 & O2 & O3). rewrite O3.
      unfold depth_of in Hlt. rewrite O1 in Hge, Hlt. by apply I7.
Qed.
End after_walk.

(** Enough free blocks for the new levels. *)
Definition can_grow d (free : list Z) (ino off : Z) : Prop :=
  off < nblocks_of d ino ∨ (count_levels off - depth_of d ino ≤ length free)%nat.

Lemma need_can_grow d free ino off :
  is_u32 off → off + 1 < 2 ^ 32 →
  (write_need d ino off ≤ length free)%nat → can_grow d free ino off.
Proof.
  intros Hoff Hoff1 Hneed. destruct (decide (off < nblocks_of d ino)); [by left|right].
  rewrite (ext_need d ino off) in Hneed by (done || lia).
  destruct (Nat.ltb_spec (depth_of d ino) (count_levels off)); lia.
Qed.

Lemma prepare_write s d free ino off blk :
  holds s d → fs_inv N d free → 0 ≤ ino < ninode d → is_u32 off → off + 1 < 2 ^ 32 →
  can_grow d free ino off →
  ∃ s' sn' d' free' A, prepared d free ino off s' sn' d' free' A ∧
    treedisk_write uninit ts ino off blk s = walk_then_return off blk sn' s'.
Proof.
  intros Hh Hinv Hino Hoff Hoff1 Hg.
  destruct (decide (off < nblocks_of d ino)) as [Hlt|Hge].
  - destruct (prepare_inside s d free ino off blk) as (s' & sn' & Hp & E); [done..|].
    by exists s', sn', d, free, [].
  - apply prepare_extend; try done; [lia|]. by destruct Hg.
Qed.

Lemma treedisk_write_spec s d free ino off blk :
  holds s d → fs_inv N d free → 0 ≤ ino < ninode d → is_u32 off → off + 1 < 2 ^ 32 →
  wf_block blk → (write_need d ino off ≤ length free)%nat →
  ∃ s' d' free' A,
    treedisk_write uninit ts ino off blk s = Ret 0 s' ∧
    write_post d free ino off blk s' d' free' A.
Proof.
  intros Hh Hinv Hino Hoff Hoff1 Hblk Hneed.
  destruct (prepare_write s d free ino off blk) as (s1 & sn1 & d1 & free1 & A1 & Hprep & E1);
    [done..|by apply need_can_grow|].
  pose proof (prepared_walk_pre d free ino off Hinv Hino s1 sn1 d1 free1 A1 Hprep) as Hpre.
  pose proof Hprep as [_ P1 P2 _ _ _ P3 P4 _ _ _ P5 _].
  assert (Er : get_word (inodeblock sn1) (root_idx (ino_slot ino)) = inode_root sn1)
    by (unfold inode_root; by rewrite P1).
  destruct (write_walk_spec ts N uninit (fi_N _ _ _ Hinv) off blk
    "treedisk_write: data block" Hoff Hblk _ _ _ _ _ _ _ _ Hpre)
    as (b' & s2 & d2 & free2 & A2 & E2 & Hpost); rewrite Er in *.
  { rewrite P4, length_app in Hneed. lia. }
  exists s2, d2, free2, (A2 ++ A1). split.
  - rewrite E1. unfold walk_then_return. rewrite P1, P2. by mrun E2.
  - pose proof (wp_count _ _ _ _ _ _ _ _ _ _ _ _ _ _ _ _ Hpost) as Hcount.
    assert (Hrange : 0 ≤ nblocks_of d2 ino < 2 ^ 32) by apply nblocks_u32.
    split.
    + apply Hpost.
    + by eapply (after_inv d free ino off blk).
    + rewrite P4, (wp_taken _ _ _ _ _ _ _ _ _ _ _ _ _ _ _ _ Hpost), !(assoc_L app).
      by rewrite (Permutation_app_comm A1).
    + rewrite length_app. lia.
    + unfold ninode. f_equal. by eapply (after_nib d free ino off blk).
    + by eapply (after_ino d free ino off blk).
    + intros o Ho. eapply (after_lookup d free ino off blk); try done; [|lia].
      split; [lia|]. apply levels_reach; lia.
    + intros ino' Hino' Hne.
      destruct (after_other d free ino off blk Hinv Hino s1 sn1 d1 free1 A1 Hprep
        b' s2 d2 free2 A2 Hpost ino' Hino' Hne) as (O1 & _ & O3). done.
Qed.

(** When the free list is shorter than what the write needs, it panics. *)
Lemma treedisk_write_full s d free ino off blk :
  holds s d → fs_inv N d free → 0 ≤ ino < ninode d → is_u32 off → off + 1 < 2 ^ 32 →
  wf_block blk → (length free < write_need d ino off)%nat →
  ∃ w s', treedisk_write uninit ts ino off blk s = Fatal w s'.
Proof.
  intros Hh Hinv Hino Hoff Hoff1 Hblk Hneed.
  assert (Hdec : Decision (can_grow d free ino off)) by (unfold can_grow; apply _).
  destruct (decide (can_grow d free ino off)) as [Hg|Hg]; [|unfold can_grow in Hg].
  - destruct (prepare_write s d free ino off blk)
      as (s1 & sn1 & d1 & free1 & A1 & Hprep & E1); [done..|].
    pose proof (prepared_walk_pre d free ino off Hinv Hino s1 sn1 d1 free1 A1 Hprep) as Hpre.
    pose proof Hprep as [_ P1 P2 _ _ _ P3 P4 _ _ _ P5 _].
    assert (Er : get_word (inodeblock sn1) (root_idx (ino_slot ino)) = inode_root sn1)
      by (unfold inode_root; by rewrite P1).
    destruct (write_walk_full ts N uninit off blk "treedisk_write: data block"
      _ _ _ _ _ _ _ _ Hpre) as (w & s2 & E2).
    { rewrite Er. rewrite P4, length_app in Hneed. lia. }
    exists w, s2. rewrite E1. unfold walk_then_return. rewrite P1, P2. by mrun E2.
  - assert (Hge : nblocks_of d ino ≤ off) by lia.
    destruct (get_snapshot_spec s d free ino Hh Hinv Hino) as (s1 & E1 & Hh1).
    destruct (ext_grow_pre d free ino off) with (s1 := s1) as (Q1 & Q2 & Q3 & Q4); [done..|].
    destruct (ext_facts d free ino off) as (_ & _ & F3 & _); [done..|].
    destruct (grow_levels_full ts N uninit (fi_N _ _ _ Hinv)
      (count_levels off - depth_of d ino) s1 _ d free (depth_of d ino) Q1) as (w & s2 & E2);
      [lia|done..|].
    exists w, s2. rewrite (write_grow_eq s s1 d free) by done. by mrun E2.
Qed.
End fs.
