(* ===== verification/TreediskCreate.v ===== *)
(** * Creating a tree file system

    [setup_freelist] and [treedisk_create] of library/file/file.c: the free
    list they build holds every data block once, and the file system they
    leave satisfies [fs_inv] with all files empty. *)

From S2P Require Import Prelude Layout Blocks Store Treedisk Tree TreediskOps TreediskFs.

(** ** The two array loops *)

Lemma fill_refs_spec n : ∀ i data nf N,
  length data = (i + n)%nat → 0 ≤ nf → N < 2 ^ 32 →
  fill_refs n i data nf N =
  let k := Nat.min n (Z.to_nat (N - nf)) in
  ((i + k)%nat, take i data ++ seqZ nf (Z.of_nat k) ++ drop (i + k) data, nf + Z.of_nat k).
Proof.
  induction n as [|n IH]; intros i data nf N Hlen Hnf HN; cbn [fill_refs].
  - simpl. rewrite Nat.add_0_r, Z.add_0_r. simpl. by rewrite take_drop.
  - destruct (Z.ltb_spec nf N) as [Hlt|Hge].
    + rewrite u32_small by (unfold is_u32; lia).
      rewrite IH by (rewrite ?length_insert; lia).
      replace (Nat.min (S n) (Z.to_nat (N - nf)))
        with (S (Nat.min n (Z.to_nat (N - (nf + 1))))) by lia.
      set (k := Nat.min n (Z.to_nat (N - (nf + 1)))). cbv zeta.
      assert (Hi : (i < length data)%nat) by lia.
      rewrite drop_insert_lt by lia.
      rewrite (take_S_r _ _ nf) by (by apply list_lookup_insert_eq).
      rewrite take_insert_ge by lia.
      rewrite (seqZ_cons nf (Z.of_nat (S k))) by lia.
      replace (Z.pred (Z.of_nat (S k))) with (Z.of_nat k) by lia.
      rewrite <-(assoc_L app). simpl. rewrite Z.add_1_r.
      replace (S (i + k))%nat with (i + S k)%nat by lia.
      f_equal. lia.
    + replace (Z.to_nat (N - nf)) with 0%nat by lia. rewrite Nat.min_0_r. simpl.
      rewrite Nat.add_0_r, Z.add_0_r. simpl. by rewrite take_drop.
Qed.

Lemma zero_refs_spec n : ∀ i data,
  length data = (i + n)%nat → zero_refs n i data = take i data ++ replicate n 0.
Proof.
  induction n as [|n IH]; intros i data Hlen; cbn [zero_refs].
  - rewrite app_nil_r, take_ge by lia. done.
  - rewrite IH by (rewrite length_insert; lia).
    rewrite (take_S_r _ _ 0) by (apply list_lookup_insert_eq; lia).
    rewrite take_insert_ge, <-(assoc_L app) by lia. done.
Qed.

(** One round of the outer loop fills a block with the link to the previous
    freelist block and the next free blocks. *)
Definition freelist_words (fb nf k : Z) : list Z :=
  fb :: seqZ (nf + 1) k ++ replicate (nrefs - 1 - Z.to_nat k) 0.

Lemma freelist_round data fb nf N :
  length data = nrefs → 0 ≤ nf < N → N < 2 ^ 32 →
  let k := Z.min (Z.of_nat (nrefs - 1)) (N - nf - 1) in
  ∃ i data', fill_refs (nrefs - 1) 1 (<[0%nat:=fb]> data) (u32 (nf + 1)) N =
               (i, data', nf + 1 + k) ∧
             zero_refs (nrefs - i) i data' = freelist_words fb nf k.
Proof.
  intros Hlen Hnf HN k. rewrite u32_small by (unfold is_u32; lia).
  rewrite fill_refs_spec by (rewrite ?length_insert, ?Hlen, ?nrefs_eq; lia).
  cbv zeta.
  set (k' := Nat.min (nrefs - 1) (Z.to_nat (N - (nf + 1)))).
  assert (Ek : Z.of_nat k' = k) by (unfold k, k'; lia).
  do 2 eexists. rewrite Ek. split; [done|].
  rewrite drop_insert_lt by lia.
  destruct data as [|x data]; [by rewrite nrefs_eq in Hlen|]. simpl.
  assert (Hk : (k' ≤ nrefs - 1)%nat) by (unfold k'; lia).
  simpl in Hlen. rewrite zero_refs_spec.
  - simpl. unfold freelist_words. f_equal.
    rewrite take_app_length' by (rewrite length_seqZ; lia).
    f_equal. f_equal. rewrite <-Ek, Nat2Z.id. done.
  - simpl. rewrite length_app, length_seqZ, length_drop. rewrite nrefs_eq in *. lia.
Qed.

Lemma freelist_words_length fb nf k :
  0 ≤ k ≤ Z.of_nat (nrefs - 1) → length (freelist_words fb nf k) = nrefs.
Proof.
  intros Hk. unfold freelist_words. simpl.
  rewrite length_app, length_seqZ, length_replicate, nrefs_eq in *. lia.
Qed.

Lemma freelist_words_u32 fb nf k :
  is_u32 fb → 0 ≤ nf → nf + k < 2 ^ 32 → Forall is_u32 (freelist_words fb nf k).
Proof.
  intros Hfb Hnf Hk. constructor; [done|]. apply Forall_app. split.
  - apply Forall_forall. intros x. rewrite elem_of_seqZ. unfold is_u32. lia.
  - by apply Forall_replicate.
Qed.

(** Read back from the disk, the block holds these blocks. *)
Lemma freelist_block_slots fb nf k :
  is_u32 fb → 0 ≤ nf → nf + k < 2 ^ 32 →
  get_word (block_of_words (freelist_words fb nf k)) 0 = fb ∧
  free_slots (block_of_words (freelist_words fb nf k)) = seqZ (nf + 1) k.
Proof.
  intros Hfb Hnf Hk.
  assert (E : words_of_block (block_of_words (freelist_words fb nf k)) = freelist_words fb nf k)
    by (by apply words_of_block_of_words, freelist_words_u32).
  unfold get_word, free_slots. rewrite E. split; [done|].
  unfold freelist_words. rewrite skipn_cons, drop_0, filter_app.
  rewrite (list_filter_all _ (seqZ (nf + 1) k)).
  - rewrite (list_filter_none _ (replicate _ _)), app_nil_r; [done|].
    apply Forall_replicate. naive_solver.
  - apply Forall_forall. intros x. rewrite elem_of_seqZ. lia.
Qed.

(** ** The free list and the empty file system *)

Section create.
Context {S : Type} (bs : inode_store S) (bino N : Z) (uninit : block).
Context `{HB : !BlockStore bs bino N}.
Context (HN : N < 2 ^ 32).
Implicit Types d : gmap Z block.

(** The loop invariant: blocks [start .. nf) are on the list that starts at
    [fb], and the loop has changed no block outside this range. *)
Lemma setup_freelist_loop_spec start d0 (Hstart : 0 < start) : ∀ fuel s d data fb nf L,
  holds s d → length data = nrefs → start ≤ nf ≤ N → is_u32 fb →
  (Z.to_nat (N - nf) ≤ fuel)%nat →
  free_rep d fb L → L ≡ₚ seqZ start (nf - start) →
  (∀ x, x < start → d !!! x = d0 !!! x) →
  ∃ fb' s' d' L',
    setup_freelist_loop fuel bs bino data fb nf N s = Ret fb' s' ∧ holds s' d' ∧
    is_u32 fb' ∧ free_rep d' fb' L' ∧ L' ≡ₚ seqZ start (N - start) ∧
    (∀ x, x < start → d' !!! x = d0 !!! x).
Proof.
  induction fuel as [|fuel IH]; intros s d data fb nf L Hh Hlen Hnf Hfb Hfuel Hfree HL Hlow;
    cbn [setup_freelist_loop]; destruct (Z.ltb_spec nf N) as [Hlt|Hge].
  - lia.
  - assert (nf = N) as -> by lia. by exists fb, s, d, L.
  - destruct (freelist_round data fb nf N) as (i & data' & E1 & E2); [done|lia|done|].
    set (k := Z.min (Z.of_nat (nrefs - 1)) (N - nf - 1)) in *.
    rewrite E1, E2.
    set (blk := block_of_words (freelist_words fb nf k)).
    assert (Hblk : wf_block blk) by (apply wf_block_of_words, freelist_words_length; lia).
    destruct (write_spec s d nf blk Hh) as (s1 & W1 & Hh1); [lia|done|]. mrun W1. simpl.
    destruct (freelist_block_slots fb nf k) as [B1 B2]; [done|lia|lia|].
    assert (HnL : nf ∉ L) by (rewrite HL, elem_of_seqZ; lia).
    apply (IH s1 (<[nf:=blk]> d) _ nf (nf + 1 + k) (nf :: seqZ (nf + 1) k ++ L)).
    + done.
    + apply freelist_words_length. lia.
    + lia.
    + unfold is_u32. lia.
    + lia.
    + assert (Hnew : free_rep (<[nf:=blk]> d) nf (nf :: free_slots (<[nf:=blk]> d !!! nf) ++ L)).
      { constructor; [lia|]. rewrite lookup_total_insert_eq. unfold blk at 2. rewrite B1.
        eapply free_rep_frame; [done|]. intros x Hx. apply lookup_total_insert_ne. by intros <-. }
      rewrite lookup_total_insert_eq in Hnew. unfold blk at 2 in Hnew. by rewrite B2 in Hnew.
    + rewrite HL. replace (nf + 1 + k - start) with ((nf - start) + (1 + k)) by lia.
      rewrite (seqZ_app start) by lia.
      replace (start + (nf - start)) with nf by lia.
      rewrite (seqZ_app nf 1 k) by lia.
      by rewrite (Permutation_app_comm (seqZ start _)).
    + intros x Hx. rewrite lookup_total_insert_ne by lia. by apply Hlow.
  - assert (nf = N) as -> by lia. by exists fb, s, d, L.
Qed.

Lemma clear_inodes_spec n : ∀ s d i,
  holds s d → 0 ≤ i → i + Z.of_nat n ≤ N →
  ∃ s' d', clear_inodes n bs bino i s = Ret 0 s' ∧ holds s' d' ∧
    ∀ x, d' !!! x = if decide (i ≤ x < i + Z.of_nat n) then null_block else d !!! x.
Proof.
  induction n as [|n IH]; intros s d i Hh Hi HiN; cbn [clear_inodes].
  - exists s, d. split; [done|]. split; [done|]. intros x. rewrite decide_False by lia. done.
  - destruct (write_spec s d i null_block Hh) as (s1 & E1 & Hh1); [lia|done|].
    destruct (IH s1 (<[i:=null_block]> d) (i + 1)) as (s2 & d2 & E2 & Hh2 & Hd2); [done|lia|lia|].
    exists s2, d2. split; [by mrun E1|]. split; [done|]. intros x. rewrite Hd2.
    destruct (decide (i = x)) as [->|Hne].
    + rewrite lookup_total_insert_eq. repeat case_decide; (done || lia).
    + rewrite lookup_total_insert_ne by done. repeat case_decide; (done || lia).
Qed.

(** An inode block of null bytes holds files without blocks. *)
Lemma null_inode d ino :
  d !!! ino_block ino = null_block →
  root_of d ino = 0 ∧ nblocks_of d ino = 0.
Proof.
  intros E. unfold root_of, nblocks_of. rewrite E.
  split; apply get_word_null; [apply root_idx_lt|apply nblocks_idx_lt].
Qed.

(** A superblock over null inode blocks, and a free list of all the other
    blocks: a file system of empty files. *)
Lemma empty_fs_inv d free :
  disk_wf N d → 0 < nib d < N → ninode d < 2 ^ 32 →
  (∀ x, 1 ≤ x ≤ nib d → d !!! x = null_block) →
  free_rep d (free_list (d !!! 0)) free → free ≡ₚ seqZ (nib d + 1) (N - nib d - 1) →
  fs_inv N d free ∧ used_blocks d = [] ∧ ∀ ino, 0 ≤ ino < ninode d → nblocks_of d ino = 0.
Proof.
  intros Hwf Hnib Hnin Hnull Hfree Hperm.
  assert (Hino : ∀ ino, 0 ≤ ino < ninode d → root_of d ino = 0 ∧ nblocks_of d ino = 0).
  { intros ino [H0 H1]. apply null_inode, Hnull. unfold ino_block, ninode in *.
    pose proof (Z.div_pos ino INODES_PER_BLOCK H0 eq_refl).
    assert (ino / INODES_PER_BLOCK < nib d); [|lia].
    apply Z.div_lt_upper_bound; [done|lia]. }
  assert (Hused : used_blocks d = []).
  { unfold used_blocks. rewrite (bind_ext_in _ (λ _, [])).
    - by induction (seqZ 0 (ninode d)).
    - intros ino Hin. apply elem_of_seqZ in Hin. unfold file_blocks.
      destruct (Hino ino) as [-> _]; [lia|]. apply tree_blocks_0. }
  split; [|naive_solver].
  split; try done; [lia|..].
  - by rewrite Hused, app_nil_r.
  - intros ino off Hr _ _ _. unfold file_block. destruct (Hino ino Hr) as [-> _].
    apply tree_lookup_0.
Qed.

Context (nino : Z) (Hnino : 0 < nino) (Hnino32 : nino + INODES_PER_BLOCK - 1 < 2 ^ 32).
Local Abbreviation n_ib := ((nino + INODES_PER_BLOCK - 1) / INODES_PER_BLOCK).

Lemma n_ib_bounds : 0 < n_ib ∧ nino ≤ n_ib * INODES_PER_BLOCK < 2 ^ 32.
Proof.
  change INODES_PER_BLOCK with 64 in *. Z.to_euclidean_division_equations. lia.
Qed.

Lemma superblock_words n fl (sb := set_free_list (set_word null_block 0 n) fl) :
  is_u32 n → is_u32 fl → wf_block sb ∧ n_inodeblocks sb = n ∧ free_list sb = fl.
Proof.
  intros Hn Hfl. unfold sb, set_free_list, n_inodeblocks, free_list.
  assert (W : wf_block (set_word null_block 0 n)) by (by apply wf_set_word).
  split; [by apply wf_set_word|]. split.
  - rewrite get_set_word_ne by (done || word_side). by apply get_set_word_eq; word_side.
  - by apply get_set_word_eq; word_side.
Qed.

Lemma create_fresh s d :
  holds s d → wf_block uninit → n_ib + 2 ≤ N → n_inodeblocks (d !!! 0) = 0 →
  ∃ s' d' free, treedisk_create uninit bs bino nino s = Ret 0 s' ∧ holds s' d' ∧
    fs_inv N d' free ∧ nib d' = n_ib ∧ used_blocks d' = [] ∧
    ∀ ino, 0 ≤ ino < ninode d' → nblocks_of d' ino = 0.
Proof.
  intros Hh Hu HnN Hzero. destruct n_ib_bounds as [Hn1 Hn2].
  assert (Hni : n_ib < 2 ^ 32) by (change INODES_PER_BLOCK with 64 in *; lia).
  unfold treedisk_create.
  rewrite (u32_small (nino + _ - 1)) by (change INODES_PER_BLOCK with 64 in *; unfold is_u32; lia).
  destruct (getsize_spec s d Hh) as (s1 & E1 & Hh1). mrun E1.
  rewrite (u32_small N) by (unfold is_u32; lia).
  rewrite (u32_small (n_ib + 2)) by (unfold is_u32; lia).
  rewrite (proj2 (Z.ltb_ge N _)) by lia.
  destruct (read_spec s1 d 0 uninit Hh1) as (s2 & E2 & Hh2); [lia|]. mrun E2. simpl.
  rewrite Hzero. simpl.
  destruct (setup_freelist_loop_spec (n_ib + 1) d ltac:(lia) (Z.to_nat (N - (n_ib + 1)))
    s2 d (words_of_block uninit) 0 (n_ib + 1) [])
    as (fl & s3 & d3 & L & E3 & Hh3 & Hfl & HL & HLp & Hlow); try done; [|lia|constructor|..].
  { by apply words_of_block_length. }
  { by replace (n_ib + 1 - (n_ib + 1)) with 0 by lia. }
  mrun E3.
  destruct (superblock_words n_ib fl) as (W & S1 & S2); [unfold is_u32; lia|done|].
  destruct (write_spec s3 d3 0 _ Hh3 ltac:(lia) W) as (s4 & E4 & Hh4). mrun E4. simpl.
  destruct (clear_inodes_spec (Z.to_nat n_ib) s4 _ 1 Hh4) as (s5 & d5 & E5 & Hh5 & Hd5); [lia..|].
  rewrite Z2Nat.id in Hd5 by lia.
  assert (H0 : d5 !!! 0 = set_free_list (set_word null_block 0 n_ib) fl).
  { rewrite Hd5, decide_False by lia. apply lookup_total_insert_eq. }
  assert (Hnib : nib d5 = n_ib) by (unfold nib; by rewrite H0).
  destruct (empty_fs_inv d5 L) as (Hinv & Hused & Hempty); [by eapply holds_wf|..].
  - rewrite Hnib. lia.
  - unfold ninode. rewrite Hnib. lia.
  - intros x Hx. rewrite Hd5, decide_True by lia. done.
  - rewrite H0, S2. eapply free_rep_frame; [done|]. intros x Hx.
    rewrite HLp, elem_of_seqZ in Hx.
    rewrite Hd5, decide_False by lia. apply lookup_total_insert_ne. lia.
  - rewrite Hnib, HLp. by replace (N - (n_ib + 1)) with (N - n_ib - 1) by lia.
  - by exists s5, d5, L.
Qed.
End create.
