(* ===== verification/Ramdisk.v ===== *)
(** * The ramdisk of the file system builder

    The inode store at the end of tools/mkfs.c: one inode, kept in the array
    [char fs[FS_DISK_SIZE]] of the builder.  The state is that array; its size
    is a parameter of the section, [FS_DISK_SIZE] in the program.  An access
    outside the array is undefined.  [ramdisk_store] shows that the ramdisk is
    a store of [size / BLOCK_SIZE] blocks in the sense of Store.v. *)

From S2P Require Import Prelude Layout Blocks Store.

(** The bytes of block [b] of an array of blocks. *)
Definition slice (fs : list byte) (b : Z) : block :=
  take nbytes (drop (Z.to_nat (b * BLOCK_SIZE)) fs).

(** [memcpy(fs + a, blk, BLOCK_SIZE)] *)
Definition splice (fs : list byte) (a : nat) (blk : block) : list byte :=
  take a fs ++ blk ++ drop (a + nbytes) fs.

Section ramdisk.
Context (size : Z).

Definition ram_getsize (ino : Z) : M (list byte) Z := mret (size / BLOCK_SIZE).

Definition ram_setsize (ino n : Z) : M (list byte) Z := fatal "assert(0)".

(** [offset * BLOCK_SIZE] is computed in unsigned int. *)
Definition ramread (ino offset : Z) (blk : block) : M (list byte) (Z * block) := λ fs,
  let a := u32 (offset * BLOCK_SIZE) in
  if a + BLOCK_SIZE <=? size
  then Ret (0, take nbytes (drop (Z.to_nat a) fs)) fs
  else Undef "ramread".

Definition ramwrite (ino offset : Z) (blk : block) : M (list byte) Z := λ fs,
  let a := u32 (offset * BLOCK_SIZE) in
  if a + BLOCK_SIZE <=? size
  then Ret 0 (splice fs (Z.to_nat a) blk)
  else Undef "ramwrite".

Definition ramdisk_init : inode_store (list byte) :=
  InodeStore ram_getsize ram_setsize ramread ramwrite.
End ramdisk.

(** ** Slices of an array *)

Lemma nbytes_Z : Z.of_nat nbytes = BLOCK_SIZE.
Proof. done. Qed.

Lemma splice_length fs a blk :
  wf_block blk → (a + nbytes ≤ length fs)%nat → length (splice fs a blk) = length fs.
Proof.
  unfold wf_block, splice. intros Hb Ha.
  rewrite !length_app, length_take, length_drop. lia.
Qed.

Lemma slice_wf fs b :
  0 ≤ b → (b + 1) * BLOCK_SIZE ≤ Z.of_nat (length fs) → wf_block (slice fs b).
Proof.
  intros H0 H1. unfold wf_block, slice. rewrite length_take, length_drop.
  pose proof nbytes_Z. lia.
Qed.

Lemma slice_splice_eq fs b blk :
  wf_block blk → 0 ≤ b → (b + 1) * BLOCK_SIZE ≤ Z.of_nat (length fs) →
  slice (splice fs (Z.to_nat (b * BLOCK_SIZE)) blk) b = blk.
Proof.
  intros Hb H0 H1. unfold slice, splice. pose proof nbytes_Z.
  rewrite drop_app_length' by (rewrite length_take; lia).
  by rewrite take_app_length'.
Qed.

Lemma slice_splice_ne fs b b' blk :
  wf_block blk → 0 ≤ b → 0 ≤ b' → b ≠ b' →
  (b + 1) * BLOCK_SIZE ≤ Z.of_nat (length fs) →
  slice (splice fs (Z.to_nat (b * BLOCK_SIZE)) blk) b' = slice fs b'.
Proof.
  intros Hb H0 H0' Hne H1. pose proof nbytes_Z as Hn. unfold wf_block in Hb.
  unfold slice, splice. change BLOCK_SIZE with 512 in *. apply list_eq. intros i.
  destruct (decide (i < nbytes)%nat) as [Hi|Hi];
    [|by rewrite !lookup_take_ge by lia].
  rewrite !lookup_take_lt, !lookup_drop by done.
  destruct (decide (b' < b)) as [Hlt|Hge].
  - rewrite lookup_app_l by (rewrite length_take; lia).
    by rewrite lookup_take_lt by lia.
  - rewrite lookup_app_r by (rewrite length_take; lia).
    rewrite lookup_app_r by (rewrite length_take; lia).
    rewrite lookup_drop, length_take. f_equal. lia.
Qed.

(** The first blocks of an array. *)
Lemma slices_take (x : list byte) (n : nat) :
  (seqZ 0 (Z.of_nat n) ≫= slice x) = take (n * nbytes) x.
Proof.
  induction n as [|n IH]; [done|].
  rewrite Nat2Z.inj_succ, <-Z.add_1_r, seqZ_app, bind_app, IH by lia.
  rewrite seqZ_cons, bind_cons, seqZ_nil, app_nil_r by lia.
  unfold slice. rewrite Z.add_0_l.
  replace (Z.to_nat (Z.of_nat n * BLOCK_SIZE)) with (n * nbytes)%nat
    by (unfold nbytes; change BLOCK_SIZE with 512; lia).
  rewrite take_drop_commute.
  replace (Datatypes.S n * nbytes)%nat with (n * nbytes + nbytes)%nat by lia.
  rewrite <-(take_drop (n * nbytes) (take (n * nbytes + nbytes) x)) at 2.
  by rewrite take_take, Nat.min_l by lia.
Qed.

(** ** The ramdisk is a block store *)

Section store.
Context (size : Z) (Hsize : 0 ≤ size ≤ 2 ^ 32) (Hmod : size mod BLOCK_SIZE = 0).

Definition ram_holds (fs : list byte) (d : gmap Z block) : Prop :=
  Z.of_nat (length fs) = size ∧ ∀ b, 0 ≤ b < size / BLOCK_SIZE → d !!! b = slice fs b.

Lemma ram_addr b :
  0 ≤ b < size / BLOCK_SIZE →
  u32 (b * BLOCK_SIZE) = b * BLOCK_SIZE ∧ (b + 1) * BLOCK_SIZE ≤ size.
Proof.
  intros Hb. unfold BLOCK_SIZE in *.
  assert ((b + 1) * 512 ≤ size) by (Z.to_euclidean_division_equations; lia).
  split; [apply u32_small; unfold is_u32|]; lia.
Qed.

#[export] Program Instance ramdisk_store :
  BlockStore (ramdisk_init size) 0 (size / BLOCK_SIZE) := {| holds := ram_holds |}.
Next Obligation.
  intros fs d [Hl Hd] b Hb. rewrite Hd by done. destruct (ram_addr b Hb).
  apply slice_wf; lia.
Qed.
Next Obligation. intros fs d H. by exists fs. Qed.
Next Obligation.
  intros fs d b buf [Hl Hd] Hb. destruct (ram_addr b Hb) as [E1 E2].
  exists fs. split; [|done]. simpl. unfold ramread. rewrite E1, Hd by done.
  by rewrite (proj2 (Z.leb_le _ _)) by lia.
Qed.
Next Obligation.
  intros fs d b blk [Hl Hd] Hb Hblk. destruct (ram_addr b Hb) as [E1 E2].
  eexists. split.
  - simpl. unfold ramwrite. rewrite E1. by rewrite (proj2 (Z.leb_le _ _)) by lia.
  - pose proof nbytes_Z. split; [rewrite splice_length; (done || lia)|].
    intros b' Hb'. destruct (decide (b = b')) as [<-|Hne].
    + rewrite lookup_total_insert_eq, slice_splice_eq; (done || lia).
    + rewrite lookup_total_insert_ne by done.
      rewrite slice_splice_ne by (done || lia). by apply Hd.
Qed.
End store.
