(* ===== verification/FsDisk.v ===== *)
(** * The disk under the file system

    earth/dev_disk.c (the disk interface of the earth layer), the block loops
    of earth/sd/sd_rw.c and library/file/disk.c (the inode store on top of
    it).  The driver for one block of the SD card is an argument, a record
    [sd_driver]; [SdCard] is what it promises: the card is an array of blocks.
    The boot ROM is memory that the program only reads.  [fs_disk_store] shows
    that with an SD card the disk is a store of 4096 blocks in the sense of
    Store.v, and that the file system never touches the blocks below
    [GRASS_FS_START]. *)

From S2P Require Import Prelude Layout Blocks Store Ramdisk.

Inductive disk_type := SD_CARD | FLASH_ROM.

Record sd_driver (D : Type) := SdDriver {
  single_read : Z → M D block;
  single_write : Z → block → M D unit;
}.
Arguments SdDriver {D} _ _.
Arguments single_read {D} _ _.
Arguments single_write {D} _ _ _.

Definition DISK_ROM_BASE : Z := 0x20800000.

Section disk.
Context {D : Type} (sd : sd_driver D) (rom : Z → byte) (type : disk_type).

(** [for (int i = 0; i < nblock; i++) single_read(offset + i, dst + ...)]:
    [n] rounds are left.  The rounds fill [dst] from the front, so the
    function returns the bytes it puts there. *)
Fixpoint sdread_loop (n : nat) (offset i : Z) : M D (list byte) :=
  match n with
  | O => mret []
  | S n =>
      blk ← single_read sd (offset + i);
      rest ← sdread_loop n offset (i + 1);
      mret (blk ++ rest)
  end.
Definition sdread (offset nblock : Z) : M D (list byte) :=
  sdread_loop (Z.to_nat nblock) offset 0.

Fixpoint sdwrite_loop (n : nat) (offset i : Z) (src : list byte) : M D unit :=
  match n with
  | O => mret tt
  | S n =>
      _ ← single_write sd (offset + i)
            (take nbytes (drop (Z.to_nat (BLOCK_SIZE * i)) src));
      sdwrite_loop n offset (i + 1) src
  end.
Definition sdwrite (offset nblock : Z) (src : list byte) : M D unit :=
  sdwrite_loop (Z.to_nat nblock) offset 0 src.

(** [n] bytes of the ROM from address [a]. *)
Definition rom_bytes (a n : Z) : list byte := rom <$> seqZ a n.

Definition earth_disk_read (block_no nblocks : Z) : M D (Z * list byte) :=
  match type with
  | SD_CARD => dst ← sdread block_no nblocks; mret (0, dst)
  | FLASH_ROM =>
      let src := DISK_ROM_BASE + block_no * BLOCK_SIZE in
      mret (0, rom_bytes src (nblocks * BLOCK_SIZE))
  end.

Definition earth_disk_write (block_no nblocks : Z) (src : list byte) : M D Z :=
  match type with
  | FLASH_ROM => fatal "disk_write: Writing to the read-only ROM"
  | SD_CARD => _ ← sdwrite block_no nblocks src; mret 0
  end.

(** The inode store of library/file/disk.c.  [GRASS_FS_START + offset] is an
    unsigned int, passed as an int. *)
Definition disk_getsize (ino : Z) : M D Z := mret (FS_DISK_SIZE / BLOCK_SIZE).
Definition disk_setsize (ino n : Z) : M D Z := fatal "disk: cannot set the size".
Definition disk_read (ino offset : Z) (blk : block) : M D (Z * block) :=
  earth_disk_read (s32 (GRASS_FS_START + offset)) 1.
Definition disk_write (ino offset : Z) (blk : block) : M D Z :=
  earth_disk_write (s32 (GRASS_FS_START + offset)) 1 blk.

Definition fs_disk_init : inode_store D :=
  InodeStore disk_getsize disk_setsize disk_read disk_write.
End disk.

(** What the driver promises: reading a block of the card gives the block that
    was last written to it, and nothing else changes. *)
Class SdCard {D} (sd : sd_driver D) (size : Z) := {
  sd_holds : D → gmap Z block → Prop;
  sd_wf s c : sd_holds s c → disk_wf size c;
  sd_read s c b : sd_holds s c → 0 ≤ b < size →
    ∃ s', single_read sd b s = Ret (c !!! b) s' ∧ sd_holds s' c;
  sd_write s c b blk : sd_holds s c → 0 ≤ b < size → wf_block blk →
    ∃ s', single_write sd b blk s = Ret tt s' ∧ sd_holds s' (<[b:=blk]> c);
}.

Definition DISK_BLOCKS : Z := GRASS_FS_START + FS_DISK_SIZE / BLOCK_SIZE.

Section sd_store.
Context {D : Type} (sd : sd_driver D) (rom : Z → byte) `{!SdCard sd DISK_BLOCKS}.

(** Reading and writing a run of blocks. *)
Lemma sdread_loop_spec n : ∀ s c offset i,
  sd_holds s c → 0 ≤ i → 0 ≤ offset → offset + i + Z.of_nat n ≤ DISK_BLOCKS →
  ∃ s', sdread_loop sd n offset i s =
          Ret (seqZ (offset + i) (Z.of_nat n) ≫= λ b, c !!! b) s' ∧ sd_holds s' c.
Proof.
  induction n as [|n IH]; intros s c offset i Hs Hi Ho Hn; cbn [sdread_loop].
  - by exists s.
  - destruct (sd_read s c (offset + i) Hs) as (s1 & E1 & Hs1); [lia|]. mrun E1.
    destruct (IH s1 c offset (i + 1)) as (s2 & E2 & Hs2); [done|lia..|]. mrun E2.
    exists s2. split; [|done]. rewrite Nat2Z.inj_succ, (seqZ_cons (offset + i)) by lia.
    rewrite bind_cons, Z.pred_succ.
    by replace (Z.succ (offset + i)) with (offset + (i + 1)) by lia.
Qed.

Lemma sdwrite_loop_spec n : ∀ s c offset i src,
  sd_holds s c → 0 ≤ i → 0 ≤ offset → offset + i + Z.of_nat n ≤ DISK_BLOCKS →
  Z.of_nat (length src) = BLOCK_SIZE * (i + Z.of_nat n) →
  ∃ s' c', sdwrite_loop sd n offset i src s = Ret tt s' ∧ sd_holds s' c' ∧
    ∀ b, c' !!! b = if decide (offset + i ≤ b < offset + i + Z.of_nat n)
                    then slice src (b - offset) else c !!! b.
Proof.
  induction n as [|n IH]; intros s c offset i src Hs Hi Ho Hn Hl; cbn [sdwrite_loop].
  - exists s, c. split; [done|]. split; [done|]. intros b. by rewrite decide_False by lia.
  - assert (Hsl : take nbytes (drop (Z.to_nat (BLOCK_SIZE * i)) src) = slice src i)
      by (unfold slice; do 3 f_equal; lia).
    rewrite Hsl.
    destruct (sd_write s c (offset + i) (slice src i) Hs) as (s1 & E1 & Hs1);
      [lia|apply slice_wf; unfold BLOCK_SIZE in *; lia|]. mrun E1.
    destruct (IH s1 (<[offset + i:=slice src i]> c) offset (i + 1) src)
      as (s2 & c2 & E2 & Hs2 & Hc2); [done|lia..|].
    exists s2, c2. split; [done|]. split; [done|]. intros b. rewrite Hc2.
    destruct (decide (offset + i = b)) as [<-|Hne].
    + rewrite lookup_total_insert_eq, decide_False, decide_True by lia. f_equal. lia.
    + rewrite lookup_total_insert_ne by done. repeat case_decide; (done || lia).
Qed.

(** The file system's part of a card whose blocks below [GRASS_FS_START] (the
    paging area and the kernel's executables) are those of [rest]. *)
Context (rest : gmap Z block).
Definition fs_holds (s : D) (d : gmap Z block) : Prop :=
  ∃ c, sd_holds s c ∧
    (∀ b, 0 ≤ b < FS_DISK_SIZE / BLOCK_SIZE → d !!! b = c !!! (GRASS_FS_START + b)) ∧
    ∀ b, b < GRASS_FS_START → c !!! b = rest !!! b.

Lemma fs_addr b :
  0 ≤ b < FS_DISK_SIZE / BLOCK_SIZE →
  s32 (GRASS_FS_START + b) = GRASS_FS_START + b ∧ 0 ≤ GRASS_FS_START + b < DISK_BLOCKS.
Proof.
  change (FS_DISK_SIZE / BLOCK_SIZE) with 4096. change DISK_BLOCKS with 8192.
  change GRASS_FS_START with 4096. intros Hb.
  split; [apply s32_small; unfold is_s32|]; lia.
Qed.

#[export] Program Instance fs_disk_store :
  BlockStore (fs_disk_init sd rom SD_CARD) 0 (FS_DISK_SIZE / BLOCK_SIZE) :=
  {| holds := fs_holds |}.
Next Obligation.
  intros s d (c & Hs & Hd & Hrest) b Hb. rewrite Hd by done. apply (sd_wf s); [done|].
  by apply fs_addr.
Qed.
Next Obligation. intros s d H. by exists s. Qed.
Next Obligation.
  intros s d b buf (c & Hs & Hd & Hrest) Hb. destruct (fs_addr b Hb) as [E1 E2].
  destruct (sdread_loop_spec 1 s c (GRASS_FS_START + b) 0) as (s1 & R1 & Hs1); [done|lia..|].
  exists s1. split; [|by exists c]. simpl. unfold disk_read, earth_disk_read, sdread.
  rewrite E1. change (Z.to_nat 1) with 1%nat. mrun R1.
  rewrite Z.add_0_r, seqZ_cons, bind_cons, seqZ_nil, app_nil_r, Hd by done. done.
Qed.
Next Obligation.
  intros s d b blk (c & Hs & Hd & Hrest) Hb Hblk. destruct (fs_addr b Hb) as [E1 E2].
  destruct (sdwrite_loop_spec 1 s c (GRASS_FS_START + b) 0 blk)
    as (s1 & c1 & W1 & Hs1 & Hc1); [done|lia..|by rewrite Hblk|].
  exists s1. split.
  - simpl. unfold disk_write, earth_disk_write, sdwrite. rewrite E1.
    change (Z.to_nat 1) with 1%nat. by mrun W1.
  - exists c1. split; [done|]. split.
    2:{ intros b' Hb'. rewrite Hc1, decide_False by lia. by apply Hrest. }
    intros b' Hb'. rewrite Hc1.
    destruct (decide (b = b')) as [<-|Hne].
    + rewrite lookup_total_insert_eq, decide_True by lia.
      replace (GRASS_FS_START + b - (GRASS_FS_START + b)) with 0 by lia.
      unfold slice. simpl. by rewrite drop_0, take_ge by (by rewrite Hblk).
    + rewrite lookup_total_insert_ne, decide_False by lia. by apply Hd.
Qed.
End sd_store.
