(* ===== verification/FileSystem.v ===== *)
(** * What the file system promises

    The contract of an inode store of library/file/inode.h, stated without
    blocks on a disk: files are lists of blocks.  Reading returns the block or
    fails past the end; writing replaces a block or extends the file, with
    null blocks in between.  [treedisk_refines] is the refinement theorem: any
    sequence of calls on the tree file system, on any block store below it,
    returns what the contract says, unless the disk fills up, in which case the
    file system panics; with ten free blocks per write it does not fill up. *)

From S2P Require Import Prelude Layout Blocks Store Treedisk Tree TreediskOps TreediskFs.

(** ** The contract *)

Abbreviation file := (list block).
Abbreviation files := (list file).

Definition spec_getsize (fs : files) (ino : Z) : Z :=
  match fs !! Z.to_nat ino with
  | Some f => s32 (Z.of_nat (length f))
  | None => -1
  end.

Definition spec_read (fs : files) (ino off : Z) (buf : block) : Z * block :=
  match fs !! Z.to_nat ino with
  | Some f => match f !! Z.to_nat off with Some blk => (0, blk) | None => (-1, buf) end
  | None => (-1, buf)
  end.

(** The file with block [off] replaced, extended by null blocks if need be. *)
Definition file_set (f : file) (off : nat) (blk : block) : file :=
  <[off:=blk]> (f ++ replicate (S off - length f) null_block).

Definition spec_write (fs : files) (ino off : Z) (blk : block) : Z * files :=
  match fs !! Z.to_nat ino with
  | Some f => (0, <[Z.to_nat ino:=file_set f (Z.to_nat off) blk]> fs)
  | None => (-1, fs)
  end.

Inductive fs_call :=
| CallGetsize (ino : Z)
| CallSetsize (ino n : Z)
| CallRead (ino off : Z) (buf : block)
| CallWrite (ino off : Z) (blk : block).

Definition spec_call (fs : files) (c : fs_call) : (Z * option block) * files :=
  match c with
  | CallGetsize ino => (spec_getsize fs ino, None, fs)
  | CallSetsize ino n => (-1, None, fs)
  | CallRead ino off buf =>
      let '(rc, blk) := spec_read fs ino off buf in (rc, Some blk, fs)
  | CallWrite ino off blk => let '(rc, fs) := spec_write fs ino off blk in (rc, None, fs)
  end.

Fixpoint spec_calls (fs : files) (cs : list fs_call) : list (Z * option block) * files :=
  match cs with
  | [] => ([], fs)
  | c :: cs =>
      let '(r, fs) := spec_call fs c in
      let '(rs, fs) := spec_calls fs cs in (r :: rs, fs)
  end.

(** The same calls on an inode store. *)
Definition run_call {S} (st : inode_store S) (c : fs_call) : M S (Z * option block) :=
  match c with
  | CallGetsize ino => rc ← getsize st ino; mret (rc, None)
  | CallSetsize ino n => rc ← setsize st ino n; mret (rc, None)
  | CallRead ino off buf => '(rc, blk) ← read st ino off buf; mret (rc, Some blk)
  | CallWrite ino off blk => rc ← write st ino off blk; mret (rc, None)
  end.

Fixpoint run_calls {S} (st : inode_store S) (cs : list fs_call) : M S (list (Z * option block)) :=
  match cs with
  | [] => mret []
  | c :: cs => r ← run_call st c; rs ← run_calls st cs; mret (r :: rs)
  end.

(** Arguments the C types admit.  The last block number is excluded for
    writes: the size of the file would not fit its field. *)
Definition call_ok (c : fs_call) : Prop :=
  match c with
  | CallGetsize ino | CallSetsize ino _ => is_u32 ino
  | CallRead ino off _ => is_u32 ino ∧ is_u32 off
  | CallWrite ino off blk => is_u32 ino ∧ 0 ≤ off < 2 ^ 32 - 1 ∧ wf_block blk
  end.

Definition is_write (c : fs_call) : bool :=
  match c with CallWrite _ _ _ => true | _ => false end.
Definition nwrites (cs : list fs_call) : nat := length (filter is_write cs).

(** ** The files on a disk *)

Definition disk_file (d : gmap Z block) (ino : Z) : file :=
  file_block d ino <$> seqZ 0 (nblocks_of d ino).
Definition disk_files (d : gmap Z block) : files := disk_file d <$> seqZ 0 (ninode d).

Lemma disk_file_length d ino : Z.of_nat (length (disk_file d ino)) = nblocks_of d ino.
Proof.
  unfold disk_file. rewrite length_fmap, length_seqZ. pose proof (nblocks_u32 d ino) as [? _]. lia.
Qed.

Lemma disk_file_lookup d ino off :
  0 ≤ off →
  disk_file d ino !! Z.to_nat off =
  if off <? nblocks_of d ino then Some (file_block d ino off) else None.
Proof.
  intros H0. unfold disk_file. rewrite list_lookup_fmap.
  destruct (Z.ltb_spec off (nblocks_of d ino)).
  - rewrite lookup_seqZ_lt by lia. simpl. do 2 f_equal. lia.
  - by rewrite lookup_seqZ_ge by lia.
Qed.

Lemma disk_files_lookup d ino :
  0 ≤ ino →
  disk_files d !! Z.to_nat ino = if ino <? ninode d then Some (disk_file d ino) else None.
Proof.
  intros H0. unfold disk_files. rewrite list_lookup_fmap.
  destruct (Z.ltb_spec ino (ninode d)).
  - rewrite lookup_seqZ_lt by lia. simpl. do 2 f_equal. lia.
  - by rewrite lookup_seqZ_ge by lia.
Qed.

(** The blocks of a file after a write at [off]. *)
Lemma file_set_lookup (f : file) off blk o :
  (o < length (file_set f off blk))%nat →
  file_set f off blk !! o =
  Some (if decide (o = off) then blk
        else if decide (o < length f)%nat then f !!! o else null_block).
Proof.
  unfold file_set. rewrite length_insert, length_app, length_replicate. intros Ho.
  destruct (decide (o = off)) as [->|Hne].
  - apply list_lookup_insert_eq. rewrite length_app, length_replicate. lia.
  - rewrite list_lookup_insert_ne by done. destruct (decide (o < length f)%nat).
    + rewrite lookup_app_l by done. by apply list_lookup_lookup_total_lt.
    + rewrite lookup_app_r by lia. apply lookup_replicate_2. lia.
Qed.

Lemma file_set_length (f : file) off blk :
  length (file_set f off blk) = Nat.max (length f) (S off).
Proof. unfold file_set. rewrite length_insert, length_app, length_replicate. lia. Qed.

(** A write takes at most ten blocks from the free list: five new levels on
    top of the tree, and the path of five blocks down to the data block. *)
Lemma tree_need_le d off l : ∀ b, (tree_need d l b off ≤ S l)%nat.
Proof.
  induction l as [|l IH]; intros b; cbn [tree_need]; destruct (b =? 0); [lia..|].
  specialize (IH (get_word (d !!! b) (ref_index off l))). lia.
Qed.

Lemma levels_le n : 0 ≤ n < 2 ^ 32 → (levels n ≤ 5)%nat.
Proof.
  intros Hn. unfold levels. destruct (Z.ltb_spec 0 n); [|lia].
  by destruct (count_levels_exit (n - 1)) as (_ & _ & ?); [unfold is_u32; lia|].
Qed.

Lemma write_need_le d ino off :
  0 ≤ off → off + 1 < 2 ^ 32 → (write_need d ino off ≤ 10)%nat.
Proof.
  intros H0 H1. pose proof (nblocks_u32 d ino) as [Hn1 Hn2]. unfold write_need, depth_of.
  pose proof (levels_le (nblocks_of d ino) ltac:(lia)).
  pose proof (levels_le (Z.max (nblocks_of d ino) (off + 1)) ltac:(lia)).
  destruct (Nat.ltb_spec (levels (nblocks_of d ino))
    (levels (Z.max (nblocks_of d ino) (off + 1)))); [lia|].
  pose proof (tree_need_le d off (levels (nblocks_of d ino)) (root_of d ino)). lia.
Qed.

Section refinement.
Context {S : Type} (bs : inode_store S) (bino N : Z) (uninit : block).
Context `{HB : !BlockStore bs bino N}.
Local Abbreviation td := (treedisk_init uninit bs bino).
Local Abbreviation ts := (TreediskState bs bino 0).

Lemma write_post_files d free ino off blk s' d' free' A :
  0 ≤ ino < ninode d → 0 ≤ off →
  write_post ts N (HB := HB) d free ino off blk s' d' free' A →
  disk_files d' = <[Z.to_nat ino:=file_set (disk_file d ino) (Z.to_nat off) blk]> (disk_files d).
Proof.
  intros Hino Hoff [_ _ _ _ Hn Hsz Hdata Hother]. apply list_eq. intros i.
  rewrite <-(Nat2Z.id i). set (x := Z.of_nat i).
  destruct (decide (x = ino)) as [->|Hne].
  - rewrite list_lookup_insert_eq
      by (unfold disk_files; rewrite length_fmap, length_seqZ; lia).
    rewrite disk_files_lookup, Hn, (proj2 (Z.ltb_lt _ _)) by lia. f_equal.
    pose proof (disk_file_length d ino) as L1. pose proof (disk_file_length d' ino) as L2.
    apply list_eq_same_length with (n := length (disk_file d' ino)); [|done|].
    { rewrite file_set_length. lia. }
    intros o y z Ho Hy Hz. rewrite file_set_lookup in Hz by (rewrite file_set_length; lia).
    injection Hz as <-.
    rewrite <-(Nat2Z.id o), disk_file_lookup, (proj2 (Z.ltb_lt _ _)) in Hy by lia.
    injection Hy as <-. rewrite Hdata by lia.
    repeat case_decide; try done; try lia.
    rewrite <-(Nat2Z.id o). symmetry. apply list_lookup_total_correct.
    by rewrite disk_file_lookup, Nat2Z.id, (proj2 (Z.ltb_lt _ _)) by lia.
  - rewrite list_lookup_insert_ne by lia. rewrite !disk_files_lookup, Hn by lia.
    destruct (Z.ltb_spec x (ninode d)); [|done]. f_equal.
    destruct (Hother x) as [E1 E2]; [lia|done|]. unfold disk_file. rewrite E1.
    apply list_fmap_ext. intros ? ? _. apply E2.
Qed.

(** Blocks of files have the size of a block. *)
Lemma tree_lookup_wf d off : disk_wf N d → ∀ l b,
  (∀ x, x ∈ tree_blocks d l b → 0 < x < N) → wf_block (tree_lookup d l b off).
Proof using Type.
  clear HB. intros Hd. induction l as [|l IH]; intros b Hr; simpl;
    (destruct (Z.eqb_spec b 0) as [->|Hb]; [done|]).
  - apply Hd. specialize (Hr b (tree_blocks_root d 0 b Hb)). lia.
  - apply IH. intros x Hx. apply Hr. eapply tree_blocks_child; [done| |apply ref_index_lt|done].
    apply Hd. pose proof (Hr b (tree_blocks_root d _ b Hb)). lia.
Qed.

(** A state that stores the files [fs] and has [room] free blocks. *)
Definition fs_state (s : S) (fs : files) (room : nat) : Prop :=
  ∃ d free, holds s d ∧ fs_inv N d free ∧ disk_files d = fs ∧ length free = room.

Lemma fs_state_wf s fs room : fs_state s fs room → Forall (Forall wf_block) fs.
Proof.
  intros (d & free & Hh & Hinv & <- & _). unfold disk_files, disk_file.
  apply Forall_fmap, Forall_forall. intros ino Hino. apply elem_of_seqZ in Hino. simpl.
  apply Forall_fmap, Forall_forall. intros off _. simpl. apply tree_lookup_wf; [apply Hinv|].
  intros x Hx. pose proof (file_range Hinv ino x ltac:(lia) Hx). pose proof (fi_nib _ _ _ Hinv). lia.
Qed.

(** The outcome of a call in a state with the files [fs]: what the contract
    says, or a panic for want of [need] blocks. *)
Definition refines {A} (m : M S A) (s : S) (spec : A * files) (room need : nat) : Prop :=
  (∃ s' room', m s = Ret spec.1 s' ∧ fs_state s' spec.2 room' ∧ (room ≤ room' + need)%nat) ∨
  (room < need)%nat ∧ ∃ w s', m s = Fatal w s'.

Lemma getsize_refines s fs room ino :
  fs_state s fs room → is_u32 ino →
  refines (getsize td ino) s (spec_getsize fs ino, fs) room 0.
Proof.
  intros (d & free & Hh & Hinv & <- & <-) [H0 _]. left. unfold spec_getsize.
  rewrite disk_files_lookup by done. simpl. unfold treedisk_getsize.
  destruct (Z.ltb_spec ino (ninode d)).
  - destruct (get_snapshot_spec ts N uninit s d free ino) as (s1 & E1 & Hh1); [done..|].
    exists s1, (length free). rewrite disk_file_length. mrun E1.
    split; [done|]. split; [by exists d, free|lia].
  - destruct (get_snapshot_none ts N uninit s d free ino) as (s1 & E1 & Hh1); [done..|].
    exists s1, (length free). mrun E1. split; [done|]. split; [by exists d, free|lia].
Qed.

Lemma read_refines s fs room ino off buf :
  fs_state s fs room → is_u32 ino → is_u32 off →
  refines (read td ino off buf) s (spec_read fs ino off buf, fs) room 0.
Proof.
  intros (d & free & Hh & Hinv & <- & <-) [H0 _] [Ho _]. left. unfold spec_read.
  rewrite disk_files_lookup by done. destruct (Z.ltb_spec ino (ninode d)).
  - destruct (treedisk_read_spec ts N uninit s d free ino off buf) as (s1 & E1 & Hh1); [done..|].
    exists s1, (length free). simpl. rewrite E1, disk_file_lookup by done.
    split; [by destruct (off <? nblocks_of d ino)|]. split; [by exists d, free|lia].
  - destruct (get_snapshot_none ts N uninit s d free ino) as (s1 & E1 & Hh1); [done..|].
    exists s1, (length free). simpl. unfold treedisk_read. mrun E1.
    split; [done|]. split; [by exists d, free|lia].
Qed.

Lemma write_refines s fs room ino off blk :
  fs_state s fs room → is_u32 ino → 0 ≤ off < 2 ^ 32 - 1 → wf_block blk →
  refines (write td ino off blk) s (spec_write fs ino off blk) room 10.
Proof.
  intros (d & free & Hh & Hinv & <- & <-) [H0 _] [Ho Ho1] Hblk. unfold spec_write.
  rewrite disk_files_lookup by done. destruct (Z.ltb_spec ino (ninode d)).
  - pose proof (write_need_le d ino off ltac:(lia) ltac:(lia)) as Hle.
    assert (is_u32 off) by (unfold is_u32; lia).
    destruct (decide (write_need d ino off ≤ length free)%nat) as [Hroom|Hfull].
    + destruct (treedisk_write_spec ts N uninit s d free ino off blk)
        as (s' & d' & free' & A & E & Hpost); [done|done|lia|done|lia|done|done|].
      left. exists s', (length free'). split; [done|]. pose proof Hpost as [P1 P2 P3 P4 _ _ _ _].
      split; [|apply Permutation_length in P3; rewrite length_app in P3; lia].
      exists d', free'. split_and!; try done.
      by eapply (write_post_files d free ino off blk).
    + right. split; [lia|].
      apply (treedisk_write_full ts N uninit s d free ino off blk); try done; lia.
  - left. destruct (get_snapshot_none ts N uninit s d free ino) as (s1 & E1 & Hh1); [done..|].
    exists s1, (length free). simpl. unfold treedisk_write. mrun E1.
    split; [done|]. split; [by exists d, free|lia].
Qed.

Lemma refines_bind {A B} (m : M S A) (k : A → M S B) s r fs' room n1 n2 (spec : B * files) :
  refines m s (r, fs') room n1 →
  (∀ s' room', fs_state s' fs' room' → refines (k r) s' spec room' n2) →
  refines (m ≫= k) s spec room (n1 + n2).
Proof.
  intros [(s1 & room1 & E1 & Hs1 & Hr1)|(Hlt & w & s' & E)] Hk; simpl in *.
  - unfold refines. rewrite !(bind_ret_eq _ _ _ _ _ E1).
    destruct (Hk s1 room1 Hs1) as [(s2 & room2 & E2 & Hs2 & Hr2)|(Hlt & w & s' & E2)].
    + left. exists s2, room2. split_and!; [done..|lia].
    + right. split; [lia|by eauto].
  - right. split; [lia|]. exists w, s'. by mrun E.
Qed.

Lemma refines_ret {A} (a : A) s fs room : fs_state s fs room → refines (mret a) s (a, fs) room 0.
Proof. intros Hs. left. exists s, room. split_and!; [done..|lia]. Qed.

Definition need (c : fs_call) : nat := if is_write c then 10 else 0.

Lemma call_refines s fs room c :
  fs_state s fs room → call_ok c →
  refines (run_call td c) s (spec_call fs c) room (need c).
Proof.
  intros Hs Hok. unfold need. destruct c as [ino|ino n|ino off buf|ino off blk]; simpl in *.
  - apply (refines_bind _ _ _ _ _ _ 0 0 _ (getsize_refines s fs room ino Hs Hok)).
    intros. by apply refines_ret.
  - by apply refines_ret.
  - destruct Hok as [H1 H2].
    pose proof (read_refines s fs room ino off buf Hs H1 H2) as Hr.
    destruct (spec_read fs ino off buf) as [rc blk].
    apply (refines_bind _ _ _ _ _ _ 0 0 _ Hr). intros. by apply refines_ret.
  - destruct Hok as (H1 & H2 & H3).
    pose proof (write_refines s fs room ino off blk Hs H1 H2 H3) as Hr.
    destruct (spec_write fs ino off blk) as [rc fs'].
    apply (refines_bind _ _ _ _ _ _ 10 0 _ Hr). intros. by apply refines_ret.
Qed.

Lemma nwrites_cons c cs : (10 * nwrites (c :: cs) = need c + 10 * nwrites cs)%nat.
Proof. unfold nwrites, need. rewrite filter_cons. destruct (is_write c); simpl; lia. Qed.

Lemma calls_refine cs : ∀ s fs room,
  fs_state s fs room → Forall call_ok cs →
  refines (run_calls td cs) s (spec_calls fs cs) room (10 * nwrites cs).
Proof.
  induction cs as [|c cs IH]; intros s fs room Hs Hok.
  - by apply refines_ret.
  - apply Forall_cons in Hok as [Hc Hcs]. cbn [run_calls spec_calls].
    pose proof (call_refines s fs room c Hs Hc) as Hr.
    destruct (spec_call fs c) as [r fs1]. rewrite nwrites_cons.
    apply (refines_bind _ _ _ _ _ _ _ _ _ Hr). intros s' room' Hs'.
    pose proof (IH s' fs1 room' Hs' Hcs) as Hrs.
    destruct (spec_calls fs1 cs) as [rs fs2]. rewrite <-(Nat.add_0_r (10 * _)).
    apply (refines_bind _ _ _ _ _ _ _ _ _ Hrs). intros. by apply refines_ret.
Qed.
End refinement.
