(* ===== verification/FsCorrect.v ===== *)
(** * Correctness of the file system

    The theorems about library/file/file.c and library/file/disk.c that the
    rest of the program relies on, from the lemmas of TreediskOps.v, TreediskFs.v, TreediskCreate.v and
    the contract of FileSystem.v, with runs on small disks as witnesses. *)

From S2P Require Import Prelude Layout Blocks Store Treedisk Tree TreediskOps TreediskFs.
From S2P Require Import TreediskCreate Ramdisk FsDisk FileSystem.

(** A ramdisk of [n] null blocks, and a block of data, for the witnesses. *)
Definition demo_size (n : Z) : Z := n * BLOCK_SIZE.
Definition demo_ram (n : Z) : list byte := replicate (Z.to_nat (demo_size n)) Byte.x00.
Definition demo_block : block := replicate nbytes Byte.x41.

(** The disk whose block [b], for [b < n], is [f b]. *)
Definition disk_of (n : Z) (f : Z → block) : gmap Z block :=
  list_to_map ((λ b, (b, f b)) <$> seqZ 0 n).

Lemma disk_of_lookup n f b : 0 ≤ b < n → disk_of n f !!! b = f b.
Proof.
  intros Hb. apply lookup_total_correct, elem_of_list_to_map_1.
  - rewrite <-list_fmap_compose. change (compose _ _) with (λ b : Z, b).
    rewrite list_fmap_id. apply NoDup_seqZ.
  - apply list_elem_of_fmap. exists b. split; [done|]. by apply elem_of_seqZ.
Qed.

Lemma demo_size_ok n :
  3 ≤ n ≤ 4096 → 0 ≤ demo_size n ≤ 2 ^ 32 ∧ demo_size n mod BLOCK_SIZE = 0.
Proof. unfold demo_size, BLOCK_SIZE. intros H. split; [lia|]. by apply Z.mod_mul. Qed.

Definition demo_store n (Hn : 3 ≤ n ≤ 4096) :
    BlockStore (ramdisk_init (demo_size n)) 0 (demo_size n / BLOCK_SIZE) :=
  ramdisk_store (demo_size n) (proj1 (demo_size_ok n Hn)) (proj2 (demo_size_ok n Hn)).

#[local] Instance demo64 : BlockStore (ramdisk_init (demo_size 64)) 0 64 :=
  demo_store 64 ltac:(lia).
#[local] Instance demo3 : BlockStore (ramdisk_init (demo_size 3)) 0 3 :=
  demo_store 3 ltac:(lia).

(** A card kept in memory, for the witnesses: the smallest driver that keeps
    the promise of [SdCard]. *)
Definition mem_sd : sd_driver (gmap Z block) :=
  SdDriver (λ b c, Ret (c !!! b) c) (λ b blk c, Ret tt (<[b:=blk]> c)).

#[export] Program Instance mem_sd_card size : SdCard mem_sd size :=
  {| sd_holds s c := s = c ∧ disk_wf size c |}.
Next Obligation. naive_solver. Qed.
Next Obligation. intros size s c b [-> H] _. by exists c. Qed.
Next Obligation.
  intros size s c b blk [-> H] _ Hb. eexists. split; [done|]. split; [done|].
  by apply disk_wf_insert.
Qed.

(** ** Creating a file system *)

Section create.
Context {S : Type} (bs : inode_store S) (bino N : Z) (uninit : block).
Context `{HB : !BlockStore bs bino N}.

Lemma free_length d free :
  fs_inv N d free → used_blocks d = [] → Z.of_nat (length free) = N - nib d - 1.
Proof.
  intros Hinv Hu. pose proof (fi_part _ _ _ Hinv) as Hp. rewrite Hu, app_nil_r in Hp.
  rewrite Hp, length_seqZ. pose proof (fi_nib _ _ _ Hinv). lia.
Qed.

Lemma empty_disk_files d :
  (∀ ino, 0 ≤ ino < ninode d → nblocks_of d ino = 0) →
  disk_files d = replicate (Z.to_nat (ninode d)) [].
Proof.
  intros H. apply list_eq_same_length with (n := Z.to_nat (ninode d)).
  - by rewrite length_replicate.
  - unfold disk_files. by rewrite length_fmap, length_seqZ.
  - intros i x y Hi Hx Hy. apply lookup_replicate in Hy as [-> _].
    rewrite <-(Nat2Z.id i), disk_files_lookup, (proj2 (Z.ltb_lt _ _)) in Hx by lia.
    injection Hx as <-. apply nil_length_inv, Nat2Z.inj.
    rewrite disk_file_length. apply H. lia.
Qed.

Local Abbreviation inode_blocks nino := ((nino + INODES_PER_BLOCK - 1) / INODES_PER_BLOCK).

Lemma create_state nino s d :
  holds s d → wf_block uninit → 0 < nino → nino + INODES_PER_BLOCK - 1 < 2 ^ 32 →
  inode_blocks nino + 2 ≤ N < 2 ^ 32 → n_inodeblocks (d !!! 0) = 0 →
  ∃ s', treedisk_create uninit bs bino nino s = Ret 0 s' ∧
    fs_state bs bino N s' (replicate (Z.to_nat (inode_blocks nino * INODES_PER_BLOCK)) [])
      (Z.to_nat (N - inode_blocks nino - 1)).
Proof.
  intros Hh Hu Hn Hn32 [HN HN32] H0.
  destruct (create_fresh bs bino N uninit HN32 nino Hn Hn32 s d Hh Hu HN H0)
    as (s' & d' & free & E & Hh' & Hinv & Hnib & Hused & Hempty).
  exists s'. split; [done|]. exists d', free. split_and!; [done..| |].
  - rewrite (empty_disk_files d') by done. unfold ninode. by rewrite Hnib.
  - pose proof (free_length d' free Hinv Hused) as Hl. rewrite Hnib in Hl. lia.
Qed.
End create.

(** A ramdisk of null bytes has no file system; [treedisk_create] puts one
    with 64 empty files on it. *)
Section demo.
Context (n : Z) (Hn : 3 ≤ n ≤ 4096).
#[local] Instance demo_n : BlockStore (ramdisk_init (demo_size n)) 0 (demo_size n / BLOCK_SIZE) :=
  demo_store n Hn.

Lemma demo_ram_holds : ∃ d : gmap Z block,
  holds (demo_ram n) d ∧ n_inodeblocks (d !!! 0) = 0.
Proof.
  assert (Hdiv : demo_size n / BLOCK_SIZE = n) by (by apply Z.div_mul).
  exists (disk_of n (slice (demo_ram n))). split; [split|].
  - unfold demo_ram, demo_size, BLOCK_SIZE. rewrite length_replicate. lia.
  - rewrite Hdiv. apply disk_of_lookup.
  - rewrite disk_of_lookup by lia. unfold slice, demo_ram. rewrite Z.mul_0_l, drop_0, take_replicate.
    rewrite Nat.min_l; [by vm_compute|].
    pose proof nbytes_Z. unfold demo_size, BLOCK_SIZE in *. lia.
Qed.

Lemma demo_created : ∃ s,
  treedisk_create null_block (ramdisk_init (demo_size n)) 0 64 (demo_ram n) = Ret 0 s ∧
  fs_state (ramdisk_init (demo_size n)) 0 (demo_size n / BLOCK_SIZE) s (replicate 64 [])
    (Z.to_nat (n - 2)).
Proof.
  destruct demo_ram_holds as (d & Hh & H0).
  assert (Hdiv : demo_size n / BLOCK_SIZE = n) by (by apply Z.div_mul).
  destruct (create_state (ramdisk_init (demo_size n)) 0 (demo_size n / BLOCK_SIZE) null_block
    64 (demo_ram n) d Hh) as (s & E & Hs); [done..| |done|].
  - rewrite Hdiv. change ((64 + INODES_PER_BLOCK - 1) / INODES_PER_BLOCK) with 1. lia.
  - exists s. split; [done|]. replace (n - 2) with (demo_size n / BLOCK_SIZE - 1 - 1) by lia.
    exact Hs.
Qed.

(** The same on the level of disks, for witnesses about a single call. *)
Lemma demo_created_disk : ∃ s (d : gmap Z block) free,
  treedisk_create null_block (ramdisk_init (demo_size n)) 0 64 (demo_ram n) = Ret 0 s ∧
  holds s d ∧ fs_inv (demo_size n / BLOCK_SIZE) d free ∧ length free = Z.to_nat (n - 2) ∧
  ninode d = 64 ∧ ∀ ino, 0 ≤ ino < 64 → nblocks_of d ino = 0.
Proof.
  destruct demo_created as (s & E & d & free & Hh & Hinv & Hfs & Hl).
  assert (Hin : ninode d = 64).
  { apply (f_equal length) in Hfs. unfold disk_files in Hfs.
    rewrite length_fmap, length_seqZ, length_replicate in Hfs. lia. }
  exists s, d, free. split_and!; try done. intros ino Hino.
  rewrite <-disk_file_length. pose proof (disk_files_lookup d ino ltac:(lia)) as H.
  rewrite Hfs, Hin, (proj2 (Z.ltb_lt _ _)), lookup_replicate_2 in H by lia.
  by injection H as <-.
Qed.
End demo.

(** C1: Refinement.  Any sequence of calls on the tree file system, stacked on
    any block store, returns exactly what the contract of FileSystem.v says for
    the files it stores, and leaves the files the contract says; or it panics
    because the disk is full.  It cannot panic when there are ten free blocks
    for each write of the sequence. *)
Theorem treedisk_refines {S} (bs : inode_store S) (bino N : Z) (uninit : block)
    `{HB : !BlockStore bs bino N} (cs : list fs_call) (s : S) (fs : files) (room : nat) :
  fs_state bs bino N s fs room → Forall call_ok cs →
  (∃ s' room',
     run_calls (treedisk_init uninit bs bino) cs s = Ret (spec_calls fs cs).1 s' ∧
     fs_state bs bino N s' (spec_calls fs cs).2 room' ∧
     (room ≤ room' + 10 * nwrites cs)%nat) ∨
  (room < 10 * nwrites cs)%nat ∧
  ∃ w s', run_calls (treedisk_init uninit bs bino) cs s = Fatal w s'.
Proof. intros Hs Hcs. exact (calls_refine bs bino N uninit cs s fs room Hs Hcs). Qed.

Definition demo_calls : list fs_call :=
  [CallWrite 3 200 demo_block; CallRead 3 200 null_block; CallRead 3 7 demo_block;
   CallGetsize 3; CallRead 3 201 demo_block; CallRead 64 0 demo_block].

Lemma treedisk_refines_witness : ∃ s s',
  treedisk_create null_block (ramdisk_init (demo_size 64)) 0 64 (demo_ram 64) = Ret 0 s ∧
  run_calls (treedisk_init null_block (ramdisk_init (demo_size 64)) 0) demo_calls s =
    Ret [(0, None); (0, Some demo_block); (0, Some null_block); (201, None);
         (-1, Some demo_block); (-1, Some demo_block)] s'.
Proof.
  destruct (demo_created 64 ltac:(lia)) as (s & E & Hs).
  destruct (treedisk_refines (ramdisk_init (demo_size 64)) 0 64 null_block
    demo_calls s (replicate 64 []) 62 Hs) as [(s' & room' & R & _)|[Hlt _]].
  - repeat constructor; (done || lia).
  - exists s, s'. split; [done|]. rewrite R. by f_equal.
  - exfalso. vm_compute in Hlt. lia.
Defined.

(** C24: [treedisk_create] on a store without a file system returns 0, and the
    store then holds [n_inodeblocks * INODES_PER_BLOCK] empty files (at least
    [nino]) with every block after the inode blocks on the free list. *)
Theorem treedisk_create_empty {S} (bs : inode_store S) (bino N : Z) (uninit : block)
    `{HB : !BlockStore bs bino N} (nino : Z) (s : S) (d : gmap Z block) :
  let n_ib := (nino + INODES_PER_BLOCK - 1) / INODES_PER_BLOCK in
  holds s d → wf_block uninit → 0 < nino → nino + INODES_PER_BLOCK - 1 < 2 ^ 32 →
  n_ib + 2 ≤ N < 2 ^ 32 → n_inodeblocks (d !!! 0) = 0 →
  ∃ s', treedisk_create uninit bs bino nino s = Ret 0 s' ∧
    fs_state bs bino N s' (replicate (Z.to_nat (n_ib * INODES_PER_BLOCK)) [])
      (Z.to_nat (N - n_ib - 1)) ∧
    nino ≤ n_ib * INODES_PER_BLOCK.
Proof.
  intros n_ib Hh Hu Hn Hn32 HN H0.
  destruct (create_state bs bino N uninit nino s d) as (s' & E & Hs); [done..|].
  exists s'. split; [done|]. split; [done|]. by apply n_ib_bounds.
Qed.

Lemma treedisk_create_empty_witness : ∃ s,
  treedisk_create null_block (ramdisk_init (demo_size 64)) 0 64 (demo_ram 64) = Ret 0 s ∧
  fs_state (ramdisk_init (demo_size 64)) 0 64 s (replicate 64 []) 62.
Proof.
  destruct (demo_ram_holds 64 ltac:(lia)) as (d & Hh & H0).
  destruct (treedisk_create_empty (ramdisk_init (demo_size 64)) 0 64
    null_block 64 (demo_ram 64) d Hh eq_refl eq_refl eq_refl
    (conj (Zle_bool_imp_le 3 64 eq_refl) eq_refl) H0) as (s & E & Hs & _).
  exists s. exact (conj E Hs).
Defined.

(** [treedisk_create] on a store that holds a file system already returns 0
    and changes nothing; on a store too small for the inode blocks, one free
    block and the superblock it returns -1 and changes nothing. *)
Theorem treedisk_create_refuses {S} (bs : inode_store S) (bino N : Z) (uninit : block)
    `{HB : !BlockStore bs bino N} (nino : Z) (s : S) (d : gmap Z block) :
  let n_ib := (nino + INODES_PER_BLOCK - 1) / INODES_PER_BLOCK in
  holds s d → 0 < nino → nino + INODES_PER_BLOCK - 1 < 2 ^ 32 → 0 < N < 2 ^ 32 →
  N < n_ib + 2 ∨ n_inodeblocks (d !!! 0) ≠ 0 →
  ∃ s', treedisk_create uninit bs bino nino s = Ret (if N <? n_ib + 2 then -1 else 0) s' ∧
        holds s' d.
Proof.
  intros n_ib Hh Hn Hn32 HN Hcase. unfold treedisk_create.
  rewrite (u32_small (nino + _ - 1)) by (change INODES_PER_BLOCK with 64 in *; unfold is_u32; lia).
  fold n_ib. destruct (getsize_spec s d Hh) as (s1 & E1 & Hh1). mrun E1.
  rewrite (u32_small N) by (unfold is_u32; lia).
  destruct (n_ib_bounds nino Hn Hn32) as [B1 B2]. fold n_ib in B1, B2.
  rewrite (u32_small (n_ib + 2))
    by (change INODES_PER_BLOCK with 64 in *; unfold is_u32; lia).
  destruct (Z.ltb_spec N (n_ib + 2)); [by exists s1|].
  destruct Hcase as [|Hcase]; [lia|].
  destruct (read_spec s1 d 0 uninit Hh1) as (s2 & E2 & Hh2); [lia|]. mrun E2. simpl.
  rewrite (proj2 (Z.eqb_neq _ _) Hcase). by exists s2.
Qed.

Lemma treedisk_create_refuses_witness : ∃ s,
  treedisk_create null_block (ramdisk_init (demo_size 64)) 0 4000 (demo_ram 64) = Ret (-1) s.
Proof.
  destruct (demo_ram_holds 64 ltac:(lia)) as (d & Hh & H0).
  destruct (treedisk_create_refuses (ramdisk_init (demo_size 64)) 0 64
    null_block 4000 (demo_ram 64) d Hh eq_refl eq_refl (conj eq_refl eq_refl)
    (or_introl eq_refl)) as (s & E & _).
  exists s. exact E.
Defined.

(** Writing block [off] of file [ino], with enough free blocks, returns 0.
    Afterwards the file has the block, its other blocks and all other files are
    unchanged, blocks between the old end and [off] read as null blocks, and
    exactly the blocks the path to [off] was missing went from the free list to
    the file: the data blocks are still partitioned among the free list and the
    files ([fs_inv]). *)
Theorem treedisk_write_correct {S} (bs : inode_store S) (bino N : Z) (uninit : block)
    `{HB : !BlockStore bs bino N} (s : S) (d : gmap Z block) (free : list Z)
    (ino off : Z) (blk : block) :
  holds s d → fs_inv N d free → 0 ≤ ino < ninode d → 0 ≤ off < 2 ^ 32 - 1 → wf_block blk →
  (write_need d ino off ≤ length free)%nat →
  ∃ s' d' free' A,
    write (treedisk_init uninit bs bino) ino off blk s = Ret 0 s' ∧
    write_post (TreediskState bs bino 0) N d free ino off blk s' d' free' A.
Proof.
  intros Hh Hinv Hino Hoff Hblk Hneed.
  apply (treedisk_write_spec (TreediskState bs bino 0) N uninit s d free ino off blk);
    try done; unfold is_u32; lia.
Qed.

Lemma treedisk_write_correct_witness : ∃ s s',
  treedisk_create null_block (ramdisk_init (demo_size 64)) 0 64 (demo_ram 64) = Ret 0 s ∧
  write (treedisk_init null_block (ramdisk_init (demo_size 64)) 0) 3 200 demo_block s = Ret 0 s'.
Proof.
  destruct (demo_created_disk 64 ltac:(lia)) as (s & d & free & E & Hh & Hinv & Hl & Hn & _).
  destruct (treedisk_write_correct (ramdisk_init (demo_size 64)) 0 64
    null_block s d free 3 200 demo_block Hh Hinv) as (s' & _ & _ & _ & W & _); [lia..|done| |].
  - pose proof (write_need_le d 3 200). lia.
  - exists s, s'. exact (conj E W).
Defined.

(** When the free list is shorter than what the path to the block is
    missing, the write panics instead of returning: together with
    [treedisk_write_spec], a write succeeds exactly when its blocks are there. *)
Theorem treedisk_write_panics {S} (bs : inode_store S) (bino N : Z) (uninit : block)
    `{HB : !BlockStore bs bino N} (s : S) (d : gmap Z block) (free : list Z)
    (ino off : Z) (blk : block) :
  holds s d → fs_inv N d free → 0 ≤ ino < ninode d → 0 ≤ off < 2 ^ 32 - 1 → wf_block blk →
  (length free < write_need d ino off)%nat →
  ∃ w s', write (treedisk_init uninit bs bino) ino off blk s = Fatal w s'.
Proof.
  intros Hh Hinv Hino Hoff Hblk Hneed.
  apply (treedisk_write_full (TreediskState bs bino 0) N uninit s d free ino off blk);
    try done; unfold is_u32; lia.
Qed.

Lemma treedisk_write_panics_witness : ∃ s w s',
  treedisk_create null_block (ramdisk_init (demo_size 3)) 0 64 (demo_ram 3) = Ret 0 s ∧
  write (treedisk_init null_block (ramdisk_init (demo_size 3)) 0) 5 200 demo_block s = Fatal w s'.
Proof.
  destruct (demo_created_disk 3 ltac:(lia)) as (s & d & free & E & Hh & Hinv & Hl & Hn & H0).
  destruct (treedisk_write_panics (ramdisk_init (demo_size 3)) 0 3
    null_block s d free 5 200 demo_block Hh Hinv) as (w & s' & W); [lia..|done| |].
  - unfold write_need, depth_of. rewrite H0, Hl by lia. vm_compute. lia.
  - exists s, w, s'. exact (conj E W).
Defined.

(** The offset that [call_ok] excludes.  On a fresh file system, a write to
    block 0xFFFFFFFF of an empty file returns 0, and the file is still empty:
    [nblocks = offset + 1] wrapped to 0, so the block just written cannot be
    read back. *)
Example treedisk_write_last_offset :
  match (rc ← treedisk_create null_block (ramdisk_init (demo_size 64)) 0 64;
         rs ← run_calls (treedisk_init null_block (ramdisk_init (demo_size 64)) 0)
                [CallWrite 3 (2 ^ 32 - 1) demo_block; CallGetsize 3;
                 CallRead 3 (2 ^ 32 - 1) null_block];
         mret (rc, rs)) (demo_ram 64) with
  | Ret r _ => r = (0, [(0, None); (0, None); (-1, Some null_block)])
  | _ => False
  end.
Proof. vm_compute. reflexivity. Qed.

(** C31: On an SD card, a sequence of file system calls that returns has changed no
    block of the paging area or of the kernel's executables (the blocks below
    [GRASS_FS_START]), and has returned what the contract says.  Sequences that end
    in [panic], for want of free blocks, are not covered. *)
Theorem fs_disk_keeps_boot_area {D} (sd : sd_driver D) (rom : Z → byte) (uninit : block)
    `{HS : !SdCard sd DISK_BLOCKS} (rest : gmap Z block) (cs : list fs_call)
    (s s' : D) (fs : files) (room : nat) rs :
  fs_state (HB := fs_disk_store sd rom rest) (fs_disk_init sd rom SD_CARD) 0 4096 s fs room →
  Forall call_ok cs →
  run_calls (treedisk_init uninit (fs_disk_init sd rom SD_CARD) 0) cs s = Ret rs s' →
  rs = (spec_calls fs cs).1 ∧
  ∃ c', sd_holds s' c' ∧ ∀ b, b < GRASS_FS_START → c' !!! b = rest !!! b.
Proof.
  intros Hs Hcs E.
  destruct (calls_refine (HB := fs_disk_store sd rom rest) _ 0 4096 uninit cs s fs room Hs Hcs)
    as [(s1 & room' & E1 & (d & free & (c & Hc & _ & Hrest) & _) & _)|(_ & w & s1 & E1)].
  - rewrite E in E1. injection E1 as -> ->. split; [done|]. by exists c.
  - by rewrite E in E1.
Qed.

(** A card of null blocks, and the file system of the boot image on it. *)
Definition demo_card : gmap Z block := disk_of DISK_BLOCKS (λ _, null_block).
Definition demo_fs_disk : inode_store (gmap Z block) :=
  fs_disk_init mem_sd (λ _, Byte.x00) SD_CARD.

Lemma demo_card_created : ∃ s,
  treedisk_create null_block demo_fs_disk 0 NINODES demo_card = Ret 0 s ∧
  fs_state (HB := fs_disk_store mem_sd (λ _, Byte.x00) demo_card) demo_fs_disk 0 4096 s
    (replicate 128 []) 4093.
Proof.
  apply (create_state (HB := fs_disk_store mem_sd (λ _, Byte.x00) demo_card)
    demo_fs_disk 0 4096 null_block NINODES demo_card (disk_of 4096 (λ _, null_block)));
    [|done..| |].
  - exists demo_card. split; [split; [reflexivity|]|split; [|reflexivity]].
    + intros b Hb. unfold demo_card. by rewrite disk_of_lookup.
    + intros b Hb. unfold demo_card. rewrite !disk_of_lookup; [done| |done].
      by apply (fs_addr b).
  - change ((NINODES + INODES_PER_BLOCK - 1) / INODES_PER_BLOCK) with 2. lia.
  - by rewrite disk_of_lookup by lia.
Qed.

Lemma fs_disk_keeps_boot_area_witness : ∃ s s' c',
  treedisk_create null_block demo_fs_disk 0 NINODES demo_card = Ret 0 s ∧
  run_calls (treedisk_init null_block demo_fs_disk 0) demo_calls s =
    Ret [(0, None); (0, Some demo_block); (0, Some null_block); (201, None);
         (-1, Some demo_block); (-1, Some demo_block)] s' ∧
  sd_holds (size := DISK_BLOCKS) s' c' ∧ ∀ b, b < GRASS_FS_START → c' !!! b = demo_card !!! b.
Proof.
  destruct demo_card_created as (s & E & Hs).
  assert (Hok : Forall call_ok demo_calls) by (repeat constructor; (done || lia)).
  destruct (calls_refine (HB := fs_disk_store mem_sd (λ _, Byte.x00) demo_card) _ 0 4096
    null_block demo_calls s _ _ Hs Hok) as [(s' & room' & R & _)|[Hlt _]].
  - destruct (fs_disk_keeps_boot_area mem_sd (λ _, Byte.x00) null_block demo_card demo_calls
      s s' (replicate 128 []) 4093 _ Hs Hok R) as [_ (c' & Hc & Hb)].
    exists s, s', c'. split; [exact E|]. split; [|exact (conj Hc Hb)].
    replace (spec_calls (replicate 128 []) demo_calls).1 with
      [(0, None); (0, Some demo_block); (0, Some null_block); (201, None);
       (-1, Some demo_block); (-1, Some demo_block)] in R by (vm_compute; reflexivity).
    exact R.
  - exfalso. vm_compute in Hlt. lia.
Defined.
