(* ===== verification/Dir.v ===== *)
(** * Directories

    [dir_do_lookup] of apps/system/sys_dir.c.  A directory is a text file of one
    block: for each entry the name, the inode number in a field of width 4, and a
    space.  [render] is that text; the theorems say that lookup in it finds what
    was rendered.  The functions of string.h and stdlib.h that the code calls are
    modelled as far as it uses them; characters are bytes, unsigned on this
    target. *)

From coqutil Require Import Byte.
From S2P Require Import Prelude Layout Blocks.

Abbreviation sp := Byte.x20.
Abbreviation nul := Byte.x00.

#[export] Instance byte_eq_dec : EqDecision byte.
Proof. intros x y. destruct (Byte.eqb x y) eqn:E; [left; by apply Byte.byte_dec_bl|right; intros ->; by rewrite Byte.byte_dec_lb in E]. Defined.
Arguments byte_eq_dec : simpl never.
#[export] Instance byte_inhabited : Inhabited byte := populate nul.

(** ** Strings of C *)

Section strings.
Context {S : Type}.

(** Bytes before the first null byte; a buffer without one is overrun. *)
Fixpoint find_nul (l : list byte) : option nat :=
  match l with
  | [] => None
  | c :: l => if decide (c = nul) then Some 0%nat else Datatypes.S <$> find_nul l
  end.
Definition strlen (buf : list byte) : M S Z :=
  match find_nul buf with Some n => mret (Z.of_nat n) | None => undef "strlen" end.

(** [!strncmp(name, buf + i, strlen(name))]: [name] has no null byte, so the
    comparison stops at its end or at the first difference. *)
Fixpoint strncmp_eq (name buf : list byte) (i : Z) : M S bool :=
  match name with
  | [] => mret true
  | c :: name =>
      d ← arr_get buf i;
      if decide (c = d) then strncmp_eq name buf (i + 1) else mret false
  end.

Definition digit (c : byte) : bool := (0x30 <=? byte.unsigned c) && (byte.unsigned c <=? 0x39).
Definition digit_value (c : byte) : Z := byte.unsigned c - 0x30.

Definition is_space (c : byte) : bool :=
  bool_decide (c = sp) || (9 <=? byte.unsigned c) && (byte.unsigned c <=? 13).

(** [atoi]: white space, a sign, digits; [strtol] stops at the bounds of int. *)
Fixpoint digits (acc : Z) (l : list byte) : Z :=
  match l with
  | c :: l => if digit c then digits (acc * 10 + digit_value c) l else acc
  | [] => acc
  end.
Definition clamp (n : Z) : Z := Z.max (- 2 ^ 31) (Z.min (2 ^ 31 - 1) n).
Definition signed_digits (l : list byte) : Z :=
  match l with
  | c :: l' =>
      if decide (c = Byte.x2d) then clamp (- digits 0 l')
      else if decide (c = Byte.x2b) then clamp (digits 0 l')
      else clamp (digits 0 l)
  | [] => 0
  end.
Fixpoint atoi (l : list byte) : Z :=
  match l with
  | c :: l' => if is_space c then atoi l' else signed_digits l
  | [] => 0
  end.
End strings.

(** ** Lookup *)

Section lookup.
Context {S : Type}.

(** [for (int i = 0, namelen = strlen(name); i < strlen(buf) - namelen; i++)];
    the bound is computed in unsigned arithmetic. *)
Fixpoint lookup_loop (n : nat) (name buf : list byte) (i : Z) : M S Z :=
  match n with
  | O => spin
  | Datatypes.S n =>
      let namelen := Z.of_nat (length name) in
      len ← strlen buf;
      if i <? u32 (len - namelen) then
        found ← (eq ← strncmp_eq name buf i;
                 if negb eq then mret false else
                 c ← arr_get buf (i + namelen);
                 if decide (c = sp) then
                   if i =? 0 then mret true
                   else d ← arr_get buf (i - 1); mret (bool_decide (d = sp))
                 else mret false);
        if (found : bool) then mret (atoi (drop (Z.to_nat (i + namelen)) buf))
        else lookup_loop n name buf (i + 1)
      else mret (-1)
  end.

(** The search in the block that [file_read] has put into [buf].  The loop
    leaves the buffer, which is undefined, before it has made more rounds than
    the buffer has bytes. *)
Definition dir_search (buf : block) (name : list byte) : M S Z :=
  lookup_loop (length buf + 2) name buf 0.
End lookup.

(** ** Directories as text *)

Definition dec_digit (n : Z) : byte := byte.of_Z (0x30 + n).
Definition dec (n : Z) : list byte :=
  if n <? 10 then [dec_digit n]
  else if n <? 100 then [dec_digit (n / 10); dec_digit (n mod 10)]
  else [dec_digit (n / 100); dec_digit (n / 10 mod 10); dec_digit (n mod 10)].
(** A number in a field of width 4. *)
Definition dec4 (n : Z) : list byte := replicate (4 - length (dec n)) sp ++ dec n.

Definition render_entry (e : list byte * Z) : list byte := e.1 ++ dec4 e.2 ++ [sp].
Definition render (es : list (list byte * Z)) : list byte := es ≫= render_entry.

(** A word: no space and no null byte in it. *)
Definition word (w : list byte) : Prop := w ≠ [] ∧ sp ∉ w ∧ nul ∉ w.
Definition entry_ok (e : list byte * Z) : Prop := word e.1 ∧ 0 ≤ e.2 < 1000.

(** The inode number of the first entry with the name. *)
Fixpoint entry_ino (es : list (list byte * Z)) (name : list byte) : Z :=
  match es with
  | [] => -1
  | e :: es => if decide (e.1 = name) then e.2 else entry_ino es name
  end.

(** What the search finds.  It looks at every word of the text, so it also finds
    the inode number of an entry, and then takes what follows for a number: the
    start of the next name, which gives 0 unless that name starts with digits. *)
Fixpoint lookup_ino (es : list (list byte * Z)) (name : list byte) : Z :=
  match es with
  | [] => -1
  | e :: es =>
      if decide (e.1 = name) then e.2
      else if decide (dec e.2 = name) then atoi (sp :: render es)
      else lookup_ino es name
  end.

(** The block with the text of a directory, padded with null bytes. *)
Definition dir_block (es : list (list byte * Z)) : block :=
  render es ++ replicate (nbytes - length (render es)) nul.

(** ** Lookup as a scan over the text *)

(** The text starts with [name] and a space. *)
Fixpoint starts (name l : list byte) : bool :=
  match name, l with
  | [], c :: _ => bool_decide (c = sp)
  | c :: name, d :: l => bool_decide (c = d) && starts name l
  | _, [] => false
  end.

(** [bol]: the position is the first of the text or comes after a space. *)
Fixpoint scan (name : list byte) (bol : bool) (l : list byte) : Z :=
  match l with
  | [] => -1
  | c :: l' =>
      if bol && starts name l then atoi (drop (length name) l)
      else scan name (bool_decide (c = sp)) l'
  end.

Section scan.
Context (name : list byte) (Hname : word name).

Lemma starts_word w rest :
  sp ∉ w → starts name (w ++ sp :: rest) = bool_decide (w = name).
Proof using Hname.
  destruct Hname as (_ & Hn & _). clear Hname. revert w Hn.
  induction name as [|c l IH]; intros w Hn Hw; simpl.
  - destruct w as [|d w]; simpl; [done|]. apply not_elem_of_cons in Hw as [Hd _].
    by rewrite !bool_decide_eq_false_2 by done.
  - apply not_elem_of_cons in Hn as [Hc Hn].
    destruct w as [|d w]; simpl; [by rewrite bool_decide_eq_false_2|].
    apply not_elem_of_cons in Hw as [Hd Hw]. rewrite (IH w Hn Hw).
    apply Bool.eq_iff_eq_true. rewrite andb_true_iff, !bool_decide_eq_true. naive_solver.
Qed.

Lemma scan_word_end w rest : sp ∉ w → scan name false (w ++ sp :: rest) = scan name true rest.
Proof using Type.
  induction w as [|c w IH]; intros Hw; simpl; [done|].
  apply not_elem_of_cons in Hw as [Hc Hw]. rewrite bool_decide_eq_false_2 by done. by apply IH.
Qed.

(** A word of the text is the name or is passed over. *)
Lemma scan_word w rest :
  w ≠ [] → sp ∉ w →
  scan name true (w ++ sp :: rest) = if decide (w = name) then atoi (sp :: rest) else scan name true rest.
Proof using Hname.
  intros Hne Hw. destruct w as [|c w]; [done|]. cbn [scan app].
  change (c :: w ++ sp :: rest) with ((c :: w) ++ sp :: rest).
  rewrite starts_word by done. simpl andb. case_decide as E.
  - rewrite bool_decide_eq_true_2 by done. by rewrite <-E, drop_app_length.
  - rewrite bool_decide_eq_false_2 by done. apply not_elem_of_cons in Hw as [Hc Hw].
    rewrite bool_decide_eq_false_2 by done. by apply scan_word_end.
Qed.

Lemma scan_spaces n rest : scan name true (replicate n sp ++ rest) = scan name true rest.
Proof using Hname.
  induction n as [|n IH]; [done|]. cbn [replicate app scan].
  change (sp :: replicate n sp ++ rest) with ([] ++ sp :: replicate n sp ++ rest).
  rewrite starts_word by apply not_elem_of_nil. destruct Hname as [Hne _].
  rewrite (bool_decide_eq_false_2 ([] = name)) by congruence. simpl. exact IH.
Qed.
End scan.

(** ** Numbers *)

Definition is_number (w : list byte) : bool := forallb digit w.

Definition dec_check (n : Z) : bool :=
  is_number (dec n) && (digits 0 (dec n) =? n) && (0 <? length (dec n))%nat && (length (dec n) <? 4)%nat.
Lemma dec_checked n : 0 ≤ n < 1000 → dec_check n = true.
Proof.
  intros Hn. assert (H : forallb dec_check (seqZ 0 1000) = true) by (vm_compute; reflexivity).
  rewrite forallb_forall in H. apply H, list_elem_of_In, elem_of_seqZ. lia.
Qed.

Lemma dec_spec n :
  0 ≤ n < 1000 →
  is_number (dec n) = true ∧ digits 0 (dec n) = n ∧ dec n ≠ [] ∧ (length (dec n) < 4)%nat.
Proof.
  intros Hn. pose proof (dec_checked n Hn) as H. unfold dec_check in H.
  rewrite !andb_true_iff, Z.eqb_eq, !Nat.ltb_lt in H. destruct H as (((H1 & H2) & H3) & H4).
  split_and!; try done. intros E. rewrite E in H3. simpl in H3. lia.
Qed.

Lemma number_no_sp w : is_number w = true → sp ∉ w ∧ nul ∉ w.
Proof.
  induction w as [|c w IH]; simpl; [split; apply not_elem_of_nil|].
  rewrite andb_true_iff. intros [Hc Hw]. rewrite !not_elem_of_cons.
  specialize (IH Hw). split; (split; [|tauto]); by intros <-.
Qed.

Lemma digits_number w acc rest :
  is_number w = true → digits acc (w ++ sp :: rest) = digits acc w.
Proof.
  revert acc. induction w as [|c w IH]; intros acc Hw; [done|]. simpl in *.
  apply andb_true_iff in Hw as [-> Hw]. by apply IH.
Qed.

(** What follows a name in a directory reads as its number. *)
Lemma atoi_dec4 n rest : 0 ≤ n < 1000 → atoi (dec4 n ++ sp :: rest) = n.
Proof.
  intros Hn. destruct (dec_spec n Hn) as (Hd & Hv & Hne & _). unfold dec4.
  rewrite <-(assoc_L app). induction (4 - length (dec n))%nat as [|k IH]; [|exact IH].
  destruct (dec n) as [|c w] eqn:E; [done|]. unfold is_number in Hd. cbn [forallb] in Hd. cbn [replicate app atoi].
  apply andb_true_iff in Hd as [Hc Hw].
  assert (Hs : is_space c = false ∧ c ≠ Byte.x2d ∧ c ≠ Byte.x2b).
  { revert Hc. clear. unfold digit, is_space. by destruct c. }
  destruct Hs as (-> & H1 & H2). unfold signed_digits. rewrite !decide_False by done.
  change (c :: w ++ sp :: rest) with ((c :: w) ++ sp :: rest).
  rewrite digits_number, Hv by (unfold is_number; cbn [forallb]; by rewrite Hc). unfold clamp. lia.
Qed.

Lemma scan_render name es :
  word name → Forall entry_ok es → scan name true (render es) = lookup_ino es name.
Proof.
  intros Hw. induction 1 as [|[w n] es [[Hne [Hsp _]] Hn] _ IH]; [done|].
  cbn [fst snd lookup_ino] in *. unfold render in *. rewrite bind_cons.
  unfold render_entry at 1. cbn [fst snd].
  destruct (dec_spec n Hn) as (Hd & _ & Hdne & Hl). destruct (number_no_sp _ Hd) as [Hdsp _].
  assert (E4 : dec4 n = sp :: replicate (3 - length (dec n)) sp ++ dec n).
  { unfold dec4. by replace (4 - length (dec n))%nat with (S (3 - length (dec n))) by lia. }
  rewrite E4 at 1. rewrite <-!(assoc_L app). cbn [app]. rewrite <-!(assoc_L app).
  rewrite scan_word by done. case_decide.
  - change (sp :: replicate (3 - length (dec n)) sp ++ dec n ++ sp :: (es ≫= render_entry))
      with ((sp :: replicate (3 - length (dec n)) sp) ++ dec n ++ sp :: (es ≫= render_entry)).
    rewrite (assoc_L app). change ((sp :: ?a) ++ ?b) with (sp :: a ++ b).
    rewrite <-E4. by apply atoi_dec4.
  - rewrite scan_spaces, scan_word by done. case_decide; [done|exact IH].
Qed.

(** A name that is not a number is found where it is an entry. *)
Lemma lookup_ino_name es name :
  is_number name = false → Forall entry_ok es → lookup_ino es name = entry_ino es name.
Proof.
  intros Hnum. induction 1 as [|[w n] es [_ Hn] _ IH]; [done|]. cbn [fst snd lookup_ino entry_ino] in *.
  case_decide; [done|]. rewrite decide_False; [exact IH|]. intros <-.
  destruct (dec_spec n Hn) as [Hd _]. congruence.
Qed.

(** ** The loop is the scan *)

Lemma find_nul_text t pad : nul ∉ t → find_nul (t ++ nul :: pad) = Some (length t).
Proof.
  induction t as [|c t IH]; intros Ht; [done|]. apply not_elem_of_cons in Ht as [Hc Ht].
  simpl. rewrite decide_False by done. by rewrite IH.
Qed.

Lemma digits_nul t : ∀ acc pad, digits acc (t ++ nul :: pad) = digits acc t.
Proof. induction t as [|c t IH]; intros acc pad; [done|]. cbn [app digits]. by destruct (digit c). Qed.

Lemma atoi_nul t pad : atoi (t ++ nul :: pad) = atoi t.
Proof.
  induction t as [|c t IH]; [done|]. cbn [app atoi]. destruct (is_space c); [done|].
  unfold signed_digits. repeat case_decide; rewrite ?digits_nul; [done..|].
  change (c :: t ++ nul :: pad) with ((c :: t) ++ nul :: pad). by rewrite digits_nul.
Qed.

Lemma scan_short name l bol : (length l ≤ length name)%nat → scan name bol l = -1.
Proof.
  revert bol. induction l as [|c l IH]; intros bol Hl; [done|]. cbn [scan].
  assert (Hs : starts name (c :: l) = false).
  { revert Hl. generalize (c :: l). clear. induction name as [|d name IH]; intros [|c l]; simpl; try done;
      [lia|]. intros Hl. rewrite IH by lia. apply andb_false_r. }
  rewrite Hs, andb_false_r. apply IH. simpl in Hl. lia.
Qed.

Section loop.
Context {S : Type} (name t pad : list byte).
Hypothesis Hname : word name.
Hypothesis Ht : nul ∉ t.
Local Abbreviation buf := (t ++ nul :: pad).
Local Abbreviation namelen := (Z.of_nat (length name)).
Local Abbreviation len := (Z.of_nat (length t)).
Implicit Types s : S.

Lemma strlen_buf s : strlen buf s = Ret len s.
Proof using Ht. unfold strlen. by rewrite find_nul_text. Qed.

Lemma buf_get i s : 0 ≤ i < len → arr_get buf i s = Ret (t !!! Z.to_nat i) s.
Proof using Type.
  intros Hi. rewrite arr_get_eq by (rewrite length_app; lia).
  by rewrite lookup_total_app_l by lia.
Qed.

(** The comparison and the test of the character after the name. *)
Lemma strncmp_starts k : ∀ i s, 0 ≤ i → i + Z.of_nat (length k) < len →
  (eq ← strncmp_eq k buf i;
   if negb eq then mret false else
   c ← arr_get buf (i + Z.of_nat (length k));
   mret (bool_decide (c = sp))) s = Ret (starts k (drop (Z.to_nat i) t)) s.
Proof using Type.
  induction k as [|c k IH]; intros i s Hi Hk.
  - cbn [strncmp_eq length] in *. rewrite mret_bind. cbn [negb]. cbv iota.
    change (Z.of_nat 0) with 0. rewrite Z.add_0_r.
    rewrite (bind_ret_eq _ _ _ _ _ (buf_get i s ltac:(lia))).
    rewrite (drop_S t (t !!! Z.to_nat i)); [done|].
    apply list_lookup_lookup_total_lt. lia.
  - cbn [length] in *.
    assert (E0 : strncmp_eq (c :: k) buf i s =
      if decide (c = t !!! Z.to_nat i) then strncmp_eq k buf (i + 1) s else Ret false s).
    { cbn [strncmp_eq]. rewrite (bind_ret_eq _ _ _ _ _ (buf_get i s ltac:(lia))). by case_decide. }
    rewrite (drop_S t (t !!! Z.to_nat i)) by (apply list_lookup_lookup_total_lt; lia).
    cbn [starts]. specialize (IH (i + 1) s ltac:(lia) ltac:(lia)).
    replace (Z.to_nat (i + 1)) with (Datatypes.S (Z.to_nat i)) in IH by lia.
    replace (i + 1 + Z.of_nat (length k)) with (i + Z.of_nat (Datatypes.S (length k))) in IH by lia.
    unfold mbind, M_bind in *. rewrite E0. case_decide as E.
    + rewrite bool_decide_eq_true_2 by done. exact IH.
    + by rewrite bool_decide_eq_false_2 by done.
Qed.

Definition bol_at (i : Z) : bool := (i =? 0) || bool_decide (t !!! Z.to_nat (i - 1) = sp).

Lemma found_eq i s :
  0 ≤ i → i + namelen < len →
  (eq ← strncmp_eq name buf i;
   if negb eq then mret false else
   c ← arr_get buf (i + namelen);
   if decide (c = sp) then
     if i =? 0 then mret true
     else d ← arr_get buf (i - 1); mret (bool_decide (d = sp))
   else mret false) s = Ret (bol_at i && starts name (drop (Z.to_nat i) t)) s.
Proof using Type.
  intros Hi Hk. pose proof (strncmp_starts name i s Hi Hk) as E.
  apply bind_ret_inv in E as (eq & s1 & E1 & E2).
  rewrite (bind_ret_eq _ _ _ _ _ E1). destruct eq; cbn [negb] in *; cbv iota in *.
  2:{ injection E2 as <- <-. by rewrite andb_false_r. }
  apply bind_ret_inv in E2 as (c & s2 & E2 & E3). injection E3 as E3 <-.
  rewrite (bind_ret_eq _ _ _ _ _ E2), <-E3. destruct (decide (c = sp)) as [Ec|Ec].
  - rewrite (bool_decide_eq_true_2 (c = sp)), andb_true_r by done. unfold bol_at.
    destruct (Z.eqb_spec i 0); [done|]. simpl orb. cbv iota.
    rewrite buf_get in E2 by lia. injection E2 as _ <-.
    by rewrite (bind_ret_eq _ _ _ _ _ (buf_get (i - 1) _ ltac:(lia))).
  - by rewrite (bool_decide_eq_false_2 (c = sp)), andb_false_r.
Qed.

Lemma lookup_loop_scan n : ∀ i s,
  namelen ≤ len → len < 2 ^ 32 → 0 ≤ i ≤ len - namelen → len - namelen - i < Z.of_nat n →
  lookup_loop n name buf i s = Ret (scan name (bol_at i) (drop (Z.to_nat i) t)) s.
Proof using Ht.
  induction n as [|n IH]; intros i s Hk Hl Hi Hn; [lia|]. cbn [lookup_loop].
  rewrite (bind_ret_eq _ _ _ _ _ (strlen_buf s)), u32_small by (unfold is_u32; lia).
  destruct (Z.ltb_spec i (len - namelen)) as [Hlt|Hge].
  - rewrite (bind_ret_eq _ _ _ _ _ (found_eq i s ltac:(lia) ltac:(lia))).
    rewrite (drop_S t (t !!! Z.to_nat i)) by (apply list_lookup_lookup_total_lt; lia).
    cbn [scan]. destruct (_ && _).
    + rewrite drop_app_le by lia.
      rewrite atoi_nul, <-(drop_S t (t !!! Z.to_nat i)) by (apply list_lookup_lookup_total_lt; lia).
      rewrite drop_drop. unfold mret, M_ret. do 3 f_equal. lia.
    + rewrite IH by lia. unfold bol_at. rewrite (proj2 (Z.eqb_neq (i + 1) 0)) by lia. simpl orb.
      replace (Z.to_nat (i + 1)) with (Datatypes.S (Z.to_nat i)) by lia. by rewrite Z.add_simpl_r.
  - rewrite scan_short; [done|]. rewrite length_drop. lia.
Qed.
End loop.

Lemma render_no_nul es : Forall entry_ok es → nul ∉ render es.
Proof.
  induction 1 as [|[w n] es [[_ [_ Hw]] Hn] _ IH]; [apply not_elem_of_nil|].
  unfold render in *. rewrite bind_cons. unfold render_entry at 1, dec4. cbn [fst snd].
  destruct (dec_spec n Hn) as (Hd & _). destruct (number_no_sp _ Hd) as [_ Hnul].
  rewrite !not_elem_of_app. split_and!; try done.
  - by intros [? _]%elem_of_replicate.
  - apply not_elem_of_cons. split; [done|apply not_elem_of_nil].
Qed.

Lemma atoi_range l : is_s32 (atoi l).
Proof.
  induction l as [|c l IH]; [done|]. cbn [atoi]. destruct (is_space c); [done|].
  unfold signed_digits, clamp, is_s32. repeat case_decide; lia.
Qed.

Lemma lookup_ino_range es name : Forall entry_ok es → is_s32 (lookup_ino es name).
Proof.
  induction 1 as [|[w i] es [_ Hi] _ IH]; cbn [lookup_ino fst snd] in *; [done|].
  case_decide; [unfold is_s32; lia|]. case_decide; [apply atoi_range|done].
Qed.

(** Looking up what was rendered. *)
Lemma dir_search_spec {S} (es : list (list byte * Z)) (name : list byte) (s : S) :
  Forall entry_ok es → (length (render es) < nbytes)%nat → word name →
  (length name ≤ length (render es))%nat →
  dir_search (dir_block es) name s = Ret (lookup_ino es name) s.
Proof.
  intros Hes Hlen Hw Hle. unfold dir_search, dir_block.
  replace (nbytes - length (render es))%nat with (Datatypes.S (nbytes - length (render es) - 1)) by lia.
  cbn [replicate]. rewrite lookup_loop_scan; [| |lia|..].
  - rewrite drop_0. unfold bol_at. simpl (_ =? _). simpl orb. by rewrite scan_render.
  - by apply render_no_nul.
  - unfold nbytes in Hlen. change BLOCK_SIZE with 512 in Hlen. lia.
  - lia.
  - rewrite length_app. simpl length. lia.
Qed.

(** Looking up what was rendered.  In the block of a directory, whose text
    has the entries [es] in order, [dir_do_lookup] returns [lookup_ino], without
    leaving the buffer.  The name is a word that is no longer than the text. *)
Theorem dir_lookup_roundtrip {S} (es : list (list byte * Z)) (name : list byte) (s : S) :
  Forall entry_ok es → (length (render es) < nbytes)%nat → word name →
  (length name ≤ length (render es))%nat →
  dir_search (dir_block es) name s = Ret (lookup_ino es name) s.
Proof. apply dir_search_spec. Qed.

#[export] Instance word_dec w : Decision (word w).
Proof. unfold word. apply _. Defined.
#[export] Instance entry_ok_dec e : Decision (entry_ok e).
Proof. unfold entry_ok. apply _. Defined.

(** The bytes of a string constant. *)
Definition chars (s : string) : list byte := String.list_byte_of_string s.

(** The root directory of the disk image. *)
Definition root_entries : list (list byte * Z) :=
  [(chars "./", 0); (chars "../", 0); (chars "home/", 1); (chars "bin/", 6)].

Lemma dir_lookup_roundtrip_witness :
  dir_search (dir_block root_entries) (chars "bin/") tt = Ret 6 tt ∧
  dir_search (dir_block root_entries) (chars "lib/") tt = Ret (-1) tt.
Proof.
  split.
  - rewrite (dir_lookup_roundtrip root_entries (chars "bin/") tt); [by vm_compute|..].
    + apply (bool_decide_unpack _). vm_compute. exact Logic.I.
    + apply Nat.ltb_lt. by vm_compute.
    + apply (bool_decide_unpack _). vm_compute. exact Logic.I.
    + apply Nat.leb_le. by vm_compute.
  - rewrite (dir_lookup_roundtrip root_entries (chars "lib/") tt); [by vm_compute|..].
    + apply (bool_decide_unpack _). vm_compute. exact Logic.I.
    + apply Nat.ltb_lt. by vm_compute.
    + apply (bool_decide_unpack _). vm_compute. exact Logic.I.
    + apply Nat.leb_le. by vm_compute.
Defined.

(** A number is found although no entry has that name: in the root directory, the
    inode number of [bin/]. *)
Example dir_lookup_number :
  dir_search (dir_block root_entries) (chars "6") tt = Ret 0 tt ∧
  entry_ino root_entries (chars "6") = -1.
Proof. vm_compute. done. Qed.

(** A name that is longer than the text of the directory.  The unsigned
    difference [strlen(buf) - namelen] wraps around, the loop does not stop at
    the end of the text, and the buffer is overrun: here in the directory
    /home/rvr of the disk image, with a name of 17 characters. *)
Example dir_lookup_overrun :
  dir_search (dir_block [(chars "./", 3); (chars "../", 1)]) (chars "README.first.text") tt =
  Undef "array index".
Proof. vm_compute. reflexivity. Qed.
