(* ===== verification/Mkfs.v ===== *)
(** * Building the disk image

    tools/mkfs.c: the files of the image's file system ([mkfs]) and the layout of
    the image ([main]).  The files of the host, which the program reads, are a
    parameter [host] from their names to their contents; reads and writes of the
    host are taken to be complete.  [mkfs] runs on the ramdisk of Ramdisk.v. *)

From coqutil Require Import Byte.
From S2P Require Import Prelude Layout Blocks Store Treedisk TreediskFs TreediskCreate Ramdisk.
From S2P Require Import FsDisk FileSystem FsCorrect Dir.

(** ** The files *)

(** [#0: /              #1: /home                #2: /home/yunhao  #3: /home/rvr
     #4: /home/lorenzo  #5: /home/yunhao/README  #6: /bin          #7: /bin/echo
     #8: /bin/cat       #9: /bin/ls              #10:/bin/cd       #11:/bin/pwd
     #12:/bin/clock     #13:/bin/crash1          #14:/bin/crash2   #15:/bin/ult] *)
Definition contents : list string :=
  ["./   0 ../   0 home/   1 bin/   6 ";
   "./   1 ../   0 yunhao/   2 rvr/   3 lorenzo/   4 ";
   "./   2 ../   1 README   5 ";
   "./   3 ../   1 ";
   "./   4 ../   1 ";
   "With only 2000 lines of code, egos-2000 implements boot loader, microSD driver, tty driver, memory paging, address translation, interrupt handling, process scheduling and messaging, system call, file system, shell, 7 user commands and the `mkfs/mkrom` tools.";
   "./   6 ../   0 echo   7 cat   8 ls   9 cd  10 pwd  11 clock  12 crash1  13 crash2  14 ult  15 ";
   "#../build/release/echo.elf";
   "#../build/release/cat.elf";
   "#../build/release/ls.elf";
   "#../build/release/cd.elf";
   "#../build/release/pwd.elf";
   "#../build/release/clock.elf";
   "#../build/release/crash1.elf";
   "#../build/release/crash2.elf";
   "#../build/release/ult.elf"].

Definition kernel_processes : list string :=
  ["../build/release/grass.elf"; "../build/release/sys_proc.elf"; "../build/release/sys_file.elf";
   "../build/release/sys_dir.elf"; "../build/release/sys_shell.elf"].

Definition exec_size : Z := GRASS_EXEC_SIZE / GRASS_NEXEC.

(** [contents[ino][0] == '#']: the name of a file of the host follows. *)
Definition host_file (c : string) : option string :=
  match c with
  | String.String a f => if Ascii.eqb a (Ascii.ascii_of_nat 35) then Some f else None
  | String.EmptyString => None
  end.

(** [strncpy(buf, s, BLOCK_SIZE)]: the string, padded with null bytes. *)
Definition strncpy_block (s : string) : block :=
  take nbytes (chars s ++ replicate nbytes nul).

(** The first bytes of [buf] are replaced. *)
Definition fill_buf (buf bs : list byte) : list byte := bs ++ drop (length bs) buf.

(** Block [b] of the buffer. *)
Definition buf_block (buf : list byte) (b : Z) : block := slice buf b.

Section mkfs.
Context (host : string → list byte) (uninit : block).
Local Abbreviation ramdisk := (ramdisk_init FS_DISK_SIZE).
Local Abbreviation treedisk := (treedisk_init uninit ramdisk 0).

(** [for (int b = 0; b * BLOCK_SIZE < st.st_size; b++) treedisk->write(...)] *)
Fixpoint blocks_loop (n : nat) (ino size b : Z) (buf : list byte) : M (list byte) unit :=
  match n with
  | O => spin
  | S n =>
      if b * BLOCK_SIZE <? size then
        _ ← write treedisk ino b (buf_block buf b);
        blocks_loop n ino size (b + 1) buf
      else mret tt
  end.

(** One round of the loop over the inodes, with the contents [c]; it returns
    the buffer, which keeps what earlier files left in it. *)
Definition mkfs_file (ino : Z) (c : string) (buf : list byte) : M (list byte) (list byte) :=
  match host_file c with
  | Some file_name =>
      let data := host file_name in
      if (length buf <? length data)%nat then undef "buf"
      else
        let buf := fill_buf buf data in
        let size := Z.of_nat (length data) in
        _ ← blocks_loop (Z.to_nat (size / BLOCK_SIZE + 2)) ino size 0 buf;
        mret buf
  | None =>
      let buf := fill_buf buf (strncpy_block c) in
      _ ← write treedisk ino 0 (buf_block buf 0);
      mret buf
  end.

Fixpoint mkfs_loop (cs : list string) (ino : Z) (buf : list byte) : M (list byte) unit :=
  match cs with
  | [] => mret tt
  | c :: cs => buf ← mkfs_file ino c buf; mkfs_loop cs (ino + 1) buf
  end.

(** [buf] is the local array of [exec_size] bytes, not initialised. *)
Definition mkfs (buf : list byte) : M (list byte) unit :=
  rc ← treedisk_create uninit ramdisk 0 NINODES;
  if rc <? 0 then fatal "assert" else mkfs_loop contents 0 buf.
End mkfs.

(** ** The image *)

(** The executables of the kernel, each in a segment of [exec_size] bytes. *)
Definition exec_segment (data : list byte) : option (list byte) :=
  let size := Z.of_nat (length data) in
  if (0 <? size) && (size <=? exec_size)
  then Some (data ++ replicate (Z.to_nat (exec_size - size)) nul) else None.

Fixpoint exec_segments (host : string → list byte) (names : list string) : option (list byte) :=
  match names with
  | [] => Some []
  | f :: names =>
      seg ← exec_segment (host f);
      segs ← exec_segments host names;
      Some (seg ++ segs)
  end.

(** What [main] writes to disk.img: the paging area, the executables, unused
    segments, the file system; [None] when an assertion fails. *)
Definition disk_image (host : string → list byte) (fs : list byte) : option (list byte) :=
  segs ← exec_segments host kernel_processes;
  Some (replicate (Z.to_nat PAGING_DEV_SIZE) nul ++ segs ++
        replicate (Z.to_nat ((GRASS_NEXEC - Z.of_nat (length kernel_processes)) * exec_size)) nul ++ fs).
