(* ===== verification/Uart.v ===== *)
(** * Device registers and the UART

    earth/bus_uart.c.  The program reaches devices through the macros REGW and
    REGB of library/egos.h; [Mmio] is that access, an argument of all the code
    above it.  [Uart] states what the code relies on: the behaviour of the
    UART that chapter 18 of the FE310-G002 manual documents, in terms of the
    characters the device has accepted for transmission ([txlog]), the ones it
    has handed out ([rxlog]) and its interrupt enable register.  The line is
    not modelled: between two accesses the transmit queue may drain and
    characters may arrive, so the laws say nothing about when a queue is full
    or empty. *)

From S2P Require Import Prelude Layout.

Class Mmio (H : Type) := {
  reg_read : Z → H → Z * H;
  reg_write : Z → Z → H → H;
}.

Definition UART0_BASE : Z := 0x10013000.
Definition UART0_TXDATA : Z := 0.
Definition UART0_RXDATA : Z := 4.
Definition UART0_TXCTRL : Z := 8.
Definition UART0_RXCTRL : Z := 12.
Definition UART0_IE : Z := 16.
Definition UART0_IP : Z := 20.
Definition UART0_DIV : Z := 24.
Definition GPIO0_BASE : Z := 0x10012000.
Definition GPIO0_IOF_ENABLE : Z := 56.

Section uart.
Context {H : Type} `{!Mmio H}.

Definition REGW (base off : Z) : M H Z := λ h,
  let '(v, h') := reg_read (base + off) h in Ret v h'.
Definition REGW_set (base off v : Z) : M H unit := λ h,
  Ret tt (reg_write (base + off) (u32 v) h).

(** [REGW(base, off) |= mask] and [REGW(base, off) &= mask] *)
Definition REGW_or (base off mask : Z) : M H unit :=
  v ← REGW base off; REGW_set base off (Z.lor v mask).
Definition REGW_and (base off mask : Z) : M H unit :=
  v ← REGW base off; REGW_set base off (Z.land v mask).

Definition uart_init (cpu_clock_rate baud_rate : Z) : M H unit :=
  _ ← REGW_set UART0_BASE UART0_DIV (cpu_clock_rate / baud_rate - 1);
  _ ← REGW_or UART0_BASE UART0_TXCTRL 1;
  _ ← REGW_or UART0_BASE UART0_RXCTRL 1;
  _ ← REGW_or GPIO0_BASE GPIO0_IOF_ENABLE (Z.lor (Z.shiftl 1 16) (Z.shiftl 1 17));
  _ ← REGW_or UART0_BASE UART0_TXCTRL 0x30000;
  REGW_or UART0_BASE UART0_IE 2.

Definition uart_pend_intr : M H Z := REGW UART0_BASE UART0_IP.

Definition uart_txen : M H unit := REGW_or UART0_BASE UART0_IE 1.
Definition uart_txdis : M H unit := REGW_and UART0_BASE UART0_IE (Z.lnot 1).

(** The character is stored in [*c] and returned. *)
Definition uart_getc : M H Z :=
  ch ← REGW UART0_BASE UART0_RXDATA;
  mret (if Z.land ch (Z.shiftl 1 31) =? 0 then Z.land ch 0xFF else -1).

Definition uart_putc (c : Z) : M H Z :=
  v ← REGW UART0_BASE UART0_TXDATA;
  let is_full := Z.land v (Z.shiftl 1 31) in
  if is_full =? 0 then _ ← REGW_set UART0_BASE UART0_TXDATA c; mret 0
  else mret (-1).
End uart.

(** ** The device *)

(** What an access leaves alone. *)
Record uart_same {H} (txlog rxlog : H → list Z) (ie : H → Z) (h h' : H) : Prop := {
  us_tx : txlog h' = txlog h;
  us_rx : rxlog h' = rxlog h;
  us_ie : ie h' = ie h;
}.

Definition setup_reg (a : Z) : Prop :=
  a ∈ [UART0_BASE + UART0_DIV; UART0_BASE + UART0_TXCTRL; UART0_BASE + UART0_RXCTRL;
       GPIO0_BASE + GPIO0_IOF_ENABLE].

Class Uart (H : Type) `{!Mmio H} := {
  txlog : H → list Z;        (* characters accepted for transmission *)
  rxlog : H → list Z;        (* characters handed out by [rxdata] *)
  uart_ie : H → Z;           (* the interrupt enable register *)
  rx_ready : H → nat;        (* characters that can be read in a row *)
  tx_wait : H → nat;         (* polls until the transmit queue has drained *)
  tx_wait_max : nat;         (* at the baud rate, it always drains in this time *)
  tx_wait_le h : (tx_wait h ≤ tx_wait_max)%nat;
  (** Reading [txdata] has no effect.  When the full flag is clear a write
      that follows is accepted; while it is set the queue drains. *)
  txdata_read h v h' : reg_read (UART0_BASE + UART0_TXDATA) h = (v, h') →
    uart_same txlog rxlog uart_ie h h' ∧
    (Z.testbit v 31 = true → (tx_wait h' < tx_wait h)%nat) ∧
    (Z.testbit v 31 = false → ∀ c,
       let h'' := reg_write (UART0_BASE + UART0_TXDATA) c h' in
       txlog h'' = txlog h ++ [Z.land c 0xFF] ∧ rxlog h'' = rxlog h ∧ uart_ie h'' = uart_ie h);
  (** Reading [rxdata] with the empty flag clear takes a character. *)
  rxdata_read h v h' : reg_read (UART0_BASE + UART0_RXDATA) h = (v, h') →
    txlog h' = txlog h ∧ uart_ie h' = uart_ie h ∧
    if Z.testbit v 31 then rxlog h' = rxlog h
    else rxlog h' = rxlog h ++ [Z.land v 0xFF] ∧ (rx_ready h' < rx_ready h)%nat;
  ie_read h v h' : reg_read (UART0_BASE + UART0_IE) h = (v, h') →
    v = uart_ie h ∧ uart_same txlog rxlog uart_ie h h' ∧ rx_ready h' = rx_ready h;
  (** Only the two enable bits are implemented. *)
  ie_write h v : let h' := reg_write (UART0_BASE + UART0_IE) v h in
    txlog h' = txlog h ∧ rxlog h' = rxlog h ∧ uart_ie h' = Z.land v 3 ∧
    rx_ready h' = rx_ready h;
  ip_read h v h' : reg_read (UART0_BASE + UART0_IP) h = (v, h') →
    uart_same txlog rxlog uart_ie h h' ∧ rx_ready h' = rx_ready h;
  (** The registers set up at boot: baud rate, control and pin functions. *)
  setup_read a h v h' : setup_reg a → reg_read a h = (v, h') →
    uart_same txlog rxlog uart_ie h h' ∧ rx_ready h' = rx_ready h;
  setup_write a h v : setup_reg a → let h' := reg_write a v h in
    uart_same txlog rxlog uart_ie h h' ∧ rx_ready h' = rx_ready h;
}.

(** ** What the driver functions do *)

Lemma land_bit31 v : (Z.land v (Z.shiftl 1 31) =? 0) = negb (Z.testbit v 31).
Proof.
  change (Z.shiftl 1 31) with (2 ^ 31).
  destruct (Z.testbit v 31) eqn:E; simpl.
  - apply Z.eqb_neq. intros Hz. apply (f_equal (λ z, Z.testbit z 31)) in Hz.
    rewrite Z.land_spec, E, Z.bits_0 in Hz. by rewrite Z.pow2_bits_true in Hz by lia.
  - apply Z.eqb_eq, Z.bits_inj'. intros n Hn. rewrite Z.land_spec, Z.bits_0.
    destruct (decide (n = 31)) as [->|Hne]; [by rewrite E|].
    rewrite Z.pow2_bits_false by lia. apply andb_false_r.
Qed.

Lemma land_0xFF c : 0 ≤ c < 256 → Z.land c 0xFF = c.
Proof.
  intros Hc. change 0xFF with (Z.ones 8). rewrite Z.land_ones by lia. by apply Z.mod_small.
Qed.

Lemma land_0xFF_range c : 0 ≤ Z.land c 0xFF < 256.
Proof.
  change 0xFF with (Z.ones 8). rewrite Z.land_ones by lia. by apply Z.mod_pos_bound.
Qed.

Section uart_specs.
Context {H : Type} `{!Mmio H, !Uart H}.
Implicit Types h : H.

(** [uart_putc]: the character is accepted, or the queue is full and nothing
    happens. *)
Lemma uart_putc_spec c h :
  0 ≤ c < 256 →
  ∃ rc h', uart_putc c h = Ret rc h' ∧ rxlog h' = rxlog h ∧ uart_ie h' = uart_ie h ∧
    (rc = 0 ∧ txlog h' = txlog h ++ [c] ∨
     rc = -1 ∧ txlog h' = txlog h ∧ (tx_wait h' < tx_wait h)%nat).
Proof.
  intros Hc. unfold uart_putc, mbind, M_bind, REGW, REGW_set, mret, M_ret.
  destruct (reg_read (UART0_BASE + UART0_TXDATA) h) as [v h1] eqn:E.
  destruct (txdata_read h v h1 E) as ([S1 S2 S3] & Hfull & Hacc). rewrite land_bit31.
  destruct (Z.testbit v 31); simpl.
  - eexists _, h1. split; [done|]. naive_solver.
  - rewrite u32_small by (unfold is_u32; lia).
    destruct (Hacc eq_refl c) as (A1 & A2 & A3). rewrite land_0xFF in A1 by done.
    eexists _, _. split; [done|]. naive_solver.
Qed.

(** [uart_getc]: a character between 0 and 255, or -1 and nothing happens. *)
Lemma uart_getc_spec h :
  ∃ c h', uart_getc h = Ret c h' ∧ txlog h' = txlog h ∧ uart_ie h' = uart_ie h ∧
    (0 ≤ c < 256 ∧ rxlog h' = rxlog h ++ [c] ∧ (rx_ready h' < rx_ready h)%nat ∨
     c = -1 ∧ rxlog h' = rxlog h).
Proof.
  unfold uart_getc, mbind, M_bind, REGW, mret, M_ret.
  destruct (reg_read (UART0_BASE + UART0_RXDATA) h) as [v h1] eqn:E.
  destruct (rxdata_read h v h1 E) as (R1 & R2 & R3). rewrite land_bit31.
  pose proof (land_0xFF_range v).
  destruct (Z.testbit v 31); simpl; eexists _, h1; (split; [done|]); naive_solver.
Qed.

(** [uart_txen] and [uart_txdis] set the transmit bit of [ie] and keep the
    receive bit. *)
Lemma uart_tx_intr_spec (on : bool) h :
  ∃ h', (if on then uart_txen else uart_txdis) h = Ret tt h' ∧
    txlog h' = txlog h ∧ rxlog h' = rxlog h ∧
    Z.testbit (uart_ie h') 0 = on ∧ Z.testbit (uart_ie h') 1 = Z.testbit (uart_ie h) 1.
Proof.
  assert (Hrun : ∃ (mask : Z) (op : Z → Z → Z), (if on then uart_txen else uart_txdis) h =
    (v ← REGW UART0_BASE UART0_IE; REGW_set UART0_BASE UART0_IE (op v mask)) h ∧
    ∀ v, Z.testbit (op v mask) 0 = on ∧ Z.testbit (op v mask) 1 = Z.testbit v 1).
  { destruct on; [exists 1, Z.lor|exists (Z.lnot 1), Z.land]; (split; [done|]); intros v;
      rewrite ?Z.lor_spec, ?Z.land_spec; simpl;
      by rewrite ?orb_true_r, ?orb_false_r, ?andb_true_r, ?andb_false_r. }
  destruct Hrun as (mask & op & -> & Hop).
  unfold mbind, M_bind, REGW, REGW_set.
  destruct (reg_read (UART0_BASE + UART0_IE) h) as [v h1] eqn:E.
  destruct (ie_read h v h1 E) as (-> & [S1 S2 S3] & _).
  destruct (ie_write h1 (u32 (op (uart_ie h) mask))) as (W1 & W2 & W3 & _).
  eexists. split; [done|]. rewrite W1, W2, W3, !Z.land_spec.
  unfold u32. rewrite !Z.mod_pow2_bits_low by lia. simpl. rewrite !andb_true_r.
  destruct (Hop (uart_ie h)). naive_solver.
Qed.

Lemma setup_set_spec base off v h :
  setup_reg (base + off) →
  ∃ h', REGW_set base off v h = Ret tt h' ∧ uart_same txlog rxlog uart_ie h h' ∧
    rx_ready h' = rx_ready h.
Proof. intros Ha. eexists. split; [done|]. by apply setup_write. Qed.

Lemma setup_or_spec base off mask h :
  setup_reg (base + off) →
  ∃ h', REGW_or base off mask h = Ret tt h' ∧ uart_same txlog rxlog uart_ie h h' ∧
    rx_ready h' = rx_ready h.
Proof.
  intros Ha. unfold REGW_or, REGW, mbind, M_bind.
  destruct (reg_read (base + off) h) as [v h1] eqn:E.
  destruct (setup_read _ h v h1 Ha E) as [[A1 A2 A3] A4].
  destruct (setup_set_spec base off (Z.lor v mask) h1 Ha) as (h2 & E2 & [B1 B2 B3] & B4).
  exists h2. split; [done|]. split; [split|]; congruence.
Qed.

(** After [uart_init] the receive interrupt is enabled. *)
Lemma uart_init_spec clock baud h :
  ∃ h', uart_init clock baud h = Ret tt h' ∧ txlog h' = txlog h ∧ rxlog h' = rxlog h ∧
    rx_ready h' = rx_ready h ∧ Z.testbit (uart_ie h') 1 = true.
Proof.
  unfold uart_init.
  destruct (setup_set_spec UART0_BASE UART0_DIV (clock / baud - 1) h)
    as (h1 & E1 & [S1 T1 I1] & R1); [left|]. mrun E1.
  destruct (setup_or_spec UART0_BASE UART0_TXCTRL 1 h1)
    as (h2 & E2 & [S2 T2 I2] & R2); [right; left|]. mrun E2.
  destruct (setup_or_spec UART0_BASE UART0_RXCTRL 1 h2)
    as (h3 & E3 & [S3 T3 I3] & R3); [do 2 right; left|]. mrun E3.
  destruct (setup_or_spec GPIO0_BASE GPIO0_IOF_ENABLE
    (Z.lor (Z.shiftl 1 16) (Z.shiftl 1 17)) h3)
    as (h4 & E4 & [S4 T4 I4] & R4); [do 3 right; left|]. mrun E4.
  destruct (setup_or_spec UART0_BASE UART0_TXCTRL 0x30000 h4)
    as (h5 & E5 & [S5 T5 I5] & R5); [right; left|]. mrun E5.
  unfold REGW_or, REGW, REGW_set, mbind, M_bind.
  destruct (reg_read (UART0_BASE + UART0_IE) h5) as [v h6] eqn:E6.
  destruct (ie_read h5 v h6 E6) as (-> & [S6 T6 I6] & R6).
  destruct (ie_write h6 (u32 (Z.lor (uart_ie h5) 2))) as (S7 & T7 & I7 & R7).
  eexists. split; [done|]. split_and!; [congruence..|]. rewrite I7, Z.land_spec.
  unfold u32. rewrite Z.mod_pow2_bits_low, Z.lor_spec by lia. simpl. by rewrite orb_true_r.
Qed.
End uart_specs.
