(* ===== verification/Ring.v ===== *)
(** * Ring buffers

    The buffer of earth/dev_tty.c: an array of [DEV_BUFF_SIZE] characters with
    [head], [tail] and [size].  [ring_queue] is the queue of characters that
    the three fields stand for; the lemmas relate the index arithmetic of the
    driver to operations on that queue. *)

From S2P Require Import Prelude Layout.

Record tty_buff := TtyBuff {
  buf : list Z;
  size : Z;
  head : Z;
  tail : Z;
}.

(** The number of slots. *)
Definition nslots : nat := Z.to_nat DEV_BUFF_SIZE.

Record ring_wf (b : tty_buff) : Prop := {
  rw_len : length (buf b) = nslots;
  rw_size : 0 ≤ size b ≤ DEV_BUFF_SIZE;
  rw_head : 0 ≤ head b < DEV_BUFF_SIZE;
  rw_tail : tail b = (head b + size b) mod DEV_BUFF_SIZE;
  rw_char : Forall (λ c, 0 ≤ c < 256) (buf b);
}.

(** The [n] characters from slot [h] on. *)
Definition ring_slots (l : list Z) (h n : Z) : list Z :=
  (λ k, l !!! Z.to_nat ((h + k) mod DEV_BUFF_SIZE)) <$> seqZ 0 n.
Definition ring_queue (b : tty_buff) : list Z := ring_slots (buf b) (head b) (size b).

(** ** Slots *)

Lemma slot_lt i : (Z.to_nat (i mod DEV_BUFF_SIZE) < nslots)%nat.
Proof.
  pose proof (Z.mod_pos_bound i DEV_BUFF_SIZE eq_refl). unfold nslots. lia.
Qed.

(** Two of 128 consecutive slots differ. *)
Lemma slot_inj h i j :
  0 ≤ i < j → j < i + DEV_BUFF_SIZE →
  Z.to_nat ((h + i) mod DEV_BUFF_SIZE) ≠ Z.to_nat ((h + j) mod DEV_BUFF_SIZE).
Proof.
  unfold DEV_BUFF_SIZE. intros H1 H2 E.
  pose proof (Z.mod_pos_bound (h + i) 128 eq_refl).
  pose proof (Z.mod_pos_bound (h + j) 128 eq_refl).
  apply Z2Nat.inj in E; [|lia..]. Z.to_euclidean_division_equations. lia.
Qed.

Lemma ring_slots_length l h n : length (ring_slots l h n) = Z.to_nat n.
Proof. unfold ring_slots. by rewrite length_fmap, length_seqZ. Qed.

Lemma ring_queue_length b : ring_wf b → Z.of_nat (length (ring_queue b)) = size b.
Proof. intros [_ Hs _ _ _]. unfold ring_queue. rewrite ring_slots_length. lia. Qed.

Lemma ring_queue_nil b : ring_wf b → ring_queue b = [] ↔ size b = 0.
Proof.
  intros Hwf. pose proof (ring_queue_length b Hwf) as Hl.
  split; [intros E; rewrite E in Hl; simpl in Hl; lia|].
  intros E. apply nil_length_inv. lia.
Qed.

Lemma ring_slots_snoc l h n :
  0 ≤ n → ring_slots l h (n + 1) =
  ring_slots l h n ++ [l !!! Z.to_nat ((h + n) mod DEV_BUFF_SIZE)].
Proof.
  intros Hn. unfold ring_slots. rewrite seqZ_app by lia. by rewrite fmap_app.
Qed.

Lemma ring_slots_cons l h n :
  0 < n → ring_slots l h n =
  l !!! Z.to_nat (h mod DEV_BUFF_SIZE) :: ring_slots l ((h + 1) mod DEV_BUFF_SIZE) (n - 1).
Proof.
  intros Hn. unfold ring_slots. rewrite seqZ_cons by lia. rewrite fmap_cons, Z.add_0_r.
  f_equal. replace (Z.succ 0) with (1 + 0) by lia. rewrite <-fmap_add_seqZ, <-list_fmap_compose.
  replace (Z.pred n) with (n - 1) by lia.
  apply list_fmap_ext. intros ? k _. simpl. do 2 f_equal.
  rewrite Zplus_mod_idemp_l. f_equal. lia.
Qed.

(** A slot that is not among them. *)
Lemma ring_slots_insert l h n c :
  0 ≤ n < DEV_BUFF_SIZE →
  ring_slots (<[Z.to_nat ((h + n) mod DEV_BUFF_SIZE):=c]> l) h n = ring_slots l h n.
Proof.
  intros Hn. unfold ring_slots. apply list_fmap_ext. intros ? k Hk.
  apply lookup_seqZ in Hk as [-> Hk]. apply list_lookup_total_insert_ne.
  apply not_eq_sym, slot_inj; lia.
Qed.

Lemma ring_slots_push l h n c :
  length l = nslots → 0 ≤ n < DEV_BUFF_SIZE →
  ring_slots (<[Z.to_nat ((h + n) mod DEV_BUFF_SIZE):=c]> l) h (n + 1) = ring_slots l h n ++ [c].
Proof.
  intros Hl Hn. rewrite ring_slots_snoc, ring_slots_insert by lia.
  rewrite list_lookup_total_insert_eq; [done|]. rewrite Hl. apply slot_lt.
Qed.

(** ** The driver's updates *)

Definition ring_push (b : tty_buff) (c : Z) : tty_buff :=
  TtyBuff (<[Z.to_nat (tail b):=c]> (buf b)) (size b + 1) (head b)
          ((tail b + 1) mod DEV_BUFF_SIZE).
Definition ring_pop (b : tty_buff) : tty_buff :=
  TtyBuff (buf b) (size b - 1) ((head b + 1) mod DEV_BUFF_SIZE) (tail b).
Definition ring_pop_tail (b : tty_buff) : tty_buff :=
  let t := if tail b =? 0 then DEV_BUFF_SIZE - 1 else tail b - 1 in
  TtyBuff (<[Z.to_nat t:=0]> (buf b)) (size b - 1) (head b) t.
Definition ring_overwrite (b : tty_buff) (c : Z) : tty_buff :=
  TtyBuff (<[Z.to_nat (tail b):=c]> (buf b)) (size b) (head b) (tail b).

Lemma Forall_insert_char l i c :
  Forall (λ c, 0 ≤ c < 256) l → 0 ≤ c < 256 → Forall (λ c, 0 ≤ c < 256) (<[i:=c]> l).
Proof. intros Hl Hc. by apply Forall_insert. Qed.

Lemma ring_push_spec b c :
  ring_wf b → 0 ≤ c < 256 → size b < DEV_BUFF_SIZE →
  ring_wf (ring_push b c) ∧ ring_queue (ring_push b c) = ring_queue b ++ [c].
Proof.
  intros [W1 W2 W3 W4 W5] Hc Hs. split.
  - split; simpl; [by rewrite length_insert|lia|done| |by apply Forall_insert_char].
    rewrite W4, Zplus_mod_idemp_l. f_equal. lia.
  - unfold ring_queue. simpl. rewrite W4. apply ring_slots_push; [done|lia].
Qed.

Lemma ring_pop_spec b :
  ring_wf b → 0 < size b →
  ring_wf (ring_pop b) ∧ ring_queue b = buf b !!! Z.to_nat (head b) :: ring_queue (ring_pop b).
Proof.
  intros [W1 W2 W3 W4 W5] Hs. split.
  - split; simpl; [done|lia|by apply Z.mod_pos_bound| |done].
    rewrite W4, Zplus_mod_idemp_l. f_equal. lia.
  - unfold ring_queue at 1. rewrite ring_slots_cons, (Z.mod_small (head b)) by done. done.
Qed.

Lemma ring_tail_prev b (t := if tail b =? 0 then DEV_BUFF_SIZE - 1 else tail b - 1) :
  ring_wf b → t = (head b + (size b - 1)) mod DEV_BUFF_SIZE.
Proof.
  intros [_ W2 W3 W4 _]. unfold t. clear t. rewrite W4. unfold DEV_BUFF_SIZE in *.
  destruct (Z.eqb_spec ((head b + size b) mod 128) 0);
    Z.to_euclidean_division_equations; lia.
Qed.

Lemma ring_pop_tail_spec b
    (t := if tail b =? 0 then DEV_BUFF_SIZE - 1 else tail b - 1) :
  ring_wf b → 0 < size b →
  ring_wf (ring_pop_tail b) ∧ 0 ≤ t < DEV_BUFF_SIZE ∧
  ring_queue b = ring_queue (ring_pop_tail b) ++ [buf b !!! Z.to_nat t].
Proof.
  intros Hwf Hs. pose proof (ring_tail_prev b Hwf) as Ht. fold t in Ht.
  destruct Hwf as [W1 W2 W3 W4 W5]. split; [|split].
  - split; simpl; [by rewrite length_insert|lia|done|exact Ht|by apply Forall_insert_char].
  - rewrite Ht. by apply Z.mod_pos_bound.
  - unfold ring_queue, ring_pop_tail. fold t. simpl. rewrite Ht, ring_slots_insert by lia.
    rewrite <-ring_slots_snoc by lia. f_equal. lia.
Qed.

(** Writing at the tail of a full buffer replaces the oldest character. *)
Lemma ring_overwrite_spec b c :
  ring_wf b → 0 ≤ c < 256 → size b = DEV_BUFF_SIZE →
  ring_wf (ring_overwrite b c) ∧
  ring_queue (ring_overwrite b c) = c :: drop 1 (ring_queue b).
Proof.
  intros [W1 W2 W3 W4 W5] Hc Hs.
  assert (Ht : tail b = head b).
  { rewrite W4, Hs. unfold DEV_BUFF_SIZE in *. Z.to_euclidean_division_equations. lia. }
  split.
  - split; simpl; [by rewrite length_insert|lia|done|done|by apply Forall_insert_char].
  - unfold ring_queue. simpl. rewrite Ht, Hs.
    rewrite !(ring_slots_cons _ _ DEV_BUFF_SIZE) by done. rewrite skipn_cons, drop_0, Z.mod_small by done.
    rewrite list_lookup_total_insert_eq by (rewrite W1; unfold nslots; lia). f_equal.
    unfold ring_slots. apply list_fmap_ext. intros ? k Hk. apply lookup_seqZ in Hk as [-> Hk].
    apply list_lookup_total_insert_ne. rewrite Zplus_mod_idemp_l, <-Z.add_assoc.
    rewrite <-(Z.mod_small (head b) DEV_BUFF_SIZE) at 1 by done.
    rewrite <-(Z.add_0_r (head b)) at 1. apply slot_inj; lia.
Qed.

(** The character at an index of the buffer. *)
Lemma ring_char b i : ring_wf b → 0 ≤ i < DEV_BUFF_SIZE → 0 ≤ buf b !!! Z.to_nat i < 256.
Proof.
  intros [W1 _ _ _ W5] Hi. apply (Forall_lookup_1 (λ c, 0 ≤ c < 256) (buf b) (Z.to_nat i)); [done|].
  apply list_lookup_lookup_total_lt. rewrite W1. unfold nslots. lia.
Qed.

Lemma ring_wf_empty : ring_wf (TtyBuff (replicate nslots 0) 0 0 0).
Proof. split; [done..|]. apply (Forall_replicate _ nslots 0). lia. Qed.

Lemma ring_queue_char b : ring_wf b → Forall (λ c, 0 ≤ c < 256) (ring_queue b).
Proof.
  intros Hwf. unfold ring_queue, ring_slots. apply Forall_fmap, Forall_true. intros k. simpl.
  apply ring_char; [done|]. by apply Z.mod_pos_bound.
Qed.
