(* ===== verification/Tty.v ===== *)
(** * The tty driver

    earth/dev_tty.c on the UART functions of Uart.v.  The state is the two
    ring buffers, the static variable [c], the mode of the C library's
    [_write] (library/libc/print.c) and the device.  Polling loops take the
    number of polls as an argument; loops bounded by the buffer use it as
    fuel, and the lemmas show that it is enough. *)

From S2P Require Import Prelude Layout Ring Uart.

Record tty (H : Type) := Tty {
  tty_read_buf : tty_buff;
  tty_write_buf : tty_buff;
  last_c : Z;
  is_kernel : bool;
  dev : H;
}.
Arguments Tty {H} _ _ _ _ _.
Arguments tty_read_buf {H} _.
Arguments tty_write_buf {H} _.
Arguments last_c {H} _.
Arguments is_kernel {H} _.
Arguments dev {H} _.

Definition UART0_RX_INTR : Z := 2.
Definition UART0_TX_INTR : Z := 1.

Section tty.
Context {H : Type} `{!Mmio H}.
Implicit Types t : tty H.

Definition set_rx (b : tty_buff) t : tty H :=
  Tty b (tty_write_buf t) (last_c t) (is_kernel t) (dev t).
Definition set_tx (b : tty_buff) t : tty H :=
  Tty (tty_read_buf t) b (last_c t) (is_kernel t) (dev t).
Definition set_c (c : Z) t : tty H :=
  Tty (tty_read_buf t) (tty_write_buf t) c (is_kernel t) (dev t).
Definition set_mode (k : bool) t : tty H :=
  Tty (tty_read_buf t) (tty_write_buf t) (last_c t) k (dev t).
Definition set_dev (h : H) t : tty H :=
  Tty (tty_read_buf t) (tty_write_buf t) (last_c t) (is_kernel t) h.

(** A device function, run from the driver. *)
Definition on_dev {A} (m : M H A) : M (tty H) A := λ t,
  match m (dev t) with
  | Ret a h => Ret a (set_dev h t)
  | Fatal w h => Fatal w (set_dev h t)
  | Undef w => Undef w
  | Spin => Spin
  end.

(** [uart_getc(&c)] on the static variable [c]. *)
Definition getc_static : M (tty H) Z :=
  v ← on_dev uart_getc; _ ← modify (set_c v); mret v.

Definition tty_buff_init : M (tty H) unit :=
  _ ← modify (set_rx (TtyBuff (replicate nslots 0) 0 0 0));
  modify (set_tx (TtyBuff (replicate nslots 0) 0 0 0)).

(** [do rc = uart_putc(ch); while (rc == -1);] *)
Fixpoint putc_wait (polls : nat) (ch : Z) : M (tty H) unit :=
  match polls with
  | O => spin
  | S polls =>
      rc ← on_dev (uart_putc ch);
      if rc =? -1 then putc_wait polls ch else mret tt
  end.

Fixpoint tty_write_kernel_loop (polls n : nat) (msg : list Z) (i : Z) : M (tty H) unit :=
  match n with
  | O => mret tt
  | S n =>
      ch ← arr_get msg i;
      _ ← putc_wait polls ch;
      tty_write_kernel_loop polls n msg (i + 1)
  end.
Definition tty_write_kernel (polls : nat) (msg : list Z) (len : Z) : M (tty H) Z :=
  _ ← tty_write_kernel_loop polls (Z.to_nat len) msg 0; mret len.

(** [while (tx_size > 0)]: the final [rc]. *)
Fixpoint tty_write_uart_loop (fuel : nat) (rc : Z) : M (tty H) Z :=
  b ← gets tty_write_buf;
  if 0 <? size b then
    match fuel with
    | O => spin
    | S fuel =>
        ch ← arr_get (buf b) (head b);
        rc ← on_dev (uart_putc ch);
        if rc =? -1 then _ ← on_dev uart_txen; mret rc
        else
          _ ← modify (set_tx (TtyBuff (buf b) (size b - 1)
                       ((head b + 1) mod DEV_BUFF_SIZE) (tail b)));
          tty_write_uart_loop fuel rc
    end
  else mret rc.
Definition tty_write_uart : M (tty H) unit :=
  rc ← tty_write_uart_loop nslots 0;
  if rc =? 0 then on_dev uart_txdis else mret tt.

(** [for (int i = 0; i < len; i++)] of [tty_write_buff]: [n] rounds left. *)
Fixpoint tty_write_buff_loop (n : nat) (msg : list Z) (i : Z) : M (tty H) unit :=
  match n with
  | O => mret tt
  | S n =>
      b ← gets tty_write_buf;
      ch ← arr_get msg i;
      l ← arr_set (buf b) (tail b) ch;
      _ ← modify (set_tx (TtyBuff l (size b) (head b) ((tail b + 1) mod DEV_BUFF_SIZE)));
      tty_write_buff_loop n msg (i + 1)
  end.
Definition tty_write_buff (msg : list Z) (len : Z) : M (tty H) unit :=
  b ← gets tty_write_buf;
  if DEV_BUFF_SIZE - size b <? len then mret tt
  else
    _ ← tty_write_buff_loop (Z.to_nat len) msg 0;
    b ← gets tty_write_buf;
    modify (set_tx (TtyBuff (buf b) (size b + len) (head b) (tail b))).

Definition tty_write (msg : list Z) (len : Z) : M (tty H) Z :=
  if DEV_BUFF_SIZE <? len then mret (-2)
  else
    b ← gets tty_write_buf;
    if DEV_BUFF_SIZE - size b <? len then mret (-1)
    else
      _ ← tty_write_buff msg len;
      _ ← tty_write_uart;
      mret 0.

(** The do-while of [tty_read_uart]; [polls] bounds the characters read. *)
Fixpoint tty_read_uart_loop (polls : nat) : M (tty H) Z :=
  match polls with
  | O => spin
  | S polls =>
      b ← gets tty_read_buf;
      c ← gets last_c;
      l ← arr_set (buf b) (tail b) (Z.land c 0xFF);
      _ ← modify (set_rx
            (if size b <? DEV_BUFF_SIZE
             then TtyBuff l (size b + 1) (head b) ((tail b + 1) mod DEV_BUFF_SIZE)
             else TtyBuff l (size b) (head b) (tail b)));
      if c =? SPECIAL_CTRL_C then mret RET_SPECIAL_CHAR
      else
        c ← getc_static;
        if c =? -1 then mret 0 else tty_read_uart_loop polls
  end.
Definition tty_read_uart (polls : nat) : M (tty H) Z :=
  c ← getc_static;
  if c =? -1 then mret (-1) else tty_read_uart_loop polls.

(** The character goes to [*ret_val]: [None] when it is not written. *)
Definition tty_read : M (tty H) (Z * option Z) :=
  b ← gets tty_read_buf;
  if size b =? 0 then mret (-1, None)
  else
    ch ← arr_get (buf b) (head b);
    _ ← modify (set_rx (TtyBuff (buf b) (size b - 1)
                 ((head b + 1) mod DEV_BUFF_SIZE) (tail b)));
    mret (0, Some ch).

Definition tty_read_tail : M (tty H) (Z * option Z) :=
  b ← gets tty_read_buf;
  if size b =? 0 then mret (-1, None)
  else
    let rx_tail := if tail b =? 0 then DEV_BUFF_SIZE - 1 else tail b - 1 in
    ch ← arr_get (buf b) rx_tail;
    l ← arr_set (buf b) rx_tail 0;
    _ ← modify (set_rx (TtyBuff l (size b - 1) (head b) rx_tail));
    mret (0, Some ch).

(** [for (c = -1; c == -1; uart_getc(&c));] *)
Fixpoint getc_wait (polls : nat) : M (tty H) Z :=
  match polls with
  | O => spin
  | S polls => c ← getc_static; if c =? -1 then getc_wait polls else mret c
  end.

(** [tty_read_kernel(buf, len)]: the characters stored in [buf]. *)
Fixpoint tty_read_kernel (polls n : nat) : M (tty H) (list Z) :=
  match n with
  | O => mret []
  | S n =>
      _ ← modify (set_c (-1));
      c ← getc_wait polls;
      rest ← tty_read_kernel polls n;
      mret (Z.land c 0xFF :: rest)
  end.

Definition tty_kernel_mode : M (tty H) unit := modify (set_mode true).
Definition tty_user_mode : M (tty H) unit := modify (set_mode false).

(** [rc] is not initialised: [junk] is what it holds. *)
Definition tty_handle_intr (polls : nat) (junk : Z) : M (tty H) Z :=
  ip ← on_dev uart_pend_intr;
  rc ← (if Z.land ip UART0_RX_INTR =? 0 then mret junk else tty_read_uart polls);
  _ ← (if Z.land ip UART0_TX_INTR =? 0 then mret tt else tty_write_uart);
  mret rc.

(** [for (int c = 0; c != -1; uart_getc(&c));] *)
Fixpoint drain (polls : nat) : M (tty H) unit :=
  match polls with
  | O => spin
  | S polls => c ← on_dev uart_getc; if c =? -1 then mret tt else drain polls
  end.

Definition tty_init (cpu_clock_rate : Z) (polls : nat) : M (tty H) unit :=
  _ ← on_dev (uart_init cpu_clock_rate 115200);
  _ ← drain polls;
  _ ← tty_buff_init;
  tty_kernel_mode.
End tty.
