(* ===== verification/TtyOps.v ===== *)
(** * The tty driver: what its operations do

    The invariant of the driver and the effect of each operation of Tty.v on
    the two queues of characters and on the device.  Output is first in, first
    out, and the transmit interrupt is enabled exactly while characters wait. *)

From S2P Require Import Prelude Layout Ring Uart Tty.

(** What a character received does to the queue of unread characters: it goes to
    the end, and when the buffer is full it is stored over the oldest one. *)
Definition rx_put (q : list Z) (c : Z) : list Z :=
  if Z.of_nat (length q) <? DEV_BUFF_SIZE then q ++ [c] else c :: drop 1 q.

Section ops.
Context {H : Type} `{!Mmio H, !Uart H}.
Implicit Types t : tty H.

Definition tty_wf t : Prop := ring_wf (tty_read_buf t) ∧ ring_wf (tty_write_buf t).
Definition inq t : list Z := ring_queue (tty_read_buf t).
Definition outq t : list Z := ring_queue (tty_write_buf t).
Definition sent t : list Z := txlog (dev t).
Definition received t : list Z := rxlog (dev t).
Definition tx_intr t : bool := Z.testbit (uart_ie (dev t)) 0.
Definition rx_intr t : bool := Z.testbit (uart_ie (dev t)) 1.

(** The two halves of the driver do not disturb each other. *)
Record rx_same t t' : Prop := {
  rs_buf : tty_read_buf t' = tty_read_buf t;
  rs_c : last_c t' = last_c t;
  rs_mode : is_kernel t' = is_kernel t;
  rs_received : received t' = received t;
  rs_intr : rx_intr t' = rx_intr t;
}.
Record tx_same t t' : Prop := {
  ts_buf : tty_write_buf t' = tty_write_buf t;
  ts_mode : is_kernel t' = is_kernel t;
  ts_sent : sent t' = sent t;
  ts_ie : uart_ie (dev t') = uart_ie (dev t);
}.

#[export] Instance rx_same_preorder : PreOrder rx_same.
Proof. split; [done|]. intros x y z [] []. split; congruence. Qed.
#[export] Instance tx_same_preorder : PreOrder tx_same.
Proof. split; [done|]. intros x y z [] []. split; congruence. Qed.

Lemma on_dev_eq {A} (m : M H A) t a h :
  m (dev t) = Ret a h → on_dev m t = Ret a (set_dev h t).
Proof. intros E. unfold on_dev. by rewrite E. Qed.

(** Frame conditions: fields that a record update left alone, and the
    unchanged part of the device. *)
Ltac tty_frame :=
  split; unfold received, sent, rx_intr, set_rx, set_tx, set_c, set_dev;
  cbn [tty_read_buf tty_write_buf last_c is_kernel dev]; congruence.

(** ** Output *)

Lemma tty_write_uart_loop_spec fuel : ∀ rc t,
  ring_wf (tty_write_buf t) → size (tty_write_buf t) ≤ Z.of_nat fuel →
  ∃ rc' t', tty_write_uart_loop fuel rc t = Ret rc' t' ∧ rx_same t t' ∧
    ring_wf (tty_write_buf t') ∧ sent t' ++ outq t' = sent t ++ outq t ∧
    (outq t' = [] ∧ (rc' = rc ∨ rc' = 0) ∨ outq t' ≠ [] ∧ rc' = -1 ∧ tx_intr t' = true).
Proof.
  induction fuel as [|fuel IH]; intros rc t Hwf Hsz;
    pose proof (ring_queue_nil _ Hwf) as Hnil;
    cbn [tty_write_uart_loop]; mstep;
    destruct (Z.ltb_spec 0 (size (tty_write_buf t))) as [Hpos|Hneg];
    try (exists rc, t; pose proof (rw_size _ Hwf); split; [done|];
         split_and!; [done..|]; left; split; [apply Hnil; lia|by left]).
  - lia.
  - set (b := tty_write_buf t) in *.
    assert (Hh : 0 ≤ head b < DEV_BUFF_SIZE) by apply Hwf.
    assert (Hlen : Z.of_nat (length (buf b)) = DEV_BUFF_SIZE) by (by rewrite (rw_len _ Hwf)).
    pose proof (arr_get_eq (S := tty H) (buf b) (head b) t ltac:(lia)) as E1. mrun E1.
    set (ch := buf b !!! Z.to_nat (head b)).
    destruct (uart_putc_spec ch (dev t) (ring_char b (head b) Hwf Hh))
      as (r & h & E2 & P1 & P2 & P3).
    pose proof (on_dev_eq _ t _ _ E2) as E2'. mrun E2'.
    destruct (ring_pop_spec b Hwf Hpos) as [Hwf' Hq]. fold ch in Hq.
    destruct P3 as [[-> P3]|(-> & P3 & _)]; simpl.
    + destruct (IH 0 (set_tx (ring_pop b) (set_dev h t))) as (rc' & t' & E3 & F & W & L & C);
        [done|simpl; lia|].
      exists rc', t'. split; [exact E3|]. split_and!; [|done| |].
      * etransitivity; [|exact F]. tty_frame.
      * rewrite L. unfold sent, outq. simpl. fold b. by rewrite P3, Hq, <-(assoc_L app).
      * destruct C as [[C1 [->| ->]]|C]; [left; auto..|by right].
    + destruct (uart_tx_intr_spec true h) as (h2 & E3 & T1 & T2 & T3 & T4).
      pose proof (on_dev_eq _ (set_dev h t) _ _ E3) as E3'. mrun E3'.
      eexists (-1), _. split; [done|]. split_and!; [|done| |].
      * tty_frame.
      * unfold sent, outq. simpl. by rewrite T1, P3.
      * right. split; [|by split]. unfold outq. simpl. fold b. by rewrite Hq.
Qed.

(** [tty_write_uart] moves characters from the queue to the device, in order,
    and leaves the transmit interrupt enabled exactly if some remain. *)
Lemma tty_write_uart_spec t :
  ring_wf (tty_write_buf t) →
  ∃ t', tty_write_uart t = Ret tt t' ∧ rx_same t t' ∧ ring_wf (tty_write_buf t') ∧
    sent t' ++ outq t' = sent t ++ outq t ∧ tx_intr t' = bool_decide (outq t' ≠ []).
Proof.
  intros Hwf. unfold tty_write_uart.
  destruct (tty_write_uart_loop_spec nslots 0 t Hwf) as (rc & t1 & E1 & F1 & W1 & L1 & C1);
    [apply Hwf|]. mrun E1.
  destruct C1 as [[C1 C2]|(C1 & -> & C2)].
  - assert (rc = 0) as -> by (by destruct C2). simpl.
    destruct (uart_tx_intr_spec false (dev t1)) as (h2 & E2 & T1 & T2 & T3 & T4).
    exists (set_dev h2 t1). split; [by apply (on_dev_eq uart_txdis)|]. split_and!.
    + etransitivity; [exact F1|]. tty_frame.
    + done.
    + unfold sent, outq in *. simpl. by rewrite T1.
    + rewrite bool_decide_eq_false_2; [exact T3|]. intros Hne. by apply Hne.
  - exists t1. split; [done|]. split_and!; [done..|]. rewrite C2.
    by rewrite bool_decide_eq_true_2.
Qed.

(** The loop of [tty_write_buff], which counts the characters only after it:
    [n] slots from the head are in use, [k] more are filled. *)
Lemma tty_write_buff_loop_spec msg k : ∀ t n i (b := tty_write_buf t),
  length (buf b) = nslots → Forall (λ c, 0 ≤ c < 256) (buf b) →
  tail b = (head b + n) mod DEV_BUFF_SIZE → 0 ≤ n → n + Z.of_nat k ≤ DEV_BUFF_SIZE →
  Forall (λ c, 0 ≤ c < 256) msg → 0 ≤ i → i + Z.of_nat k ≤ Z.of_nat (length msg) →
  ∃ l, tty_write_buff_loop k msg i t =
         Ret tt (set_tx (TtyBuff l (size b) (head b) ((head b + n + Z.of_nat k) mod DEV_BUFF_SIZE)) t) ∧
    length l = nslots ∧ Forall (λ c, 0 ≤ c < 256) l ∧
    ring_slots l (head b) (n + Z.of_nat k) =
    ring_slots (buf b) (head b) n ++ take k (drop (Z.to_nat i) msg).
Proof.
  induction k as [|k IH]; intros t n i b Hlen Hch Htl Hn Hk Hmsg Hi Hik; cbn [tty_write_buff_loop].
  - exists (buf b). rewrite !Z.add_0_r, take_0, app_nil_r. split_and!; try done.
    rewrite <-Htl. by destruct t as [? []].
  - mstep. fold b.
    pose proof (arr_get_eq (S := tty H) msg i t ltac:(lia)) as E1. mrun E1.
    set (ch := msg !!! Z.to_nat i).
    assert (Hmi : msg !! Z.to_nat i = Some ch) by (apply list_lookup_lookup_total_lt; lia).
    assert (Hchr : 0 ≤ ch < 256) by (by apply (Forall_lookup_1 _ _ _ _ Hmsg Hmi)).
    assert (Ht : 0 ≤ tail b < Z.of_nat (length (buf b))).
    { rewrite Htl, Hlen. by apply Z.mod_pos_bound. }
    pose proof (arr_set_eq (S := tty H) (buf b) (tail b) ch t Ht) as E2. mrun E2.
    mstep.
    set (t1 := set_tx _ t).
    destruct (IH t1 (n + 1) (i + 1)) as (l & E3 & L1 & L2 & L3); simpl; try done; try lia.
    + by rewrite length_insert.
    + by apply Forall_insert_char.
    + rewrite Htl, Zplus_mod_idemp_l. f_equal. lia.
    + exists l. split_and!; try done.
      * rewrite E3. unfold t1, set_tx. cbn [tty_write_buf head size].
        by replace (head b + (n + 1) + Z.of_nat k) with (head b + n + Z.of_nat (S k)) by lia.
      * replace (n + Z.of_nat (S k)) with (n + 1 + Z.of_nat k) by lia. simpl in L3.
        rewrite L3, Htl, ring_slots_push by (done || lia). rewrite <-(assoc_L app).
        f_equal. rewrite (drop_S _ _ _ Hmi). simpl. do 3 f_equal. lia.
Qed.

Lemma tty_write_buff_spec msg len t :
  ring_wf (tty_write_buf t) → Forall (λ c, 0 ≤ c < 256) msg →
  0 ≤ len ≤ Z.of_nat (length msg) → len ≤ DEV_BUFF_SIZE - size (tty_write_buf t) →
  ∃ b', tty_write_buff msg len t = Ret tt (set_tx b' t) ∧ ring_wf b' ∧
    ring_queue b' = outq t ++ take (Z.to_nat len) msg.
Proof.
  intros Hwf Hmsg Hlen Hfit. unfold tty_write_buff. mstep.
  set (b := tty_write_buf t) in *. pose proof Hwf as [W1 W2 W3 W4 W5].
  rewrite (proj2 (Z.ltb_ge _ _)) by lia.
  destruct (tty_write_buff_loop_spec msg (Z.to_nat len) t (size b) 0) as (l & E & L1 & L2 & L3);
    try done; try lia. fold b in E, L3.
  mrun E. mstep. unfold modify. simpl.
  rewrite Z2Nat.id in * by lia.
  eexists. split; [by destruct t|]. split.
  - split; simpl; try done; try lia. by rewrite Z.add_assoc.
  - unfold ring_queue. simpl. rewrite L3. done.
Qed.

(** [tty_write]: refused for good, refused for now, or queued and started. *)
Lemma tty_write_spec msg len t :
  tty_wf t → Forall (λ c, 0 ≤ c < 256) msg → 0 ≤ len ≤ Z.of_nat (length msg) →
  if DEV_BUFF_SIZE <? len then tty_write msg len t = Ret (-2) t
  else if DEV_BUFF_SIZE - Z.of_nat (length (outq t)) <? len then tty_write msg len t = Ret (-1) t
  else ∃ t', tty_write msg len t = Ret 0 t' ∧ tty_wf t' ∧ rx_same t t' ∧
         sent t' ++ outq t' = sent t ++ outq t ++ take (Z.to_nat len) msg ∧
         tx_intr t' = bool_decide (outq t' ≠ []).
Proof.
  intros [Hrx Htx] Hmsg Hlen. unfold outq at 1. rewrite ring_queue_length by done.
  unfold tty_write. destruct (DEV_BUFF_SIZE <? len); [done|].
  mstep.
  destruct (Z.ltb_spec (DEV_BUFF_SIZE - size (tty_write_buf t)) len) as [|Hfit]; [done|].
  destruct (tty_write_buff_spec msg len t) as (b' & E1 & W1 & Q1); [done..|]. mrun E1.
  destruct (tty_write_uart_spec (set_tx b' t)) as (t' & E2 & F & W2 & L & I); [done|]. mrun E2.
  exists t'. split; [done|]. split_and!; try done.
  - split; [|done]. by rewrite (rs_buf _ _ F).
  - etransitivity; [|exact F]. tty_frame.
  - rewrite L. unfold sent, outq. simpl. by rewrite Q1.
Qed.

(** ** Input *)

Lemma getc_static_spec t :
  ∃ c t', getc_static t = Ret c t' ∧ tx_same t t' ∧ tty_read_buf t' = tty_read_buf t ∧
    last_c t' = c ∧
    (0 ≤ c < 256 ∧ received t' = received t ++ [c] ∧
       (rx_ready (dev t') < rx_ready (dev t))%nat ∨
     c = -1 ∧ received t' = received t).
Proof.
  destruct (uart_getc_spec (dev t)) as (c & h & E & G1 & G2 & G3).
  exists c, (set_c c (set_dev h t)). split.
  - unfold getc_static. pose proof (on_dev_eq _ t _ _ E) as E'. mrun E'. done.
  - split_and!; [tty_frame|done..].
Qed.

(** One character received is put into the queue. *)
Definition rx_store (b : tty_buff) (c : Z) : tty_buff :=
  if size b <? DEV_BUFF_SIZE then ring_push b c else ring_overwrite b c.

Lemma rx_store_spec b c :
  ring_wf b → 0 ≤ c < 256 →
  ring_wf (rx_store b c) ∧ ring_queue (rx_store b c) = rx_put (ring_queue b) c.
Proof.
  intros Hwf Hc. unfold rx_store, rx_put. rewrite ring_queue_length by done.
  destruct (Z.ltb_spec (size b) DEV_BUFF_SIZE).
  - by apply ring_push_spec.
  - apply ring_overwrite_spec; [done..|]. pose proof (rw_size _ Hwf). lia.
Qed.

(** What a burst of characters [cs] left behind, with return code [rc]. *)
Definition burst (rc : Z) (cs : list Z) : Prop :=
  rc = 0 ∧ SPECIAL_CTRL_C ∉ cs ∨
  rc = RET_SPECIAL_CHAR ∧ ∃ cs0, cs = cs0 ++ [SPECIAL_CTRL_C] ∧ SPECIAL_CTRL_C ∉ cs0.

Lemma burst_cons rc c cs : c ≠ SPECIAL_CTRL_C → burst rc cs → burst rc (c :: cs).
Proof.
  intros Hc [[-> Hn]|(-> & cs0 & -> & Hn)].
  - left. split; [done|]. by apply not_elem_of_cons.
  - right. split; [done|]. exists (c :: cs0). split; [done|]. by apply not_elem_of_cons.
Qed.

Lemma tty_read_uart_loop_spec polls : ∀ t c,
  ring_wf (tty_read_buf t) → last_c t = c → 0 ≤ c < 256 → (rx_ready (dev t) < polls)%nat →
  ∃ rc t' cs, tty_read_uart_loop polls t = Ret rc t' ∧ ring_wf (tty_read_buf t') ∧ tx_same t t' ∧
    received t' = received t ++ cs ∧ inq t' = foldl rx_put (inq t) (c :: cs) ∧ burst rc (c :: cs).
Proof.
  induction polls as [|polls IH]; intros t c Hrx Hc Hcr Hp; [lia|].
  cbn [tty_read_uart_loop]. mstep. rewrite Hc, land_0xFF by done.
  set (b := tty_read_buf t) in *. pose proof Hrx as [W1 W2 W3 W4 W5].
  assert (Ht : 0 ≤ tail b < Z.of_nat (length (buf b))).
  { rewrite W4, W1. by apply Z.mod_pos_bound. }
  pose proof (arr_set_eq (S := tty H) (buf b) (tail b) c t Ht) as E1. mrun E1. mstep.
  set (t1 := set_rx _ t).
  assert (Hb1 : tty_read_buf t1 = rx_store b c)
    by (unfold rx_store, t1; simpl; by destruct (size b <? DEV_BUFF_SIZE)).
  destruct (rx_store_spec b c Hrx Hcr) as [Hwf1 Hq1]. rewrite <-Hb1 in Hwf1, Hq1.
  assert (Hs1 : tx_same t t1) by (unfold t1; tty_frame).
  destruct (Z.eqb_spec c SPECIAL_CTRL_C) as [->|Hne].
  - exists RET_SPECIAL_CHAR, t1, []. split_and!; try done.
    + by rewrite app_nil_r.
    + right. split; [done|]. exists []. split; [done|]. by apply not_elem_of_nil.
  - destruct (getc_static_spec t1) as (c2 & t2 & E2 & S2 & B2 & L2 & C2). mrun E2.
    assert (Hwf2 : ring_wf (tty_read_buf t2)) by (by rewrite B2).
    assert (Hq2 : inq t2 = rx_put (inq t) c) by (unfold inq; rewrite B2; exact Hq1).
    destruct C2 as [(Hc2 & R2 & Hlt)|[-> R2]].
    + rewrite (proj2 (Z.eqb_neq c2 (-1))) by lia.
      destruct (IH t2 c2) as (rc & t3 & cs & E3 & W & S3 & R3 & Q3 & B3); [done..| |].
      { change (rx_ready (dev t1)) with (rx_ready (dev t)) in Hlt. lia. }
      exists rc, t3, (c2 :: cs). split_and!; try done.
      * etransitivity; [exact Hs1|]. by etransitivity.
      * rewrite R3, R2, <-(assoc_L app). done.
      * rewrite Q3, Hq2. done.
      * by apply burst_cons.
    + exists 0, t2, []. split_and!; try done.
      * by etransitivity.
      * rewrite R2, app_nil_r. done.
      * left. split; [done|]. apply not_elem_of_cons. split; [done|by apply not_elem_of_nil].
Qed.

(** [tty_read_uart] takes the characters the device has, up to the first
    Ctrl-C, and puts them into the queue in order. *)
Lemma tty_read_uart_spec polls t :
  ring_wf (tty_read_buf t) → (rx_ready (dev t) ≤ polls)%nat →
  ∃ rc t' cs, tty_read_uart polls t = Ret rc t' ∧ ring_wf (tty_read_buf t') ∧ tx_same t t' ∧
    received t' = received t ++ cs ∧ inq t' = foldl rx_put (inq t) cs ∧
    (rc = -1 ∧ cs = [] ∨ cs ≠ [] ∧ burst rc cs).
Proof.
  intros Hwf Hp. unfold tty_read_uart.
  destruct (getc_static_spec t) as (c & t1 & E1 & S1 & B1 & L1 & C1). mrun E1.
  assert (Hwf1 : ring_wf (tty_read_buf t1)) by (by rewrite B1).
  destruct C1 as [(Hc & R1 & Hlt)|[-> R1]].
  - rewrite (proj2 (Z.eqb_neq c (-1))) by lia.
    destruct (tty_read_uart_loop_spec polls t1 c) as (rc & t2 & cs & E2 & W & S2 & R2 & Q2 & B2);
      [done..|lia|].
    exists rc, t2, (c :: cs). split_and!; try done.
    + by etransitivity.
    + rewrite R2, R1, <-(assoc_L app). done.
    + rewrite Q2. unfold inq. by rewrite B1.
    + by right.
  - exists (-1), t1, []. split_and!; try done.
    + by rewrite R1, app_nil_r.
    + unfold inq. by rewrite B1.
    + by left.
Qed.

(** Operations of the input side keep the invariant of the output side. *)
Lemma tx_same_wf t t' :
  tty_wf t → ring_wf (tty_read_buf t') → tx_same t t' → tty_wf t'.
Proof. intros [_ Htx] Hrx T. split; [done|]. by rewrite (ts_buf _ _ T). Qed.

Lemma tty_read_uart_wf polls t :
  tty_wf t → (rx_ready (dev t) ≤ polls)%nat →
  ∃ rc t' cs, tty_read_uart polls t = Ret rc t' ∧ tty_wf t' ∧ tx_same t t' ∧
    received t' = received t ++ cs ∧ inq t' = foldl rx_put (inq t) cs ∧
    (rc = -1 ∧ cs = [] ∨ cs ≠ [] ∧ burst rc cs).
Proof.
  intros [Hrx Htx] Hp.
  destruct (tty_read_uart_spec polls t Hrx Hp) as (rc & t' & cs & E & W & T & H1).
  exists rc, t', cs. split; [done|]. split; [|done]. split; [done|]. by rewrite (ts_buf _ _ T).
Qed.

(** [tty_read] takes the oldest character. *)
Lemma tty_read_spec t :
  ring_wf (tty_read_buf t) →
  match inq t with
  | [] => tty_read t = Ret (-1, None) t
  | c :: q => ∃ t', tty_read t = Ret (0, Some c) t' ∧ ring_wf (tty_read_buf t') ∧ inq t' = q ∧
                tx_same t t' ∧ received t' = received t
  end.
Proof.
  intros Hrx. pose proof (ring_queue_nil _ Hrx) as Hnil. unfold inq, tty_read. mstep.
  set (b := tty_read_buf t) in *. pose proof Hrx as [W1 W2 W3 W4 W5].
  destruct (Z.eqb_spec (size b) 0) as [Hz|Hz]; [by rewrite (proj2 Hnil)|].
  destruct (ring_pop_spec b Hrx) as [Hwf Hq]; [lia|]. rewrite Hq.
  assert (Hh : 0 ≤ head b < Z.of_nat (length (buf b))) by (by rewrite W1).
  pose proof (arr_get_eq (S := tty H) (buf b) (head b) t Hh) as E1. mrun E1. mstep.
  eexists. split; [done|]. split_and!; [done|done|tty_frame|done].
Qed.

(** [tty_read_tail] takes the newest character. *)
Lemma tty_read_tail_spec t :
  ring_wf (tty_read_buf t) →
  (inq t = [] ∧ tty_read_tail t = Ret (-1, None) t) ∨
  ∃ q c t', inq t = q ++ [c] ∧ tty_read_tail t = Ret (0, Some c) t' ∧
    ring_wf (tty_read_buf t') ∧ inq t' = q ∧ tx_same t t' ∧ received t' = received t.
Proof.
  intros Hrx. pose proof (ring_queue_nil _ Hrx) as Hnil. unfold inq, tty_read_tail. mstep.
  set (b := tty_read_buf t) in *. pose proof Hrx as [W1 W2 W3 W4 W5].
  destruct (Z.eqb_spec (size b) 0) as [Hz|Hz]; [left; split; [by apply Hnil|done]|right].
  destruct (ring_pop_tail_spec b Hrx) as (Hwf & Ht & Hq); [lia|]. cbv zeta.
  set (rt := if tail b =? 0 then _ else _) in *.
  assert (Ht' : 0 ≤ rt < Z.of_nat (length (buf b))) by (by rewrite W1).
  pose proof (arr_get_eq (S := tty H) (buf b) rt t Ht') as E1. mrun E1.
  pose proof (arr_set_eq (S := tty H) (buf b) rt 0 t Ht') as E2. mrun E2. mstep.
  eexists _, _, _. split; [exact Hq|]. split; [done|].
  split_and!; [done|done|tty_frame|done].
Qed.

(** ** Memory safety without the invariant

    The length a process passes to [tty_write] is not checked for its sign, and
    a negative one makes the size of the output buffer negative.  Even then no
    index leaves the buffer, and every operation returns. *)

Record ring_weak (b : tty_buff) : Prop := {
  rk_len : length (buf b) = nslots;
  rk_size : size b ≤ DEV_BUFF_SIZE;
  rk_head : 0 ≤ head b < DEV_BUFF_SIZE;
  rk_tail : 0 ≤ tail b < DEV_BUFF_SIZE;
  rk_char : Forall (λ c, 0 ≤ c < 256) (buf b);
}.

Lemma ring_wf_weak b : ring_wf b → ring_weak b.
Proof.
  intros [W1 W2 W3 W4 W5]. split; [done|lia|done| |done]. rewrite W4. by apply Z.mod_pos_bound.
Qed.

Definition tty_weak t : Prop := ring_wf (tty_read_buf t) ∧ ring_weak (tty_write_buf t).

Lemma weak_char b i : ring_weak b → 0 ≤ i < DEV_BUFF_SIZE → 0 ≤ buf b !!! Z.to_nat i < 256.
Proof.
  intros [W1 _ _ _ W5] Hi. apply (Forall_lookup_1 (λ c, 0 ≤ c < 256) (buf b) (Z.to_nat i)); [done|].
  apply list_lookup_lookup_total_lt. rewrite W1. unfold nslots. lia.
Qed.

Lemma tty_write_uart_loop_safe fuel : ∀ rc t,
  tty_weak t → size (tty_write_buf t) ≤ Z.of_nat fuel →
  returns (tty_write_uart_loop fuel rc) t (λ _ t', tty_weak t').
Proof.
  induction fuel as [|fuel IH]; intros rc t [Hrx Hw] Hsz; cbn [tty_write_uart_loop];
    apply returns_bind, returns_gets;
    destruct (Z.ltb_spec 0 (size (tty_write_buf t))) as [Hpos|Hneg]; try (by rstep); [lia|].
  set (b := tty_write_buf t) in *. destruct Hw as [W1 W2 W3 W4 W5].
  apply returns_bind. exists (buf b !!! Z.to_nat (head b)), t.
  split; [apply arr_get_eq; by rewrite W1|].
  destruct (uart_putc_spec (buf b !!! Z.to_nat (head b)) (dev t)) as (r & h & E2 & _ & _ & P);
    [apply weak_char; [by split|done]|].
  apply returns_bind. exists r, (set_dev h t). split; [by apply on_dev_eq|].
  destruct P as [[-> _]|[-> _]]; simpl.
  - apply returns_bind, returns_modify. apply IH; [|simpl; lia].
    split; [done|]. split; simpl; try done; [lia|]. by apply Z.mod_pos_bound.
  - destruct (uart_tx_intr_spec true h) as (h2 & E3 & _). apply returns_bind.
    exists tt, (set_dev h2 (set_dev h t)). split; [by apply (on_dev_eq uart_txen)|]. rstep.
    split; [done|by split].
Qed.

Lemma tty_write_uart_safe t : tty_weak t → returns tty_write_uart t (λ _ t', tty_weak t').
Proof.
  intros Hw. unfold tty_write_uart. apply returns_bind.
  eapply returns_mono; [apply tty_write_uart_loop_safe; [done|apply Hw]|cbv beta].
  intros rc t1 H1. destruct (rc =? 0); [|by rstep].
  destruct (uart_tx_intr_spec false (dev t1)) as (h2 & E3 & _).
  exists tt, (set_dev h2 t1). split; [by apply (on_dev_eq uart_txdis)|]. done.
Qed.

Lemma tty_write_buff_loop_safe msg n : ∀ t i,
  tty_weak t → Forall (λ c, 0 ≤ c < 256) msg → 0 ≤ i → i + Z.of_nat n ≤ Z.of_nat (length msg) →
  returns (tty_write_buff_loop n msg i) t (λ _ t', tty_weak t' ∧
    size (tty_write_buf t') = size (tty_write_buf t)).
Proof.
  induction n as [|n IH]; intros t i [Hrx Hw] Hmsg Hi Hn; cbn [tty_write_buff_loop]; [by rstep|].
  apply returns_bind, returns_gets. set (b := tty_write_buf t) in *.
  destruct Hw as [W1 W2 W3 W4 W5].
  apply returns_bind. exists (msg !!! Z.to_nat i), t. split; [apply arr_get_eq; lia|].
  apply returns_bind. eexists _, t. split; [apply arr_set_eq; by rewrite W1|].
  apply returns_bind, returns_modify.
  assert (Hc : 0 ≤ msg !!! Z.to_nat i < 256).
  { eapply (Forall_lookup_1 (λ c, 0 ≤ c < 256)); [exact Hmsg|].
    apply list_lookup_lookup_total_lt. lia. }
  eapply returns_mono; [apply IH; [|done|lia|lia]|done].
  split; [done|]. split; simpl; try done; [by rewrite length_insert|by apply Z.mod_pos_bound|].
  by apply Forall_insert_char.
Qed.

(** [tty_write] with any length up to that of the message, negative included. *)
Lemma tty_write_safe msg len t :
  tty_weak t → Forall (λ c, 0 ≤ c < 256) msg → len ≤ Z.of_nat (length msg) →
  returns (tty_write msg len) t (λ rc t', tty_weak t' ∧ (rc = 0 ∨ rc = -1 ∨ rc = -2)).
Proof.
  intros Hw Hmsg Hlen. unfold tty_write. destruct (DEV_BUFF_SIZE <? len); [rstep; auto|].
  apply returns_bind, returns_gets.
  destruct (Z.ltb_spec (DEV_BUFF_SIZE - size (tty_write_buf t)) len) as [|Hfit]; [rstep; auto|].
  apply returns_bind. unfold tty_write_buff. apply returns_bind, returns_gets.
  rewrite (proj2 (Z.ltb_ge _ _)) by lia. apply returns_bind.
  eapply returns_mono; [apply tty_write_buff_loop_safe; [done..|lia]|cbv beta].
  intros _ t1 [[Hr1 H1] Hs1]. apply returns_bind, returns_gets, returns_modify.
  assert (H2 : tty_weak (set_tx (TtyBuff (buf (tty_write_buf t1)) (size (tty_write_buf t1) + len)
    (head (tty_write_buf t1)) (tail (tty_write_buf t1))) t1)).
  { split; [done|]. destruct H1. split; simpl; try done. lia. }
  apply returns_bind. eapply returns_mono; [by apply tty_write_uart_safe|cbv beta].
  intros _ t2 Ht2. rstep. auto.
Qed.

Lemma tty_handle_intr_safe polls junk t :
  tty_weak t → (rx_ready (dev t) ≤ polls)%nat →
  returns (tty_handle_intr polls junk) t (λ _ t', tty_weak t').
Proof.
  intros [Hrx Hw] Hp. unfold tty_handle_intr, uart_pend_intr, REGW. apply returns_bind.
  destruct (reg_read (UART0_BASE + UART0_IP) (dev t)) as [ip h] eqn:E0.
  destruct (ip_read _ _ _ E0) as [_ U4].
  exists ip, (set_dev h t). split; [apply on_dev_eq; by rewrite E0|].
  assert (Hrd : returns (if Z.land ip UART0_RX_INTR =? 0 then mret junk else tty_read_uart polls)
    (set_dev h t) (λ _ t', tty_weak t')).
  { destruct (Z.land ip UART0_RX_INTR =? 0); [by rstep|].
    destruct (tty_read_uart_spec polls (set_dev h t)) as (rc & t1 & cs & E1 & W & T & _);
      [done|simpl; lia|].
    exists rc, t1. split; [done|]. split; [done|]. by rewrite (ts_buf _ _ T). }
  apply returns_bind. eapply returns_mono; [exact Hrd|cbv beta]. intros rc t1 H1.
  apply returns_bind. destruct (Z.land ip UART0_TX_INTR =? 0); [by rstep|].
  eapply returns_mono; [by apply tty_write_uart_safe|cbv beta]. intros _ t2 H2. by rstep.
Qed.

(** Polling output in kernel mode: everything is sent, in order. *)
Lemma putc_wait_spec polls ch : ∀ t,
  0 ≤ ch < 256 → (tx_wait (dev t) < polls)%nat →
  ∃ h, putc_wait polls ch t = Ret tt (set_dev h t) ∧ txlog h = txlog (dev t) ++ [ch] ∧
    rxlog h = rxlog (dev t) ∧ uart_ie h = uart_ie (dev t).
Proof.
  induction polls as [|polls IH]; intros t Hch Hp; [lia|]. cbn [putc_wait].
  destruct (uart_putc_spec ch (dev t) Hch) as (rc & h & E & P1 & P2 & P3).
  pose proof (on_dev_eq _ t _ _ E) as E'. mrun E'.
  destruct P3 as [[-> P3]|(-> & P3 & Hlt)]; simpl.
  - by exists h.
  - destruct (IH (set_dev h t) Hch) as (h2 & E2 & Q1 & Q2 & Q3); [simpl; lia|].
    exists h2. simpl in *. split; [rewrite E2; by destruct t|]. split_and!; congruence.
Qed.

Lemma tty_write_kernel_loop_spec polls msg n : (tx_wait_max < polls)%nat → ∀ t i,
  Forall (λ c, 0 ≤ c < 256) msg → 0 ≤ i → i + Z.of_nat n ≤ Z.of_nat (length msg) →
  ∃ h, tty_write_kernel_loop polls n msg i t = Ret tt (set_dev h t) ∧
    txlog h = txlog (dev t) ++ take n (drop (Z.to_nat i) msg) ∧
    rxlog h = rxlog (dev t) ∧ uart_ie h = uart_ie (dev t).
Proof.
  intros Hp. induction n as [|n IH]; intros t i Hmsg Hi Hn; cbn [tty_write_kernel_loop].
  - exists (dev t). rewrite take_0, app_nil_r. split; [by destruct t|done].
  - pose proof (arr_get_eq (S := tty H) msg i t ltac:(lia)) as E1. mrun E1.
    assert (Hmi : msg !! Z.to_nat i = Some (msg !!! Z.to_nat i))
      by (apply list_lookup_lookup_total_lt; lia).
    assert (Hc : 0 ≤ msg !!! Z.to_nat i < 256) by (by apply (Forall_lookup_1 _ _ _ _ Hmsg Hmi)).
    destruct (putc_wait_spec polls (msg !!! Z.to_nat i) t Hc) as (h & E2 & P1 & P2 & P3).
    { pose proof (tx_wait_le (dev t)). lia. }
    mrun E2. destruct (IH (set_dev h t) (i + 1)) as (h2 & E3 & Q1 & Q2 & Q3); [done|lia|lia|].
    exists h2. split; [rewrite E3; by destruct t|]. simpl in *.
    rewrite Q1, P1, (drop_S _ _ _ Hmi), <-(assoc_L app). simpl.
    replace (Z.to_nat (i + 1)) with (S (Z.to_nat i)) by lia. split_and!; [done|congruence..].
Qed.

Lemma tty_write_kernel_spec polls msg t :
  (tx_wait_max < polls)%nat → Forall (λ c, 0 ≤ c < 256) msg →
  ∃ h, tty_write_kernel polls msg (Z.of_nat (length msg)) t =
         Ret (Z.of_nat (length msg)) (set_dev h t) ∧
    txlog h = txlog (dev t) ++ msg ∧ rxlog h = rxlog (dev t) ∧ uart_ie h = uart_ie (dev t).
Proof.
  intros Hp Hmsg. unfold tty_write_kernel.
  destruct (tty_write_kernel_loop_spec polls msg (length msg) Hp t 0) as (h & E & Q1 & Q2 & Q3);
    [done|lia|lia|].
  rewrite Nat2Z.id. mrun E. exists h. by rewrite drop_0, firstn_all in Q1.
Qed.
End ops.
