(* ===== verification/Intr.v ===== *)
(** * External interrupts

    [trap_external] of earth/cpu_intr.c: the pending interrupt is claimed from
    the interrupt controller, its device is served, and the claim is completed.
    [Plic] is the part of chapter 10 of the FE310-G002 manual that the code
    relies on: the claim register has no effect on the UART. *)

From S2P Require Import Prelude Layout Ring Uart Tty TtyOps.

Definition PLIC_CLAIM_BASE : Z := 0x0C200004.
Definition PLIC_UART0_ID : Z := 3.

Class Plic (H : Type) `{!Mmio H, !Uart H} := {
  claim_read h v h' : reg_read (PLIC_CLAIM_BASE + 0) h = (v, h') →
    uart_same txlog rxlog uart_ie h h' ∧ rx_ready h' = rx_ready h;
  claim_write h v : uart_same txlog rxlog uart_ie h (reg_write (PLIC_CLAIM_BASE + 0) v h);
}.

Section intr.
Context {H : Type} `{!Mmio H}.

Definition trap_external (polls : nat) (junk : Z) : M (tty H) Z :=
  intr_cause ← on_dev (REGW PLIC_CLAIM_BASE 0);
  rc ← (if intr_cause =? PLIC_UART0_ID then tty_handle_intr polls junk else mret 0);
  _ ← on_dev (REGW_set PLIC_CLAIM_BASE 0 intr_cause);
  mret rc.
End intr.

Lemma trap_external_safe {H} `{!Mmio H, !Uart H, !Plic H} polls junk (t : tty H) :
  tty_weak t → (rx_ready (dev t) ≤ polls)%nat →
  returns (trap_external polls junk) t (λ _ t', tty_weak t').
Proof.
  intros Hw Hp. unfold trap_external, REGW. apply returns_bind.
  destruct (reg_read (PLIC_CLAIM_BASE + 0) (dev t)) as [v h] eqn:E.
  destruct (claim_read _ _ _ E) as [_ Hr].
  exists v, (set_dev h t). split; [apply on_dev_eq; by rewrite E|]. apply returns_bind.
  assert (Hs : returns (if v =? PLIC_UART0_ID then tty_handle_intr polls junk else mret 0)
    (set_dev h t) (λ _ t', tty_weak t')).
  { destruct (v =? PLIC_UART0_ID); [|by rstep]. apply tty_handle_intr_safe; [done|simpl; lia]. }
  eapply returns_mono; [exact Hs|cbv beta]. intros rc t1 H1. apply returns_bind.
  eexists tt, _. split; [by apply (on_dev_eq (REGW_set PLIC_CLAIM_BASE 0 v))|]. by rstep.
Qed.
