(* ===== verification/TtyCorrect.v ===== *)
(** * Correctness of the tty driver

    The driver as a state machine: calls from the kernel, interrupts, and what
    the device does on its own, in any order.  Its contract is a queue of
    unread characters, the output given to the UART and the output that waits,
    with the return code of each call; [tty_trace_refines] shows that every run
    of the driver is a run of the contract.  A simulated UART provides concrete
    runs. *)

From S2P Require Import Prelude Layout Ring Uart Tty TtyOps Intr.

(** ** Runs of the driver *)

(** Each call with its return code.  [k] characters of output go to the UART
    during a write or an interrupt; [cs] are the characters an interrupt
    receives, and [junk] is what the variable [rc] of [tty_handle_intr] holds at
    first.  A read event carries the character returned, if any. *)
Inductive tty_ev :=
| EvEnv
| EvWrite (msg : list Z) (rc : Z) (k : nat)
| EvIntr (junk : Z) (cs : list Z) (rc : Z) (k : nat)
| EvRead (rc : Z) (r : option Z)
| EvTail (rc : Z) (r : option Z).

Section steps.
Context {H : Type} `{!Mmio H, !Uart H}.
Implicit Types t : tty H.

Inductive tty_step : tty H → tty_ev → tty H → Prop :=
| step_env t h :
    uart_same txlog rxlog uart_ie (dev t) h → tty_step t EvEnv (set_dev h t)
| step_write t msg rc k t' :
    Forall (λ c, 0 ≤ c < 256) msg →
    tty_write msg (Z.of_nat (length msg)) t = Ret rc t' →
    length (sent t') = (length (sent t) + k)%nat → tty_step t (EvWrite msg rc k) t'
| step_intr t polls junk cs rc k t' :
    (rx_ready (dev t) ≤ polls)%nat → tty_handle_intr polls junk t = Ret rc t' →
    received t' = received t ++ cs →
    length (sent t') = (length (sent t) + k)%nat → tty_step t (EvIntr junk cs rc k) t'
| step_read t rc r t' : tty_read t = Ret (rc, r) t' → tty_step t (EvRead rc r) t'
| step_tail t rc r t' : tty_read_tail t = Ret (rc, r) t' → tty_step t (EvTail rc r) t'.

Inductive tty_run : tty H → list tty_ev → tty H → Prop :=
| run_nil t : tty_run t [] t
| run_cons t e t1 es t2 : tty_step t e t1 → tty_run t1 es t2 → tty_run t (e :: es) t2.

(** The driver's invariant: both buffers are well formed, and the device
    interrupts while output waits. *)
Definition tty_inv t : Prop := tty_wf t ∧ (outq t ≠ [] → tx_intr t = true).
End steps.

(** ** The contract *)

(** Unread input, output that the UART has taken, and output that waits. *)
Definition tty_spec : Type := list Z * list Z * list Z.

(** The UART takes the first [k] of the waiting characters. *)
Definition transmit (k : nat) (unread out waiting : list Z) : option tty_spec :=
  if decide (k ≤ length waiting)%nat then Some (unread, out ++ take k waiting, drop k waiting)
  else None.

(** What an interrupt that received [cs] may return.  A burst ends at Ctrl-C. *)
Definition intr_rc (junk : Z) (cs : list Z) (rc : Z) : bool :=
  match cs with
  | [] => (rc =? junk) || (rc =? -1)
  | _ => bool_decide (SPECIAL_CTRL_C ∉ removelast cs) &&
         (rc =? if decide (last cs = Some SPECIAL_CTRL_C) then RET_SPECIAL_CHAR else 0)
  end.

(** What a read that takes out [taken], if anything, returns. *)
Definition read_result (rc : Z) (r taken : option Z) : bool :=
  bool_decide (r = taken) && (rc =? if decide (taken = None) then -1 else 0).

Definition spec_ev (e : tty_ev) (a : tty_spec) : option tty_spec :=
  let '(unread, out, waiting) := a in
  match e with
  | EvEnv => Some a
  | EvWrite msg rc k =>
      let len := Z.of_nat (length msg) in
      if DEV_BUFF_SIZE <? len then if decide (rc = -2 ∧ k = 0%nat) then Some a else None
      else if DEV_BUFF_SIZE - Z.of_nat (length waiting) <? len
      then if decide (rc = -1 ∧ k = 0%nat) then Some a else None
      else if decide (rc = 0) then transmit k unread out (waiting ++ msg) else None
  | EvIntr junk cs rc k =>
      if intr_rc junk cs rc then transmit k (foldl rx_put unread cs) out waiting else None
  | EvRead rc r => if read_result rc r (hd_error unread) then Some (drop 1 unread, out, waiting) else None
  | EvTail rc r => if read_result rc r (last unread) then Some (removelast unread, out, waiting) else None
  end.

Fixpoint spec_evs (es : list tty_ev) (a : tty_spec) : option tty_spec :=
  match es with
  | [] => Some a
  | e :: es => a ← spec_ev e a; spec_evs es a
  end.

(** The messages that were accepted, the characters that were received, and the
    ones that [tty_read] returned. *)
Definition accepted (es : list tty_ev) : list Z :=
  es ≫= λ e, match e with EvWrite msg rc _ => if rc =? 0 then msg else [] | _ => [] end.
Definition arrived (es : list tty_ev) : list Z :=
  es ≫= λ e, match e with EvIntr _ cs _ _ => cs | _ => [] end.
Definition reads (es : list tty_ev) : list Z :=
  es ≫= λ e, match e with EvRead _ (Some c) => [c] | _ => [] end.

(** No character is taken back, and what arrives always finds room, where [n]
    characters are unread at first. *)
Fixpoint in_room (n : nat) (es : list tty_ev) : bool :=
  match es with
  | [] => true
  | EvIntr _ cs _ _ :: es =>
      (Z.of_nat (n + length cs) <=? DEV_BUFF_SIZE) && in_room (n + length cs) es
  | EvRead _ (Some _) :: es => in_room (pred n) es
  | EvTail _ (Some _) :: _ => false
  | _ :: es => in_room n es
  end.

(** ** A simulated UART *)

(** [room] slots of the transmit queue are free, [pending] characters have
    arrived.  The queue drains by one character when it is found full. *)
Record sim := Sim {
  sim_tx : list Z;
  sim_rx : list Z;
  room : nat;
  pending : list Z;
  sim_ie : Z;
}.

Definition sim_ip (h : sim) : Z :=
  Z.lor (if decide (room h = 0%nat) then 0 else 1) (if decide (pending h = []) then 0 else 2).

Definition sim_read (a : Z) (h : sim) : Z * sim :=
  if a =? UART0_BASE + UART0_TXDATA then
    if decide (room h = 0%nat)
    then (2 ^ 31, Sim (sim_tx h) (sim_rx h) 1 (pending h) (sim_ie h)) else (0, h)
  else if a =? UART0_BASE + UART0_RXDATA then
    match pending h with
    | [] => (2 ^ 31, h)
    | c :: p => (Z.land c 0xFF, Sim (sim_tx h) (sim_rx h ++ [Z.land c 0xFF]) (room h) p (sim_ie h))
    end
  else if a =? UART0_BASE + UART0_IE then (sim_ie h, h)
  else if a =? UART0_BASE + UART0_IP then (sim_ip h, h)
  else if a =? PLIC_CLAIM_BASE then (if Z.land (sim_ip h) (sim_ie h) =? 0 then 0 else PLIC_UART0_ID, h)
  else (0, h).

Definition sim_write (a v : Z) (h : sim) : sim :=
  if a =? UART0_BASE + UART0_TXDATA
  then Sim (sim_tx h ++ [Z.land v 0xFF]) (sim_rx h) (pred (room h)) (pending h) (sim_ie h)
  else if a =? UART0_BASE + UART0_IE
  then Sim (sim_tx h) (sim_rx h) (room h) (pending h) (Z.land v 3)
  else h.

#[export] Instance sim_mmio : Mmio sim := {| reg_read := sim_read; reg_write := sim_write |}.

#[export] Program Instance sim_uart : Uart sim :=
  {| txlog := sim_tx; rxlog := sim_rx; uart_ie := sim_ie; rx_ready h := length (pending h);
     tx_wait h := if decide (room h = 0%nat) then 1%nat else 0%nat; tx_wait_max := 1 |}.
Next Obligation. intros h. simpl. destruct (decide (room h = 0%nat)); lia. Qed.
Next Obligation.
  intros h v h' E. change (reg_read _ h) with
    (if decide (room h = 0%nat)
     then (2 ^ 31, Sim (sim_tx h) (sim_rx h) 1 (pending h) (sim_ie h)) else (0, h)) in E.
  destruct (decide (room h = 0%nat)) as [E0|]; injection E as <- <-; [|done].
  split; [done|]. split; [|done]. intros _. rewrite E0. simpl. lia.
Qed.
Next Obligation.
  intros h v h' Hr. change (reg_read _ h) with
    (match pending h with
     | [] => (2 ^ 31, h)
     | c :: p => (Z.land c 0xFF, Sim (sim_tx h) (sim_rx h ++ [Z.land c 0xFF]) (room h) p (sim_ie h))
     end) in Hr.
  destruct (pending h) as [|c p] eqn:E; injection Hr as <- <-.
  - done.
  - split; [done|]. split; [done|].
    assert (Eb : Z.testbit (Z.land c 0xFF) 31 = false) by (by rewrite Z.land_spec, andb_false_r).
    rewrite Eb, <-Z.land_assoc. split; [done|]. rewrite E. simpl. lia.
Qed.
Next Obligation. intros h v h' E. by injection E as <- <-. Qed.
Next Obligation. done. Qed.
Next Obligation. intros h v h' E. by injection E as <- <-. Qed.
Next Obligation.
  intros a h v h' Ha E. repeat (apply elem_of_cons in Ha as [->|Ha]);
    [by injection E as <- <-..|by apply elem_of_nil in Ha].
Qed.
Next Obligation.
  intros a h v Ha. repeat (apply elem_of_cons in Ha as [->|Ha]);
    [done..|by apply elem_of_nil in Ha].
Qed.

#[export] Program Instance sim_plic : Plic sim.
Next Obligation. intros h v h' E. by injection E as <- <-. Qed.
Next Obligation. done. Qed.

(** The driver just initialised, on a device with [r] free slots and input [p]. *)
Definition tty0 (r : nat) (p : list Z) : tty sim :=
  Tty (TtyBuff (replicate nslots 0) 0 0 0) (TtyBuff (replicate nslots 0) 0 0 0) 0 true
      (Sim [] [] r p 2).

(** ** Steps of the driver are steps of the contract *)

Section refine.
Context {H : Type} `{!Mmio H, !Uart H}.
Implicit Types t : tty H.

Definition tty_abs t : tty_spec := (inq t, sent t, outq t).

(** An interrupt: input first, then output. *)
Lemma tty_handle_intr_spec polls junk t :
  tty_inv t → (rx_ready (dev t) ≤ polls)%nat →
  ∃ rc t' cs, tty_handle_intr polls junk t = Ret rc t' ∧ tty_inv t' ∧
    received t' = received t ++ cs ∧ inq t' = foldl rx_put (inq t) cs ∧
    sent t' ++ outq t' = sent t ++ outq t ∧
    (rc = junk ∧ cs = [] ∨ rc = -1 ∧ cs = [] ∨ cs ≠ [] ∧ burst rc cs).
Proof.
  intros [Hwf Hintr] Hp. unfold tty_handle_intr, uart_pend_intr, REGW.
  destruct (reg_read (UART0_BASE + UART0_IP) (dev t)) as [ip h] eqn:E0.
  destruct (ip_read _ _ _ E0) as [[U1 U2 U3] U4].
  assert (E0' : on_dev (λ h, let '(v, h') := reg_read (UART0_BASE + UART0_IP) h in Ret v h') t
    = Ret ip (set_dev h t)) by (apply on_dev_eq; by rewrite E0).
  mrun E0'. set (t0 := set_dev h t).
  assert (Hrd : ∃ rc t1 cs,
    (if Z.land ip UART0_RX_INTR =? 0 then mret junk else tty_read_uart polls) t0 = Ret rc t1 ∧
    tty_wf t1 ∧ tx_same t0 t1 ∧ received t1 = received t0 ++ cs ∧
    inq t1 = foldl rx_put (inq t0) cs ∧
    (rc = junk ∧ cs = [] ∨ rc = -1 ∧ cs = [] ∨ cs ≠ [] ∧ burst rc cs)).
  { destruct (Z.land ip UART0_RX_INTR =? 0).
    - exists junk, t0, []. split; [done|]. split_and!; try done; [by rewrite app_nil_r|by left].
    - destruct (tty_read_uart_wf polls t0) as (rc & t1 & cs & R); [done|simpl; lia|].
      exists rc, t1, cs. naive_solver. }
  destruct Hrd as (rc & t1 & cs & E1 & W1 & S1 & R1 & Q1 & C1). mrun E1.
  assert (Ho : sent t1 ++ outq t1 = sent t ++ outq t ∧ outq t1 = outq t ∧ tx_intr t1 = tx_intr t).
  { unfold outq, tx_intr. rewrite (ts_buf _ _ S1), (ts_sent _ _ S1), (ts_ie _ _ S1).
    unfold t0, sent. simpl. by rewrite U1, U3. }
  assert (Hr0 : received t0 = received t) by exact U2.
  destruct Ho as (Ho1 & Ho2 & Ho3). destruct (Z.land ip UART0_TX_INTR =? 0).
  - exists rc, t1, cs. split; [done|]. split_and!; try done; [|congruence].
    split; [done|]. rewrite Ho2, Ho3. done.
  - destruct W1 as [W1 W1'].
    destruct (tty_write_uart_spec t1 W1') as (t2 & E2 & F2 & W2 & L2 & I2). mrun E2.
    exists rc, t2, cs. split; [done|]. split_and!; try done.
    + split; [split; [by rewrite (rs_buf _ _ F2)|done]|].
      intros Hne. rewrite I2. by apply bool_decide_eq_true_2.
    + rewrite (rs_received _ _ F2). congruence.
    + unfold inq in *. by rewrite (rs_buf _ _ F2).
    + by rewrite L2.
Qed.

(** The characters that were moved are the first ones. *)
Lemma transmitted k q t t' out :
  sent t' ++ outq t' = sent t ++ out → length (sent t') = (length (sent t) + k)%nat →
  transmit k q (sent t) out = Some (q, sent t', outq t').
Proof.
  intros E Hk. assert (E' := E). apply (f_equal length) in E'. rewrite !length_app in E'.
  unfold transmit. rewrite decide_True by lia.
  assert (E1 : sent t' = sent t ++ take k out).
  { apply (f_equal (take (length (sent t'))) ) in E. rewrite take_app_length, Hk in E.
    rewrite E, take_app_add. done. }
  apply (f_equal (drop (length (sent t')))) in E. rewrite drop_app_length, Hk, drop_app_add in E.
  by rewrite E1, E.
Qed.

Lemma intr_rc_ok junk cs rc :
  rc = junk ∧ cs = [] ∨ rc = -1 ∧ cs = [] ∨ cs ≠ [] ∧ burst rc cs → intr_rc junk cs rc = true.
Proof.
  intros [[-> ->]|[[-> ->]|[Hne Hb]]]; [unfold intr_rc; by rewrite Z.eqb_refl| |].
  { unfold intr_rc. by rewrite orb_true_r. }
  destruct cs as [|c cs _] using rev_ind; [done|].
  assert (E0 : intr_rc junk (cs ++ [c]) rc = bool_decide (SPECIAL_CTRL_C ∉ cs) &&
    (rc =? if decide (Some c = Some SPECIAL_CTRL_C) then RET_SPECIAL_CHAR else 0)).
  { unfold intr_rc. destruct (cs ++ [c]) eqn:E; [by destruct cs|].
    by rewrite <-E, removelast_last, last_snoc. }
  rewrite E0.
  destruct Hb as [[-> Hn]|(-> & cs0 & E & Hn)].
  - apply not_elem_of_app in Hn as [Hn Hc]. rewrite bool_decide_eq_true_2 by done.
    rewrite decide_False; [done|]. intros [= ->]. by apply Hc, list_elem_of_singleton.
  - apply app_inj_tail in E as [-> ->]. by rewrite bool_decide_eq_true_2, decide_True.
Qed.

Lemma tty_step_refines t e t' :
  tty_step t e t' → tty_inv t → tty_inv t' ∧ spec_ev e (tty_abs t) = Some (tty_abs t').
Proof.
  intros Hstep [Hwf Hintr]. unfold tty_abs. destruct Hstep as
    [t h [U1 U2 U3]|t msg rc k t' Hmsg E Hk|t polls junk cs rc k t' Hp E Hcs Hk|t rc r t' E|t rc r t' E].
  - split.
    + split; [done|]. intros Hne. unfold tx_intr. simpl. rewrite U3. by apply Hintr.
    + simpl. unfold sent. simpl. by rewrite U1.
  - pose proof (tty_write_spec msg (Z.of_nat (length msg)) t Hwf Hmsg ltac:(lia)) as Hw.
    cbn [spec_ev]. destruct (DEV_BUFF_SIZE <? _).
    { rewrite E in Hw. injection Hw as -> ->. rewrite decide_True by (split; [done|lia]). done. }
    destruct (_ <? _).
    { rewrite E in Hw. injection Hw as -> ->. rewrite decide_True by (split; [done|lia]). done. }
    destruct Hw as (t2 & E2 & W & F & L & I). rewrite E in E2. injection E2 as -> ->. split.
    + split; [done|]. intros Hne. rewrite I. by apply bool_decide_eq_true_2.
    + rewrite decide_True by done. rewrite Nat2Z.id, firstn_all in L. unfold inq at 2.
      rewrite (rs_buf _ _ F). by apply transmitted.
  - destruct (tty_handle_intr_spec polls junk t (conj Hwf Hintr) Hp)
      as (rc' & t2 & cs' & E2 & I2 & R2 & Q2 & L2 & C2).
    rewrite E in E2. injection E2 as -> ->. rewrite Hcs in R2. apply app_inv_head in R2 as ->.
    split; [done|]. cbn [spec_ev]. rewrite intr_rc_ok, Q2 by done. by apply transmitted.
  - pose proof (tty_read_spec t (proj1 Hwf)) as Hr. destruct (inq t) as [|c q] eqn:Eq.
    + rewrite E in Hr. injection Hr as -> -> ->. split; [done|]. simpl. by rewrite Eq.
    + destruct Hr as (t2 & E2 & W & Q & T & _). rewrite E in E2. injection E2 as -> -> ->.
      split; [split; [by eapply tx_same_wf|]|].
      * unfold outq, tx_intr. rewrite (ts_buf _ _ T), (ts_ie _ _ T). exact Hintr.
      * cbn [spec_ev hd_error drop]. unfold read_result. rewrite bool_decide_eq_true_2 by done. unfold outq.
        by rewrite Q, (ts_buf _ _ T), (ts_sent _ _ T).
  - destruct (tty_read_tail_spec t (proj1 Hwf)) as [[Eq E2]|(q & c & t2 & Eq & E2 & W & Q & T & _)].
    + rewrite E in E2. injection E2 as -> -> ->. split; [done|]. simpl. by rewrite Eq.
    + rewrite E in E2. injection E2 as -> -> ->. split; [split; [by eapply tx_same_wf|]|].
      * unfold outq, tx_intr. rewrite (ts_buf _ _ T), (ts_ie _ _ T). exact Hintr.
      * cbn [spec_ev]. rewrite Eq, last_snoc, removelast_last. unfold read_result.
        rewrite bool_decide_eq_true_2 by done. unfold outq.
        by rewrite Q, (ts_buf _ _ T), (ts_sent _ _ T).
Qed.

Lemma tty_run_refines t es t' :
  tty_run t es t' → tty_inv t → tty_inv t' ∧ spec_evs es (tty_abs t) = Some (tty_abs t').
Proof.
  induction 1 as [t|t e t1 es t2 Hs _ IH]; intros Hinv; [done|].
  destruct (tty_step_refines t e t1 Hs Hinv) as [Hinv1 E]. cbn [spec_evs]. rewrite E.
  by apply IH.
Qed.

Lemma drain_spec polls : ∀ t,
  (rx_ready (dev t) < polls)%nat →
  ∃ h cs, drain polls t = Ret tt (set_dev h t) ∧ txlog h = txlog (dev t) ∧
    uart_ie h = uart_ie (dev t) ∧ rxlog h = rxlog (dev t) ++ cs.
Proof.
  induction polls as [|polls IH]; intros t Hp; [lia|]. cbn [drain].
  destruct (uart_getc_spec (dev t)) as (c & h & E & G1 & G2 & G3).
  pose proof (on_dev_eq _ t _ _ E) as E'. mrun E'.
  destruct G3 as [(Hc & R & Hlt)|[-> R]].
  - rewrite (proj2 (Z.eqb_neq c (-1))) by lia.
    destruct (IH (set_dev h t)) as (h2 & cs & E2 & A & B & C); [simpl; lia|].
    exists h2, (c :: cs). split; [rewrite E2; by destruct t|]. simpl in *.
    split_and!; [congruence..|]. rewrite C, R, <-(assoc_L app). done.
  - exists h, []. split; [done|]. by rewrite app_nil_r.
Qed.

Lemma tty_init_spec clock polls t :
  (rx_ready (dev t) < polls)%nat →
  ∃ t', tty_init clock polls t = Ret tt t' ∧ tty_inv t' ∧ inq t' = [] ∧ outq t' = [] ∧
    sent t' = sent t ∧ rx_intr t' = true ∧ is_kernel t' = true.
Proof.
  intros Hp. unfold tty_init.
  destruct (uart_init_spec clock 115200 (dev t)) as (h1 & E1 & I1 & I2 & I3 & I4).
  pose proof (on_dev_eq _ t _ _ E1) as E1'. mrun E1'.
  destruct (drain_spec polls (set_dev h1 t)) as (h2 & cs & E2 & D1 & D2 & D3); [simpl; lia|].
  mrun E2. unfold tty_buff_init, tty_kernel_mode.
  eexists. split; [done|].
  split_and!; [split; [split; apply ring_wf_empty|done]|done|done| | |done].
  - unfold sent. simpl in *. congruence.
  - unfold rx_intr. cbn in *. by rewrite D2.
Qed.
End refine.

(** ** Theorems *)

Lemma rx_put_fits cs : ∀ q,
  Z.of_nat (length q + length cs) ≤ DEV_BUFF_SIZE → foldl rx_put q cs = q ++ cs.
Proof.
  induction cs as [|c cs IH]; intros q Hq; cbn [foldl length] in *.
  - by rewrite app_nil_r.
  - assert (E : rx_put q c = q ++ [c]) by (unfold rx_put; by rewrite (proj2 (Z.ltb_lt _ _)) by lia).
    rewrite E, IH by (rewrite length_app; simpl; lia). by rewrite <-(assoc_L app).
Qed.

(** What the contract says about whole runs. *)
Lemma spec_output es : ∀ a a',
  spec_evs es a = Some a' → a'.1.2 ++ a'.2 = a.1.2 ++ a.2 ++ accepted es.
Proof.
  induction es as [|e es IH]; intros [[q o] w] a' Ha; cbn [spec_evs] in Ha.
  { injection Ha as <-. cbn. by rewrite app_nil_r. }
  destruct (spec_ev e (q, o, w)) as [[[q1 o1] w1]|] eqn:E; [|done].
  rewrite (IH _ _ Ha). change (accepted (e :: es)) with
    (match e with EvWrite msg rc _ => if rc =? 0 then msg else [] | _ => [] end ++ accepted es).
  cbn [fst snd]. rewrite !(assoc_L app). f_equal. clear IH Ha.
  assert (Ht : ∀ k q o w q1 o1 w1, transmit k q o w = Some (q1, o1, w1) → o1 ++ w1 = o ++ w).
  { intros k ? ? w' ? ? ?. unfold transmit. destruct (decide _); [|done]. intros [= <- <- <-].
    by rewrite <-(assoc_L app), take_drop. }
  destruct e as [|msg rc k|junk cs rc k|rc r|rc r]; cbn [spec_ev] in E; rewrite ?app_nil_r.
  - by injection E as <- <- <-.
  - destruct (_ <? _); [|destruct (_ <? _)]; destruct (decide _) as [Hrc|]; try done;
      [destruct Hrc as [-> _]; injection E as <- <- <-; by rewrite app_nil_r..|].
    subst rc. rewrite (Ht _ _ _ _ _ _ _ E). apply (assoc_L app).
  - destruct (intr_rc _ _ _); [|done]. by rewrite (Ht _ _ _ _ _ _ _ E).
  - destruct (read_result _ _ _); [|done]. by injection E as <- <- <-.
  - destruct (read_result _ _ _); [|done]. by injection E as <- <- <-.
Qed.

Lemma spec_input es : ∀ a a',
  spec_evs es a = Some a' → in_room (length a.1.1) es = true → reads es ++ a'.1.1 = a.1.1 ++ arrived es.
Proof.
  induction es as [|e es IH]; intros [[q o] w] a' Ha Hr; cbn [spec_evs fst snd] in *.
  { injection Ha as <-. cbn. by rewrite app_nil_r. }
  destruct (spec_ev e (q, o, w)) as [[[q1 o1] w1]|] eqn:E; [|done].
  specialize (IH _ _ Ha). cbn [fst snd] in IH. clear Ha.
  assert (Ht : ∀ k q o w q1 o1 w1, transmit k q o w = Some (q1, o1, w1) → q1 = q).
  { intros k ? ? ? ? ? ?. unfold transmit. destruct (decide _); [|done]. by intros [= <- <- <-]. }
  destruct e as [|msg rc k|junk cs rc k|rc r|rc r]; cbn [spec_ev] in E.
  - injection E as <- <- <-. by apply IH.
  - assert (q1 = q) as ->; [|by apply IH].
    destruct (_ <? _); [|destruct (_ <? _)]; destruct (decide _); try done;
      [by injection E as <- <- <-..|by eapply Ht].
  - destruct (intr_rc _ _ _); [|done]. apply Ht in E as ->. cbn [in_room] in Hr.
    apply andb_true_iff in Hr as [Hn Hr]. apply Z.leb_le in Hn.
    rewrite rx_put_fits in IH by done. rewrite length_app in IH. specialize (IH Hr).
    change (arrived (EvIntr junk cs rc k :: es)) with (cs ++ arrived es).
    by rewrite (assoc_L app).
  - destruct (read_result _ _ _) eqn:Er; [|done]. injection E as <- <- <-.
    apply andb_true_iff in Er as [Er _]. apply bool_decide_eq_true_1 in Er as ->.
    destruct q as [|c q]; cbn [hd_error] in *; [by apply IH|].
    change (reads (EvRead rc (Some c) :: es)) with (c :: reads es). cbn. f_equal. by apply IH.
  - destruct (read_result _ _ _) eqn:Er; [|done]. injection E as <- <- <-.
    apply andb_true_iff in Er as [Er _]. apply bool_decide_eq_true_1 in Er as ->.
    destruct q as [|c q _] using rev_ind; [by apply IH|]. rewrite last_snoc in Hr. done.
Qed.

(** C11: Any run of the tty driver after [tty_init], with calls, interrupts and
    device activity in any order, is a run of the contract, return codes
    included.  A message longer than the buffer is refused with -2, one that does
    not fit now with -1, both without effect; any other is queued behind the
    output that waits, and the UART is given the characters that wait from the
    front.  So what was sent followed by what waits is exactly the accepted
    messages in order, and the transmit interrupt is enabled whenever output
    waits.  Reads return unread characters first in first out, -1 when there are
    none, and [tty_read_tail] takes the newest one.  A character received while
    128 are unread replaces the oldest of them ([rx_put]): then input is lost.  As
    long as what arrives finds room and none is taken back, the characters read
    followed by the unread ones are exactly those received, in order. *)
Theorem tty_trace_refines {H} `{!Mmio H, !Uart H} (clock : Z) (polls : nat) (t0 : tty H) :
  (rx_ready (dev t0) < polls)%nat →
  ∃ t, tty_init clock polls t0 = Ret tt t ∧ rx_intr t = true ∧
    ∀ es t', tty_run t es t' →
      spec_evs es ([], sent t0, []) = Some (inq t', sent t', outq t') ∧
      (outq t' ≠ [] → tx_intr t' = true) ∧
      sent t' ++ outq t' = sent t0 ++ accepted es ∧
      (in_room 0 es = true → reads es ++ inq t' = arrived es).
Proof.
  intros Hp. destruct (tty_init_spec clock polls t0 Hp) as (t & E & Hinv & Q1 & Q2 & Q3 & Q4 & _).
  exists t. split; [done|]. split; [done|]. intros es t' Hrun.
  destruct (tty_run_refines t es t' Hrun Hinv) as [Hinv' Hspec].
  unfold tty_abs in Hspec. rewrite Q1, Q2, Q3 in Hspec. split; [done|]. split; [apply Hinv'|].
  split; [exact (spec_output _ _ _ Hspec)|exact (spec_input _ _ _ Hspec)].
Qed.

Lemma tty_trace_refines_witness : ∃ t t',
  tty_init 65000000 2 (tty0 1 [88]) = Ret tt t ∧
  tty_run t [EvWrite [72; 105] 0 1; EvEnv; EvIntr (-9) [] (-9) 1; EvEnv; EvIntr 0 [97; 98] 0 0;
    EvRead 0 (Some 97)] t' ∧
  sent t' ++ outq t' = [72; 105] ∧ 97 :: inq t' = [97; 98].
Proof.
  destruct (tty_trace_refines 65000000 2 (tty0 1 [88])) as (t & E & _ & Hruns); [simpl; lia|].
  exists t. match goal with |- ∃ t', _ ∧ tty_run _ ?es _ ∧ _ => assert (R : ∃ t', tty_run t es t') end.
  { vm_compute in E. injection E as <-. eexists.
    eapply run_cons; [apply step_write with (rc := 0); [repeat constructor; lia|by vm_compute|done]|].
    eapply run_cons; [apply (step_env _ (Sim [72] [88] 4 [] 3)); done|].
    eapply run_cons; [apply (step_intr _ 1 (-9) []); [simpl; lia|by vm_compute|done|done]|].
    eapply run_cons; [apply (step_env _ (Sim [72; 105] [88] 4 [97; 98] 2)); done|].
    eapply run_cons; [apply (step_intr _ 2 0 [97; 98]); [simpl; lia|by vm_compute|done|done]|].
    eapply run_cons; [eapply step_read; by vm_compute|]. apply run_nil. }
  destruct R as [t' R]. exists t'. destruct (Hruns _ _ R) as (_ & _ & O & I).
  split; [exact E|]. split; [exact R|]. split; [exact O|]. exact (I eq_refl).
Defined.

(** [tty_write] on every branch: a message longer than the buffer is
    refused for good (-2), one that does not fit now is refused for now (-1),
    both without any effect; any other message is queued behind the output that
    waits, transmission is started, and 0 is returned.  The input side is not
    touched. *)
Theorem tty_write_correct {H} `{!Mmio H, !Uart H} (msg : list Z) (t : tty H) :
  tty_wf t → Forall (λ c, 0 ≤ c < 256) msg →
  let len := Z.of_nat (length msg) in
  if DEV_BUFF_SIZE <? len then tty_write msg len t = Ret (-2) t
  else if DEV_BUFF_SIZE - Z.of_nat (length (outq t)) <? len then tty_write msg len t = Ret (-1) t
  else ∃ t', tty_write msg len t = Ret 0 t' ∧ tty_wf t' ∧ rx_same t t' ∧
         sent t' ++ outq t' = sent t ++ outq t ++ msg ∧ tx_intr t' = bool_decide (outq t' ≠ []).
Proof.
  intros Hwf Hmsg len. pose proof (tty_write_spec msg len t Hwf Hmsg ltac:(lia)) as Hw.
  unfold len in *. by rewrite Nat2Z.id, firstn_all in Hw.
Qed.

Lemma tty0_inv r p : tty_inv (tty0 r p).
Proof. split; [split; apply ring_wf_empty|done]. Qed.

Lemma tty_write_correct_witness :
  (∃ t', tty_write (replicate 100 65) 100 (tty0 7 []) = Ret 0 t' ∧
     sent t' ++ outq t' = replicate 100 65) ∧
  tty_write (replicate 129 65) 129 (tty0 7 []) = Ret (-2) (tty0 7 []).
Proof.
  split.
  - destruct (tty_write_correct (replicate 100 65) (tty0 7 [])) as (t' & E & _ & _ & L & _).
    + apply tty0_inv.
    + apply Forall_replicate. lia.
    + exists t'. exact (conj E L).
  - apply (tty_write_correct (replicate 129 65) (tty0 7 [])).
    + apply tty0_inv.
    + apply Forall_replicate. lia.
Defined.

Section ctrl_c.
Context {H : Type} `{!Mmio H, !Uart H}.
Implicit Types t : tty H.

Lemma rx_put_full cs : ∀ x q c,
  Z.of_nat (length (x :: q)) = DEV_BUFF_SIZE → foldl rx_put (x :: q) (cs ++ [c]) = c :: q.
Proof.
  assert (E : ∀ x q c, Z.of_nat (length (x :: q)) = DEV_BUFF_SIZE → rx_put (x :: q) c = c :: q).
  { intros x q c Hl. unfold rx_put. by rewrite Hl, Z.ltb_irrefl. }
  induction cs as [|c' cs IH]; intros x q c Hl.
  - cbn [foldl app]. by apply E.
  - cbn [foldl app]. rewrite E by done. by apply IH.
Qed.

(** The characters of a burst that ended with Ctrl-C. *)
Lemma special_burst polls t t1 :
  tty_wf t → (rx_ready (dev t) ≤ polls)%nat → tty_read_uart polls t = Ret RET_SPECIAL_CHAR t1 →
  ∃ cs, received t1 = received t ++ cs ++ [SPECIAL_CTRL_C] ∧ tty_wf t1 ∧
    inq t1 = foldl rx_put (inq t) (cs ++ [SPECIAL_CTRL_C]).
Proof.
  intros Hwf Hp E.
  destruct (tty_read_uart_wf polls t Hwf Hp) as (rc & t' & cs & E' & W & _ & R & Q & C).
  rewrite E in E'. injection E' as <- <-.
  destruct C as [[C _]|[_ [[C _]|(_ & cs0 & -> & _)]]]; [done..|]. by exists cs0.
Qed.
End ctrl_c.

(** When an interrupt reports Ctrl-C and the burst fitted the buffer, the
    [tty_read_tail] that the kernel calls next takes exactly the Ctrl-C back
    out: what is left is the unread input followed by the characters that came
    before it. *)
Theorem tty_ctrl_c_taken {H} `{!Mmio H, !Uart H} (polls : nat) (t t1 : tty H) :
  tty_wf t → (rx_ready (dev t) ≤ polls)%nat → tty_read_uart polls t = Ret RET_SPECIAL_CHAR t1 →
  Z.of_nat (length (inq t) + (length (received t1) - length (received t))) ≤ DEV_BUFF_SIZE →
  ∃ cs t2, received t1 = received t ++ cs ++ [SPECIAL_CTRL_C] ∧
    tty_read_tail t1 = Ret (0, Some SPECIAL_CTRL_C) t2 ∧ tty_wf t2 ∧ inq t2 = inq t ++ cs.
Proof.
  intros Hwf Hp E Hfit. destruct (special_burst polls t t1 Hwf Hp E) as (cs & R & W & Q).
  rewrite R, !length_app in Hfit. rewrite rx_put_fits in Q by (rewrite length_app; simpl in *; lia).
  destruct (tty_read_tail_spec t1 (proj1 W)) as [[Q2 _]|(q & c & t2 & Q2 & E2 & W2 & Q3 & T & _)].
  - rewrite Q in Q2. by destruct (inq t), cs.
  - rewrite Q, (assoc_L app) in Q2. apply app_inj_tail in Q2 as [<- <-].
    exists cs, t2. split_and!; try done. by eapply tx_same_wf.
Qed.

Lemma tty_ctrl_c_taken_witness : ∃ t1 t2,
  tty_read_uart 3 (tty0 0 [97; 98; 3]) = Ret RET_SPECIAL_CHAR t1 ∧
  tty_read_tail t1 = Ret (0, Some SPECIAL_CTRL_C) t2 ∧ inq t2 = [97; 98].
Proof.
  destruct (tty_ctrl_c_taken 3 (tty0 0 [97; 98; 3])
    (match tty_read_uart 3 (tty0 0 [97; 98; 3]) with Ret _ t => t | _ => tty0 0 [] end))
    as (cs & t2 & R & E & W & Q).
  - apply tty0_inv.
  - simpl. lia.
  - by vm_compute.
  - vm_compute. done.
  - eexists _, t2. split; [by vm_compute|]. split; [exact E|]. rewrite Q.
    apply (app_inj_tail [97; 98] cs 3 3) in R as [<- _]. done.
Defined.

(** When the input buffer is full, Ctrl-C is written over the oldest unread
    character (the driver stores it before it looks at the size), and the
    kernel's [tty_read_tail] takes out another character: the Ctrl-C stays at
    the front of the queue, to be read by a process as ordinary input. *)
Theorem tty_ctrl_c_full {H} `{!Mmio H, !Uart H} (polls : nat) (t t1 : tty H) :
  tty_wf t → (rx_ready (dev t) ≤ polls)%nat → Z.of_nat (length (inq t)) = DEV_BUFF_SIZE →
  tty_read_uart polls t = Ret RET_SPECIAL_CHAR t1 →
  ∃ c q t2, last (inq t) = Some c ∧ tty_read_tail t1 = Ret (0, Some c) t2 ∧
    inq t2 = SPECIAL_CTRL_C :: q.
Proof.
  intros Hwf Hp Hfull E. destruct (special_burst polls t t1 Hwf Hp E) as (cs & _ & W & Q).
  destruct (inq t) as [|x q'] eqn:Eq; [done|]. rewrite rx_put_full in Q by done.
  destruct q' as [|y q' _] using rev_ind; [done|].
  destruct (tty_read_tail_spec t1 (proj1 W)) as [[Q2 _]|(q & c & t2 & Q2 & E2 & _ & Q3 & _)].
  - by rewrite Q in Q2.
  - rewrite Q in Q2. rewrite app_comm_cons in Q2. apply app_inj_tail in Q2 as [<- <-].
    exists y, q', t2. by rewrite app_comm_cons, last_snoc.
Qed.

(** A driver whose input buffer is full. *)
Definition tty_full (p : list Z) : tty sim :=
  Tty (TtyBuff (replicate nslots 97) DEV_BUFF_SIZE 0 0) (TtyBuff (replicate nslots 0) 0 0 0) 0 true
      (Sim [] [] 0 p 2).

Lemma tty_ctrl_c_full_witness : ∃ t1 t2 q,
  tty_read_uart 1 (tty_full [3]) = Ret RET_SPECIAL_CHAR t1 ∧
  tty_read_tail t1 = Ret (0, Some 97) t2 ∧ inq t2 = SPECIAL_CTRL_C :: q.
Proof.
  destruct (tty_ctrl_c_full 1 (tty_full [3])
    (match tty_read_uart 1 (tty_full [3]) with Ret _ t => t | _ => tty0 0 [] end))
    as (c & q & t2 & L & E & Q).
  - split; [|apply ring_wf_empty]. split; [done..|]. apply (Forall_replicate _ nslots 97). lia.
  - simpl. lia.
  - by vm_compute.
  - by vm_compute.
  - vm_compute in L. injection L as <-. eexists _, t2, q. split; [by vm_compute|]. exact (conj E Q).
Defined.

(** An interrupt with only the transmit bit pending returns whatever the
    uninitialised variable [rc] of [tty_handle_intr] holds, -3 (Ctrl-C) for
    instance. *)
Theorem tty_handle_intr_tx_only (junk : Z) :
  tty_handle_intr 1 junk (tty0 1 []) = Ret junk (tty0 1 []).
Proof. by vm_compute. Qed.

(** [tty_write] does not check for a negative length, which a process can
    pass through the system call: the call returns 0, [tx_size] becomes
    negative, and the next message is accepted (0) and silently truncated. *)
Example tty_write_negative_len :
  match (r1 ← tty_write [65] (-5); r2 ← tty_write (replicate 8 66) 8; mret (r1, r2)) (tty0 100 []) with
  | Ret r t => r = (0, 0) ∧ sent t = replicate 3 66
  | _ => False
  end.
Proof. by vm_compute. Qed.
