(* ===== verification/Sd.v ===== *)
(** * The SD card driver

    earth/sd: byte exchange over SPI (sd_utils.c), initialisation of the card
    (sd_init.c) and the transfer of one block (sd_rw.c).  The SPI controller is
    reached through its registers ([Mmio], and [Mmio8] for byte stores).  Loops
    that wait for the controller or for the card get [fuel] rounds.  Bytes on the
    wire are integers between 0 and 255, as [char] is on this target.  Progress
    messages are left out. *)

From coqutil Require Import Byte.
From S2P Require Import Prelude Layout Blocks Uart FsDisk.

Definition SPI1_BASE : Z := 0x10024000.
Definition SPI1_SCKDIV : Z := 0.
Definition SPI1_SCKMODE : Z := 4.
Definition SPI1_CSID : Z := 16.
Definition SPI1_CSDEF : Z := 20.
Definition SPI1_CSMODE : Z := 24.
Definition SPI1_FMT : Z := 64.
Definition SPI1_TXDATA : Z := 72.
Definition SPI1_RXDATA : Z := 76.
Definition SPI1_FCTRL : Z := 96.

(** A store of one byte to a register. *)
Class Mmio8 (H : Type) := reg_write8 : Z → Z → H → H.

Section utils.
Context {H : Type} `{!Mmio H, !Mmio8 H} (fuel : nat).

Definition REGB_set (base off v : Z) : M H unit := λ h,
  Ret tt (reg_write8 (base + off) (Z.land v 0xFF) h).

(** [while (REGW(SPI1_BASE, SPI1_TXDATA) & (1 << 31));] *)
Fixpoint tx_full_wait (n : nat) : M H unit :=
  match n with
  | O => spin
  | S n =>
      v ← REGW SPI1_BASE SPI1_TXDATA;
      if Z.land v (Z.shiftl 1 31) =? 0 then mret tt else tx_full_wait n
  end.

(** [while ((rxdata = REGW(SPI1_BASE, SPI1_RXDATA)) & (1 << 31));] *)
Fixpoint rx_empty_wait (n : nat) : M H Z :=
  match n with
  | O => spin
  | S n =>
      rxdata ← REGW SPI1_BASE SPI1_RXDATA;
      if Z.land rxdata (Z.shiftl 1 31) =? 0 then mret rxdata else rx_empty_wait n
  end.

Definition send_data_byte (b : Z) : M H Z :=
  _ ← tx_full_wait fuel;
  _ ← REGB_set SPI1_BASE SPI1_TXDATA b;
  rxdata ← rx_empty_wait fuel;
  mret (Z.land rxdata 0xFF).

Definition recv_data_byte : M H Z := send_data_byte 0xFF.

Fixpoint send_bytes (bs : list Z) : M H unit :=
  match bs with
  | [] => mret tt
  | b :: bs => _ ← send_data_byte b; send_bytes bs
  end.

(** [n] bytes received into consecutive places. *)
Fixpoint recv_bytes (n : nat) : M H (list Z) :=
  match n with
  | O => mret []
  | S n => b ← recv_data_byte; bs ← recv_bytes n; mret (b :: bs)
  end.

(** [while (recv_data_byte() != c);] *)
Fixpoint recv_until (c : Z) (n : nat) : M H unit :=
  match n with
  | O => spin
  | S n => r ← recv_data_byte; if r =? c then mret tt else recv_until c n
  end.
Definition wait_not_busy : M H unit := recv_until 0xFF fuel.

(** The first byte that is not 0xFF; [stop] when [n] rounds are over. *)
Fixpoint first_reply (stop : M H Z) (n : nat) : M H Z :=
  match n with
  | O => stop
  | S n => r ← recv_data_byte; if r =? 0xFF then first_reply stop n else mret r
  end.

(** Waits for the reply for 8000 rounds. *)
Definition sd_exec_cmd (cmd : list Z) : M H Z :=
  _ ← send_bytes cmd;
  first_reply (fatal "SD card not responding") (Z.to_nat 8000).

Definition sd_exec_acmd (cmd : list Z) : M H Z :=
  _ ← wait_not_busy;
  _ ← sd_exec_cmd [0x77; 0x00; 0x00; 0x00; 0x00; 0xFF];
  _ ← wait_not_busy;
  sd_exec_cmd cmd.

(** Byte [i] of an int, as [((char* )&offset)[i]]. *)
Definition int_byte (v i : Z) : Z := Z.land (Z.shiftr v (8 * i)) 0xFF.

Definition cmd17 (offset : Z) : list Z :=
  [0x51; int_byte offset 3; int_byte offset 2; int_byte offset 1; int_byte offset 0; 0xFF].
Definition cmd24 (offset : Z) : list Z :=
  [0x58; int_byte offset 3; int_byte offset 2; int_byte offset 1; int_byte offset 0; 0xFF].

Definition single_read (offset : Z) : M H block :=
  _ ← wait_not_busy;
  reply ← sd_exec_cmd (cmd17 offset);
  if negb (reply =? 0) then fatal "SD card replies cmd17 with status" else
  _ ← recv_until 0xFE fuel;
  dst ← recv_bytes nbytes;
  _ ← recv_data_byte;
  _ ← recv_data_byte;
  mret (byte.of_Z <$> dst).

(** The acknowledgement: [while ((reply = recv_data_byte()) == 0xFF);] *)
Definition single_write (offset : Z) (src : block) : M H unit :=
  _ ← wait_not_busy;
  reply ← sd_exec_cmd (cmd24 offset);
  if negb (reply =? 0) then fatal "SD card replies cmd24 with status" else
  _ ← send_data_byte 0xFE;
  _ ← send_bytes (byte.unsigned <$> src);
  _ ← send_data_byte 0xFF;
  _ ← send_data_byte 0xFF;
  reply ← first_reply spin fuel;
  if negb (Z.land reply 0x1F =? 0x05) then fatal "SD card write ack with status"
  else mret tt.

Definition spi_sd : sd_driver H := SdDriver single_read single_write.
End utils.

(** ** Initialisation (sd_init.c) *)

Inductive sd_type := SD_TYPE_SD1 | SD_TYPE_SD2 | SD_TYPE_SDHC | SD_TYPE_UNKNOWN.
#[export] Instance sd_type_eq_dec : EqDecision sd_type.
Proof. solve_decision. Defined.

(** The registers and the static variable [SD_CARD_TYPE]. *)
Record sd_state (H : Type) := SdState { hw : H; SD_CARD_TYPE : sd_type }.
Arguments SdState {H} _ _.
Arguments hw {H} _.
Arguments SD_CARD_TYPE {H} _.

Section init.
Context {H : Type} `{!Mmio H, !Mmio8 H} (fuel : nat) (cpu_clock_rate : Z).

Definition on_hw {A} (m : M H A) : M (sd_state H) A := λ s,
  match m (hw s) with
  | Ret a h => Ret a (SdState h (SD_CARD_TYPE s))
  | Fatal w h => Fatal w (SdState h (SD_CARD_TYPE s))
  | Undef w => Undef w
  | Spin => Spin
  end.
Definition set_type (t : sd_type) : M (sd_state H) unit := modify (λ s, SdState (hw s) t).

Definition cmd58 : list Z := [0x7A; 0x00; 0x00; 0x00; 0x00; 0xFF].
(** The four bytes fill [payload] from its end: [payload[3]] is the first. *)
Definition sd_check_capacity : M (sd_state H) unit :=
  _ ← on_hw (wait_not_busy fuel);
  reply ← on_hw (sd_exec_cmd fuel cmd58);
  if negb (reply =? 0) then fatal "SD card cmd58 fails" else
  payload ← on_hw (recv_bytes fuel 4);
  _ ← (if Z.land (default 0 (payload !! 0%nat)) 0xC0 =? 0xC0
       then set_type SD_TYPE_SDHC else mret tt);
  on_hw (wait_not_busy fuel).

Definition cmd8 : list Z := [0x48; 0x00; 0x00; 0x01; 0xAA; 0x87].
(** An int from its bytes, the most significant first. *)
Definition be_int (bs : list Z) : Z := foldl (λ acc b, acc * 256 + b) 0 bs.
Definition sd_check_type : M (sd_state H) Z :=
  reply ← on_hw (sd_exec_cmd fuel cmd8);
  if negb (Z.land reply 0x04 =? 0) then
    _ ← set_type SD_TYPE_SD1;
    _ ← on_hw (wait_not_busy fuel);
    mret 0
  else
    bytes ← on_hw (recv_bytes fuel 4);
    let payload := be_int bytes in
    if negb (Z.land payload 0xFFF =? 0x1AA) then mret (-1)
    else
      _ ← set_type SD_TYPE_SD2;
      _ ← on_hw (wait_not_busy fuel);
      mret 0.

Definition cmd0 : list Z := [0x40; 0x00; 0x00; 0x00; 0x00; 0x95].
(** [while (reply != 0x01) reply = recv_data_byte();] *)
Fixpoint reset_loop (n : nat) (reply : Z) : M H unit :=
  if reply =? 0x01 then mret tt
  else match n with
       | O => spin
       | S n => reply ← recv_data_byte fuel; reset_loop n reply
       end.
Definition sd_reset : M H unit :=
  _ ← REGW_set SPI1_BASE SPI1_CSMODE 2;
  _ ← send_bytes fuel (replicate (Z.to_nat 1000) 0xFF);
  _ ← REGW_set SPI1_BASE SPI1_CSDEF 1;
  reply ← sd_exec_cmd fuel cmd0;
  _ ← reset_loop fuel reply;
  wait_not_busy fuel.

Definition spi_config : M H unit :=
  _ ← REGW_set SPI1_BASE SPI1_SCKMODE 0;
  _ ← REGW_set SPI1_BASE SPI1_CSID 0;
  _ ← REGW_set SPI1_BASE SPI1_CSDEF 0;
  _ ← REGW_set SPI1_BASE SPI1_FCTRL 0;
  REGW_set SPI1_BASE SPI1_FMT 0x80000.

(** Division of longs truncates. *)
Definition spi_set_clock (baud_rate : Z) : M H unit :=
  let div := Z.quot cpu_clock_rate (2 * baud_rate) - 1 in
  REGW_set SPI1_BASE SPI1_SCKDIV (Z.land div 0xFFF).

Definition acmd41 (t : sd_type) : list Z :=
  [0x69; if decide (t = SD_TYPE_SD2) then 0x40 else 0x00; 0x00; 0x00; 0x00; 0xFF].
Definition cmd16 : list Z := [0x50; 0x00; 0x00; 0x02; 0x00; 0xFF].

(** [while (sd_exec_acmd(acmd41));] *)
Fixpoint acmd41_loop (n : nat) (cmd : list Z) : M H unit :=
  match n with
  | O => spin
  | S n => r ← sd_exec_acmd fuel cmd; if r =? 0 then mret tt else acmd41_loop n cmd
  end.

Definition sdinit : M (sd_state H) unit :=
  _ ← on_hw (spi_set_clock 100000);
  _ ← on_hw spi_config;
  _ ← on_hw sd_reset;
  _ ← on_hw (spi_set_clock (Z.quot cpu_clock_rate 4));
  rc ← sd_check_type;
  if negb (rc =? 0) then fatal "Fail to check SD card type" else
  t ← gets SD_CARD_TYPE;
  _ ← on_hw (acmd41_loop fuel (acmd41 t));
  _ ← on_hw (wait_not_busy fuel);
  _ ← on_hw (sd_exec_cmd fuel cmd16);
  _ ← on_hw (wait_not_busy fuel);
  t ← gets SD_CARD_TYPE;
  _ ← (if decide (t = SD_TYPE_SD2) then sd_check_capacity else mret tt);
  t ← gets SD_CARD_TYPE;
  if decide (t = SD_TYPE_SDHC) then mret tt else fatal "Only SDHC/SDXC supported".
End init.
