(* ===== verification/SdSpec.v ===== *)
(** * The SPI controller and the SD card

    What the driver of Sd.v relies on, in two layers.  [SpiPort]: the SPI
    controller (chapter 19 of the FE310-G002 manual) exchanges one byte with the
    device behind it for each byte stored to [txdata].  [SdProto]: that device is
    an SD card in SPI mode (SD physical layer specification, chapter 7), with the
    responses to the commands the driver uses.  Neither says anything about
    driver code; delays are bounded but otherwise free. *)

From coqutil Require Import Byte.
From S2P Require Import Prelude Layout Blocks Store Uart FsDisk Sd.

(** ** The controller *)

(** A device on the bus: a byte in gives a byte out, and it sees its chip
    select line. *)
Class SpiSlave (C : Type) := {
  exchange : Z → C → Z * C;
  select : bool → C → C;
  exchange_byte b c : 0 ≤ (exchange b c).1 < 256;
}.

Definition spi_setup_reg (a : Z) : Prop :=
  a ∈ [SPI1_BASE + SPI1_SCKDIV; SPI1_BASE + SPI1_SCKMODE; SPI1_BASE + SPI1_CSID;
       SPI1_BASE + SPI1_CSMODE; SPI1_BASE + SPI1_FMT; SPI1_BASE + SPI1_FCTRL].

Class SpiPort (H C : Type) `{!Mmio H, !Mmio8 H, !SpiSlave C} := {
  (** No byte is in flight, and the receive queue is empty. *)
  quiet : H → C → Prop;
  (** The same, and the transmit queue has room. *)
  accepting : H → C → Prop;
  (** A byte is in flight or received: the reply and the device after it. *)
  in_flight : H → Z → C → Prop;
  spi_wait : H → nat;
  spi_wait_max : nat;
  spi_wait_le h : (spi_wait h ≤ spi_wait_max)%nat;
  spi_txdata_read h c v h' : quiet h c → reg_read (SPI1_BASE + SPI1_TXDATA) h = (v, h') →
    if Z.testbit v 31 then quiet h' c ∧ (spi_wait h' < spi_wait h)%nat else accepting h' c;
  spi_txdata_write h c b : accepting h c → 0 ≤ b < 256 →
    in_flight (reg_write8 (SPI1_BASE + SPI1_TXDATA) b h) (exchange b c).1 (exchange b c).2;
  spi_rxdata_read h r c v h' : in_flight h r c →
    reg_read (SPI1_BASE + SPI1_RXDATA) h = (v, h') →
    if Z.testbit v 31 then in_flight h' r c ∧ (spi_wait h' < spi_wait h)%nat
    else Z.land v 0xFF = r ∧ quiet h' c;
  spi_setup_write h c a v : quiet h c → spi_setup_reg a → quiet (reg_write a v h) c;
  (** [csdef] is the level of the select line while it is not held; held, the
      line has the other level, and the card is selected by a low line. *)
  spi_csdef_write h c v : quiet h c →
    quiet (reg_write (SPI1_BASE + SPI1_CSDEF) v h) (select (Z.testbit v 0) c);
}.

(** ** The card *)

Section traces.
Context {C : Type} `{!SpiSlave C}.

Fixpoint sends (bs : list Z) (c : C) : C :=
  match bs with [] => c | b :: bs => sends bs (exchange b c).2 end.

Fixpoint recvs (n : nat) (c : C) : list Z * C :=
  match n with
  | O => ([], c)
  | S n => let '(r, c) := exchange 0xFF c in
           let '(rs, c) := recvs n c in (r :: rs, c)
  end.

(** The card answers within [n] bytes: it keeps its output high (0xFF), then
    sends a byte that is not 0xFF. *)
Fixpoint answer (n : nat) (c : C) (P : Z → C → Prop) : Prop :=
  match n with
  | O => False
  | S n => let '(r, c) := exchange 0xFF c in
           (r = 0xFF ∧ answer n c P) ∨ (r ≠ 0xFF ∧ P r c)
  end.

(** The reply to a command frame. *)
Definition N_CR : nat := 8.
Definition replies (cmd : list Z) (c : C) (P : Z → C → Prop) : Prop :=
  answer N_CR (sends cmd c) P.
End traces.

(** A command frame: index, 32-bit argument with the most significant byte
    first, checksum. *)
Definition frame (index arg crc : Z) : list Z :=
  [0x40 + index; arg / 2 ^ 24 mod 256; arg / 2 ^ 16 mod 256; arg / 2 ^ 8 mod 256;
   arg mod 256; crc].

Inductive card_kind := SDv1 | SDv2_standard | SDv2_high.
#[export] Instance card_kind_eq_dec : EqDecision card_kind.
Proof. solve_decision. Defined.

(** Where the card is: after CMD0, with the number of times that ACMD41 will
    still report that initialisation goes on; the same after CMD55, when the
    next command is an application command; ready for data transfer. *)
Inductive card_phase := Initialising (left : nat) | AppCommand (left : nat) | Transfer.

Class SdProto (C : Type) `{!SpiSlave C} (kind : card_kind) (size : Z) := {
  (** The card as it is powered up. *)
  powered : C → gmap Z block → Prop;
  (** Selected, with no command at work; it may signal that it is busy. *)
  resting : C → card_phase → gmap Z block → Prop;
  (** The same, and it has signalled that it is not busy. *)
  listening : C → card_phase → gmap Z block → Prop;
  busy : C → nat;
  busy_max : nat;
  busy_le c : (busy c ≤ busy_max)%nat;
  access_max : nat;        (* bytes until a data token or a data response *)
  init_max : nat;          (* rounds of ACMD41 *)
  resting_wf c p m : resting c p m → disk_wf size m;
  resting_poll c p m r c' : resting c p m → exchange 0xFF c = (r, c') →
    (r = 0xFF ∧ listening c' p m) ∨
    (r ≠ 0xFF ∧ resting c' p m ∧ (busy c' < busy c)%nat);
  listening_rests c p m : listening c p m → resting c p m;
  (** At least 74 clocks with the card not selected, then CMD0. *)
  card_cmd0 c m n : powered c m → (10 ≤ n)%nat →
    replies (frame 0 0 0x95)
      (select true (sends (replicate n 0xFF) (select false c)))
      (λ r c, r = 0x01 ∧ ∃ left, (left ≤ init_max)%nat ∧ resting c (Initialising left) m);
  (** CMD8 is an illegal command for a version 1 card; the others return the
      voltage range and the check pattern. *)
  card_cmd8 c l m : listening c (Initialising l) m →
    replies (frame 8 0x1AA 0x87) c (λ r c,
      if decide (kind = SDv1) then r = 0x05 ∧ resting c (Initialising l) m
      else r = 0x01 ∧ ∃ c', recvs 4 c = ([0x00; 0x00; 0x01; 0xAA], c') ∧
                            resting c' (Initialising l) m);
  card_cmd55 c l m : listening c (Initialising l) m →
    replies (frame 55 0 0xFF) c (λ r c, resting c (AppCommand l) m);
  (** ACMD41; a host tells a version 2 card that it supports high capacity. *)
  card_acmd41 c l m : listening c (AppCommand l) m →
    replies (frame 41 (if decide (kind = SDv1) then 0 else 2 ^ 30) 0xFF) c (λ r c,
      match l with
      | O => r = 0x00 ∧ resting c Transfer m
      | S l => r = 0x01 ∧ resting c (Initialising l) m
      end);
  card_cmd16 c m : listening c Transfer m →
    replies (frame 16 512 0xFF) c (λ r c, resting c Transfer m);
  (** CMD58 returns the operating conditions register; its bits 31 and 30 are
      both set if the card is powered up and has high capacity. *)
  card_cmd58 c m : kind ≠ SDv1 → listening c Transfer m →
    replies (frame 58 0 0xFF) c (λ r c, r = 0x00 ∧
      ∃ ocr c', recvs 4 c = (ocr, c') ∧ resting c' Transfer m ∧
        (Z.land (default 0 (ocr !! 0%nat)) 0xC0 = 0xC0 ↔ kind = SDv2_high));
  (** CMD17: a start token, the block and two checksum bytes.  High capacity
      cards count in blocks. *)
  card_cmd17 c m b : kind = SDv2_high → listening c Transfer m → 0 ≤ b < size →
    replies (frame 17 b 0xFF) c (λ r c, r = 0x00 ∧
      answer access_max c (λ r c, r = 0xFE ∧
        ∃ x y c', recvs 514 c = ((byte.unsigned <$> m !!! b) ++ [x; y], c') ∧
                  resting c' Transfer m));
  (** CMD24: the host sends a start token, the block and two checksum bytes,
      and the card accepts them with a data response. *)
  card_cmd24 c m b blk : kind = SDv2_high → listening c Transfer m → 0 ≤ b < size →
    wf_block blk →
    replies (frame 24 b 0xFF) c (λ r c, r = 0x00 ∧
      answer access_max
        (sends ([0xFE] ++ (byte.unsigned <$> blk) ++ [0xFF; 0xFF]) c)
        (λ r c, Z.land r 0x1F = 0x05 ∧ resting c Transfer (<[b:=blk]> m)));
}.
