(* ===== verification/SdDemo.v ===== *)
(** * A controller and a card that keep the laws

    Instances of [SpiPort] and [SdProto] for the witnesses of SdCorrect.v: a
    controller without delays, and a card as a state machine that collects
    command frames and data packets and queues its replies. *)

From coqutil Require Import Byte.
From S2P Require Import Prelude Layout Blocks Store Uart FsDisk Sd SdSpec.

(** ** The card *)

Record card := Card {
  dphase : card_phase;
  blocks : gmap Z block;
  frame_in : list Z;              (* bytes of the command frame so far *)
  packet_in : option (Z * list Z);(* block being written, bytes so far *)
  out : list byte;                (* bytes still to send *)
}.

Definition respond (l : list byte) (c : card) : card :=
  Card (dphase c) (blocks c) [] (packet_in c) l.
Definition with_phase (p : card_phase) (c : card) : card :=
  Card p (blocks c) (frame_in c) (packet_in c) (out c).

Definition next_phase (index : Z) (p : card_phase) : card_phase :=
  match p with
  | Initialising l => if index =? 55 then AppCommand l else p
  | AppCommand (S l) => if index =? 41 then Initialising l else p
  | AppCommand O => if index =? 41 then Transfer else p
  | Transfer => p
  end.

Section card.
Context (kind : card_kind) (size : Z) (Hsize : size ≤ 2 ^ 32).

Definition replies_of (index arg : Z) (c : card) : list byte :=
  if index =? 8 then
    if decide (kind = SDv1) then [Byte.x05] else [Byte.x01; Byte.x00; Byte.x00; Byte.x01; Byte.xaa]
  else if index =? 58 then
    [Byte.x00; if decide (kind = SDv2_high) then Byte.xc0 else Byte.x80; Byte.xff; Byte.x80; Byte.x00]
  else if index =? 17 then
    [Byte.x00; Byte.xff; Byte.xfe] ++ blocks c !!! arg ++ [Byte.x12; Byte.x34]
  else match dphase c with
       | Transfer | AppCommand O => [Byte.x00]
       | _ => [Byte.xff; Byte.x01]
       end.

Definition arg_of (fr : list Z) : Z := be_int (take 4 (drop 1 fr)).

Definition execute (fr : list Z) (c : card) : card :=
  let index := default 0 (fr !! 0%nat) - 0x40 in
  let c := if index =? 0 then with_phase (Initialising 1) c else c in
  let p := next_phase index (dphase c) in
  let packet := if index =? 24 then Some (arg_of fr, []) else None in
  Card p (blocks c) [] packet (replies_of index (arg_of fr) c).

(** A data packet: token, block and checksum. *)
Definition store (b : Z) (packet : list Z) (c : card) : card :=
  Card (dphase c) (<[b:=byte.of_Z <$> take nbytes (drop 1 packet)]> (blocks c)) [] None
    [Byte.xff; Byte.xe5; Byte.x00; Byte.x00].

Definition accept (b : Z) (c : card) : card :=
  match packet_in c with
  | Some (n, packet) =>
      let packet := packet ++ [b] in
      if (length packet =? nbytes + 3)%nat then store n packet c
      else Card (dphase c) (blocks c) [] (Some (n, packet)) []
  | None =>
      let fr := frame_in c ++ [b] in
      if (length fr =? 6)%nat then execute fr c
      else if (length fr =? 1)%nat && negb ((0x40 <=? b) && (b <? 0x80)) then c
      else Card (dphase c) (blocks c) fr None []
  end.

Definition card_exchange (b : Z) (c : card) : Z * card :=
  match out c with
  | r :: l => (byte.unsigned r, Card (dphase c) (blocks c) (frame_in c) (packet_in c) l)
  | [] => (0xFF, accept b c)
  end.
End card.

Lemma card_exchange_byte kind b c : 0 ≤ (card_exchange kind b c).1 < 256.
Proof. unfold card_exchange. destruct (out c) as [|r l]; [done|apply byte.unsigned_range]. Qed.

Definition demo_slave (kind : card_kind) : SpiSlave card :=
  {| exchange := card_exchange kind; select _ c := c;
     exchange_byte := card_exchange_byte kind |}.

(** ** The card keeps the protocol *)

Section laws.
Context (kind : card_kind) (size : Z) (Hsize : size ≤ 2 ^ 32).
#[local] Instance slave : SpiSlave card := demo_slave kind.

Definition dresting (c : card) (p : card_phase) (m : gmap Z block) : Prop :=
  dphase c = p ∧ blocks c = m ∧ frame_in c = [] ∧ packet_in c = None ∧
  (out c = [] ∨ out c = [Byte.x00] ∨ out c = [Byte.x00; Byte.x00]) ∧ disk_wf size m.
Definition dlistening (c : card) (p : card_phase) (m : gmap Z block) : Prop :=
  c = Card p m [] None [] ∧ disk_wf size m.

Lemma dlistening_resting p m : disk_wf size m → dresting (Card p m [] None []) p m.
Proof. intros Hm. split_and!; auto. Qed.

(** A frame is executed when its last byte arrives. *)
Lemma sends_frame p m k arg crc :
  0 ≤ k < 64 →
  sends (frame k arg crc) (Card p m [] None []) =
  execute kind (frame k arg crc) (Card p m [] None []).
Proof.
  intros Hk. assert (E : exchange (0x40 + k) (Card p m [] None []) =
    (0xFF, Card p m [0x40 + k] None [])).
  { simpl exchange. unfold card_exchange, accept. cbn [out packet_in frame_in app length Nat.eqb andb].
    by rewrite (proj2 (Z.leb_le 0x40 _)), (proj2 (Z.ltb_lt _ 0x80)) by lia. }
  unfold frame at 1. cbn [sends]. rewrite E. simpl.
  change (accept _ _ _) with (execute kind (frame k arg crc)
    (Card p m (take 5 (frame k arg crc)) None [])).
  unfold execute. by destruct (_ =? 0).
Qed.

Lemma arg_of_frame k arg crc : 0 ≤ arg < 2 ^ 32 → arg_of (frame k arg crc) = arg.
Proof.
  intros Ha. unfold arg_of, be_int, frame. simpl. Z.to_euclidean_division_equations. lia.
Qed.

(** Bytes that are queued are received. *)
Lemma recvs_out l l' p m f pk :
  recvs (length l) (Card p m f pk (l ++ l')) = (byte.unsigned <$> l, Card p m f pk l').
Proof.
  induction l as [|x l IH]; [done|]. cbn [length recvs app]. simpl exchange.
  unfold card_exchange at 1. cbn [out dphase blocks frame_in packet_in].
  by rewrite IH.
Qed.

Lemma answer_now n p m f pk x l (P : Z → card → Prop) :
  x ≠ Byte.xff → P (byte.unsigned x) (Card p m f pk l) →
  answer (S n) (Card p m f pk (x :: l)) P.
Proof. intros Hx HP. right. split; [by destruct x|done]. Qed.

Lemma answer_later n p m f pk l (P : Z → card → Prop) :
  answer n (Card p m f pk l) P → answer (S n) (Card p m f pk (Byte.xff :: l)) P.
Proof. intros HP. by left. Qed.

Lemma sends_high n p m :
  sends (replicate n 0xFF) (Card p m [] None []) = Card p m [] None [].
Proof. induction n as [|n IH]; [done|]. exact IH. Qed.

(** The bytes of a data packet are collected. *)
Lemma sends_packet bs : ∀ p m b acc, (length acc + length bs < nbytes + 3)%nat →
  sends bs (Card p m [] (Some (b, acc)) []) = Card p m [] (Some (b, acc ++ bs)) [].
Proof.
  induction bs as [|x bs IH]; intros p m b acc Hl; [by rewrite app_nil_r|].
  cbn [sends length] in *.
  assert (E : exchange x (Card p m [] (Some (b, acc)) []) =
    (0xFF, Card p m [] (Some (b, acc ++ [x])) [])).
  { simpl exchange. unfold card_exchange, accept. cbn [out packet_in dphase blocks].
    by rewrite length_app, (proj2 (Nat.eqb_neq _ _)) by (cbn [length]; lia). }
  rewrite E. cbn [snd]. rewrite IH by (rewrite length_app; cbn [length]; lia). by rewrite <-(assoc_L app).
Qed.

Lemma sends_block p m b blk :
  wf_block blk →
  sends ([0xFE] ++ (byte.unsigned <$> blk) ++ [0xFF; 0xFF]) (Card p m [] (Some (b, [])) []) =
  Card p (<[b:=blk]> m) [] None [Byte.xff; Byte.xe5; Byte.x00; Byte.x00].
Proof.
  intros Hb. set (pk := [0xFE] ++ (byte.unsigned <$> blk) ++ [0xFF]).
  assert (E : [0xFE] ++ (byte.unsigned <$> blk) ++ [0xFF; 0xFF] = pk ++ [0xFF])
    by (unfold pk; by rewrite <-!(assoc_L app)).
  assert (Hl : length pk = (nbytes + 2)%nat)
    by (unfold pk; rewrite !length_app, length_fmap, Hb; cbn [length]; lia).
  assert (Hs : ∀ a c, sends (a ++ [0xFF]) c = (exchange 0xFF (sends a c)).2)
    by (intros a; induction a as [|x a IH]; intros c; [done|apply IH]).
  rewrite E, Hs, sends_packet by (cbn [length]; lia). simpl exchange.
  unfold card_exchange, accept. cbn [out packet_in dphase blocks app].
  rewrite length_app, Hl, (proj2 (Nat.eqb_eq _ _)) by (cbn [length]; lia).
  cbn [snd]. unfold store. cbn [dphase blocks]. do 2 f_equal. unfold pk.
  rewrite <-!(assoc_L app), (drop_app_length' [0xFE]) by done.
  rewrite take_app_length' by (by rewrite length_fmap, Hb).
  rewrite <-list_fmap_compose. rewrite <-(list_fmap_id blk) at 2.
  apply list_fmap_ext. intros i x _. apply byte.of_Z_unsigned.
Qed.

Lemma recvs_all l p m f pk :
  recvs (length l) (Card p m f pk l) = (byte.unsigned <$> l, Card p m f pk []).
Proof. rewrite <-(app_nil_r l) at 2. apply recvs_out. Qed.

(** Runs a command whose frame is concrete up to its argument. *)
Ltac run_cmd :=
  unfold replies; rewrite sends_frame by done; unfold N_CR.

#[export] Program Instance demo_proto : SdProto card kind size := {|
  powered c m := (∃ p, c = Card p m [] None []) ∧ disk_wf size m;
  resting := dresting; listening := dlistening;
  busy c := Nat.min 2 (length (out c)); busy_max := 2; access_max := 2; init_max := 1
|}.
Next Obligation. intros c. cbv beta. lia. Qed.
Next Obligation. by intros c p m (_ & _ & _ & _ & _ & ?). Qed.
Next Obligation.
  intros [p' m' f pk o] p m r c'. intros (Hp & Hm & Hf & Hpk & Ho & Hwf). simpl in *. subst.
  destruct Ho as [->|[->| ->]]; intros E; injection E as <- <-; [left|right..];
    (split; [done|]); [done|split; [|simpl; lia]..]; split_and!; auto.
Qed.
Next Obligation. intros c p m [-> Hwf]. by apply dlistening_resting. Qed.
Next Obligation.
  intros c m n ((p & ->) & Hwf) Hn. simpl select. rewrite sends_high. run_cmd.
  apply answer_later, answer_now; [done|]. split; [done|].
  exists 1%nat. split; [lia|]. by apply dlistening_resting.
Qed.
Next Obligation.
  intros c l m [-> Hwf]. run_cmd.
  change (execute _ _ _) with (Card (Initialising l) m [] None
    (if decide (kind = SDv1) then [Byte.x05]
     else [Byte.x01; Byte.x00; Byte.x00; Byte.x01; Byte.xaa])).
  case_decide.
  - apply answer_now; [done|]. split; [done|]. by apply dlistening_resting.
  - apply answer_now; [done|]. split; [done|]. eexists. split; [done|].
    by apply dlistening_resting.
Qed.
Next Obligation.
  intros c l m [-> Hwf]. run_cmd. apply answer_later, answer_now; [done|].
  by apply dlistening_resting.
Qed.
Next Obligation.
  intros c l m [-> Hwf]. run_cmd. destruct l as [|l].
  - apply answer_now; [done|]. split; [done|]. by apply dlistening_resting.
  - apply answer_later, answer_now; [done|]. split; [done|]. by apply dlistening_resting.
Qed.
Next Obligation.
  intros c m [-> Hwf]. run_cmd. apply answer_now; [done|]. by apply dlistening_resting.
Qed.
Next Obligation.
  intros c m Hk [-> Hwf]. run_cmd. apply answer_now; [done|]. split; [done|].
  eexists _, _. split; [apply (recvs_all [_; Byte.xff; Byte.x80; Byte.x00])|].
  split; [by apply dlistening_resting|]. by case_decide.
Qed.
Next Obligation.
  intros c m b Hk [-> Hwf] Hb. run_cmd. apply answer_now; [done|]. split; [done|].
  apply answer_later, answer_now; [done|]. split; [done|]. cbn [dphase blocks].
  rewrite arg_of_frame by lia. exists 0x12, 0x34, (Card Transfer m [] None []).
  split; [|by apply dlistening_resting].
  assert (Hl : length (m !!! b ++ [Byte.x12; Byte.x34]) = 514%nat)
    by (rewrite length_app, (Hwf b) by done; done).
  rewrite <-Hl, recvs_all. by rewrite fmap_app.
Qed.
Next Obligation.
  intros c m b blk Hk [-> Hwf] Hb Hblk. run_cmd. apply answer_now; [done|]. split; [done|].
  unfold execute. cbn [dphase blocks]. simpl (_ =? _). cbv iota. cbn [packet_in].
  rewrite arg_of_frame, sends_block by (done || lia).
  apply answer_later, answer_now; [done|]. split; [done|].
  split_and!; simpl; auto. by apply disk_wf_insert.
Qed.
End laws.

(** ** The controller *)

Record port := Port { behind : card; received : option Z }.

#[export] Instance port_mmio : Mmio port := {|
  reg_read a h :=
    if a =? SPI1_BASE + SPI1_RXDATA then
      match received h with
      | Some r => (r, Port (behind h) None)
      | None => (2 ^ 31, h)
      end
    else (0, h);
  reg_write a v h := h
|}.

Section port.
Context (kind : card_kind).
#[local] Instance port_slave : SpiSlave card := demo_slave kind.

Definition port_mmio8 : Mmio8 port := λ a b h,
  if a =? SPI1_BASE + SPI1_TXDATA
  then let '(r, c) := exchange b (behind h) in Port c (Some r) else h.
#[local] Existing Instance port_mmio8.

#[export] Program Instance demo_port : SpiPort port card := {|
  quiet h c := h = Port c None;
  accepting h c := h = Port c None;
  in_flight h r c := h = Port c (Some r) ∧ 0 ≤ r < 256;
  spi_wait h := 0%nat; spi_wait_max := 0%nat
|}.
Next Obligation. done. Qed.
Next Obligation. by intros h c v h' -> [= <- <-]. Qed.
Next Obligation.
  intros h c b -> Hb. unfold reg_write8, port_mmio8. rewrite Z.eqb_refl.
  pose proof (exchange_byte b c). simpl behind. by destruct (exchange b c).
Qed.
Next Obligation.
  intros h r c v h' [-> Hr] [= <- <-].
  assert (Z.testbit r 31 = false) as ->
    by (apply Z.testbit_false; [lia|]; by rewrite Z.div_small by lia).
  split; [by apply land_0xFF|done].
Qed.
Next Obligation. by intros h c a v ->. Qed.
Next Obligation. by intros h c v ->. Qed.
End port.
