(* ===== verification/SdCorrect.v ===== *)
(** * Correctness of the SD card driver

    With a controller and a card as in SdSpec.v the driver of Sd.v is a card in
    the sense of the class [SdCard] of FsDisk.v, so that the theorems about the
    file system and the paging device hold on top of it; and the initialisation
    reaches that state exactly for high capacity cards. *)

From coqutil Require Import Byte.
From S2P Require Import Prelude Layout Blocks Store Treedisk Tree TreediskFs Ramdisk FsDisk.
From S2P Require Import FileSystem FsCorrect Uart Sd SdSpec SdDemo.

Section port.
Context {H C : Type} `{!Mmio H, !Mmio8 H, !SpiSlave C, HP : !SpiPort H C}.
Context (fuel : nat) (Hfuel : (spi_wait_max < fuel)%nat).
Implicit Types (h : H) (c : C).

Lemma tx_full_wait_spec n : ∀ h c, quiet h c → (spi_wait h < n)%nat →
  returns (tx_full_wait n) h (λ _ h', accepting h' c).
Proof.
  induction n as [|n IH]; intros h c Hq Hn; [lia|]. cbn [tx_full_wait].
  apply returns_bind. unfold REGW, returns at 1.
  destruct (reg_read _ h) as [v h'] eqn:E. eexists _, _. split; [done|].
  pose proof (spi_txdata_read h c v h' Hq E) as Hv. rewrite land_bit31.
  destruct (Z.testbit v 31); simpl.
  - destruct Hv as [Hq' Hlt]. apply IH; [done|lia].
  - by apply returns_ret.
Qed.

Lemma rx_empty_wait_spec n : ∀ h r c, in_flight h r c → (spi_wait h < n)%nat →
  returns (rx_empty_wait n) h (λ v h', Z.land v 0xFF = r ∧ quiet h' c).
Proof.
  induction n as [|n IH]; intros h r c Hq Hn; [lia|]. cbn [rx_empty_wait].
  apply returns_bind. unfold REGW, returns at 1.
  destruct (reg_read _ h) as [v h'] eqn:E. eexists _, _. split; [done|].
  pose proof (spi_rxdata_read h r c v h' Hq E) as Hv. rewrite land_bit31.
  destruct (Z.testbit v 31); simpl.
  - destruct Hv as [Hq' Hlt]. apply IH; [done|lia].
  - by apply returns_ret.
Qed.

(** One byte goes out and the card's byte comes back. *)
Lemma send_data_byte_spec b h c :
  quiet h c → 0 ≤ b < 256 →
  returns (send_data_byte fuel b) h (λ r h', r = (exchange b c).1 ∧ quiet h' (exchange b c).2).
Proof using Hfuel.
  intros Hq Hb. unfold send_data_byte. pose proof (spi_wait_le (SpiPort := HP)) as Hmax.
  rcall (apply (tx_full_wait_spec _ _ _ Hq); specialize (Hmax h); lia).
  intros _ h1 Ha. apply returns_bind. unfold REGB_set. eexists _, _. split; [done|].
  rewrite land_0xFF by done. pose proof (spi_txdata_write h1 c b Ha Hb) as Hf.
  set (h2 := reg_write8 _ _ _) in *.
  rcall (apply (rx_empty_wait_spec _ _ _ _ Hf); specialize (Hmax h2); lia).
  intros v h3 [Hv Hq3]. by apply returns_ret.
Qed.

Lemma send_bytes_spec bs : ∀ h c, quiet h c → Forall (λ b, 0 ≤ b < 256) bs →
  returns (send_bytes fuel bs) h (λ _ h', quiet h' (sends bs c)).
Proof using Hfuel.
  induction bs as [|b bs IH]; intros h c Hq Hbs; [by apply returns_ret|].
  apply Forall_cons in Hbs as [Hb Hbs]. cbn [send_bytes sends].
  rcall (by apply (send_data_byte_spec b h c)).
  intros r h' [_ Hq']. by apply IH.
Qed.

Lemma recv_data_byte_spec h c : quiet h c →
  returns (recv_data_byte fuel) h
    (λ r h', r = (exchange 0xFF c).1 ∧ quiet h' (exchange 0xFF c).2).
Proof using Hfuel. intros Hq. by apply send_data_byte_spec. Qed.

Lemma recv_bytes_spec n : ∀ h c, quiet h c →
  returns (recv_bytes fuel n) h (λ rs h', rs = (recvs n c).1 ∧ quiet h' (recvs n c).2).
Proof using Hfuel.
  induction n as [|n IH]; intros h c Hq; [by apply returns_ret|].
  cbn [recv_bytes recvs]. rcall (by apply (recv_data_byte_spec h c)).
  intros r h' [-> Hq']. destruct (exchange 0xFF c) as [r c']. simpl in *.
  rcall (by apply (IH h' c')). intros rs h2 [-> Hq2].
  destruct (recvs n c') as [rs c2]. by apply returns_ret.
Qed.

(** Waiting for a byte other than 0xFF, when the card answers in time. *)
Lemma first_reply_spec stop n : ∀ k h c P, quiet h c → answer n c P → (n ≤ k)%nat →
  returns (first_reply fuel stop k) h (λ r h', ∃ c', quiet h' c' ∧ P r c').
Proof using Hfuel.
  induction n as [|n IH]; intros k h c P Hq Ha Hk; [done|].
  destruct k as [|k]; [lia|]. cbn [first_reply]. rcall (by apply (recv_data_byte_spec h c)).
  intros r h' [-> Hq']. cbn [answer] in Ha. destruct (exchange 0xFF c) as [r c'].
  destruct Ha as [[Hr Ha]|[Hr Ha]]; simpl in *.
  - rewrite Hr. apply (IH k h' c'); [done..|lia].
  - rewrite (proj2 (Z.eqb_neq _ _)) by done. apply returns_ret. by exists c'.
Qed.

(** Waiting for one byte [t], when the card answers with it. *)
Lemma recv_token_spec n t : ∀ k h c P, quiet h c → answer n c (λ r c', r = t ∧ P c') →
  t ≠ 0xFF → (n ≤ k)%nat →
  returns (recv_until fuel t k) h (λ _ h', ∃ c', quiet h' c' ∧ P c').
Proof using Hfuel.
  induction n as [|n IH]; intros k h c P Hq Ha Ht Hk; [done|].
  destruct k as [|k]; [lia|]. cbn [recv_until]. rcall (by apply (recv_data_byte_spec h c)).
  intros r h' [-> Hq']. cbn [answer] in Ha. destruct (exchange 0xFF c) as [r c'].
  destruct Ha as [[Hr Ha]|(Hr & -> & HP')]; simpl in *.
  - rewrite (proj2 (Z.eqb_neq r t)) by congruence. apply (IH k h' c'); [done..|lia].
  - rewrite Z.eqb_refl. apply returns_ret. by exists c'.
Qed.

Lemma sd_exec_cmd_spec cmd h c P :
  quiet h c → Forall (λ b, 0 ≤ b < 256) cmd → replies cmd c P →
  returns (sd_exec_cmd fuel cmd) h (λ r h', ∃ c', quiet h' c' ∧ P r c').
Proof using Hfuel.
  intros Hq Hcmd HP'. unfold sd_exec_cmd.
  rcall (by apply (send_bytes_spec cmd h c)). intros _ h' Hq'.
  apply (first_reply_spec _ N_CR _ h' _ P Hq' HP'). unfold N_CR. lia.
Qed.
End port.

(** ** Frames *)

Lemma int_byte_frame v i : 0 ≤ i → int_byte v i = v / 2 ^ (8 * i) mod 256.
Proof.
  intros Hi. unfold int_byte. rewrite Z.shiftr_div_pow2 by lia.
  change 0xFF with (Z.ones 8). by rewrite Z.land_ones.
Qed.

Lemma cmd17_frame b : cmd17 b = frame 17 b 0xFF.
Proof. unfold cmd17, frame. rewrite !int_byte_frame, Z.div_1_r by lia. done. Qed.
Lemma cmd24_frame b : cmd24 b = frame 24 b 0xFF.
Proof. unfold cmd24, frame. rewrite !int_byte_frame, Z.div_1_r by lia. done. Qed.

Lemma frame_bytes k arg crc :
  0 ≤ k < 64 → 0 ≤ crc < 256 → Forall (λ b, 0 ≤ b < 256) (frame k arg crc).
Proof.
  intros Hk Hc. unfold frame.
  rewrite !Forall_cons, Forall_nil. split_and!; (lia || (by apply Z.mod_pos_bound) || done).
Qed.

Lemma unsigned_bytes (l : list byte) : Forall (λ b, 0 ≤ b < 256) (byte.unsigned <$> l).
Proof. apply Forall_fmap, Forall_true. intros b. apply byte.unsigned_range. Qed.

Lemma of_unsigned_bytes (l : list byte) : byte.of_Z <$> (byte.unsigned <$> l) = l.
Proof.
  rewrite <-list_fmap_compose. rewrite <-(list_fmap_id l) at 2.
  apply list_fmap_ext. intros i b _. apply byte.of_Z_unsigned.
Qed.

(** Receiving [n + k] bytes is receiving [n] and then [k]. *)
Lemma recvs_app {C} `{!SpiSlave C} n k (c : C) :
  recvs (n + k) c = ((recvs n c).1 ++ (recvs k (recvs n c).2).1, (recvs k (recvs n c).2).2).
Proof.
  revert c. induction n as [|n IH]; intros c; cbn [recvs Nat.add].
  - simpl. by destruct (recvs k c).
  - destruct (exchange 0xFF c) as [r c']. rewrite IH. by destruct (recvs n c').
Qed.

Lemma recvs_length {C} `{!SpiSlave C} n (c : C) : length (recvs n c).1 = n.
Proof.
  revert c. induction n as [|n IH]; intros c; [done|]. cbn [recvs].
  destruct (exchange 0xFF c) as [r c']. specialize (IH c'). destruct (recvs n c'). simpl in *. lia.
Qed.

Lemma sends_app {C} `{!SpiSlave C} a b (c : C) : sends (a ++ b) c = sends b (sends a c).
Proof. revert c. induction a as [|x a IH]; intros c; [done|]. apply IH. Qed.

(** ** Transfer of a block *)

Section card.
Context {H C : Type} `{!Mmio H, !Mmio8 H, !SpiSlave C, HP : !SpiPort H C}.
Context {kind : card_kind} {size : Z} `{HC : !SdProto C kind size}.
Context (fuel : nat) (Hspi : (spi_wait_max < fuel)%nat) (Hbusy : (busy_max < fuel)%nat).
Context (Haccess : (access_max ≤ fuel)%nat).
Implicit Types (h : H) (c : C).

(** The card is at rest in phase [p] with the blocks [m]. *)
Definition rests h (p : card_phase) (m : gmap Z block) : Prop :=
  ∃ c, quiet h c ∧ resting c p m.
Definition listens h (p : card_phase) (m : gmap Z block) : Prop :=
  ∃ c, quiet h c ∧ listening c p m.

Lemma listens_rests h p m : listens h p m → rests h p m.
Proof. clear. intros (c & Hq & Hc). exists c. split; [done|]. by apply listening_rests. Qed.

Lemma recv_until_spec n : ∀ h c p m, quiet h c → resting c p m → (busy c < n)%nat →
  returns (recv_until fuel 0xFF n) h (λ _ h', listens h' p m).
Proof using Hspi.
  clear Hbusy Haccess.
  induction n as [|n IH]; intros h c p m Hq Hc Hn; [lia|]. cbn [recv_until].
  rcall (by apply (recv_data_byte_spec fuel Hspi h c)).
  intros r h' [-> Hq']. destruct (exchange 0xFF c) as [r c'] eqn:E. simpl in *.
  destruct (resting_poll c p m r c' Hc E) as [[-> Hl]|(Hr & Hl & Hlt)].
  - apply returns_ret. by exists c'.
  - rewrite (proj2 (Z.eqb_neq _ _)) by done. apply (IH h' c' p m); [done..|lia].
Qed.

Lemma wait_not_busy_spec h p m :
  rests h p m → returns (wait_not_busy fuel) h (λ _ h', listens h' p m).
Proof using Hspi Hbusy.
  clear Haccess. intros (c & Hq & Hc). apply (recv_until_spec fuel h c p m Hq Hc).
  pose proof (busy_le c). lia.
Qed.

(** The commands, with the reply that the card gives. *)
Lemma exec_spec k arg crc h p m (Q : Z → C → Prop) :
  listens h p m → 0 ≤ k < 64 → 0 ≤ crc < 256 →
  (∀ c, listening c p m → replies (frame k arg crc) c Q) →
  returns (sd_exec_cmd fuel (frame k arg crc)) h (λ r h', ∃ c, quiet h' c ∧ Q r c).
Proof using Hspi.
  clear Hbusy Haccess. intros (c & Hq & Hc) Hk Hcrc HQ.
  apply (sd_exec_cmd_spec fuel Hspi _ h c Q Hq); [by apply frame_bytes|by apply HQ].
Qed.

Lemma single_read_spec h m b :
  kind = SDv2_high → rests h Transfer m → 0 ≤ b < size →
  returns (single_read fuel b) h (λ x h', x = m !!! b ∧ rests h' Transfer m).
Proof using Hspi Hbusy Haccess.
  intros Hk Hr Hb. pose proof Hr as (c0 & _ & Hc0). pose proof (resting_wf c0 _ m Hc0 b Hb) as Hwf.
  unfold single_read. rcall (by apply (wait_not_busy_spec h)). intros _ h1 Hl.
  rewrite cmd17_frame.
  rcall (apply (exec_spec 17 b 0xFF h1 _ m _ Hl ltac:(lia) ltac:(lia)
    (λ c Hc, card_cmd17 c m b Hk Hc Hb))).
  intros r h2 (c2 & Hq2 & -> & Ha). simpl negb. cbv iota.
  rcall (by apply (recv_token_spec fuel Hspi _ 0xFE fuel h2 c2 _ Hq2 Ha)).
  intros _ h3 (c3 & Hq3 & x & y & c4 & Hrecv & Hrest).
  rcall (by apply (recv_bytes_spec fuel Hspi nbytes h3 c3)).
  intros bs h4 [-> Hq4].
  change 514%nat with (nbytes + 2)%nat in Hrecv. rewrite recvs_app in Hrecv.
  apply pair_equal_spec in Hrecv as [Hbs <-]. apply app_inj_1 in Hbs as [Hbs _];
    [|by rewrite (recvs_length nbytes c3), length_fmap, Hwf].
  rewrite Hbs. rcall (by apply (recv_data_byte_spec fuel Hspi h4 _ Hq4)).
  intros ? h5 [_ Hq5]. rcall (by apply (recv_data_byte_spec fuel Hspi h5 _ Hq5)).
  intros ? h6 [_ Hq6]. apply returns_ret. split; [apply of_unsigned_bytes|].
  eexists. split; [exact Hq6|]. revert Hrest. cbn [recvs].
  destruct (exchange 0xFF (recvs nbytes c3).2) as [? c5]. cbn [snd].
  by destruct (exchange 0xFF c5).
Qed.

Lemma single_write_spec h m b blk :
  kind = SDv2_high → rests h Transfer m → 0 ≤ b < size → wf_block blk →
  returns (single_write fuel b blk) h (λ _ h', rests h' Transfer (<[b:=blk]> m)).
Proof using Hspi Hbusy Haccess.
  intros Hk Hr Hb Hwf. unfold single_write. rcall (by apply (wait_not_busy_spec h)). intros _ h1 Hl.
  rewrite cmd24_frame.
  rcall (apply (exec_spec 24 b 0xFF h1 _ m _ Hl ltac:(lia) ltac:(lia)
    (λ c Hc, card_cmd24 c m b blk Hk Hc Hb Hwf))).
  intros r h2 (c2 & Hq2 & -> & Ha). simpl negb. cbv iota.
  rewrite !sends_app in Ha. cbn [sends] in Ha.
  rcall (by apply (send_data_byte_spec fuel Hspi 0xFE h2 c2)).
  intros ? h3 [_ Hq3]. rcall (by apply (send_bytes_spec fuel Hspi _ h3 _ Hq3), unsigned_bytes).
  intros _ h4 Hq4. rcall (by apply (send_data_byte_spec fuel Hspi 0xFF h4 _ Hq4)).
  intros ? h5 [_ Hq5]. rcall (by apply (send_data_byte_spec fuel Hspi 0xFF h5 _ Hq5)).
  intros ? h6 [_ Hq6]. rcall (by apply (first_reply_spec fuel Hspi _ _ fuel h6 _ _ Hq6 Ha)).
  intros r h7 (c7 & Hq7 & Hr7 & Hc7). rewrite Hr7. apply returns_ret. by exists c7.
Qed.

(** The driver is a card in the sense of FsDisk.v. *)
Program Definition spi_sd_card (Hk : kind = SDv2_high) : SdCard (spi_sd fuel) size :=
  {| sd_holds h m := rests h Transfer m |}.
Next Obligation. intros Hk h m (c & _ & Hc). by eapply resting_wf. Qed.
Next Obligation.
  intros Hk h m b Hr Hb. destruct (single_read_spec h m b Hk Hr Hb) as (x & h' & E & -> & Hr').
  by exists h'.
Qed.
Next Obligation.
  intros Hk h m b blk Hr Hb Hwf.
  destruct (single_write_spec h m b blk Hk Hr Hb Hwf) as ([] & h' & E & Hr'). by exists h'.
Qed.
End card.

(** ** Initialisation *)

Section init.
Context {H C : Type} `{!Mmio H, !Mmio8 H, !SpiSlave C, HP : !SpiPort H C}.
Context {kind : card_kind} {size : Z} `{HC : !SdProto C kind size}.
Context (fuel : nat) (Hspi : (spi_wait_max < fuel)%nat) (Hbusy : (busy_max < fuel)%nat).
Implicit Types (h : H) (c : C) (s : sd_state H).

Lemma on_hw_spec {A} (m : M H A) s (Q : A → H → Prop) :
  returns m (hw s) Q →
  returns (on_hw m) s (λ a s', Q a (hw s') ∧ SD_CARD_TYPE s' = SD_CARD_TYPE s).
Proof. intros (a & h & E & HQ). exists a, (SdState h (SD_CARD_TYPE s)). unfold on_hw. by rewrite E. Qed.

Lemma setup_spec off v h c :
  spi_setup_reg (SPI1_BASE + off) → quiet h c →
  returns (REGW_set SPI1_BASE off v) h (λ _ h', quiet h' c).
Proof. intros Ha Hq. eexists _, _. split; [done|]. by apply spi_setup_write. Qed.

Lemma csdef_spec v h c :
  quiet h c → is_u32 v →
  returns (REGW_set SPI1_BASE SPI1_CSDEF v) h (λ _ h', quiet h' (select (Z.testbit v 0) c)).
Proof.
  intros Hq Hv. eexists _, _. split; [done|]. rewrite u32_small by done.
  by apply spi_csdef_write.
Qed.

Lemma spi_config_spec h c :
  quiet h c → returns spi_config h (λ _ h', quiet h' (select false c)).
Proof.
  intros Hq. unfold spi_config.
  rcall (apply setup_spec, Hq; unfold spi_setup_reg; set_solver).
  intros _ h1 Hq1.
  rcall (apply setup_spec, Hq1; unfold spi_setup_reg; set_solver).
  intros _ h2 Hq2.
  rcall (by apply (csdef_spec 0 _ _ Hq2)).
  intros _ h3 Hq3.
  rcall (apply setup_spec, Hq3; unfold spi_setup_reg; set_solver).
  intros _ h4 Hq4. apply setup_spec, Hq4. unfold spi_setup_reg. set_solver.
Qed.

(** Clocks with the card not selected, then CMD0: the card initialises. *)
Lemma sd_reset_spec h c m :
  quiet h (select false c) → powered c m →
  returns (sd_reset fuel) h (λ _ h', ∃ l, (l ≤ init_max)%nat ∧ listens h' (Initialising l) m).
Proof using Hspi Hbusy.
  intros Hq Hc. unfold sd_reset.
  rcall (apply setup_spec, Hq; unfold spi_setup_reg; set_solver).
  intros _ h1 Hq1. rcall (apply (send_bytes_spec fuel Hspi _ h1 _ Hq1), Forall_replicate; lia).
  intros _ h2 Hq2. rcall (by apply (csdef_spec 1 _ _ Hq2)). intros _ h3 Hq3.
  rcall (apply (sd_exec_cmd_spec fuel Hspi (frame 0 0 0x95) h3 _ _ Hq3
    (frame_bytes 0 0 0x95 ltac:(lia) ltac:(lia)) (card_cmd0 c m (Z.to_nat 1000) Hc ltac:(lia)))).
  intros r h4 (c4 & Hq4 & -> & l & Hl & Hc4). apply returns_bind.
  assert (E : reset_loop fuel fuel 1 = mret ()) by (by destruct fuel).
  rewrite E. apply returns_ret.
  eapply returns_mono; [apply (wait_not_busy_spec fuel Hspi Hbusy); by exists c4|cbv beta].
  intros _ h5 Hl5. by exists l.
Qed.

Definition type_of (k : card_kind) : sd_type :=
  match k with SDv1 => SD_TYPE_SD1 | _ => SD_TYPE_SD2 end.

Lemma sd_check_type_spec s l m :
  listens (hw s) (Initialising l) m →
  returns (sd_check_type fuel) s (λ rc s', rc = 0 ∧ SD_CARD_TYPE s' = type_of kind ∧
    listens (hw s') (Initialising l) m).
Proof using Hspi Hbusy.
  intros Hl. unfold sd_check_type.
  rcall (apply on_hw_spec, (exec_spec fuel Hspi 8 0x1AA 0x87 _ _ m _ Hl ltac:(lia) ltac:(lia)
    (λ c Hc, card_cmd8 c l m Hc))).
  intros r s1 [(c1 & Hq1 & Hr) _]. case_decide as Hk.
  - destruct Hr as [-> Hc1]. simpl negb. cbv iota. apply returns_bind, returns_modify.
    apply returns_bind. eapply returns_mono;
      [apply on_hw_spec, (wait_not_busy_spec fuel Hspi Hbusy _ (Initialising l) m); by exists c1|].
    intros _ s2 [Hl2 Ht2]. apply returns_ret. split; [done|]. split; [by rewrite Ht2, Hk|done].
  - destruct Hr as (-> & c2 & Hrecv & Hc2). simpl negb. cbv iota.
    rcall (apply on_hw_spec, (recv_bytes_spec fuel Hspi 4 _ c1 Hq1)).
    intros bs s2 [[-> Hq2] _]. rewrite Hrecv in *. simpl negb. cbv iota.
    apply returns_bind, returns_modify. apply returns_bind. eapply returns_mono;
      [apply on_hw_spec, (wait_not_busy_spec fuel Hspi Hbusy _ (Initialising l) m); by exists c2|].
    intros _ s3 [Hl3 Ht3]. apply returns_ret. split; [done|]. split; [|done].
    rewrite Ht3. clear -Hk. by destruct kind.
Qed.

Lemma acmd41_frame :
  acmd41 (type_of kind) = frame 41 (if decide (kind = SDv1) then 0 else 2 ^ 30) 0xFF.
Proof. clear. by destruct kind. Qed.

(** Each round of CMD55 and ACMD41 brings the card closer to its end. *)
Lemma acmd41_loop_spec n : ∀ l h m, rests h (Initialising l) m → (l < n)%nat →
  returns (acmd41_loop fuel n (acmd41 (type_of kind))) h (λ _ h', rests h' Transfer m).
Proof using Hspi Hbusy.
  induction n as [|n IH]; intros l h m Hr Hn; [lia|]. cbn [acmd41_loop].
  apply returns_bind. unfold sd_exec_acmd. rcall (by apply (wait_not_busy_spec fuel Hspi Hbusy)).
  intros _ h1 Hl1.
  rcall (apply (exec_spec fuel Hspi 55 0 0xFF _ _ m _ Hl1 ltac:(lia) ltac:(lia)
    (λ c Hc, card_cmd55 c l m Hc))).
  intros r h2 Hr2. rcall (by apply (wait_not_busy_spec fuel Hspi Hbusy)).
  intros _ h3 Hl3. rewrite acmd41_frame. eapply returns_mono;
    [apply (exec_spec fuel Hspi 41 _ 0xFF _ _ m _ Hl3 ltac:(lia) ltac:(lia)
       (λ c Hc, card_acmd41 c l m Hc))|cbv beta].
  intros r' h4 (c4 & Hq4 & Hr4). destruct l as [|l]; destruct Hr4 as [-> Hc4]; simpl.
  - apply returns_ret. by exists c4.
  - rewrite <-acmd41_frame. apply (IH l); [by exists c4|lia].
Qed.

Lemma sd_check_capacity_spec s m :
  kind ≠ SDv1 → rests (hw s) Transfer m → SD_CARD_TYPE s = SD_TYPE_SD2 →
  returns (sd_check_capacity fuel) s (λ _ s', listens (hw s') Transfer m ∧
    (SD_CARD_TYPE s' = SD_TYPE_SDHC ↔ kind = SDv2_high)).
Proof using Hspi Hbusy.
  intros Hk Hr Ht. unfold sd_check_capacity.
  rcall (by apply on_hw_spec, (wait_not_busy_spec fuel Hspi Hbusy)).
  intros _ s1 [Hl1 Ht1].
  rcall (apply on_hw_spec, (exec_spec fuel Hspi 58 0 0xFF _ _ m _ Hl1 ltac:(lia) ltac:(lia)
    (λ c Hc, card_cmd58 c m Hk Hc))).
  intros r s2 [(c2 & Hq2 & -> & ocr & c3 & Hrecv & Hc3 & Hocr) Ht2]. simpl negb. cbv iota.
  rcall (apply on_hw_spec, (recv_bytes_spec fuel Hspi 4 _ c2 Hq2)).
  intros bs s3 [[-> Hq3] Ht3]. rewrite Hrecv in *. cbn [fst snd] in *. apply returns_bind.
  assert (Hw : ∀ s', hw s' = hw s3 → returns (on_hw (wait_not_busy fuel)) s'
    (λ _ s'', listens (hw s'') Transfer m ∧ SD_CARD_TYPE s'' = SD_CARD_TYPE s')).
  { intros s' E. apply (on_hw_spec (wait_not_busy fuel) s' (λ _ h, listens h Transfer m)).
    apply (wait_not_busy_spec fuel Hspi Hbusy). rewrite E. by exists c3. }
  destruct (Z.eqb_spec (Z.land (default 0 (ocr !! 0%nat)) 0xC0) 0xC0) as [E|E].
  - apply returns_modify. eapply returns_mono; [by apply Hw|cbv beta].
    intros _ s4 [Hl4 ->]. split; [done|]. simpl. tauto.
  - apply returns_ret. eapply returns_mono; [by apply Hw|cbv beta].
    intros _ s4 [Hl4 ->]. split; [done|]. rewrite Ht3, Ht2, Ht1, Ht. split; [done|tauto].
Qed.

Context (Hinit : (init_max < fuel)%nat) (clock : Z).

(** The check of the capacity is made for version 2 cards only. *)
Lemma capacity_step s m :
  listens (hw s) Transfer m → SD_CARD_TYPE s = type_of kind →
  returns (if decide (SD_CARD_TYPE s = SD_TYPE_SD2) then sd_check_capacity fuel else mret ()) s
    (λ _ s', listens (hw s') Transfer m ∧ (SD_CARD_TYPE s' = SD_TYPE_SDHC ↔ kind = SDv2_high)).
Proof using Hspi Hbusy.
  clear Hinit. intros Hl Ht. case_decide as E.
  - apply sd_check_capacity_spec; [|by apply listens_rests|done].
    intros Hk. rewrite Hk, E in Ht. done.
  - apply returns_ret. split; [done|]. rewrite Ht in *. by destruct kind.
Qed.

(** The whole initialisation, with the outcome in the form of [R]. *)
Lemma sdinit_spec s c m (R : outcome (sd_state H) unit → Prop) :
  quiet (hw s) c → powered c m →
  (∀ s', kind = SDv2_high → SD_CARD_TYPE s' = SD_TYPE_SDHC → rests (hw s') Transfer m →
     R (Ret tt s')) →
  (∀ s', kind ≠ SDv2_high → R (Fatal "Only SDHC/SDXC supported" s')) →
  R (sdinit fuel clock s).
Proof using Hspi Hbusy Hinit.
  intros Hq Hc Hok Hno. unfold sdinit.
  eapply run_bind; [apply on_hw_spec, (setup_spec _ _ _ c); [set_solver|done]|]. cbv beta.
  intros _ s1 [Hq1 _]. eapply run_bind; [apply on_hw_spec, (spi_config_spec _ c Hq1)|]. cbv beta.
  intros _ s2 [Hq2 _]. eapply run_bind; [apply on_hw_spec, (sd_reset_spec _ c m Hq2 Hc)|]. cbv beta.
  intros _ s3 [(l & Hl & (c3 & Hq3 & Hc3)) _].
  eapply run_bind; [apply on_hw_spec, (setup_spec _ _ _ c3); [set_solver|done]|]. cbv beta.
  intros _ s4 [Hq4 _].
  eapply run_bind; [apply (sd_check_type_spec s4 l m); by exists c3|]. cbv beta.
  intros rc s5 (-> & Ht5 & Hl5). change (negb (0 =? 0)) with false. cbv iota. mstep. rewrite Ht5.
  eapply run_bind; [apply on_hw_spec, (acmd41_loop_spec fuel l);
    [by apply listens_rests|lia]|]. cbv beta.
  intros _ s6 [Hr6 Ht6].
  eapply run_bind; [apply on_hw_spec, (wait_not_busy_spec fuel Hspi Hbusy _ _ _ Hr6)|]. cbv beta.
  intros _ s7 [Hl7 Ht7]. eapply run_bind; [apply on_hw_spec,
    (exec_spec fuel Hspi 16 512 0xFF _ _ m _ Hl7 ltac:(lia) ltac:(lia)
       (λ c Hc, card_cmd16 c m Hc))|]. cbv beta.
  intros r s8 [Hr8 Ht8].
  eapply run_bind; [apply on_hw_spec, (wait_not_busy_spec fuel Hspi Hbusy _ _ _ Hr8)|]. cbv beta.
  intros _ s9 [Hl9 Ht9]. mstep. eapply run_bind; [apply (capacity_step s9 m Hl9); congruence|].
  cbv beta. intros _ s10 [Hl10 Ht10]. mstep. case_decide as E.
  - apply Hok; [by apply Ht10|done|by apply listens_rests].
  - apply Hno. tauto.
Qed.
End init.

(** ** Theorems *)

Section theorems.
Context {H C : Type} `{!Mmio H, !Mmio8 H, !SpiSlave C, HP : !SpiPort H C}.
Context {kind : card_kind} {size : Z} `{HC : !SdProto C kind size}.
Context (fuel : nat).

(** Enough rounds for the waiting loops. *)
Definition patient : Prop :=
  (spi_wait_max < fuel)%nat ∧ (busy_max < fuel)%nat ∧ (access_max ≤ fuel)%nat ∧
  (init_max < fuel)%nat.

(** What is written to a block of the card is read back, byte for byte, and
    every other block keeps its contents; the card is ready for the next command
    after each call.  The delays of the controller and of the card are any
    within the bounds of their documentation. *)
Theorem sd_block_roundtrip (h : H) (m : gmap Z block) (b b' : Z) (blk : block) :
  patient → kind = SDv2_high → rests h Transfer m →
  0 ≤ b < size → 0 ≤ b' < size → wf_block blk →
  returns (_ ← single_write fuel b blk; single_read fuel b') h (λ x h',
    x = (if decide (b = b') then blk else m !!! b') ∧ rests h' Transfer (<[b:=blk]> m)).
Proof.
  intros (H1 & H2 & H3 & H4) Hk Hr Hb Hb' Hblk.
  rcall (by apply (single_write_spec fuel H1 H2 H3 h m)). intros _ h' Hr'.
  eapply returns_mono; [by apply (single_read_spec fuel H1 H2 H3 h' _ b' Hk Hr')|cbv beta].
  intros x h2 [-> Hr2]. split; [|done]. case_decide as E.
  - subst. by rewrite lookup_total_insert_eq.
  - by rewrite lookup_total_insert_ne.
Qed.

(** C32: Initialisation of a card that has just been powered up.  A high capacity
    card is recognised and ready for the transfer of blocks; with any other card
    the program stops with the message that only these are supported.  It
    returns after bounded waiting, whatever the delays of the card. *)
Theorem sdinit_correct (clock : Z) (s : sd_state H) (c : C) (m : gmap Z block) :
  patient → quiet (hw s) c → powered c m →
  (kind = SDv2_high → returns (sdinit fuel clock) s (λ _ s',
     SD_CARD_TYPE s' = SD_TYPE_SDHC ∧ rests (hw s') Transfer m)) ∧
  (kind ≠ SDv2_high → ∃ s', sdinit fuel clock s = Fatal "Only SDHC/SDXC supported" s').
Proof.
  intros (H1 & H2 & H3 & H4) Hq Hc. unfold returns. split; intros Hk;
    pattern (sdinit fuel clock s); apply (sdinit_spec fuel H1 H2 H4 clock s c m _ Hq Hc);
    intros s'; [eauto|done..|eauto].
Qed.

(** The files in the file system's part of the blocks of a card. *)
Definition card_files (m : gmap Z block) (fs : files) (room : nat) : Prop :=
  ∃ d free, (∀ b, 0 ≤ b < 4096 → d !!! b = m !!! (GRASS_FS_START + b)) ∧
    fs_inv 4096 d free ∧ disk_files d = fs ∧ length free = room.
End theorems.

(** C33: From power-up to files.  On a high capacity card whose blocks hold a file
    system, after the initialisation of the card any sequence of calls on the
    tree file system, through the disk layer, the block loops and the SPI
    exchanges, returns what the contract says for the files on the card, if there
    are ten free blocks for each write. *)
Theorem sd_file_system {H C : Type} `{!Mmio H, !Mmio8 H, !SpiSlave C, HP : !SpiPort H C}
    `{HC : !SdProto C SDv2_high DISK_BLOCKS} (fuel : nat) (clock : Z) (rom : Z → byte)
    (uninit : block) (s : sd_state H) (c : C) (m : gmap Z block) (fs : files) (room : nat)
    (cs : list fs_call) :
  patient fuel → quiet (hw s) c → powered c m → card_files m fs room →
  Forall call_ok cs → (10 * nwrites cs ≤ room)%nat →
  ∃ s1 h2, sdinit fuel clock s = Ret tt s1 ∧
    run_calls (treedisk_init uninit (fs_disk_init (spi_sd fuel) rom SD_CARD) 0) cs (hw s1) =
      Ret (spec_calls fs cs).1 h2.
Proof.
  intros (H1 & H2 & H3 & H4) Hq Hc (d & free & Hd & Hinv & Hfs & Hroom) Hcs Hn.
  pattern (sdinit fuel clock s). apply (sdinit_spec fuel H1 H2 H4 clock s c m _ Hq Hc); [|done].
  intros s1 _ _ Hr.
  pose (HS := spi_sd_card fuel H1 H2 H3 eq_refl : SdCard (spi_sd fuel) DISK_BLOCKS).
  destruct (calls_refine (HB := fs_disk_store (spi_sd fuel) rom m) _ 0 4096 uninit cs (hw s1)
    fs room) as [(h2 & room' & E & _)|[Hlt _]]; [|done|by exists s1, h2|lia].
  exists d, free. split_and!; [|done..]. exists m. by split_and!.
Qed.

(** The controller and the card of SdDemo.v. *)
#[local] Instance hc_slave : SpiSlave card := demo_slave SDv2_high.
#[local] Instance hc_mmio8 : Mmio8 port := port_mmio8 SDv2_high.
#[local] Instance hc_port : SpiPort port card := demo_port SDv2_high.
#[local] Instance hc_proto : SdProto card SDv2_high DISK_BLOCKS :=
  demo_proto SDv2_high DISK_BLOCKS ltac:(done).

Lemma demo_patient : patient (H := port) (C := card) 3.
Proof. unfold patient. simpl. lia. Qed.

Definition fresh_card (m : gmap Z block) : card := Card Transfer m [] None [].
Definition fresh_port (m : gmap Z block) : port := Port (fresh_card m) None.
Lemma fresh_quiet m : quiet (fresh_port m) (fresh_card m).
Proof. done. Qed.
Lemma fresh_powered m : disk_wf DISK_BLOCKS m → powered (fresh_card m) m.
Proof. intros Hm. split; [by exists Transfer|done]. Qed.
Lemma fresh_rests m : disk_wf DISK_BLOCKS m → rests (fresh_port m) Transfer m.
Proof. intros Hm. exists (fresh_card m). split; [done|]. by apply dlistening_resting. Qed.

Lemma demo_card_wf : disk_wf DISK_BLOCKS demo_card.
Proof. intros b Hb. unfold demo_card. by rewrite disk_of_lookup. Qed.

Lemma sd_block_roundtrip_witness : ∃ h',
  (_ ← single_write 3 7000 demo_block; single_read 3 7000) (fresh_port demo_card) =
  Ret demo_block h' ∧ rests h' Transfer (<[7000:=demo_block]> demo_card).
Proof.
  destruct (sd_block_roundtrip 3 (fresh_port demo_card) demo_card 7000 7000 demo_block
    demo_patient eq_refl (fresh_rests demo_card demo_card_wf))
    as (x & h' & E & Hx & Hr); [done..|]. exists h'. rewrite decide_True in Hx by done. subst x.
  exact (conj E Hr).
Defined.

Lemma sdinit_correct_witness :
  (∃ s', sdinit 3 65000000 (SdState (fresh_port demo_card) SD_TYPE_UNKNOWN) = Ret tt s' ∧
     SD_CARD_TYPE s' = SD_TYPE_SDHC ∧ rests (hw s') Transfer demo_card).
Proof.
  destruct (sdinit_correct 3 65000000 (SdState (fresh_port demo_card) SD_TYPE_UNKNOWN)
    (fresh_card demo_card) demo_card demo_patient) as [Hyes _];
    [apply fresh_quiet|apply fresh_powered, demo_card_wf|].
  destruct (Hyes eq_refl) as ([] & s' & E & Ht & Hr). exists s'. exact (conj E (conj Ht Hr)).
Defined.

Lemma sd_file_system_witness : ∃ m s1 h2,
  sdinit 3 65000000 (SdState (fresh_port m) SD_TYPE_UNKNOWN) = Ret tt s1 ∧
  run_calls (treedisk_init null_block (fs_disk_init (spi_sd 3) (λ _, Byte.x00) SD_CARD) 0)
    demo_calls (hw s1) =
    Ret [(0, None); (0, Some demo_block); (0, Some null_block); (201, None);
         (-1, Some demo_block); (-1, Some demo_block)] h2.
Proof.
  destruct demo_card_created as (m & _ & d & free & (c & [Hm Hwf] & Hd & _) & Hinv & Hfs & Hroom).
  subst c. exists m.
  destruct (sd_file_system 3 65000000 (λ _, Byte.x00) null_block
    (SdState (fresh_port m) SD_TYPE_UNKNOWN) (fresh_card m) m (replicate 128 []) 4093 demo_calls
    demo_patient) as (s1 & h2 & E1 & E2).
  - apply fresh_quiet.
  - by apply fresh_powered.
  - exists d, free. by split_and!.
  - repeat constructor; (done || lia).
  - vm_compute. lia.
  - exists s1, h2. split; [exact E1|].
    replace (spec_calls (replicate 128 []) demo_calls).1 with
      [(0, None); (0, Some demo_block); (0, Some null_block); (201, None);
       (-1, Some demo_block); (-1, Some demo_block)] in E2 by (vm_compute; reflexivity).
    exact E2.
Defined.
