(* ===== verification/Earth.v ===== *)
(** * The earth layer as the kernel sees it

    The kernel calls the earth layer through [struct earth] of library/egos.h
    and reaches the running process through the system call area at
    [SYSCALL_ARG] (grass/syscall.h), which is memory of the address space that
    is switched in.  [Earth] is that interface; [EarthLaws] states what the
    kernel relies on: which address space is in force ([as_of]), the system
    call area of every process ([sc_of]) and the control registers the kernel
    uses, and how each operation changes them.  The kernel of Kernel.v is
    proved against these laws; Machine.v gives an implementation on the tty
    driver of Tty.v. *)

From S2P Require Import Prelude Layout Blocks.

(** [struct sys_msg] and [struct syscall] of grass/syscall.h. *)
Record sys_msg := SysMsg {
  sender : Z;
  receiver : Z;
  content : list byte;
}.
Record syscall := Syscall {
  type : Z;
  msg : sys_msg;
  retval : Z;
}.

Inductive csr := MEPC | MSCRATCH | MIE | MCAUSE.
#[export] Instance csr_eq_dec : EqDecision csr.
Proof. solve_decision. Defined.

Class Earth (E : Type) := {
  timer_reset : M E Z;
  mmu_switch : Z → M E Z;
  mmu_free : Z → M E Z;
  trap_external : M E Z;
  etty_read : Z → M E Z;                    (* pointer of the process *)
  etty_write : Z → Z → M E Z;               (* pointer and length *)
  etty_read_tail : M E Z;
  etty_kernel_mode : M E unit;
  etty_user_mode : M E unit;
  eprintf : string → M E unit;
  sc_get : M E syscall;                     (* the area at SYSCALL_ARG *)
  sc_set : syscall → M E unit;
  msip_clear : M E unit;                    (* *((int* )0x2000000) = 0 *)
  csr_read : csr → M E Z;
  csr_write : csr → Z → M E unit;
  wfi : M E unit;
}.

(** A pointer into the system call area, a [struct syscall] of
    [16 + SYSCALL_MSG_LEN] bytes. *)
Definition in_area (ptr : Z) : Prop := SYSCALL_ARG ≤ ptr < SYSCALL_ARG + (16 + SYSCALL_MSG_LEN).

Section laws.
Context {E : Type} (ok : E → Prop).
Context (as_of : E → Z) (sc_of : E → Z → syscall) (csr_of : E → csr → Z).

(** Nothing the kernel looks at changes. *)
Record same_view (e e' : E) : Prop := {
  sv_ok : ok e';
  sv_as : as_of e' = as_of e;
  sv_sc p : sc_of e' p = sc_of e p;
  sv_csr c : csr_of e' c = csr_of e c;
}.

(** An operation that always returns and changes nothing the kernel looks at. *)
Definition keeps_view {A} (m : M E A) : Prop :=
  ∀ e, ok e → ∃ a e', m e = Ret a e' ∧ same_view e e'.
End laws.

Class EarthLaws (E : Type) `{!Earth E} := {
  earth_ok : E → Prop;       (* the invariant of the earth layer *)
  as_of : E → Z;
  sc_of : E → Z → syscall;
  csr_of : E → csr → Z;
  timer_reset_law : keeps_view earth_ok as_of sc_of csr_of timer_reset;
  (** Device interrupts are handled in bounded time. *)
  trap_external_law : keeps_view earth_ok as_of sc_of csr_of trap_external;
  tty_read_tail_law : keeps_view earth_ok as_of sc_of csr_of etty_read_tail;
  kernel_mode_law : keeps_view earth_ok as_of sc_of csr_of etty_kernel_mode;
  user_mode_law : keeps_view earth_ok as_of sc_of csr_of etty_user_mode;
  printf_law s : keeps_view earth_ok as_of sc_of csr_of (eprintf s);
  msip_clear_law : keeps_view earth_ok as_of sc_of csr_of msip_clear;
  wfi_law : keeps_view earth_ok as_of sc_of csr_of wfi;
  (** Switching selects an address space and changes none. *)
  mmu_switch_law p e : earth_ok e → ∃ rc e', mmu_switch p e = Ret rc e' ∧ earth_ok e' ∧
    as_of e' = p ∧ (∀ q, sc_of e' q = sc_of e q) ∧ ∀ c, csr_of e' c = csr_of e c;
  mmu_free_law p e : earth_ok e → ∃ rc e', mmu_free p e = Ret rc e' ∧ earth_ok e' ∧
    as_of e' = as_of e ∧ (∀ q, q ≠ p → sc_of e' q = sc_of e q) ∧ ∀ c, csr_of e' c = csr_of e c;
  (** The character goes to the pointer, in memory of the process that is
      switched in, and only when there is one. *)
  tty_read_law ptr e : earth_ok e → ∃ rc e', etty_read ptr e = Ret rc e' ∧ earth_ok e' ∧
    (rc = 0 ∨ rc = -1) ∧
    as_of e' = as_of e ∧ (∀ q, (q ≠ as_of e ∨ rc = -1 ∨ ¬ in_area ptr) → sc_of e' q = sc_of e q) ∧
    ∀ c, csr_of e' c = csr_of e c;
  tty_write_law ptr len e : earth_ok e → ∃ rc e', etty_write ptr len e = Ret rc e' ∧
    (rc = 0 ∨ rc = -1 ∨ rc = -2) ∧ same_view earth_ok as_of sc_of csr_of e e';
  sc_get_law e : sc_get e = Ret (sc_of e (as_of e)) e;
  sc_set_law s e : earth_ok e → ∃ e', sc_set s e = Ret tt e' ∧ earth_ok e' ∧ as_of e' = as_of e ∧
    sc_of e' (as_of e) = s ∧ (∀ q, q ≠ as_of e → sc_of e' q = sc_of e q) ∧
    ∀ c, csr_of e' c = csr_of e c;
  csr_read_law c e : csr_read c e = Ret (csr_of e c) e;
  csr_write_law c v e : earth_ok e → ∃ e', csr_write c v e = Ret tt e' ∧ earth_ok e' ∧
    as_of e' = as_of e ∧ (∀ q, sc_of e' q = sc_of e q) ∧ csr_of e' c = v ∧
    ∀ c', c' ≠ c → csr_of e' c' = csr_of e c';
}.
