(* ===== verification/Process.v ===== *)
(** * The process table

    grass/process.h and grass/process.c.  The table is a list of
    [MAX_NPROCESS] entries.  A freed entry keeps its stale [pid]; the functions
    that set a status search the whole table for a pid, so they are right only
    because no two entries have the same pid, which [table_wf] states. *)

From S2P Require Import Prelude Layout Blocks Earth.

Record process := Process {
  pid : Z;
  status : proc_status;
  killable : bool;
  sp : Z;
  mepc : Z;
}.
#[export] Instance process_inhabited : Inhabited process :=
  populate (Process 0 PROC_UNUSED false 0 0).

Definition with_status (st : proc_status) (p : process) : process :=
  Process (pid p) st (killable p) (sp p) (mepc p).
Definition with_context (s m : Z) (p : process) : process :=
  Process (pid p) (status p) (killable p) s m.
Definition with_mepc (m : Z) (p : process) : process :=
  Process (pid p) (status p) (killable p) (sp p) m.

Abbreviation table := (list process).
Definition nprocess : nat := Z.to_nat MAX_NPROCESS.

(** The loop over all entries. *)
Definition proc_set_status (x : Z) (st : proc_status) (ps : table) : table :=
  (λ p, if pid p =? x then with_status st p else p) <$> ps.

Definition proc_set_ready (x : Z) : table → table := proc_set_status x PROC_READY.
Definition proc_set_running (x : Z) : table → table := proc_set_status x PROC_RUNNING.
Definition proc_set_runnable (x : Z) : table → table := proc_set_status x PROC_RUNNABLE.
Definition proc_set_requesting (x : Z) : table → table := proc_set_status x PROC_REQUESTING.
Definition proc_set_zombie (x : Z) : table → table := proc_set_status x PROC_ZOMBIE.

(** [proc_alloc] on the table and the static counter [proc_nprocs]: the first
    unused entry is taken.  [None] is the FATAL branch.  [sp] and [mepc] are
    left as they were. *)
Fixpoint alloc_slot (new : Z) (ps : table) : option table :=
  match ps with
  | [] => None
  | p :: ps =>
      if decide (status p = PROC_UNUSED)
      then Some (Process new PROC_LOADING (GPID_USER_START <=? new) (sp p) (mepc p) :: ps)
      else cons p <$> alloc_slot new ps
  end.
Definition proc_alloc (ps : table) (proc_nprocs : Z) : option (Z * table) :=
  let new := proc_nprocs + 1 in
  ps ← alloc_slot new ps; Some (new, ps).

(** [proc_free]: with [-1], all user applications.  [mmu_free] is the call of the
    earth layer. *)
Section free.
Context {E R : Type} (mmu_free : Z → M E R).

Fixpoint free_users (ps : table) : M E table :=
  match ps with
  | [] => mret []
  | p :: ps =>
      p' ← (if (GPID_USER_START <=? pid p) && bool_decide (status p ≠ PROC_UNUSED)
            then _ ← mmu_free (pid p); mret (with_status PROC_UNUSED p)
            else mret p);
      ps' ← free_users ps;
      mret (p' :: ps')
  end.

Definition proc_free (x : Z) (ps : table) : M E table :=
  if x =? -1 then free_users ps
  else _ ← mmu_free x; mret (proc_set_status x PROC_UNUSED ps).
End free.

(** ** Well-formed tables *)

(** No two entries have the same pid, apart from entries never used (pid 0);
    pids come from the counter; a process that exists has a pid; exactly the
    user processes are killable. *)
Record table_wf (ps : table) (nprocs : Z) : Prop := {
  tw_len : length ps = nprocess;
  tw_nprocs : 0 ≤ nprocs;
  tw_pid i p : ps !! i = Some p → 0 ≤ pid p ≤ nprocs;
  tw_used i p : ps !! i = Some p → status p ≠ PROC_UNUSED → 0 < pid p;
  tw_uniq i j p q : ps !! i = Some p → ps !! j = Some q → 0 < pid p → pid p = pid q → i = j;
  tw_kill i p : ps !! i = Some p → 0 < pid p → killable p = (GPID_USER_START <=? pid p);
}.

(** Entries that differ in nothing but status and context. *)
Record same_proc (p q : process) : Prop := {
  sp_pid : pid q = pid p;
  sp_kill : killable q = killable p;
}.

(** The entry of a process and what [proc_set_status] does to it. *)
Lemma proc_set_status_lookup x st ps i :
  proc_set_status x st ps !! i =
  (λ p, if pid p =? x then with_status st p else p) <$> (ps !! i).
Proof. apply list_lookup_fmap. Qed.

Lemma proc_set_status_length x st ps : length (proc_set_status x st ps) = length ps.
Proof. apply length_fmap. Qed.

(** In a well-formed table a process's status can be set without touching any
    other. *)
Lemma proc_set_status_insert x st ps nprocs i p :
  table_wf ps nprocs → ps !! i = Some p → pid p = x → 0 < x →
  proc_set_status x st ps = <[i:=with_status st p]> ps.
Proof.
  intros Hwf Hi Hx Hpos. apply list_eq. intros j. rewrite proc_set_status_lookup.
  destruct (decide (i = j)) as [<-|Hne].
  - rewrite list_lookup_insert_eq by (by eapply lookup_lt_Some). rewrite Hi. simpl.
    by rewrite (proj2 (Z.eqb_eq _ _)).
  - rewrite list_lookup_insert_ne by done. destruct (ps !! j) as [q|] eqn:Hj; [|done]. simpl.
    destruct (Z.eqb_spec (pid q) x) as [E|]; [|done].
    exfalso. apply Hne. eapply (tw_uniq _ _ Hwf i j p q); [done..|lia|congruence].
Qed.

(** Replacing an entry by one of the same process, in use, keeps the table
    well formed. *)
Lemma table_wf_insert ps nprocs i p q :
  table_wf ps nprocs → ps !! i = Some p → same_proc p q → 0 < pid p →
  table_wf (<[i:=q]> ps) nprocs.
Proof.
  intros [W1 W2 W3 W4 W5 W6] Hi [S1 S2] Hpos.
  assert (Hl : ∀ j r, <[i:=q]> ps !! j = Some r →
    (j = i ∧ r = q) ∨ (j ≠ i ∧ ps !! j = Some r)).
  { intros j r Hr. apply list_lookup_insert_Some in Hr as [(-> & -> & _)|[? ?]]; auto. }
  split.
  - by rewrite length_insert.
  - done.
  - intros j r Hr. destruct (Hl j r Hr) as [[-> ->]|[_ Hr']]; [rewrite S1|]; eauto.
  - intros j r Hr Hst. destruct (Hl j r Hr) as [[-> ->]|[_ Hr']]; [by rewrite S1|eauto].
  - intros j k r r' Hr Hr' Hp Heq.
    destruct (Hl j r Hr) as [[-> ->]|[Hj Hr1]], (Hl k r' Hr') as [[-> ->]|[Hk Hr2]];
      [done| | |by eapply W5].
    + exfalso. apply Hk. symmetry. eapply (W5 i k p r'); [done..|congruence].
    + exfalso. apply Hj. eapply (W5 j i r p); [done..|congruence].
  - intros j r Hr Hp. destruct (Hl j r Hr) as [[-> ->]|[_ Hr']]; [|by eapply W6].
    rewrite S1, S2. by eapply W6.
Qed.

(** Setting statuses by pid. *)
Lemma table_wf_set_status x st ps nprocs :
  table_wf ps nprocs → 0 < x → table_wf (proc_set_status x st ps) nprocs.
Proof.
  intros Hwf Hx. destruct (decide (Exists (λ p, pid p = x) ps)) as [He|Hn].
  - apply Exists_exists in He as (p & Hin & Hp). apply list_elem_of_lookup_1 in Hin as [i Hi].
    rewrite (proc_set_status_insert x st ps nprocs i p) by done.
    eapply table_wf_insert; [done..|lia].
  - replace (proc_set_status x st ps) with ps; [done|]. symmetry.
    rewrite <-(list_fmap_id ps) at 2. apply list_fmap_ext. intros i p Hi.
    destruct (Z.eqb_spec (pid p) x) as [E|]; [|done]. exfalso. apply Hn.
    apply Exists_exists. exists p. split; [by eapply list_elem_of_lookup_2|done].
Qed.

(** [alloc_slot] takes the first unused entry, if there is one. *)
Lemma alloc_slot_Some new ps ps' :
  alloc_slot new ps = Some ps' →
  ∃ i p, ps !! i = Some p ∧ status p = PROC_UNUSED ∧
    (∀ j q, (j < i)%nat → ps !! j = Some q → status q ≠ PROC_UNUSED) ∧
    ps' = <[i:=Process new PROC_LOADING (GPID_USER_START <=? new) (sp p) (mepc p)]> ps.
Proof.
  revert ps'. induction ps as [|p ps IH]; intros ps' E; [done|]. simpl in E.
  destruct (decide (status p = PROC_UNUSED)) as [Hst|Hst].
  - injection E as <-. exists 0%nat, p. split_and!; try done. intros j q Hj. lia.
  - destruct (alloc_slot new ps) as [ps1|]; [|done]. injection E as <-.
    destruct (IH ps1 eq_refl) as (i & q & Hi & Hq & Hlt & ->). exists (S i), q.
    split_and!; try done. intros [|j] r Hj Hr; simpl in Hr; [by simplify_eq|].
    eapply Hlt; [|done]. lia.
Qed.

Lemma alloc_slot_None new ps :
  alloc_slot new ps = None ↔ ∀ p, p ∈ ps → status p ≠ PROC_UNUSED.
Proof.
  induction ps as [|p ps IH]; simpl.
  - split; [|done]. intros _ p Hp. by apply elem_of_nil in Hp.
  - destruct (decide (status p = PROC_UNUSED)) as [Hst|Hst].
    + split; [done|]. intros H. exfalso. apply (H p); [left|done].
    + split.
      * intros E q Hq. apply elem_of_cons in Hq as [->|Hq]; [done|].
        apply IH; [|done]. by destruct (alloc_slot new ps).
      * intros H. rewrite (proj2 IH); [done|]. intros q Hq. apply H. by right.
Qed.

(** A new process gets a pid no entry has had, in an entry that was unused. *)
Lemma proc_alloc_wf ps nprocs new ps' :
  table_wf ps nprocs → proc_alloc ps nprocs = Some (new, ps') →
  new = nprocs + 1 ∧ table_wf ps' new ∧
  (∀ p, p ∈ ps → pid p ≠ new) ∧
  ∃ i p q, ps !! i = Some p ∧ status p = PROC_UNUSED ∧ ps' = <[i:=q]> ps ∧
    pid q = new ∧ status q = PROC_LOADING ∧ killable q = (GPID_USER_START <=? new).
Proof.
  intros [W1 W2 W3 W4 W5 W6] E. unfold proc_alloc in E.
  destruct (alloc_slot (nprocs + 1) ps) as [ps1|] eqn:Ea; [|done].
  injection E as <- <-. destruct (alloc_slot_Some _ _ _ Ea) as (i & p & Hi & Hst & _ & ->).
  set (q := Process _ _ _ _ _). split; [done|].
  assert (Hfresh : ∀ j r, ps !! j = Some r → pid r ≠ nprocs + 1) by (intros j r Hr; pose proof (W3 j r Hr); lia).
  assert (Hl : ∀ j r, <[i:=q]> ps !! j = Some r →
    (j = i ∧ r = q) ∨ (j ≠ i ∧ ps !! j = Some r)).
  { intros j r Hr. apply list_lookup_insert_Some in Hr as [(-> & -> & _)|[? ?]]; auto. }
  split; [split|split].
  - by rewrite length_insert.
  - lia.
  - intros j r Hr. destruct (Hl j r Hr) as [[-> ->]|[_ Hr']]; [simpl; lia|].
    pose proof (W3 j r Hr'). lia.
  - intros j r Hr Hs. destruct (Hl j r Hr) as [[-> ->]|[_ Hr']]; [simpl; lia|eauto].
  - intros j k r r' Hr Hr' Hp Heq.
    destruct (Hl j r Hr) as [[-> ->]|[Hj Hr1]], (Hl k r' Hr') as [[-> ->]|[Hk Hr2]];
      [done| | |by eapply W5]; exfalso; by eapply Hfresh.
  - intros j r Hr Hp. destruct (Hl j r Hr) as [[-> ->]|[_ Hr']]; [done|by eapply W6].
  - intros r Hr. apply list_elem_of_lookup_1 in Hr as [j Hj]. by eapply Hfresh.
  - by exists i, p, q.
Qed.

Section free_lemmas.
Context {E : Type} `{!Earth E, !EarthLaws E}.

(** The entry after all user applications were freed. *)
Definition freed (p : process) : process :=
  if (GPID_USER_START <=? pid p) && bool_decide (status p ≠ PROC_UNUSED)
  then with_status PROC_UNUSED p else p.

Lemma free_users_spec ps : ∀ e,
  earth_ok e →
  ∃ e', free_users mmu_free ps e = Ret (freed <$> ps) e' ∧ earth_ok e' ∧ as_of e' = as_of e ∧
    ∀ q, q < GPID_USER_START → sc_of e' q = sc_of e q.
Proof.
  induction ps as [|p ps IH]; intros e Hok; cbn [free_users]; [by exists e|].
  unfold freed at 1. cbn [fmap list_fmap]. fold freed.
  destruct ((GPID_USER_START <=? pid p) && bool_decide (status p ≠ PROC_UNUSED)) eqn:Eb.
  - destruct (mmu_free_law (pid p) e Hok) as (rc & e1 & E1 & O1 & A1 & S1 & _).
    destruct (IH e1 O1) as (e2 & E2 & O2 & A2 & S2). exists e2. split.
    + unfold mbind at 1, M_bind at 1. mrun E1. unfold mret, M_ret. mrun E2. done.
    + split; [done|]. split; [congruence|]. intros q Hq. rewrite S2 by done. apply S1.
      apply andb_true_iff in Eb as [Eb _]. apply Z.leb_le in Eb. lia.
  - destruct (IH e Hok) as (e2 & E2 & O2 & A2 & S2). exists e2. split; [|done].
    rewrite mret_bind. mrun E2. done.
Qed.
End free_lemmas.

Lemma table_wf_freed ps nprocs : table_wf ps nprocs → table_wf (freed <$> ps) nprocs.
Proof.
  intros [W1 W2 W3 W4 W5 W6].
  assert (Hf : ∀ p, pid (freed p) = pid p ∧ killable (freed p) = killable p ∧
    (status (freed p) ≠ PROC_UNUSED → status p ≠ PROC_UNUSED)).
  { intros p. unfold freed. destruct (_ && _) eqn:Eb; [|done]. split_and!; done. }
  assert (Hl : ∀ i p, (freed <$> ps) !! i = Some p → ∃ p0, ps !! i = Some p0 ∧ p = freed p0).
  { intros i p Hp. apply list_lookup_fmap_Some in Hp as (p0 & -> & Hp0). eauto. }
  split; [by rewrite length_fmap|done|..].
  - intros i p Hp. destruct (Hl i p Hp) as (p0 & Hp0 & ->). rewrite (proj1 (Hf p0)). eauto.
  - intros i p Hp Hs. destruct (Hl i p Hp) as (p0 & Hp0 & ->). rewrite (proj1 (Hf p0)).
    eapply W4; [done|]. by apply Hf.
  - intros i j p q Hp Hq Hpos Heq.
    destruct (Hl i p Hp) as (p0 & Hp0 & ->), (Hl j q Hq) as (q0 & Hq0 & ->).
    rewrite (proj1 (Hf p0)) in *. rewrite (proj1 (Hf q0)) in *. by eapply W5.
  - intros i p Hp Hpos. destruct (Hl i p Hp) as (p0 & Hp0 & ->).
    destruct (Hf p0) as (F1 & F2 & _). rewrite F1, F2 in *. by eapply W6.
Qed.
