(* ===== verification/Kernel.v ===== *)
(** * The kernel

    grass/kernel.c: trap handlers, system calls and the scheduler, on the
    process table of Process.v and the earth layer of Earth.v.  A handler ends
    by giving control back to user code; [resume] says how.  [proc_yield] waits
    for an interrupt while no process can run; the number of times it may wake
    up is an argument.  [proc_set[i]] is a total lookup: the invariant of
    KernelInv.v keeps all indices in range. *)

From coqutil Require Import Word.LittleEndianList.
From S2P Require Import Prelude Layout Blocks Earth Process.

Definition INTR_ID_SOFT : Z := 3.
Definition INTR_ID_TIMER : Z := 7.
Definition INTR_ID_EXTERNAL : Z := 11.

(** [struct kernel_msg]: the one message in transit. *)
Record kernel_msg := KernelMsg {
  in_use : Z;
  ksender : Z;
  kreceiver : Z;
  kmsg : list byte;
}.

Record kernel (E : Type) := Kernel {
  proc_set : table;
  proc_curr_idx : Z;
  proc_nprocs : Z;
  KERNEL_MSG_BUFF : kernel_msg;
  earth : E;
}.
Arguments Kernel {E} _ _ _ _ _.
Arguments proc_set {E} _.
Arguments proc_curr_idx {E} _.
Arguments proc_nprocs {E} _.
Arguments KERNEL_MSG_BUFF {E} _.
Arguments earth {E} _.

(** Back to the interrupted code of the current process, or into the entry
    point of a new one, with [argc] and [argv] in its registers. *)
Inductive resume :=
| CtxJump
| EnterApp (a0 a1 : Z).

(** What the C text leaves open: the bytes of a [struct proc_request] after its
    type, never set in [special_handle], and the address of [proc_idle]. *)
Record kparams := KParams {
  req_junk : list byte;
  proc_idle : Z;
}.

(** The pointer and the length in the contents of a tty system call. *)
Definition msg_ptr (c : list byte) : Z := le_combine (take 4 c).
Definition msg_len (c : list byte) : Z := s32 (le_combine (take 4 (drop 4 c))).

(** [memcpy(sc->msg.content, &req, sizeof(req))] with [req.type = type] and the
    rest of [req] never set: [junk] is what is there. *)
Definition put_request (type : Z) (junk : list byte) (c : list byte) : list byte :=
  let req := le_split 4 type ++ junk in
  req ++ drop (length req) c.

Section kernel.
Context {E : Type} `{!Earth E}.
Implicit Types k : kernel E.

Definition proc_at k (i : Z) : process := proc_set k !!! Z.to_nat i.
Definition curr_pid k : Z := pid (proc_at k (proc_curr_idx k)).
Definition curr_status k : proc_status := status (proc_at k (proc_curr_idx k)).

Definition set_procs (f : table → table) k : kernel E :=
  Kernel (f (proc_set k)) (proc_curr_idx k) (proc_nprocs k) (KERNEL_MSG_BUFF k) (earth k).
Definition set_curr (i : Z) k : kernel E :=
  Kernel (proc_set k) i (proc_nprocs k) (KERNEL_MSG_BUFF k) (earth k).
Definition set_kmsg (m : kernel_msg) k : kernel E :=
  Kernel (proc_set k) (proc_curr_idx k) (proc_nprocs k) m (earth k).
Definition set_earth (e : E) k : kernel E :=
  Kernel (proc_set k) (proc_curr_idx k) (proc_nprocs k) (KERNEL_MSG_BUFF k) e.

(** A function of the earth layer, called from the kernel. *)
Definition on_earth {A} (m : M E A) : M (kernel E) A := λ k,
  match m (earth k) with
  | Ret a e => Ret a (set_earth e k)
  | Fatal w e => Fatal w (set_earth e k)
  | Undef w => Undef w
  | Spin => Spin
  end.

(** ** Messages *)

Definition y_send : M (kernel E) Z :=
  m ← gets KERNEL_MSG_BUFF;
  if in_use m =? 1 then mret (-1)
  else
    p ← gets curr_pid;
    sc ← on_earth sc_get;
    _ ← modify (set_kmsg (KernelMsg 1 p (receiver (msg sc)) (content (msg sc))));
    mret 0.

Definition y_recv : M (kernel E) Z :=
  m ← gets KERNEL_MSG_BUFF;
  p ← gets curr_pid;
  if (in_use m =? 0) || negb (kreceiver m =? p) then mret (-1)
  else
    _ ← modify (set_kmsg (KernelMsg 0 (ksender m) (kreceiver m) (kmsg m)));
    sc ← on_earth sc_get;
    _ ← on_earth (sc_set (Syscall (type sc) (SysMsg (ksender m) (receiver (msg sc)) (kmsg m))
                            (retval sc)));
    mret 0.

Definition proc_tty_read : M (kernel E) Z :=
  sc ← on_earth sc_get; on_earth (etty_read (msg_ptr (content (msg sc)))).

Definition proc_tty_write : M (kernel E) Z :=
  sc ← on_earth sc_get;
  on_earth (etty_write (msg_ptr (content (msg sc))) (msg_len (content (msg sc)))).

(** ** System calls *)

Definition set_sc_type (t : Z) (sc : syscall) : syscall := Syscall t (msg sc) (retval sc).
Definition set_sc_retval (v : Z) (sc : syscall) : syscall := Syscall (type sc) (msg sc) v.

Definition sc_update (f : syscall → syscall) : M (kernel E) unit :=
  sc ← on_earth sc_get; on_earth (sc_set (f sc)).

Definition syscall_handle : M (kernel E) unit :=
  sc ← on_earth sc_get;
  let type := type sc in
  _ ← sc_update (set_sc_retval 0);
  _ ← sc_update (set_sc_type SYS_UNUSED);
  _ ← on_earth msip_clear;
  p ← gets curr_pid;
  _ ← modify (set_procs (proc_set_requesting p));
  rc ← (if type =? SYS_RECV then y_recv
        else if type =? SYS_SEND then y_send
        else if type =? TTY_READ then proc_tty_read
        else if type =? TTY_WRITE then proc_tty_write
        else mret (-1));
  if rc =? 0 then modify (set_procs (proc_set_runnable p))
  else if rc =? -1 then sc_update (set_sc_type type)
  else
    _ ← modify (set_procs (proc_set_runnable p));
    sc_update (set_sc_retval (-1)).

(** ** External interrupts *)

(** The block of [special_handle] that makes process [p], entry [i], send the
    KILLALL message. *)
Definition report (u : kparams) (i : Z) (p : process) : M (kernel E) unit :=
  _ ← on_earth (mmu_switch (pid p));
  _ ← sc_update (λ sc, Syscall (type sc)
        (SysMsg (sender (msg sc)) (receiver (msg sc))
           (put_request PROC_KILLALL (req_junk u) (content (msg sc)))) (retval sc));
  _ ← sc_update (set_sc_type SYS_SEND);
  _ ← modify (set_procs (proc_set_requesting (pid p)));
  modify (set_procs (alter (with_mepc (proc_idle u)) (Z.to_nat i))).

(** The loop of [special_handle] from entry [i] on, [n] entries left: whether
    it returned early, and [killall_sent]. *)
Fixpoint special_loop (u : kparams) (n : nat) (i : Z) (killall_sent : bool)
    : M (kernel E) (bool * bool) :=
  match n with
  | O => mret (false, killall_sent)
  | S n =>
      p ← gets (λ k, proc_at k i);
      if (pid p <=? GPID_SHELL) && negb (bool_decide (status p = PROC_UNUSED))
         && negb (bool_decide (status p = PROC_REQUESTING))
      then mret (true, killall_sent)
      else if negb (killable p) || bool_decide (status p = PROC_UNUSED)
      then special_loop u n (i + 1) killall_sent
      else if killall_sent then
        _ ← modify (set_procs (proc_set_zombie (pid p)));
        special_loop u n (i + 1) killall_sent
      else
        _ ← report u i p;
        special_loop u n (i + 1) true
  end.

(** The text printed for Ctrl-C, caret, [C] and newline. *)
Definition ctrl_c_text : string :=
  String.append "^C" (String.String (Ascii.ascii_of_nat 10) String.EmptyString).

Definition special_handle (u : kparams) : M (kernel E) unit :=
  '(returned, killall_sent) ← special_loop u nprocess 0 false;
  if negb returned && killall_sent then
    _ ← on_earth (eprintf ctrl_c_text); _ ← on_earth etty_read_tail; mret tt
  else mret tt.

(** [for (int i = 0; i < MAX_NPROCESS; i++)] of [external_handle]. *)
Fixpoint requesting_loop (n : nat) (i : Z) : M (kernel E) unit :=
  match n with
  | O => mret tt
  | S n =>
      p ← gets (λ k, proc_at k i);
      _ ← (if decide (status p = PROC_REQUESTING) then
             _ ← modify (set_curr i);
             _ ← on_earth (mmu_switch (pid p));
             syscall_handle
           else mret tt);
      requesting_loop n (i + 1)
  end.

Definition external_handle (u : kparams) : M (kernel E) Z :=
  rc ← on_earth trap_external;
  orig_proc_idx ← gets proc_curr_idx;
  _ ← (if rc =? RET_SPECIAL_CHAR then special_handle u else mret tt);
  _ ← requesting_loop nprocess 0;
  _ ← modify (set_curr orig_proc_idx);
  p ← gets curr_pid;
  _ ← on_earth (mmu_switch p);
  mret 0.

Definition proc_wait (u : kparams) : M (kernel E) unit :=
  mie ← on_earth (csr_read MIE);
  _ ← on_earth (csr_write MIE (Z.land mie (Z.lnot 0x88)));
  _ ← on_earth wfi;
  _ ← on_earth (csr_write MIE (Z.lor mie 0x88));
  _ ← external_handle u;
  mret tt.

(** ** The scheduler *)

Definition can_run (st : proc_status) : bool :=
  bool_decide (st = PROC_READY) || bool_decide (st = PROC_RUNNING)
  || bool_decide (st = PROC_RUNNABLE).

(** [for (int i = 1; i <= MAX_NPROCESS; i++)]: the index and the status of the
    next process that can run, from [i] on with [n] rounds left. *)
Fixpoint next_loop (ps : table) (curr : Z) (n : nat) (i : Z) : option (Z * proc_status) :=
  match n with
  | O => None
  | S n =>
      let idx := (curr + i) mod MAX_NPROCESS in
      let st := status (ps !!! Z.to_nat idx) in
      if can_run st then Some (idx, st) else next_loop ps curr n (i + 1)
  end.
Definition find_next (ps : table) (curr : Z) : option (Z * proc_status) :=
  next_loop ps curr nprocess 1.

(** [while (next_idx == -1)] *)
Fixpoint yield_loop (u : kparams) (wakeups : nat) : M (kernel E) (Z * proc_status) :=
  next ← gets (λ k, find_next (proc_set k) (proc_curr_idx k));
  match next with
  | Some r => mret r
  | None =>
      match wakeups with
      | O => spin
      | S wakeups => _ ← proc_wait u; yield_loop u wakeups
      end
  end.

(** Stop the current process and enter or resume entry [next_idx]. *)
Definition switch_to (next_idx : Z) (next_status : proc_status) : M (kernel E) resume :=
  st ← gets curr_status;
  p ← gets curr_pid;
  _ ← (if decide (st = PROC_RUNNING) then modify (set_procs (proc_set_runnable p)) else mret tt);
  _ ← modify (set_curr next_idx);
  p ← gets curr_pid;
  _ ← on_earth (mmu_switch p);
  _ ← on_earth timer_reset;
  _ ← modify (set_procs (proc_set_running p));
  if decide (next_status = PROC_READY) then
    _ ← on_earth etty_user_mode;
    _ ← on_earth (csr_write MEPC APPS_ENTRY);
    mret (EnterApp APPS_ARG (APPS_ARG + 4))
  else mret CtxJump.

Definition proc_yield (u : kparams) (wakeups : nat) : M (kernel E) resume :=
  _ ← external_handle u;
  '(next_idx, next_status) ← yield_loop u wakeups;
  switch_to next_idx next_status.

Definition proc_syscall (u : kparams) (wakeups : nat) : M (kernel E) resume :=
  _ ← syscall_handle; proc_yield u wakeups.

Definition proc_external (u : kparams) (wakeups : nat) : M (kernel E) resume :=
  _ ← external_handle u; proc_yield u wakeups.

(** ** Entry from a trap *)

Definition ctx_entry (kernel_entry : M (kernel E) resume) : M (kernel E) resume :=
  m ← on_earth (csr_read MEPC);
  s ← on_earth (csr_read MSCRATCH);
  i ← gets proc_curr_idx;
  _ ← modify (set_procs (alter (with_context s m) (Z.to_nat i)));
  r ← kernel_entry;
  match r with
  | EnterApp _ _ => mret r
  | CtxJump =>
      p ← gets (λ k, proc_at k (proc_curr_idx k));
      _ ← on_earth (csr_write MEPC (mepc p));
      _ ← on_earth (csr_write MSCRATCH (sp p));
      _ ← on_earth etty_user_mode;
      mret CtxJump
  end.

Definition intr_entry (u : kparams) (wakeups : nat) (id : Z) : M (kernel E) resume :=
  p ← gets curr_pid;
  if (id =? INTR_ID_TIMER) && (p <? GPID_SHELL) then
    _ ← on_earth timer_reset;
    _ ← on_earth etty_user_mode;
    mret CtxJump
  else if id =? INTR_ID_SOFT then ctx_entry (proc_syscall u wakeups)
  else if id =? INTR_ID_TIMER then ctx_entry (proc_yield u wakeups)
  else if id =? INTR_ID_EXTERNAL then ctx_entry (proc_external u wakeups)
  else fatal "intr_entry: unknown interrupt".

(** The body has only comments. *)
Definition excp_entry (id : Z) : M (kernel E) unit := mret tt.

(** [trap_entry] of earth/cpu_intr.c with the kernel's handlers registered.
    [excp_entry] returns, and then [trap_entry] returns as well: [None]
    is that C return, which nothing turns into a return from the trap. *)
Definition trap_entry (u : kparams) (wakeups : nat) : M (kernel E) (option resume) :=
  _ ← on_earth etty_kernel_mode;
  mcause ← on_earth (csr_read MCAUSE);
  let id := Z.land mcause 0x3FF in
  if Z.land mcause (Z.shiftl 1 31) =? 0 then _ ← excp_entry id; mret None
  else r ← intr_entry u wakeups id; mret (Some r).

Definition kernel_init : M (kernel E) unit :=
  m ← gets KERNEL_MSG_BUFF;
  modify (set_kmsg (KernelMsg 0 (ksender m) (kreceiver m) (kmsg m))).
End kernel.
