(* ===== verification/KernelInv.v ===== *)
(** * The kernel's invariant and the effect of its handlers

    [kernel_wf]: the process table is well formed and the current index is the
    entry of a process.  The lemmas give the effect of system calls and of
    external interrupts on the process table, on the system call areas and on
    the message in transit. *)

From S2P Require Import Prelude Layout Blocks Earth Process Kernel.

Section inv.
Context {E : Type} `{!Earth E, !EarthLaws E}.
Implicit Types k : kernel E.

Record kernel_wf k : Prop := {
  kw_table : table_wf (proc_set k) (proc_nprocs k);
  kw_curr : 0 ≤ proc_curr_idx k < MAX_NPROCESS;
  kw_pid : 0 < curr_pid k;
  kw_use : in_use (KERNEL_MSG_BUFF k) = 0 ∨ in_use (KERNEL_MSG_BUFF k) = 1;
  kw_earth : earth_ok (earth k);
}.

(** The entry of the current process. *)
Lemma curr_lookup k :
  kernel_wf k → proc_set k !! Z.to_nat (proc_curr_idx k) = Some (proc_at k (proc_curr_idx k)).
Proof.
  intros [[W1 _ _ _ _ _] W _ _ _]. apply list_lookup_lookup_total_lt. rewrite W1.
  unfold nprocess. lia.
Qed.

Lemma entry_lookup k i :
  kernel_wf k → 0 ≤ i < MAX_NPROCESS → proc_set k !! Z.to_nat i = Some (proc_at k i).
Proof.
  intros [[W1 _ _ _ _ _] _ _ _ _] Hi. apply list_lookup_lookup_total_lt. rewrite W1.
  unfold nprocess. lia.
Qed.

(** ** Calls of the earth layer *)

Lemma returns_earth {A} (m : M E A) k (Q : A → kernel E → Prop) :
  returns m (earth k) (λ a e, Q a (set_earth e k)) → returns (on_earth m) k Q.
Proof. intros (a & e & E1 & HQ). exists a, (set_earth e k). unfold on_earth. by rewrite E1. Qed.

Lemma returns_keeps {A} (m : M E A) k (Q : A → kernel E → Prop) :
  keeps_view earth_ok as_of sc_of csr_of m → earth_ok (earth k) →
  (∀ a e, same_view earth_ok as_of sc_of csr_of (earth k) e → Q a (set_earth e k)) →
  returns (on_earth m) k Q.
Proof.
  intros Hm Hok HQ. apply returns_earth. destruct (Hm (earth k) Hok) as (a & e & E1 & Hv).
  exists a, e. auto.
Qed.

Lemma returns_sc_get k Q :
  Q (sc_of (earth k) (as_of (earth k))) k → returns (on_earth sc_get) k Q.
Proof.
  intros HQ. apply returns_earth. eexists _, _. split; [apply sc_get_law|]. by destruct k.
Qed.

(** The system call areas after the one of the address space in force was
    changed by [f]. *)
Record sc_changed (f : syscall → syscall) (e e' : E) : Prop := {
  sch_ok : earth_ok e';
  sch_as : as_of e' = as_of e;
  sch_here : sc_of e' (as_of e) = f (sc_of e (as_of e));
  sch_other q : q ≠ as_of e → sc_of e' q = sc_of e q;
  sch_csr c : csr_of e' c = csr_of e c;
}.

(** [sc_update] on the earth layer alone. *)
Definition area_update (f : syscall → syscall) : M E unit := sc ← sc_get; sc_set (f sc).

Lemma returns_sc_update_eq f k (Q : unit → kernel E → Prop) :
  earth_ok (earth k) →
  (∀ e, area_update f (earth k) = Ret tt e → sc_changed f (earth k) e → Q tt (set_earth e k)) →
  returns (sc_update f) k Q.
Proof.
  intros Hok HQ. unfold sc_update. apply returns_bind, returns_sc_get, returns_earth.
  destruct (sc_set_law (f (sc_of (earth k) (as_of (earth k)))) (earth k) Hok)
    as (e & E1 & O & A & S1 & S2 & C).
  exists tt, e. split; [done|]. apply HQ; [|by split]. unfold area_update.
  by mrun (sc_get_law (earth k)).
Qed.

Lemma returns_sc_update f k (Q : unit → kernel E → Prop) :
  earth_ok (earth k) →
  (∀ e, sc_changed f (earth k) e → Q tt (set_earth e k)) → returns (sc_update f) k Q.
Proof. intros Hok HQ. apply returns_sc_update_eq; auto. Qed.

Lemma returns_switch p k (Q : Z → kernel E → Prop) :
  earth_ok (earth k) →
  (∀ rc e, earth_ok e → as_of e = p → (∀ q, sc_of e q = sc_of (earth k) q) →
     (∀ c, csr_of e c = csr_of (earth k) c) → Q rc (set_earth e k)) →
  returns (on_earth (mmu_switch p)) k Q.
Proof.
  intros Hok HQ. apply returns_earth.
  destruct (mmu_switch_law p (earth k) Hok) as (rc & e & E1 & O & A & S & C). exists rc, e. auto.
Qed.

(** ** System calls *)

(** Requests that only concern the message buffer, [y_send] and [y_recv]: the
    system call area and the buffer when the request is served, [None] when it
    has to be tried again.  A request of no known type is never served. *)
Definition serve_msg (p : Z) (sc : syscall) (m : kernel_msg) : option (sys_msg * kernel_msg) :=
  if type sc =? SYS_RECV then
    if (in_use m =? 0) || negb (kreceiver m =? p) then None
    else Some (SysMsg (ksender m) (receiver (msg sc)) (kmsg m),
               KernelMsg 0 (ksender m) (kreceiver m) (kmsg m))
  else if type sc =? SYS_SEND then
    if in_use m =? 1 then None
    else Some (msg sc, KernelMsg 1 p (receiver (msg sc)) (content (msg sc)))
  else None.

Definition is_tty (sc : syscall) : bool := (type sc =? TTY_READ) || (type sc =? TTY_WRITE).

(** The outcome of a request [sc] of process [p] with [m] in the buffer, by the
    result [rc] of the function that serves it: the status of the process, the
    buffer, and the system call area.  Only a process that has its character
    stored into its own system call area can find something else there. *)
Inductive sys_outcome (p : Z) (sc : syscall) (m : kernel_msg)
    : Z → proc_status → kernel_msg → syscall → Prop :=
| so_served msg' m' :
    serve_msg p sc m = Some (msg', m') →
    sys_outcome p sc m 0 PROC_RUNNABLE m' (Syscall SYS_UNUSED msg' 0)
| so_later :
    serve_msg p sc m = None →
    sys_outcome p sc m (-1) PROC_REQUESTING m (Syscall (type sc) (msg sc) 0)
| so_tty_read sc' :
    type sc = TTY_READ →
    (¬ in_area (msg_ptr (content (msg sc))) → sc' = Syscall SYS_UNUSED (msg sc) 0) →
    sys_outcome p sc m 0 PROC_RUNNABLE m sc'
| so_tty_written :
    type sc = TTY_WRITE → sys_outcome p sc m 0 PROC_RUNNABLE m (Syscall SYS_UNUSED (msg sc) 0)
| so_tty_refused :
    type sc = TTY_WRITE → sys_outcome p sc m (-2) PROC_RUNNABLE m (Syscall SYS_UNUSED (msg sc) (-1)).

(** What [syscall_handle] does to the earth layer before it serves the request,
    and the call of the tty that serves one. *)
Definition clear_request : M E unit :=
  _ ← area_update (set_sc_retval 0);
  _ ← area_update (set_sc_type SYS_UNUSED);
  msip_clear.
Definition tty_call (sc : syscall) : M E Z :=
  let c := content (msg sc) in
  if type sc =? TTY_READ then etty_read (msg_ptr c) else etty_write (msg_ptr c) (msg_len c).

(** [rc] is what the tty returned for a request of the tty; nothing more is done
    to the earth layer when it is 0. *)
Definition tty_served (e : E) (sc : syscall) (rc : Z) (e' : E) : Prop :=
  is_tty sc = true →
  ∃ e1 e2, clear_request e = Ret tt e1 ∧ tty_call sc e1 = Ret rc e2 ∧ (rc = 0 → e' = e2).

(** The effect of [syscall_handle] in a state where process [p] is current. *)
Record handled k k' (p : Z) : Prop := {
  hd_ok : earth_ok (earth k');
  hd_curr : proc_curr_idx k' = proc_curr_idx k;
  hd_nprocs : proc_nprocs k' = proc_nprocs k;
  hd_as : as_of (earth k') = as_of (earth k);
  hd_other q : q ≠ p → sc_of (earth k') q = sc_of (earth k) q;
  hd_csr c : csr_of (earth k') c = csr_of (earth k) c;
  hd_out : ∃ st rc,
    proc_set k' = <[Z.to_nat (proc_curr_idx k) :=
                      with_status st (proc_at k (proc_curr_idx k))]> (proc_set k) ∧
    sys_outcome p (sc_of (earth k) p) (KERNEL_MSG_BUFF k)
      rc st (KERNEL_MSG_BUFF k') (sc_of (earth k') p) ∧
    tty_served (earth k) (sc_of (earth k) p) rc (earth k');
}.

(** The state in which a request is served: its type is cleared, its process
    is marked. *)
Record entered k k1 (p : Z) : Prop := {
  en_ok : earth_ok (earth k1);
  en_curr : proc_curr_idx k1 = proc_curr_idx k;
  en_nprocs : proc_nprocs k1 = proc_nprocs k;
  en_buff : KERNEL_MSG_BUFF k1 = KERNEL_MSG_BUFF k;
  en_table : proc_set k1 = proc_set_requesting p (proc_set k);
  en_as : as_of (earth k1) = p;
  en_here : sc_of (earth k1) p = Syscall SYS_UNUSED (msg (sc_of (earth k) p)) 0;
  en_other q : q ≠ p → sc_of (earth k1) q = sc_of (earth k) q;
  en_csr c : csr_of (earth k1) c = csr_of (earth k) c;
  en_clear : clear_request (earth k) = Ret tt (earth k1);
}.

(** Setting the status of the current process twice. *)
Lemma set_status_twice x st st' (ps : table) :
  proc_set_status x st (proc_set_status x st' ps) = proc_set_status x st ps.
Proof.
  unfold proc_set_status. rewrite <-list_fmap_compose. apply list_fmap_ext.
  intros i p _. simpl. destruct (pid p =? x) eqn:Eb; simpl; [|by rewrite Eb].
  by rewrite Eb.
Qed.

Lemma curr_set_status k st :
  kernel_wf k →
  proc_set_status (curr_pid k) st (proc_set k) =
  <[Z.to_nat (proc_curr_idx k) := with_status st (proc_at k (proc_curr_idx k))]> (proc_set k).
Proof.
  intros Hwf. eapply proc_set_status_insert; [apply Hwf|by apply curr_lookup|done|apply Hwf].
Qed.

(** What serving a request of [p] leaves alone. *)
Record kframe k k' (p : Z) : Prop := {
  kf_ok : earth_ok (earth k');
  kf_set : proc_set k' = proc_set k;
  kf_curr : proc_curr_idx k' = proc_curr_idx k;
  kf_nprocs : proc_nprocs k' = proc_nprocs k;
  kf_as : as_of (earth k') = as_of (earth k);
  kf_other q : q ≠ p → sc_of (earth k') q = sc_of (earth k) q;
  kf_csr c : csr_of (earth k') c = csr_of (earth k) c;
}.

(** The result of the function that serves a request of [p] with contents [sc]. *)
Definition serve_post k1 (p : Z) (sc : syscall) (m : kernel_msg) (rc : Z) k2 : Prop :=
  kframe k1 k2 p ∧
  (is_tty sc = true → tty_call sc (earth k1) = Ret rc (earth k2)) ∧
  (rc = 0 ∧ sys_outcome p sc m 0 PROC_RUNNABLE (KERNEL_MSG_BUFF k2) (sc_of (earth k2) p) ∨
   (rc = -1 ∧ serve_msg p sc m = None ∨ rc = -2 ∧ type sc = TTY_WRITE) ∧
   KERNEL_MSG_BUFF k2 = m ∧ sc_of (earth k2) p = sc_of (earth k1) p).

Section serve.
Context (k k1 : kernel E) (p : Z) (En : entered k k1 p) (Hp : curr_pid k1 = p).
Local Abbreviation sc := (sc_of (earth k) p).
Local Abbreviation m := (KERNEL_MSG_BUFF k).

Lemma serve_later rc :
  rc = -1 → is_tty sc = false → serve_msg p sc m = None → serve_post k1 p sc m rc k1.
Proof.
  intros -> Hty Hs. split; [split; try done; apply En|]. split; [by rewrite Hty|].
  right. split; [by left|]. split; [apply En|done].
Qed.

Lemma y_send_spec :
  type sc = SYS_SEND → returns y_send k1 (serve_post k1 p sc m).
Proof.
  intros Ht. unfold y_send. apply returns_bind. rstep. rewrite (en_buff _ _ _ En).
  destruct (in_use m =? 1) eqn:Eu.
  - rstep. apply serve_later; [done|unfold is_tty; by rewrite Ht|]. unfold serve_msg. by rewrite Ht, Eu.
  - rstep. rewrite Hp. apply returns_sc_get. rewrite (en_as _ _ _ En), (en_here _ _ _ En).
    rstep. simpl. split; [split; try done; apply En|].
    split; [unfold is_tty; by rewrite Ht|]. left. split; [done|]. simpl.
    rewrite (en_here _ _ _ En). apply so_served. unfold serve_msg. by rewrite Ht, Eu.
Qed.

Lemma y_recv_spec :
  type sc = SYS_RECV → returns y_recv k1 (serve_post k1 p sc m).
Proof.
  intros Ht. unfold y_recv. apply returns_bind. rstep. rewrite (en_buff _ _ _ En), Hp.
  destruct ((in_use m =? 0) || negb (kreceiver m =? p)) eqn:Eu.
  - rstep. apply serve_later; [done|unfold is_tty; by rewrite Ht|]. unfold serve_msg. by rewrite Ht, Eu.
  - rstep. apply returns_sc_get. simpl. rewrite (en_as _ _ _ En), (en_here _ _ _ En).
    rstep. apply returns_earth. simpl.
    destruct (sc_set_law (Syscall SYS_UNUSED (SysMsg (ksender m) (receiver (msg sc)) (kmsg m)) 0)
      (earth k1) (en_ok _ _ _ En)) as (e & E1 & O & A & S1 & S2 & C).
    rewrite (en_as _ _ _ En) in *.
    exists tt, e. split; [done|]. rstep. split; [split; simpl; try done; by rewrite (en_as _ _ _ En)|].
    split; [unfold is_tty; by rewrite Ht|].
    left. split; [done|]. simpl. rewrite S1. apply so_served. unfold serve_msg. by rewrite Ht, Eu.
Qed.

Lemma proc_tty_read_spec :
  type sc = TTY_READ → returns proc_tty_read k1 (serve_post k1 p sc m).
Proof.
  intros Ht. unfold proc_tty_read. apply returns_bind, returns_sc_get, returns_earth.
  destruct (tty_read_law (msg_ptr (content (msg (sc_of (earth k1) (as_of (earth k1))))))
    (earth k1) (en_ok _ _ _ En)) as (rc & e & E1 & O & Hrc & A & S1 & C).
  rewrite (en_as _ _ _ En), (en_here _ _ _ En) in *. exists rc, e. split; [done|].
  split; [split; simpl; try done; [by rewrite (en_as _ _ _ En)|auto]|].
  split; [intros _; unfold tty_call; by rewrite Ht|].
  destruct Hrc as [->| ->].
  - left. split; [done|]. simpl. rewrite (en_buff _ _ _ En). apply so_tty_read; [done|].
    intros Ha. rewrite S1 by (by right; right). apply (en_here _ _ _ En).
  - right. split; [left; split; [done|unfold serve_msg; by rewrite Ht]|].
    split; [apply En|]. apply S1. by right; left.
Qed.

Lemma proc_tty_write_spec :
  type sc = TTY_WRITE → returns proc_tty_write k1 (serve_post k1 p sc m).
Proof.
  intros Ht. unfold proc_tty_write. apply returns_bind, returns_sc_get, returns_earth.
  rewrite (en_as _ _ _ En), (en_here _ _ _ En). cbn [msg]. set (c := content _).
  destruct (tty_write_law (msg_ptr c) (msg_len c) (earth k1) (en_ok _ _ _ En))
    as (rc & e & E1 & Hrc & [O A S1 C]).
  exists rc, e. split; [done|]. split; [by split|]. split; [intros _; unfold tty_call; by rewrite Ht|].
  simpl.
  destruct Hrc as [->|[->| ->]].
  - left. split; [done|]. rewrite S1, (en_buff _ _ _ En), (en_here _ _ _ En).
    by apply so_tty_written.
  - right. split; [left; split; [done|unfold serve_msg; by rewrite Ht]|].
    split; [apply En|apply S1].
  - right. split; [by right|]. split; [apply En|apply S1].
Qed.

Lemma serve_spec :
  returns (if type sc =? SYS_RECV then y_recv
           else if type sc =? SYS_SEND then y_send
           else if type sc =? TTY_READ then proc_tty_read
           else if type sc =? TTY_WRITE then proc_tty_write
           else mret (-1)) k1 (serve_post k1 p sc m).
Proof.
  destruct (Z.eqb_spec (type sc) SYS_RECV) as [H1|H1]; [by apply y_recv_spec|].
  destruct (Z.eqb_spec (type sc) SYS_SEND) as [H2|H2]; [by apply y_send_spec|].
  destruct (Z.eqb_spec (type sc) TTY_READ) as [H3|H3]; [by apply proc_tty_read_spec|].
  destruct (Z.eqb_spec (type sc) TTY_WRITE) as [H4|H4]; [by apply proc_tty_write_spec|].
  rstep. apply serve_later; [done|unfold is_tty|unfold serve_msg].
  - by rewrite (proj2 (Z.eqb_neq _ _) H3), (proj2 (Z.eqb_neq _ _) H4).
  - by rewrite (proj2 (Z.eqb_neq _ _) H1), (proj2 (Z.eqb_neq _ _) H2).
Qed.
End serve.

(** The current process keeps its pid when statuses change. *)
Lemma curr_pid_set_status k x st :
  kernel_wf k → curr_pid (set_procs (proc_set_status x st) k) = curr_pid k.
Proof.
  intros Hwf. unfold curr_pid, proc_at. simpl. rewrite list_lookup_total_alt.
  rewrite proc_set_status_lookup, curr_lookup by done. simpl.
  by destruct (_ =? _).
Qed.

(** The end of [syscall_handle]: the process becomes runnable or keeps
    requesting, according to the result [rc]. *)
Definition finish (p ty rc : Z) : M (kernel E) unit :=
  if rc =? 0 then modify (set_procs (proc_set_runnable p))
  else if rc =? -1 then sc_update (set_sc_type ty)
  else
    _ ← modify (set_procs (proc_set_runnable p));
    sc_update (set_sc_retval (-1)).

Lemma finish_spec k k1 k2 rc :
  let p := curr_pid k in let sc := sc_of (earth k) p in
  kernel_wf k → as_of (earth k) = p → entered k k1 p → serve_post k1 p sc (KERNEL_MSG_BUFF k) rc k2 →
  returns (finish p (type sc) rc) k2 (λ _ k', handled k k' p).
Proof.
  intros p sc Hwf Has En [[F0 F1 F2 F3 F4 F5 F6] [Hcall Hpost]].
  assert (Hl : ∀ e', (rc = 0 → e' = earth k2) → tty_served (earth k) sc rc e').
  { intros e' He Hty. exists (earth k1), (earth k2). split; [apply En|auto]. }
  rewrite (en_curr _ _ _ En) in F2. rewrite (en_nprocs _ _ _ En) in F3.
  rewrite (en_as _ _ _ En) in F4.
  assert (Hset : ∀ st, proc_set_status p st (proc_set k2) =
    <[Z.to_nat (proc_curr_idx k) := with_status st (proc_at k (proc_curr_idx k))]> (proc_set k)).
  { intros st. rewrite F1, (en_table _ _ _ En). unfold proc_set_requesting.
    rewrite set_status_twice. by apply curr_set_status. }
  assert (Hreq : proc_set k2 = <[Z.to_nat (proc_curr_idx k) :=
    with_status PROC_REQUESTING (proc_at k (proc_curr_idx k))]> (proc_set k)).
  { rewrite F1, (en_table _ _ _ En). by apply curr_set_status. }
  unfold finish. destruct Hpost as [[-> Hout]|([[-> Hs]|[-> Ht]] & Hm & Hsc)]; simpl.
  - rstep. split; simpl; try congruence.
    + intros q Hq. rewrite F5 by done. by apply En.
    + intros c. rewrite F6. apply En.
    + exists PROC_RUNNABLE, 0. split; [apply Hset|]. split; [done|]. by apply Hl.
  - apply returns_sc_update; [done|]. intros e4 [K4 A4 H4 O4 C4].
    rewrite F4 in *. split; simpl; try congruence.
    + intros q Hq. rewrite O4, F5 by done. by apply En.
    + intros c. rewrite C4, F6. apply En.
    + exists PROC_REQUESTING, (-1). split; [done|]. rewrite H4, Hsc, (en_here _ _ _ En), Hm.
      split; [by apply so_later|by apply Hl].
  - apply returns_bind, returns_modify, returns_sc_update; [done|]. simpl.
    intros e4 [K4 A4 H4 O4 C4].
    rewrite F4 in *. split; simpl; try congruence.
    + intros q Hq. rewrite O4, F5 by done. by apply En.
    + intros c. rewrite C4, F6. apply En.
    + exists PROC_RUNNABLE, (-2). split; [apply Hset|]. rewrite H4, Hsc, (en_here _ _ _ En), Hm.
      split; [by apply so_tty_refused|by apply Hl].
Qed.

Lemma syscall_handle_spec k :
  kernel_wf k → as_of (earth k) = curr_pid k →
  returns syscall_handle k (λ _ k', handled k k' (curr_pid k)).
Proof.
  intros Hwf Has. set (p := curr_pid k) in *. unfold syscall_handle.
  apply returns_bind, returns_sc_get. rewrite Has. cbv zeta. set (sc := sc_of (earth k) p).
  apply returns_bind, returns_sc_update_eq; [apply Hwf|]. intros e1 E1 [K1 A1 H1 O1 C1].
  apply returns_bind, returns_sc_update_eq; [done|]. simpl. intros e2 E2 [K2 A2 H2 O2 C2].
  destruct (msip_clear_law e2 K2) as ([] & e3 & E3 & [K3 A3 S3 C3]).
  apply returns_bind, returns_earth. exists tt, e3. split; [done|].
  rewrite A1, Has in *. simpl in *.
  assert (Hp3 : curr_pid (set_earth e3 (set_earth e2 (set_earth e1 k))) = p) by done.
  rstep. rewrite Hp3. rstep.
  set (k1 := set_procs (proc_set_requesting p) _).
  assert (En : entered k k1 p).
  { split; try done; simpl.
    - congruence.
    - rewrite S3, H2, H1. done.
    - intros q Hq. rewrite S3, O2, O1 by done. done.
    - intros c. rewrite C3, C2, C1. done.
    - unfold clear_request. mrun E1. mrun E2. done. }
  assert (Hp1 : curr_pid k1 = p) by (apply (curr_pid_set_status k); done).
  eapply returns_mono; [by apply serve_spec|]. intros rc k2 Hpost.
  by apply (finish_spec k k1 k2 rc).
Qed.

(** ** What handlers may do to the table *)

(** A request was served. *)
Definition progress (p p' : process) : Prop :=
  p' = p ∨ status p = PROC_REQUESTING ∧ p' = with_status PROC_RUNNABLE p.

(** Anything an external interrupt may do to an entry.  Only Ctrl-C changes the
    place where a process goes on, to [idle], and only for a user process. *)
Record ext_rel (idle : Z) (p p' : process) : Prop := {
  er_same : same_proc p p';
  er_sp : sp p' = sp p;
  er_mepc : mepc p' = mepc p ∨ killable p = true ∧ mepc p' = idle;
  er_unused : status p = PROC_UNUSED → p' = p;
  er_status : status p' = status p ∨
    status p' = PROC_ZOMBIE ∨ status p' = PROC_REQUESTING ∨ status p' = PROC_RUNNABLE;
}.

#[export] Instance progress_preorder : PreOrder progress.
Proof.
  split; [by left|]. intros p q r [->|[H1 ->]] [->|[H2 ->]]; [by left|by right|by right|done].
Qed.
#[export] Instance ext_rel_preorder idle : PreOrder (ext_rel idle).
Proof.
  split.
  - intros p. split; auto. done.
  - intros p q r [[A1 A2] A3 A6 A4 A5] [[B1 B2] B3 B6 B4 B5]. split; [split; congruence|congruence| | |].
    + rewrite A2 in B6. destruct B6 as [->|B6]; auto.
    + intros H. pose proof (A4 H) as ->. by apply B4.
    + destruct B5 as [->|B5]; auto.
Qed.

Lemma progress_ext idle p p' : progress p p' → ext_rel idle p p'.
Proof. intros [->|[H ->]]; [done|]. split; simpl; auto; [done|congruence]. Qed.

(** Related tables: well-formedness carries over. *)
Lemma table_wf_ext idle ps ps' n :
  Forall2 (ext_rel idle) ps ps' → table_wf ps n → table_wf ps' n.
Proof.
  intros HF [W1 W2 W3 W4 W5 W6].
  assert (Hl : ∀ i p', ps' !! i = Some p' → ∃ p, ps !! i = Some p ∧ ext_rel idle p p').
  { intros i p' Hp. by apply (Forall2_lookup_r _ _ _ _ _ HF) in Hp. }
  split; [by rewrite <-(Forall2_length _ _ _ HF)|done|..].
  - intros i p' Hp. destruct (Hl i p' Hp) as (p & Hp0 & [[-> _] _ _ _ _]). eauto.
  - intros i p' Hp Hs. destruct (Hl i p' Hp) as (p & Hp0 & [[-> _] _ _ Hu _]).
    eapply W4; [done|]. intros Hst. apply Hs. by rewrite (Hu Hst).
  - intros i j p' q' Hp Hq Hpos Heq.
    destruct (Hl i p' Hp) as (p & Hp0 & [[E1 _] _ _ _ _]), (Hl j q' Hq) as (q & Hq0 & [[E2 _] _ _ _ _]).
    eapply (W5 i j p q); [done..|lia|congruence].
  - intros i p' Hp Hpos. destruct (Hl i p' Hp) as (p & Hp0 & [[E1 E2] _ _ _ _]).
    rewrite E1, E2 in *. by eapply W6.
Qed.

Lemma kernel_wf_ext idle k k' :
  kernel_wf k → Forall2 (ext_rel idle) (proc_set k) (proc_set k') → proc_nprocs k' = proc_nprocs k →
  proc_curr_idx k' = proc_curr_idx k →
  (in_use (KERNEL_MSG_BUFF k') = 0 ∨ in_use (KERNEL_MSG_BUFF k') = 1) → earth_ok (earth k') →
  kernel_wf k' ∧ curr_pid k' = curr_pid k.
Proof.
  intros Hwf HF Hn Hc Hu Hok. pose proof (curr_lookup k Hwf) as Hl.
  destruct (Forall2_lookup_l _ _ _ _ _ HF Hl) as (p' & Hp' & [[Hpid _] _ _ _ _]).
  assert (Hcp : curr_pid k' = curr_pid k).
  { unfold curr_pid at 1, proc_at. rewrite Hc.
    by rewrite (list_lookup_total_correct _ _ _ Hp'). }
  destruct Hwf as [W1 W2 W3 W4 W5]. split; [|done]. split; [|by rewrite Hc|by rewrite Hcp|done..].
  rewrite Hn. by eapply table_wf_ext.
Qed.

(** A served request keeps the kernel well formed. *)
Lemma serve_msg_use p sc m msg' m' :
  serve_msg p sc m = Some (msg', m') → in_use m' = 0 ∨ in_use m' = 1.
Proof. unfold serve_msg. intros H. repeat case_match; simplify_eq; auto. Qed.

Lemma handled_wf idle k k' :
  kernel_wf k → curr_status k = PROC_REQUESTING ∨ curr_status k = PROC_RUNNING →
  handled k k' (curr_pid k) →
  kernel_wf k' ∧ Forall2 (ext_rel idle) (proc_set k) (proc_set k') ∧
  (curr_status k = PROC_REQUESTING → Forall2 progress (proc_set k) (proc_set k')).
Proof.
  intros Hwf Hst [H0 H1 H2 H3 H4 H5 (st & rc & Hset & Hout & _)].
  pose proof (curr_lookup k Hwf) as Hl.
  assert (Hst' : st = PROC_RUNNABLE ∨ st = PROC_REQUESTING) by (destruct Hout; auto).
  assert (HF : Forall2 (ext_rel idle) (proc_set k) (proc_set k')).
  { rewrite Hset. eapply Forall2_insert_self; [apply _|done|].
    split; simpl; [done|done|by left| |destruct Hst' as [->| ->]; auto].
    unfold curr_status in Hst. intros Hu. destruct Hst; congruence. }
  split; [|split; [done|]].
  - apply (kernel_wf_ext idle k); try done.
    inversion Hout; subst; try apply Hwf. by eapply serve_msg_use.
  - intros Hreq. rewrite Hset. eapply Forall2_insert_self; [apply _|done|].
    destruct Hst' as [->| ->]; [by right|left]. unfold with_status.
    unfold curr_status in Hreq. rewrite <-Hreq. by destruct (proc_at _ _).
Qed.

(** A request that can be served is served. *)
Lemma served_inv p sc m msg' m1 rc st m' sc' :
  sys_outcome p sc m rc st m' sc' → serve_msg p sc m = Some (msg', m1) →
  st = PROC_RUNNABLE ∧ m' = m1 ∧ sc' = Syscall SYS_UNUSED msg' 0.
Proof.
  intros Ho Hs. destruct Ho as [msg1 m2 Hs'|Hs'|sc1 Ht _|Ht|Ht].
  - rewrite Hs in Hs'. by injection Hs' as <- <-.
  - by rewrite Hs in Hs'.
  - unfold serve_msg in Hs. by rewrite Ht in Hs.
  - unfold serve_msg in Hs. by rewrite Ht in Hs.
  - unfold serve_msg in Hs. by rewrite Ht in Hs.
Qed.
End inv.
