(* ===== verification/KernelOps.v ===== *)
(** * External interrupts and the scheduler

    The effect of [external_handle], [special_handle] and [proc_yield] of
    Kernel.v: every waiting request is tried again, Ctrl-C stops the user
    processes, and the scheduler takes the next process that can run in round
    robin order. *)

From S2P Require Import Prelude Layout Blocks Earth Process Kernel KernelInv.

Section ops.
Context {E : Type} `{!Earth E, !EarthLaws E}.
Implicit Types k : kernel E.

#[local] Instance Forall2_ext_preorder idle : PreOrder (Forall2 (ext_rel idle)).
Proof. split; [apply _|apply _]. Qed.
#[local] Instance Forall2_progress_preorder : PreOrder (Forall2 progress).
Proof. split; [apply _|apply _]. Qed.

Lemma Forall2_progress_ext idle ps ps' :
  Forall2 progress ps ps' → Forall2 (ext_rel idle) ps ps'.
Proof. intros H. eapply Forall2_impl; [done|]. apply progress_ext. Qed.

(** ** Trying the waiting requests again *)

(** The system call areas of processes that wait for nothing are not touched. *)
Definition idle_sc_same (ps : table) (e e' : E) : Prop :=
  ∀ q, (∀ p, p ∈ ps → pid p = q → status p ≠ PROC_REQUESTING) → sc_of e' q = sc_of e q.

(** A process without a system call keeps its entry: it is neither served nor
    released. *)
Definition stuck_same k k' : Prop := ∀ q,
  type (sc_of (earth k) q) = SYS_UNUSED →
  type (sc_of (earth k') q) = SYS_UNUSED ∧
  ∀ i p, proc_set k !! i = Some p → pid p = q → proc_set k' !! i = Some p.

Lemma unused_outcome p sc m rc st m' sc' :
  sys_outcome p sc m rc st m' sc' → type sc = SYS_UNUSED →
  st = PROC_REQUESTING ∧ type sc' = SYS_UNUSED.
Proof.
  intros Ho Ht. destruct Ho as [msg' m1 Hs|Hs|sc1 Ht' _|Ht'|Ht']; try (by rewrite Ht in Ht'); [|done].
  unfold serve_msg in Hs. by rewrite Ht in Hs.
Qed.

(** What [requesting_loop] does. *)
Record retried k k' : Prop := {
  rt_wf : kernel_wf k';
  rt_table : Forall2 progress (proc_set k) (proc_set k');
  rt_nprocs : proc_nprocs k' = proc_nprocs k;
  rt_csr c : csr_of (earth k') c = csr_of (earth k) c;
  rt_sc : idle_sc_same (proc_set k) (earth k) (earth k');
  rt_stuck : stuck_same k k';
}.

Lemma retried_refl k : kernel_wf k → retried k k.
Proof. intros Hwf. by split. Qed.

Lemma retried_trans k1 k2 k3 : retried k1 k2 → retried k2 k3 → retried k1 k3.
Proof.
  intros [A1 A2 A3 A4 A5 A6] [B1 B2 B3 B4 B5 B6]. split; try congruence.
  - by etransitivity.
  - intros q Hq. rewrite B5; [by apply A5|]. intros p2 Hp2 Hpid Hst.
    apply list_elem_of_lookup_1 in Hp2 as [i Hi].
    destruct (Forall2_lookup_r _ _ _ _ _ A2 Hi) as (p1 & Hp1 & [->|[Hs ->]]); [|done].
    apply (Hq p1); [by eapply list_elem_of_lookup_2|done..].
  - intros q Ht. destruct (A6 q Ht) as [Ht2 He2]. destruct (B6 q Ht2) as [Ht3 He3].
    split; [done|]. intros i p Hi Hp. by apply He3; [apply He2|].
Qed.

Lemma set_curr_wf k i :
  kernel_wf k → 0 ≤ i < MAX_NPROCESS → 0 < pid (proc_at k i) → kernel_wf (set_curr i k).
Proof. intros [W1 W2 W3 W4 W5] Hi Hp. by split. Qed.

Lemma used_pid k i :
  kernel_wf k → 0 ≤ i < MAX_NPROCESS → status (proc_at k i) ≠ PROC_UNUSED → 0 < pid (proc_at k i).
Proof. intros Hwf Hi Hs. eapply (tw_used _ _ (kw_table _ Hwf)); [by apply entry_lookup|done]. Qed.

(** One round of [external_handle]'s loop, at entry [i]. *)
Definition requesting_round (i : Z) (p : process) : M (kernel E) unit :=
  if decide (status p = PROC_REQUESTING) then
    _ ← modify (set_curr i);
    _ ← on_earth (mmu_switch (pid p));
    syscall_handle
  else mret tt.

(** The request of a requesting process is tried in its address space. *)
Lemma requesting_handled k i :
  kernel_wf k → 0 ≤ i < MAX_NPROCESS → status (proc_at k i) = PROC_REQUESTING →
  returns (requesting_round i (proc_at k i)) k (λ _ k', ∃ e,
    (∀ q, sc_of e q = sc_of (earth k) q) ∧ (∀ c, csr_of e c = csr_of (earth k) c) ∧
    kernel_wf (set_earth e (set_curr i k)) ∧
    handled (set_earth e (set_curr i k)) k' (pid (proc_at k i))).
Proof.
  intros Hwf Hi Hst. unfold requesting_round. rewrite decide_True by done.
  apply returns_bind, returns_modify, returns_bind, returns_switch; [apply Hwf|].
  simpl. intros _ e O A S C. set (p := proc_at k i) in *.
  set (k1 := set_earth e (set_curr i k)).
  assert (Hpos : 0 < pid p) by (apply used_pid; [done..|]; fold p; congruence).
  assert (Hwf1 : kernel_wf k1) by (destruct Hwf; by split).
  eapply returns_mono; [apply syscall_handle_spec; [done|exact A]|cbv beta].
  intros _ k' Hh. exists e. by split_and!.
Qed.

Lemma requesting_step k i :
  kernel_wf k → 0 ≤ i < MAX_NPROCESS →
  returns (requesting_round i (proc_at k i)) k (λ _ k', retried k k').
Proof.
  intros Hwf Hi. destruct (decide (status (proc_at k i) = PROC_REQUESTING)) as [Hst|Hst];
    [|unfold requesting_round; rewrite decide_False by done; rstep; by apply retried_refl].
  eapply returns_mono; [by apply requesting_handled|cbv beta].
  intros _ k' (e & S & C & Hwf1 & Hh).
  set (p := proc_at k i) in *. set (k1 := set_earth e (set_curr i k)) in *.
  destruct (handled_wf 0 k1 k' Hwf1) as (Hwf' & _ & Hpr); [by left|done|].
  specialize (Hpr Hst). destruct Hh as [_ H1 H2 H3 H4 H5 (st & rc & Hset & Hout & _)]. split; try done.
  - intros c. rewrite H5. apply C.
  - intros q Hq. rewrite H4; [apply S|]. intros ->.
    eapply (Hq p); [|done..]. eapply list_elem_of_lookup_2. by apply entry_lookup.
  - intros q Ht. rewrite <-(S q) in Ht. rewrite Hset. change (proc_at k1 _) with p.
    destruct (decide (q = pid p)) as [->|Hne].
    + destruct (unused_outcome _ _ _ _ _ _ _ Hout Ht) as [-> Ht']. split; [done|].
      intros j r Hj Hr. simpl. destruct (decide (Z.to_nat i = j)) as [<-|Hij].
      * pose proof (entry_lookup k i Hwf Hi) as Hl. rewrite list_lookup_insert_eq
          by (by eapply lookup_lt_Some). rewrite Hl in Hj. injection Hj as <-. f_equal.
        unfold with_status. rewrite <-Hst. fold p. by destruct p.
      * by rewrite list_lookup_insert_ne.
    + rewrite H4 by done. split; [done|]. intros j r Hj Hr. simpl.
      destruct (decide (Z.to_nat i = j)) as [<-|Hij]; [|by rewrite list_lookup_insert_ne].
      rewrite entry_lookup in Hj by done. injection Hj as <-. by destruct Hne.
Qed.

Lemma requesting_loop_spec n : ∀ k i,
  kernel_wf k → 0 ≤ i → i + Z.of_nat n ≤ MAX_NPROCESS →
  returns (requesting_loop n i) k (λ _ k', retried k k').
Proof.
  induction n as [|n IH]; intros k i Hwf Hi Hn; cbn [requesting_loop].
  - rstep. by apply retried_refl.
  - apply returns_bind, returns_gets, returns_bind.
    eapply returns_mono; [apply requesting_step; [done|lia]|cbv beta]. intros _ k1 H1.
    eapply returns_mono; [apply IH; [apply H1|lia|lia]|cbv beta]. intros _ k2 H2.
    by eapply retried_trans.
Qed.

(** ** External interrupts *)

(** What an external interrupt without Ctrl-C does: the current process and
    its address space are in force again. *)
Record external_post k k' : Prop := {
  ep_wf : kernel_wf k';
  ep_curr : proc_curr_idx k' = proc_curr_idx k;
  ep_pid : curr_pid k' = curr_pid k;
  ep_as : as_of (earth k') = curr_pid k;
  ep_nprocs : proc_nprocs k' = proc_nprocs k;
  ep_csr c : csr_of (earth k') c = csr_of (earth k) c;
}.

(** After the requests were tried again, the original process is put back. *)
Lemma restore_spec idle k k1 (R : process → process → Prop) :
  (∀ p p', R p p' → ext_rel idle p p') → Forall2 R (proc_set k) (proc_set k1) →
  kernel_wf k → kernel_wf k1 → proc_nprocs k1 = proc_nprocs k →
  (∀ c, csr_of (earth k1) c = csr_of (earth k) c) →
  returns (_ ← modify (set_curr (proc_curr_idx k)); p ← gets curr_pid;
           _ ← on_earth (mmu_switch p); mret 0) k1
    (λ rc k', rc = 0 ∧ external_post k k' ∧ proc_set k' = proc_set k1 ∧
       KERNEL_MSG_BUFF k' = KERNEL_MSG_BUFF k1 ∧
       ∀ q, sc_of (earth k') q = sc_of (earth k1) q).
Proof.
  intros HR HF Hwf Hwf1 Hn Hc.
  set (k2 := set_curr (proc_curr_idx k) k1).
  destruct (kernel_wf_ext idle k k2) as [Hwf2 Hp2]; try done.
  { eapply Forall2_impl; [exact HF|done]. }
  { apply Hwf1. }
  { apply Hwf1. }
  apply returns_bind, returns_modify, returns_bind, returns_gets, returns_bind, returns_switch;
    [apply Hwf1|].
  fold k2. intros rc e O A S C. rstep. split; [done|]. split; [|done].
  split; simpl; try done; [by destruct Hwf2|by rewrite <-Hp2|].
  intros c. rewrite C. apply Hc.
Qed.

(** ** Ctrl-C *)

(** What [special_handle] leaves alone. *)
Record special_post (u : kparams) k k' : Prop := {
  sl_wf : kernel_wf k';
  sl_table : Forall2 (ext_rel (proc_idle u)) (proc_set k) (proc_set k');
  sl_curr : proc_curr_idx k' = proc_curr_idx k;
  sl_nprocs : proc_nprocs k' = proc_nprocs k;
  sl_buff : KERNEL_MSG_BUFF k' = KERNEL_MSG_BUFF k;
  sl_csr c : csr_of (earth k') c = csr_of (earth k) c;
}.

Lemma special_post_refl u k : kernel_wf k → special_post u k k.
Proof. intros Hwf. by split. Qed.

Lemma special_post_trans u k1 k2 k3 :
  special_post u k1 k2 → special_post u k2 k3 → special_post u k1 k3.
Proof. intros [] []. split; try congruence. by etransitivity. Qed.

(** Replacing an entry in use by a related one, and changing the earth's state. *)
Lemma special_post_entry u k k' i q :
  kernel_wf k → 0 ≤ i < MAX_NPROCESS → ext_rel (proc_idle u) (proc_at k i) q →
  proc_set k' = <[Z.to_nat i:=q]> (proc_set k) →
  proc_curr_idx k' = proc_curr_idx k → proc_nprocs k' = proc_nprocs k →
  KERNEL_MSG_BUFF k' = KERNEL_MSG_BUFF k → earth_ok (earth k') →
  (∀ c, csr_of (earth k') c = csr_of (earth k) c) → special_post u k k'.
Proof.
  intros Hwf Hi Hq Hset Hc Hn Hb Hok Hcsr.
  assert (HF : Forall2 (ext_rel (proc_idle u)) (proc_set k) (proc_set k')).
  { rewrite Hset. eapply Forall2_insert_self; [apply _|by apply entry_lookup|done]. }
  split; try done. apply (kernel_wf_ext (proc_idle u) k); try done. rewrite Hb. apply Hwf.
Qed.

(** The entry of a process that Ctrl-C stops, and of the one that reports it. *)
Definition zombied (p : process) : process := with_status PROC_ZOMBIE p.
Definition reporting (u : kparams) (p : process) : process :=
  with_mepc (proc_idle u) (with_status PROC_REQUESTING p).

Lemma zombied_ext idle p : status p ≠ PROC_UNUSED → ext_rel idle p (zombied p).
Proof. intros H. split; simpl; auto; done. Qed.
Lemma reporting_ext u p :
  killable p = true → status p ≠ PROC_UNUSED → ext_rel (proc_idle u) p (reporting u p).
Proof. intros K H. split; simpl; auto; done. Qed.

(** The system call area of the reporting process: the message is replaced by
    the request, the receiver is left as it was. *)
Definition killall_sc (u : kparams) (sc : syscall) : syscall :=
  Syscall SYS_SEND (SysMsg (sender (msg sc)) (receiver (msg sc))
    (put_request PROC_KILLALL (req_junk u) (content (msg sc)))) (retval sc).

Lemma entry_set_status k i st :
  kernel_wf k → 0 ≤ i < MAX_NPROCESS → status (proc_at k i) ≠ PROC_UNUSED →
  proc_set_status (pid (proc_at k i)) st (proc_set k) =
  <[Z.to_nat i:=with_status st (proc_at k i)]> (proc_set k).
Proof.
  intros Hwf Hi Hs. eapply proc_set_status_insert; [apply Hwf|by apply entry_lookup|done|].
  by apply used_pid.
Qed.

Lemma report_spec u k i (p := proc_at k i) :
  kernel_wf k → 0 ≤ i < MAX_NPROCESS → killable p = true → status p ≠ PROC_UNUSED →
  returns (report u i p) k (λ _ k', special_post u k k' ∧
    proc_set k' = <[Z.to_nat i:=reporting u p]> (proc_set k) ∧
    as_of (earth k') = pid p ∧
    sc_of (earth k') (pid p) = killall_sc u (sc_of (earth k) (pid p)) ∧
    ∀ q, q ≠ pid p → sc_of (earth k') q = sc_of (earth k) q).
Proof.
  intros Hwf Hi Hk Hs. unfold report. fold p.
  apply returns_bind, returns_switch; [apply Hwf|]. intros _ e O A S C.
  apply returns_bind, returns_sc_update; [done|]. simpl. intros e1 [K1 A1 H1 O1 C1].
  rewrite A in *. apply returns_bind, returns_sc_update; [done|]. simpl.
  intros e2 [K2 A2 H2 O2 C2].
  rewrite A1 in *. apply returns_bind, returns_modify, returns_modify.
  assert (Hset : alter (with_mepc (proc_idle u)) (Z.to_nat i)
      (proc_set_requesting (pid p) (proc_set k)) = <[Z.to_nat i:=reporting u p]> (proc_set k)).
  { unfold proc_set_requesting, p. rewrite entry_set_status by done. fold p.
    by rewrite !list_insert_alter, list_alter_alter_eq. }
  split; [|split_and!; simpl].
  - apply (special_post_entry u k _ i (reporting u p)); try done; simpl; [by apply reporting_ext|].
    intros c. rewrite C2, C1. apply C.
  - done.
  - done.
  - rewrite H2, H1, S. done.
  - intros q Hq. rewrite O2, O1 by done. apply S.
Qed.

Lemma special_loop_post u n : ∀ k i sent,
  kernel_wf k → 0 ≤ i → i + Z.of_nat n ≤ MAX_NPROCESS →
  returns (special_loop u n i sent) k (λ _ k', special_post u k k').
Proof.
  induction n as [|n IH]; intros k i sent Hwf Hi Hn; cbn [special_loop].
  { rstep. by apply special_post_refl. }
  apply returns_bind, returns_gets. set (p := proc_at k i) in *.
  destruct (_ && _ && _); [rstep; by apply special_post_refl|].
  destruct (negb (killable p) || bool_decide (status p = PROC_UNUSED)) eqn:Eb;
    [apply IH; [done|lia..]|].
  apply orb_false_iff in Eb as [Hk Hu]. apply bool_decide_eq_false in Hu.
  apply negb_false_iff in Hk. destruct sent.
  - apply returns_bind, returns_modify.
    set (k1 := set_procs _ k).
    assert (H1 : special_post u k k1).
    { eapply (special_post_entry u k _ i (zombied p)); try done; [lia|by apply zombied_ext| |apply Hwf].
      apply entry_set_status; [done|lia|done]. }
    eapply returns_mono; [apply (IH k1); [apply H1|lia..]|cbv beta]. intros _ k2 H2.
    by eapply special_post_trans.
  - apply returns_bind. eapply returns_mono; [apply report_spec; [done|lia|done|done]|cbv beta].
    intros _ k1 [H1 _].
    eapply returns_mono; [apply (IH k1); [apply H1|lia..]|cbv beta]. intros _ k2 H2.
    by eapply special_post_trans.
Qed.

Lemma special_handle_post u k :
  kernel_wf k → returns (special_handle u) k (λ _ k', special_post u k k').
Proof.
  intros Hwf. unfold special_handle. apply returns_bind.
  eapply returns_mono; [apply special_loop_post; [done|lia|done]|cbv beta].
  intros [returned sent] k1 H1. destruct (negb returned && sent); [|by rstep].
  apply returns_bind, returns_keeps; [apply printf_law|apply H1|]. intros _ e1 [O1 A1 S1 C1].
  apply returns_bind, returns_keeps; [apply tty_read_tail_law|done|]. intros _ e2 [O2 A2 S2 C2].
  rstep. eapply special_post_trans; [done|]. destruct H1 as [[] ? ? ? ?].
  split; simpl; try done. intros c. by rewrite C2, <-C1.
Qed.

(** *** Which processes are stopped *)

Definition stoppable (p : process) : bool :=
  killable p && negb (bool_decide (status p = PROC_UNUSED)).

(** The table after Ctrl-C: the first process that can be stopped reports, all
    others become zombies. *)
Fixpoint stopped (u : kparams) (ps : table) (sent : bool) : table * bool :=
  match ps with
  | [] => ([], sent)
  | p :: ps =>
      if stoppable p then
        let '(r, b) := stopped u ps true in
        ((if sent then zombied p else reporting u p) :: r, b)
      else let '(r, b) := stopped u ps sent in (p :: r, b)
  end.

(** No server is at work. *)
Definition server_idle (p : process) : Prop :=
  pid p ≤ GPID_SHELL → status p = PROC_UNUSED ∨ status p = PROC_REQUESTING.

(** The system call areas: the first process that can be stopped has its
    request replaced. *)
Definition report_sc (u : kparams) (ps : table) (sent : bool) (e e' : E) : Prop :=
  match find stoppable ps with
  | Some p =>
      if sent then ∀ q, sc_of e' q = sc_of e q
      else sc_of e' (pid p) = killall_sc u (sc_of e (pid p)) ∧
           ∀ q, q ≠ pid p → sc_of e' q = sc_of e q
  | None => ∀ q, sc_of e' q = sc_of e q
  end.

Lemma report_sc_true u ps e e' : (∀ q, sc_of e' q = sc_of e q) → report_sc u ps true e e'.
Proof. intros H. unfold report_sc. by destruct (find stoppable ps). Qed.

Lemma report_sc_sent u ps e e' : report_sc u ps true e e' → ∀ q, sc_of e' q = sc_of e q.
Proof. unfold report_sc. by destruct (find stoppable ps). Qed.

(** The entries from [i] on, and what replacing entry [i] does. *)
Lemma table_split k i :
  kernel_wf k → 0 ≤ i < MAX_NPROCESS →
  drop (Z.to_nat i) (proc_set k) = proc_at k i :: drop (Z.to_nat (i + 1)) (proc_set k).
Proof.
  intros Hwf Hi. rewrite (drop_S _ _ _ (entry_lookup k i Hwf Hi)). do 2 f_equal. lia.
Qed.

Lemma insert_split (ps : table) i q :
  (i < length ps)%nat →
  take (S i) (<[i:=q]> ps) = take i ps ++ [q] ∧ drop (S i) (<[i:=q]> ps) = drop (S i) ps.
Proof.
  intros Hi. split; [|by apply drop_insert_lt; lia].
  rewrite (take_S_r _ _ q) by (by apply list_lookup_insert_eq).
  by rewrite take_insert_ge.
Qed.

(** The loop when no server is at work. *)
Definition stop_post (u : kparams) k (i : Z) (sent : bool) (r : bool * bool) k' : Prop :=
  let ps := drop (Z.to_nat i) (proc_set k) in
  r = (false, (stopped u ps sent).2) ∧ special_post u k k' ∧
  proc_set k' = take (Z.to_nat i) (proc_set k) ++ (stopped u ps sent).1 ∧
  report_sc u ps sent (earth k) (earth k').

Lemma stop_post_step u k k1 k2 i (sent b : bool) q r :
  kernel_wf k → 0 ≤ i < MAX_NPROCESS → special_post u k k1 →
  proc_set k1 = <[Z.to_nat i:=q]> (proc_set k) →
  stop_post u k1 (i + 1) b r k2 →
  (stopped u (drop (Z.to_nat i) (proc_set k)) sent =
   let '(rest, x) := stopped u (drop (Z.to_nat (i + 1)) (proc_set k)) b in (q :: rest, x)) →
  (report_sc u (drop (Z.to_nat (i + 1)) (proc_set k)) b (earth k1) (earth k2) →
   report_sc u (drop (Z.to_nat i) (proc_set k)) sent (earth k) (earth k2)) →
  stop_post u k i sent r k2.
Proof.
  intros Hwf Hi Hsp Hset (Hr & Hsp2 & Ht & Hsc) Est Hrep. unfold stop_post.
  assert (Hlen : (Z.to_nat i < length (proc_set k))%nat)
    by (eapply lookup_lt_Some; by apply entry_lookup).
  destruct (insert_split (proc_set k) (Z.to_nat i) q Hlen) as [I1 I2].
  replace (S (Z.to_nat i)) with (Z.to_nat (i + 1)) in I1, I2 by lia.
  rewrite Hset, I2 in *. rewrite Est.
  destruct (stopped u (drop (Z.to_nat (i + 1)) (proc_set k)) b) as [rest x]. simpl in *.
  split_and!; [done|by eapply special_post_trans| |by apply Hrep].
  rewrite Ht, I1, <-(assoc_L app). done.
Qed.

(** The tests of the loop, when no server is at work. *)
Lemma stop_tests p :
  server_idle p →
  (pid p <=? GPID_SHELL) && negb (bool_decide (status p = PROC_UNUSED))
    && negb (bool_decide (status p = PROC_REQUESTING)) = false ∧
  negb (killable p) || bool_decide (status p = PROC_UNUSED) = negb (stoppable p).
Proof.
  intros Hp. split; [|unfold stoppable; by rewrite negb_andb, negb_involutive].
  destruct (Z.leb_spec (pid p) GPID_SHELL) as [Hle|]; [|done].
  destruct (Hp Hle) as [->| ->]; done.
Qed.

Lemma stoppable_used p : stoppable p = true → status p ≠ PROC_UNUSED.
Proof.
  unfold stoppable. intros Es. apply andb_true_iff in Es as [_ Es].
  by apply negb_true_iff, bool_decide_eq_false in Es.
Qed.

(** The three ways through one round, the rest of the loop given. *)
Section stop_round.
Context (u : kparams) (k : kernel E) (i : Z) (rest : bool → M (kernel E) (bool * bool)).
Hypothesis Hwf : kernel_wf k.
Hypothesis Hi : 0 ≤ i < MAX_NPROCESS.
Hypothesis Hidle : Forall server_idle (drop (Z.to_nat (i + 1)) (proc_set k)).
Hypothesis IH : ∀ k1 b, kernel_wf k1 →
  Forall server_idle (drop (Z.to_nat (i + 1)) (proc_set k1)) →
  returns (rest b) k1 (stop_post u k1 (i + 1) b).

Lemma stop_later q :
  Forall server_idle (drop (Z.to_nat (i + 1)) (<[Z.to_nat i:=q]> (proc_set k))).
Proof using Hi Hidle. rewrite drop_insert_lt by lia. exact Hidle. Qed.

Lemma stop_zombie :
  stoppable (proc_at k i) = true →
  returns (_ ← modify (set_procs (proc_set_zombie (pid (proc_at k i)))); rest true) k
    (stop_post u k i true).
Proof using Hwf Hi Hidle IH.
  intros Es. pose proof (table_split k i Hwf Hi) as Hsplit. set (p := proc_at k i) in *.
  pose proof (stoppable_used p Es) as Hu.
  apply returns_bind, returns_modify. set (k1 := set_procs _ k).
  assert (Hset : proc_set k1 = <[Z.to_nat i:=zombied p]> (proc_set k))
    by (by apply entry_set_status).
  assert (H1 : special_post u k k1).
  { eapply (special_post_entry u k _ i (zombied p)); try done; [by apply zombied_ext|apply Hwf]. }
  eapply returns_mono; [apply IH; [apply H1|rewrite Hset; apply stop_later]|].
  intros r k2 H2. eapply stop_post_step; [done|done|exact H1|exact Hset|exact H2|..].
  - rewrite Hsplit. simpl. rewrite Es. by destruct (stopped u _ true).
  - intros Hr. apply report_sc_true. intros q. by apply (report_sc_sent _ _ _ _ Hr q).
Qed.

Lemma stop_report :
  stoppable (proc_at k i) = true →
  returns (_ ← report u i (proc_at k i); rest true) k (stop_post u k i false).
Proof using Hwf Hi Hidle IH.
  intros Es. pose proof (table_split k i Hwf Hi) as Hsplit. set (p := proc_at k i) in *.
  pose proof (stoppable_used p Es) as Hu.
  pose proof (proj1 (andb_prop _ _ Es)) as Hk.
  apply returns_bind. eapply returns_mono; [apply report_spec; [done|lia|done|done]|cbv beta].
  intros _ k1 (H1 & Hset & Has & Hsc & Hoth). fold p in Hset, Has, Hsc, Hoth.
  eapply returns_mono; [apply IH; [apply H1|rewrite Hset; apply stop_later]|].
  intros r k2 H2. eapply stop_post_step; [done|done|exact H1|exact Hset|exact H2|..].
  - rewrite Hsplit. simpl. rewrite Es. by destruct (stopped u _ true).
  - intros Hr. pose proof (report_sc_sent _ _ _ _ Hr) as Hsame.
    unfold report_sc. rewrite Hsplit. simpl. rewrite Es. rewrite Hsame. split; [done|].
    intros q Hq. rewrite Hsame. by apply Hoth.
Qed.

Lemma stop_skip sent :
  stoppable (proc_at k i) = false → returns (rest sent) k (stop_post u k i sent).
Proof using Hwf Hi Hidle IH.
  intros Es. pose proof (table_split k i Hwf Hi) as Hsplit. set (p := proc_at k i) in *.
  eapply returns_mono; [by apply IH|]. intros r k2 H2.
  eapply (stop_post_step u k k k2 i sent sent p); [done|done|by apply special_post_refl| |exact H2|..].
  - symmetry. apply list_insert_id. by apply entry_lookup.
  - rewrite Hsplit. simpl. rewrite Es. by destruct (stopped u _ sent).
  - unfold report_sc. rewrite Hsplit. simpl. by rewrite Es.
Qed.
End stop_round.

Lemma special_loop_stops u n : ∀ k i sent,
  kernel_wf k → 0 ≤ i → i + Z.of_nat n = MAX_NPROCESS →
  Forall server_idle (drop (Z.to_nat i) (proc_set k)) →
  returns (special_loop u n i sent) k (stop_post u k i sent).
Proof.
  induction n as [|n IH]; intros k i sent Hwf Hi Hn Hidle; cbn [special_loop].
  { rstep. assert (Hd : drop (Z.to_nat i) (proc_set k) = []).
    { apply drop_ge. rewrite (tw_len _ _ (kw_table _ Hwf)). unfold nprocess. lia. }
    unfold stop_post. rewrite Hd. split_and!; [done|by apply special_post_refl| |done].
    rewrite app_nil_r, take_ge; [done|].
    rewrite (tw_len _ _ (kw_table _ Hwf)). unfold nprocess. lia. }
  assert (Hi' : 0 ≤ i < MAX_NPROCESS) by lia.
  rewrite (table_split k i Hwf Hi') in Hidle. apply Forall_cons in Hidle as [Hp Hidle].
  assert (Hrest : ∀ k1 b, kernel_wf k1 →
    Forall server_idle (drop (Z.to_nat (i + 1)) (proc_set k1)) →
    returns (special_loop u n (i + 1) b) k1 (stop_post u k1 (i + 1) b))
    by (intros; apply IH; [done|lia|lia|done]).
  apply returns_bind, returns_gets.
  destruct (stop_tests _ Hp) as [-> ->]. destruct (stoppable (proc_at k i)) eqn:Es; simpl.
  - destruct sent; [by apply stop_zombie|by apply stop_report].
  - by apply (stop_skip u k i (special_loop u n (i + 1))).
Qed.

(** [special_handle] when no server is at work. *)
Lemma special_handle_table u k :
  kernel_wf k → Forall server_idle (proc_set k) →
  returns (special_handle u) k (λ _ k', kernel_wf k' ∧
    proc_set k' = (stopped u (proc_set k) false).1 ∧
    report_sc u (proc_set k) false (earth k) (earth k')).
Proof.
  intros Hwf Hidle. unfold special_handle. apply returns_bind.
  eapply returns_mono; [apply (special_loop_stops u nprocess k 0 false); [done|lia|done|by rewrite drop_0]|].
  intros [returned sent] k1 (_ & Hsp & Hset & Hrep). rewrite take_0, drop_0 in *.
  destruct (negb returned && sent); [|rstep; split_and!; [apply Hsp|done..]].
  apply returns_bind, returns_keeps; [apply printf_law|apply Hsp|]. intros _ e1 [O1 A1 S1 C1].
  apply returns_bind, returns_keeps; [apply tty_read_tail_law|done|]. intros _ e2 [O2 A2 S2 C2].
  simpl in S2. rstep. split_and!; [destruct Hsp as [[] ? ? ? ?]; by split|done|].
  unfold report_sc in *. destruct (find stoppable (proc_set k)).
  - simpl. rewrite S2, S1. split; [apply Hrep|]. intros q Hq. rewrite S2, S1. by apply Hrep.
  - intros q. simpl. by rewrite S2, S1.
Qed.

Lemma stopped_none u ps sent : find stoppable ps = None → stopped u ps sent = (ps, sent).
Proof.
  induction ps as [|p ps IH]; [done|]. simpl. destruct (stoppable p); [done|].
  intros H. by rewrite IH.
Qed.

(** ** External interrupts *)

Lemma external_handle_spec u k :
  kernel_wf k →
  returns (external_handle u) k (λ rc k', rc = 0 ∧ external_post k k' ∧
    Forall2 (ext_rel (proc_idle u)) (proc_set k) (proc_set k')).
Proof.
  intros Hwf. unfold external_handle.
  apply returns_bind, returns_keeps; [apply trap_external_law|apply Hwf|].
  intros rc e [O1 A1 S1 C1].
  set (k0 := set_earth e k). assert (Hwf0 : kernel_wf k0) by (by destruct Hwf).
  apply returns_bind, returns_gets, returns_bind. change (proc_curr_idx k0) with (proc_curr_idx k).
  assert (Hsp : returns (if rc =? RET_SPECIAL_CHAR then special_handle u else mret tt) k0
    (λ _ k', special_post u k0 k')).
  { destruct (rc =? RET_SPECIAL_CHAR); [by apply special_handle_post|rstep; by apply special_post_refl]. }
  eapply returns_mono; [exact Hsp|cbv beta]. intros _ k1 [P1 P2 P3 P4 P5 P6].
  apply returns_bind. eapply returns_mono; [apply requesting_loop_spec; [done|lia|done]|cbv beta].
  intros _ k2 [R1 R2 R3 R4 R5 R6].
  assert (HF : Forall2 (ext_rel (proc_idle u)) (proc_set k) (proc_set k2)).
  { etransitivity; [exact P2|]. by apply Forall2_progress_ext. }
  eapply returns_mono; [apply (restore_spec (proc_idle u) k k2 (ext_rel (proc_idle u)))|cbv beta]; try done.
  - by rewrite R3, P4.
  - intros c. rewrite R4, P6. apply C1.
  - intros r k3 (-> & H & Hset & _). by rewrite Hset.
Qed.

(** Without Ctrl-C, all that happens to the table is that requests are served. *)
Lemma external_handle_quiet u k rc e :
  kernel_wf k → trap_external (earth k) = Ret rc e → rc ≠ RET_SPECIAL_CHAR →
  returns (external_handle u) k (λ rc k', rc = 0 ∧ external_post k k' ∧
    Forall2 progress (proc_set k) (proc_set k') ∧
    idle_sc_same (proc_set k) (earth k) (earth k') ∧ stuck_same k k').
Proof.
  intros Hwf Et Hrc. unfold external_handle.
  destruct (trap_external_law (earth k) (kw_earth _ Hwf)) as (rc' & e' & Et' & [O1 A1 S1 C1]).
  rewrite Et in Et'. injection Et' as <- <-.
  apply returns_bind, returns_earth. exists rc, e. split; [done|].
  set (k0 := set_earth e k). assert (Hwf0 : kernel_wf k0) by (by destruct Hwf).
  apply returns_bind, returns_gets, returns_bind. change (proc_curr_idx k0) with (proc_curr_idx k).
  rewrite (proj2 (Z.eqb_neq _ _) Hrc). apply returns_ret, returns_bind.
  eapply returns_mono; [apply requesting_loop_spec; [done|lia|done]|cbv beta].
  intros _ k2 [R1 R2 R3 R4 R5 R6].
  eapply returns_mono; [apply (restore_spec 0 k k2 progress)|cbv beta]; try done.
  - apply progress_ext.
  - intros c. rewrite R4. apply C1.
  - intros r k3 (-> & H & Hset & _ & Hsc). rewrite Hset. split_and!; try done.
    + intros q Hq. rewrite Hsc, R5 by done. apply S1.
    + intros q Ht. rewrite <-(S1 q) in Ht. destruct (R6 q Ht) as [T1 T2]. by rewrite Hsc, Hset.
Qed.
End ops.
