(* ===== verification/Delivery.v ===== *)
(** * Messages reach the receivers that wait for them

    A process that waits for a message gets it the next time the kernel tries
    the waiting requests again ([requesting_loop] of [external_handle]): no
    other request can take the message or overwrite it before. *)

From S2P Require Import Prelude Layout Blocks Earth Process Kernel KernelInv KernelOps.

Section delivery.
Context {E : Type} `{!Earth E, !EarthLaws E}.
Implicit Types k : kernel E.

(** Entry [j], process [q], waits for a message; one from [s] with contents [c]
    is in transit to it. *)
Record awaits k (j : nat) (q : process) (s : Z) (c : list byte) : Prop := {
  aw_entry : proc_set k !! j = Some q;
  aw_status : status q = PROC_REQUESTING;
  aw_type : type (sc_of (earth k) (pid q)) = SYS_RECV;
  aw_msg : KERNEL_MSG_BUFF k = KernelMsg 1 s (pid q) c;
}.

Record delivered k (j : nat) (q : process) (s : Z) (c : list byte) (r : Z) : Prop := {
  dl_entry : proc_set k !! j = Some (with_status PROC_RUNNABLE q);
  dl_sc : sc_of (earth k) (pid q) = Syscall SYS_UNUSED (SysMsg s r c) 0;
}.

Lemma awaits_pid k j q s c : kernel_wf k → awaits k j q s c → 0 < pid q.
Proof.
  intros Hwf [A1 A2 _ _]. eapply (tw_used _ _ (kw_table _ Hwf)); [exact A1|]. by rewrite A2.
Qed.

(** Trying other requests again does not disturb a process that was served. *)
Lemma delivered_retried k k' j q s c r :
  kernel_wf k → 0 < pid q → retried k k' → delivered k j q s c r → delivered k' j q s c r.
Proof.
  intros Hwf Hpos [_ R2 _ _ R5 _] [D1 D2]. split.
  - destruct (Forall2_lookup_l _ _ _ _ _ R2 D1) as (p' & Hp' & [->|[Hs _]]); done.
  - rewrite R5; [done|]. intros p Hp Hpid Hst. apply list_elem_of_lookup_1 in Hp as [i Hi].
    assert (i = j) as ->.
    { eapply (tw_uniq _ _ (kw_table _ Hwf) i j); [exact Hi|exact D1|lia|done]. }
    rewrite D1 in Hi. by injection Hi as <-.
Qed.

(** A request of another process leaves the message and its receiver alone. *)
Lemma awaits_other p sc k (q : process) s c rc st m' sc' :
  KERNEL_MSG_BUFF k = KernelMsg 1 s (pid q) c → p ≠ pid q →
  sys_outcome p sc (KERNEL_MSG_BUFF k) rc st m' sc' → m' = KERNEL_MSG_BUFF k.
Proof.
  intros Hm Hne Ho. destruct Ho as [msg1 m2 Hs|Hs|sc1 Ht _|Ht|Ht]; try done.
  exfalso. rewrite Hm in Hs. unfold serve_msg in Hs. simpl in Hs.
  rewrite (proj2 (Z.eqb_neq (pid q) p)) in Hs by done.
  by destruct (type sc =? SYS_RECV), (type sc =? SYS_SEND).
Qed.

Lemma round_before k i j q s c :
  kernel_wf k → 0 ≤ i < MAX_NPROCESS → Z.to_nat i ≠ j → awaits k j q s c →
  returns (requesting_round i (proc_at k i)) k (λ _ k',
    awaits k' j q s c ∧ receiver (msg (sc_of (earth k') (pid q))) = receiver (msg (sc_of (earth k) (pid q)))).
Proof.
  intros Hwf Hi Hij Haw. pose proof (awaits_pid _ _ _ _ _ Hwf Haw) as Hpos.
  destruct Haw as [A1 A2 A3 A4].
  destruct (decide (status (proc_at k i) = PROC_REQUESTING)) as [Hst|Hst];
    [|unfold requesting_round; rewrite decide_False by done; by apply returns_ret].
  eapply returns_mono; [by apply requesting_handled|cbv beta].
  intros _ k' (e & S & C & Hwf1 & [_ _ _ _ H4 _ (st & rc & Hset & Ho & _)]). simpl in *.
  assert (Hne : pid (proc_at k i) ≠ pid q).
  { intros Heq. apply Hij. eapply (tw_uniq _ _ (kw_table _ Hwf) _ j);
      [by apply entry_lookup|exact A1|lia|done]. }
  rewrite H4, S by done. split; [|done]. split.
  - rewrite Hset, list_lookup_insert_ne by done. exact A1.
  - exact A2.
  - rewrite H4, S by done. exact A3.
  - etransitivity; [by eapply awaits_other|exact A4].
Qed.

Lemma round_at k i q s c :
  kernel_wf k → 0 ≤ i < MAX_NPROCESS → awaits k (Z.to_nat i) q s c →
  returns (requesting_round i (proc_at k i)) k (λ _ k',
    delivered k' (Z.to_nat i) q s c (receiver (msg (sc_of (earth k) (pid q)))) ∧
    in_use (KERNEL_MSG_BUFF k') = 0).
Proof.
  intros Hwf Hi [A1 A2 A3 A4].
  assert (Hq : proc_at k i = q).
  { pose proof (entry_lookup k i Hwf Hi) as Hl. rewrite A1 in Hl. by injection Hl as ->. }
  eapply returns_mono; [apply requesting_handled; [done..|by rewrite Hq]|cbv beta].
  rewrite Hq. intros _ k' (e & S & C & Hwf1 & [_ _ _ _ _ _ (st & rc & Hset & Ho & _)]). simpl in *.
  rewrite S in Ho.
  assert (Hs : serve_msg (pid q) (sc_of (earth k) (pid q)) (KERNEL_MSG_BUFF k) =
    Some (SysMsg s (receiver (msg (sc_of (earth k) (pid q)))) c, KernelMsg 0 s (pid q) c)).
  { unfold serve_msg. rewrite A3, A4. simpl. by rewrite Z.eqb_refl. }
  destruct (served_inv _ _ _ _ _ _ _ _ _ Ho Hs) as (-> & Hm & Hsc).
  rewrite Hm. split; [split|done]; [|exact Hsc].
  rewrite Hset. change (proc_at (set_earth e (set_curr i k)) i) with (proc_at k i).
  rewrite Hq. apply list_lookup_insert_eq. by eapply lookup_lt_Some.
Qed.

Lemma requesting_loop_delivers n : ∀ k i j q s c,
  kernel_wf k → 0 ≤ i → i + Z.of_nat n ≤ MAX_NPROCESS →
  i ≤ Z.of_nat j < i + Z.of_nat n → awaits k j q s c →
  returns (requesting_loop n i) k (λ _ k',
    delivered k' j q s c (receiver (msg (sc_of (earth k) (pid q))))).
Proof.
  induction n as [|n IH]; intros k i j q s c Hwf Hi Hn Hj Haw; [lia|]. cbn [requesting_loop].
  assert (Hi' : 0 ≤ i < MAX_NPROCESS) by lia.
  pose proof (requesting_step k i Hwf Hi') as Hstep.
  apply returns_bind, returns_gets, returns_bind.
  destruct (decide (Z.to_nat i = j)) as [<-|Hne].
  - eapply returns_mono; [eapply returns_and; [exact Hstep|by apply round_at]|cbv beta].
    intros _ k1 (R1 & D1 & _). pose proof (awaits_pid _ _ _ _ _ Hwf Haw).
    eapply returns_mono; [apply requesting_loop_spec; [apply R1|lia..]|cbv beta]. intros _ k2 R2.
    eapply delivered_retried; [apply R1|done..].
  - eapply returns_mono; [eapply returns_and; [exact Hstep|by eapply round_before]|cbv beta].
    intros _ k1 (R1 & A1 & <-). apply IH; [apply R1|lia..|done].
Qed.

(** The same for an external interrupt without Ctrl-C. *)
Lemma external_handle_delivers u k rc e j q s c :
  kernel_wf k → trap_external (earth k) = Ret rc e → rc ≠ RET_SPECIAL_CHAR →
  awaits k j q s c →
  returns (external_handle u) k (λ _ k',
    delivered k' j q s c (receiver (msg (sc_of (earth k) (pid q))))).
Proof.
  intros Hwf Et Hrc [A1 A2 A3 A4]. unfold external_handle.
  destruct (trap_external_law (earth k) (kw_earth _ Hwf)) as (rc' & e' & Et' & [O1 V1 S1 C1]).
  rewrite Et in Et'. injection Et' as <- <-.
  apply returns_bind, returns_earth. exists rc, e. split; [done|].
  set (k0 := set_earth e k). assert (Hwf0 : kernel_wf k0) by (by destruct Hwf).
  apply returns_bind, returns_gets, returns_bind. change (proc_curr_idx k0) with (proc_curr_idx k).
  rewrite (proj2 (Z.eqb_neq _ _) Hrc). apply returns_ret, returns_bind.
  pose proof (lookup_lt_Some _ _ _ A1) as Hlen. rewrite (tw_len _ _ (kw_table _ Hwf)) in Hlen.
  eapply returns_mono; [eapply returns_and;
    [apply (requesting_loop_spec nprocess k0 0); [done|lia|done]|
     apply (requesting_loop_delivers nprocess k0 0 j q s c); [done|lia|done|lia|]]|cbv beta].
  { split; try done. simpl. by rewrite S1. }
  intros _ k2 [[R1 R2 R3 R4 R5 R6] [D1 D2]].
  eapply returns_mono; [apply (restore_spec 0 k k2 progress)|cbv beta]; try done.
  - apply progress_ext.
  - intros c'. rewrite R4. apply C1.
  - intros r k3 (_ & _ & Hset & _ & Hsc). simpl in D2. rewrite S1 in D2.
    split; [by rewrite Hset|by rewrite Hsc].
Qed.
End delivery.
