(* ===== verification/Sched.v ===== *)
(** * The scheduler

    [proc_yield] of grass/kernel.c.  The process that runs next is the first
    one that can run after the current one in the order of the table, which
    makes the waiting time of a process bounded; after the switch exactly one
    process is marked as running and its address space is in force. *)

From S2P Require Import Prelude Layout Blocks Earth Process Kernel KernelInv KernelOps.

(** ** Choosing the next process *)

Definition slot (curr d : Z) : Z := (curr + d) mod MAX_NPROCESS.
Definition runnable_at (ps : table) (i : Z) : bool := can_run (status (ps !!! Z.to_nat i)).

Lemma slot_range curr d : 0 ≤ slot curr d < MAX_NPROCESS.
Proof. by apply Z.mod_pos_bound. Qed.

Lemma next_loop_spec ps curr n : ∀ i,
  match next_loop ps curr n i with
  | Some (idx, st) => ∃ d, i ≤ d < i + Z.of_nat n ∧ idx = slot curr d ∧
      st = status (ps !!! Z.to_nat idx) ∧ runnable_at ps idx = true ∧
      ∀ d', i ≤ d' < d → runnable_at ps (slot curr d') = false
  | None => ∀ d, i ≤ d < i + Z.of_nat n → runnable_at ps (slot curr d) = false
  end.
Proof.
  induction n as [|n IH]; intros i; cbn [next_loop].
  { intros d Hd. lia. }
  fold (slot curr i). fold (runnable_at ps (slot curr i)).
  destruct (runnable_at ps (slot curr i)) eqn:Er.
  - exists i. split; [lia|]. split_and!; try done. intros d' Hd'. lia.
  - specialize (IH (i + 1)). destruct (next_loop ps curr n (i + 1)) as [[idx st]|].
    + destruct IH as (d & H1 & H2 & H3 & H4 & H5). exists d. split; [lia|]. split_and!; try done.
      intros d' Hd'. destruct (decide (d' = i)) as [->|]; [done|apply H5; lia].
    + intros d Hd. destruct (decide (d = i)) as [->|]; [done|apply IH; lia].
Qed.

Lemma find_next_Some ps curr idx st :
  find_next ps curr = Some (idx, st) →
  ∃ d, 1 ≤ d ≤ MAX_NPROCESS ∧ idx = slot curr d ∧ st = status (ps !!! Z.to_nat idx) ∧
    runnable_at ps idx = true ∧ ∀ d', 1 ≤ d' < d → runnable_at ps (slot curr d') = false.
Proof.
  intros E. pose proof (next_loop_spec ps curr nprocess 1) as H.
  unfold find_next in E. rewrite E in H. destruct H as (d & H1 & H). exists d.
  change (Z.of_nat nprocess) with MAX_NPROCESS in H1. split; [lia|done].
Qed.

(** A slot is at a distance of 1 to 16 from the current one. *)
Definition dist (curr j : Z) : Z := (j - curr - 1) mod MAX_NPROCESS + 1.

Lemma dist_range curr j : 1 ≤ dist curr j ≤ MAX_NPROCESS.
Proof. unfold dist. pose proof (Z.mod_pos_bound (j - curr - 1) MAX_NPROCESS eq_refl). lia. Qed.

Lemma slot_dist curr j : 0 ≤ j < MAX_NPROCESS → slot curr (dist curr j) = j.
Proof.
  unfold slot, dist, MAX_NPROCESS. intros Hj. Z.to_euclidean_division_equations. lia.
Qed.

Lemma dist_slot curr d : 1 ≤ d ≤ MAX_NPROCESS → dist curr (slot curr d) = d.
Proof.
  unfold slot, dist, MAX_NPROCESS. intros Hd. Z.to_euclidean_division_equations. lia.
Qed.

(** If a process can run, one is found, and it is at least as near. *)
Lemma find_next_runnable ps curr j :
  0 ≤ j < MAX_NPROCESS → runnable_at ps j = true →
  ∃ idx st, find_next ps curr = Some (idx, st) ∧ dist curr idx ≤ dist curr j.
Proof.
  intros Hj Hr. pose proof (next_loop_spec ps curr nprocess 1) as H.
  change (Z.of_nat nprocess) with MAX_NPROCESS in H. pose proof (dist_range curr j) as Hd.
  unfold find_next. destruct (next_loop ps curr nprocess 1) as [[idx st]|].
  - exists idx, st. split; [done|]. destruct H as (d & H1 & -> & _ & _ & H5).
    rewrite dist_slot by lia. destruct (decide (d ≤ dist curr j)); [done|].
    specialize (H5 (dist curr j) ltac:(lia)). rewrite slot_dist in H5 by done. congruence.
  - specialize (H (dist curr j) ltac:(lia)). rewrite slot_dist in H by done. congruence.
Qed.

(** Moving on to a slot before [j] brings [j] nearer. *)
Lemma dist_decreases curr idx j :
  0 ≤ idx < MAX_NPROCESS → 0 ≤ j < MAX_NPROCESS →
  dist curr idx ≤ dist curr j → idx ≠ j → dist idx j < dist curr j.
Proof.
  unfold dist, MAX_NPROCESS. intros Hi Hj Hle Hne. Z.to_euclidean_division_equations. lia.
Qed.

(** ** Waiting for an interrupt *)

Section sched.
Context {E : Type} `{!Earth E, !EarthLaws E}.
Implicit Types k : kernel E.

(** What happens until a process is found. *)
Record waited (u : kparams) k k' : Prop := {
  wt_wf : kernel_wf k';
  wt_curr : proc_curr_idx k' = proc_curr_idx k;
  wt_pid : curr_pid k' = curr_pid k;
  wt_as : as_of (earth k') = curr_pid k;
  wt_nprocs : proc_nprocs k' = proc_nprocs k;
  wt_table : Forall2 (ext_rel (proc_idle u)) (proc_set k) (proc_set k');
  wt_csr c : c ≠ MIE → csr_of (earth k') c = csr_of (earth k) c;
}.

Lemma waited_trans u k1 k2 k3 : waited u k1 k2 → waited u k2 k3 → waited u k1 k3.
Proof.
  intros [A1 A2 A3 A4 A5 A6 A7] [B1 B2 B3 B4 B5 B6 B7]. split; try congruence.
  - etransitivity; [exact A6|exact B6].
  - intros c Hc. by rewrite B7, A7.
Qed.

Lemma external_waited u k :
  kernel_wf k → returns (external_handle u) k (λ _ k', waited u k k').
Proof.
  intros Hwf. eapply returns_mono; [by apply external_handle_spec|cbv beta].
  intros rc k' (_ & [P1 P2 P3 P4 P5 P6] & HF). by split.
Qed.

Lemma proc_wait_spec u k : kernel_wf k → returns (proc_wait u) k (λ _ k', waited u k k').
Proof.
  intros Hwf. unfold proc_wait.
  apply returns_bind, returns_earth. eexists _, _. split; [apply csr_read_law|].
  assert (Hcsr : ∀ k v (Q : unit → kernel E → Prop),
    earth_ok (earth k) →
    (∀ e, earth_ok e → as_of e = as_of (earth k) →
       (∀ c, c ≠ MIE → csr_of e c = csr_of (earth k) c) →
       Q tt (set_earth e k)) → returns (on_earth (csr_write MIE v)) k Q).
  { intros k0 v Q Hok HQ. apply returns_earth.
    destruct (csr_write_law MIE v (earth k0) Hok) as (e & E1 & O & A & S & _ & C).
    exists tt, e. auto. }
  apply returns_bind, Hcsr; [apply Hwf|]. simpl. intros e1 O1 A1 C1.
  apply returns_bind, returns_keeps; [apply wfi_law|done|]. simpl. intros _ e2 [O2 A2 S2 C2].
  apply returns_bind, Hcsr; [done|]. simpl. intros e3 O3 A3 C3. apply returns_bind.
  set (k3 := set_earth e3 _).
  eapply returns_mono; [apply (external_waited u k3); by destruct Hwf|cbv beta].
  intros _ k4 [P1 P2 P3 P4 P5 P6 P7]. rstep. split; try done.
  intros c Hc. rewrite P7 by done. simpl. rewrite C3, C2, C1 by done. done.
Qed.

(** The loop ends with a process that can run, or goes on waiting. *)
Lemma yield_loop_spec u w : ∀ k0 k,
  kernel_wf k → waited u k0 k →
  yield_loop u w k = Spin ∨
  returns (yield_loop u w) k (λ r k', waited u k0 k' ∧
    find_next (proc_set k') (proc_curr_idx k') = Some r).
Proof.
  induction w as [|w IH]; intros k0 k Hwf Hw; cbn [yield_loop];
    destruct (find_next (proc_set k) (proc_curr_idx k)) as [r|] eqn:Ef.
  - right. apply returns_bind, returns_gets. rewrite Ef. by rstep.
  - left. rewrite gets_bind, Ef. done.
  - right. apply returns_bind, returns_gets. rewrite Ef. by rstep.
  - destruct (proc_wait_spec u k Hwf) as ([] & k1 & E1 & H1).
    destruct (IH k0 k1) as [Hs|Hr]; [apply H1|by eapply waited_trans|left|right].
    + rewrite gets_bind, Ef. by mrun E1.
    + destruct Hr as (r & k2 & E2 & H2). exists r, k2. split; [|done].
      rewrite gets_bind, Ef. by mrun E1.
Qed.

(** ** The switch *)

(** The table after the switch from entry [c] to entry [i]. *)
Definition sched_table (ps : table) (c i : Z) : table :=
  let ps1 := if decide (status (ps !!! Z.to_nat c) = PROC_RUNNING)
             then <[Z.to_nat c:=with_status PROC_RUNNABLE (ps !!! Z.to_nat c)]> ps else ps in
  <[Z.to_nat i:=with_status PROC_RUNNING (ps1 !!! Z.to_nat i)]> ps1.

(** It changes no other process's ability to run. *)
Lemma sched_table_runnable ps c i j :
  0 ≤ i → 0 ≤ j → 0 ≤ c → (Z.to_nat c < length ps)%nat → i ≠ j →
  runnable_at (sched_table ps c i) j = runnable_at ps j.
Proof.
  intros Hi Hj Hc Hl Hne. unfold runnable_at, sched_table.
  rewrite list_lookup_total_insert_ne by lia.
  destruct (decide (status (ps !!! Z.to_nat c) = PROC_RUNNING)) as [Hst|]; [|done].
  destruct (decide (c = j)) as [->|Hcj].
  - by rewrite list_lookup_total_insert_eq, Hst.
  - by rewrite list_lookup_total_insert_ne by lia.
Qed.

(** The state after the switch to entry [i], whose status was [st]. *)
Record scheduled k k' (i : Z) (st : proc_status) : Prop := {
  sd_wf : kernel_wf k';
  sd_curr : proc_curr_idx k' = i;
  sd_table : proc_set k' = sched_table (proc_set k) (proc_curr_idx k) i;
  sd_as : as_of (earth k') = curr_pid k';
  sd_pid : curr_pid k' = pid (proc_at k i);
  sd_nprocs : proc_nprocs k' = proc_nprocs k;
  sd_buff : KERNEL_MSG_BUFF k' = KERNEL_MSG_BUFF k;
  sd_sc q : sc_of (earth k') q = sc_of (earth k) q;
  sd_csr c : c ≠ MEPC → csr_of (earth k') c = csr_of (earth k) c;
  sd_mepc : csr_of (earth k') MEPC =
    if decide (st = PROC_READY) then APPS_ENTRY else csr_of (earth k) MEPC;
}.

Definition resume_of (st : proc_status) : resume :=
  if decide (st = PROC_READY) then EnterApp APPS_ARG (APPS_ARG + 4) else CtxJump.

(** The end of the switch: the new process is entered or resumed. *)
Lemma enter_spec k1 k2 i st :
  scheduled k1 k2 i PROC_RUNNING →
  returns (if decide (st = PROC_READY) then
             _ ← on_earth etty_user_mode;
             _ ← on_earth (csr_write MEPC APPS_ENTRY);
             mret (EnterApp APPS_ARG (APPS_ARG + 4))
           else mret CtxJump) k2 (λ r k', r = resume_of st ∧ scheduled k1 k' i st).
Proof.
  intros H. unfold resume_of. destruct (decide (st = PROC_READY)) as [->|Hst].
  - apply returns_bind, returns_keeps; [apply user_mode_law|apply H|].
    intros _ e1 [O1 A1 S1 C1]. apply returns_bind, returns_earth.
    destruct (csr_write_law MEPC APPS_ENTRY (earth (set_earth e1 k2)) O1)
      as (e2 & E2 & O2 & A2 & S2 & C2 & C3).
    exists tt, e2. split; [done|]. rstep. split; [done|].
    destruct H as [[] H2 H3 H4 H5 H6 H7 H8 H9 H10]. split; try done; simpl in *.
    + by rewrite A2, A1.
    + intros q. by rewrite S2, S1.
    + intros c Hc. rewrite C3, C1, H9 by done. done.
  - rstep. split; [done|]. destruct H. split; try done. rewrite decide_False by done. done.
Qed.

Lemma can_run_used st : can_run st = true → st ≠ PROC_UNUSED.
Proof. intros H ->. done. Qed.

(** The table when the current process has given up the processor. *)
Lemma stopped_table idle k :
  kernel_wf k → curr_status k = PROC_RUNNING →
  Forall2 (ext_rel idle) (proc_set k) (proc_set_runnable (curr_pid k) (proc_set k)).
Proof.
  intros Hwf Hst. unfold proc_set_runnable. rewrite curr_set_status by done.
  eapply Forall2_insert_self; [apply _|by apply curr_lookup|].
  unfold curr_status in Hst. split; simpl; auto; [done|]. intros Hu. congruence.
Qed.

Lemma running_table ps n i (p := ps !!! Z.to_nat i) :
  table_wf ps n → 0 ≤ i < MAX_NPROCESS → 0 < pid p →
  table_wf (<[Z.to_nat i:=with_status PROC_RUNNING p]> ps) n ∧
  proc_set_running (pid p) ps = <[Z.to_nat i:=with_status PROC_RUNNING p]> ps.
Proof.
  intros Hwf Hi Hpos.
  assert (Hl : ps !! Z.to_nat i = Some p).
  { apply list_lookup_lookup_total_lt. rewrite (tw_len _ _ Hwf). unfold nprocess. lia. }
  split; [by eapply table_wf_insert|]. by eapply proc_set_status_insert.
Qed.

(** The table after the current process was stopped. *)
Definition stop_curr k : table :=
  if decide (curr_status k = PROC_RUNNING)
  then <[Z.to_nat (proc_curr_idx k):=with_status PROC_RUNNABLE (proc_at k (proc_curr_idx k))]>
         (proc_set k)
  else proc_set k.

Lemma stop_curr_spec idle k :
  kernel_wf k →
  returns (if decide (curr_status k = PROC_RUNNING)
           then modify (set_procs (proc_set_runnable (curr_pid k))) else mret tt) k
    (λ _ k1, k1 = set_procs (λ _, stop_curr k) k ∧ Forall2 (ext_rel idle) (proc_set k) (stop_curr k)).
Proof.
  intros Hwf. unfold stop_curr. destruct (decide (curr_status k = PROC_RUNNING)) as [Hr|Hr]; rstep.
  - pose proof (stopped_table idle k Hwf Hr) as HF. unfold proc_set_runnable in *.
    rewrite curr_set_status in HF by done. split; [|done].
    unfold set_procs. by rewrite curr_set_status.
  - split; [by destruct k|done].
Qed.

Lemma switch_to_spec k i st :
  kernel_wf k → 0 ≤ i < MAX_NPROCESS → status (proc_at k i) ≠ PROC_UNUSED →
  returns (switch_to i st) k (λ r k', r = resume_of st ∧ scheduled k k' i st).
Proof.
  intros Hwf Hi Hst. unfold switch_to.
  apply returns_bind, returns_gets, returns_bind, returns_gets, returns_bind.
  eapply returns_mono; [by apply (stop_curr_spec 0)|cbv beta]. intros _ k1 [-> HF].
  set (ps1 := stop_curr k) in *.
  apply returns_bind, returns_modify, returns_bind, returns_gets, returns_bind, returns_switch;
    [apply Hwf|].
  simpl. intros _ e O A S C.
  apply returns_bind, returns_keeps; [apply timer_reset_law|done|]. simpl.
  intros _ e2 [O2 A2 S2 C2].
  apply returns_bind, returns_modify.
  set (pi := ps1 !!! Z.to_nat i) in *.
  change (curr_pid (set_curr i (set_procs (λ _, ps1) k))) with (pid pi) in *.
  destruct (Forall2_lookup_l _ _ _ _ _ HF (entry_lookup k i Hwf Hi)) as (pi' & Hpi & [[Hpid _] _ _ _ _]).
  assert (Epi : pi = pi') by (by apply list_lookup_total_correct). subst pi'.
  assert (Hpos : 0 < pid pi) by (rewrite Hpid; by apply used_pid).
  assert (Hwf1 : table_wf ps1 (proc_nprocs k)) by (eapply table_wf_ext; [done|apply Hwf]).
  destruct (running_table ps1 (proc_nprocs k) i Hwf1 Hi Hpos) as [Hwf2 Eset].
  apply enter_spec. unfold set_procs. simpl. fold pi in Eset, Hwf2. rewrite Eset.
  assert (Hat : <[Z.to_nat i:=with_status PROC_RUNNING pi]> ps1 !!! Z.to_nat i =
    with_status PROC_RUNNING pi).
  { apply list_lookup_total_insert_eq. by eapply lookup_lt_Some. }
  split; simpl; try done.
  - split; simpl; [done|done| |apply Hwf|done]. unfold curr_pid, proc_at. simpl. by rewrite Hat.
  - unfold curr_pid, proc_at. simpl. rewrite Hat. simpl. congruence.
  - unfold curr_pid, proc_at. simpl. by rewrite Hat.
  - intros q. by rewrite S2, S.
  - intros c _. by rewrite C2, C.
  - by rewrite C2, C.
Qed.

(** [proc_yield]: after the external interrupts were handled, and perhaps after
    waiting, it switches to the next process that can run. *)
Lemma proc_yield_spec u w k :
  kernel_wf k →
  proc_yield u w k = Spin ∨
  returns (proc_yield u w) k (λ r k', ∃ k1 i st,
    waited u k k1 ∧ find_next (proc_set k1) (proc_curr_idx k1) = Some (i, st) ∧
    r = resume_of st ∧ scheduled k1 k' i st).
Proof.
  intros Hwf. destruct (external_waited u k Hwf) as (rc & k1 & E1 & H1).
  destruct (yield_loop_spec u w k k1) as [Hs|Hr]; [apply H1|done|left|right].
  - unfold proc_yield. mrun E1. unfold mbind, M_bind. by rewrite Hs.
  - destruct Hr as ([i st] & k2 & E2 & H2 & Ef).
    destruct (find_next_Some _ _ _ _ Ef) as (d & Hd & -> & -> & Hrun & _).
    pose proof (slot_range (proc_curr_idx k2) d) as Hrange.
    destruct (switch_to_spec k2 _ (status (proc_set k2 !!! Z.to_nat (slot (proc_curr_idx k2) d)))
      (wt_wf _ _ _ H2) Hrange) as (r & k3 & E3 & -> & H3).
    { by apply can_run_used. }
    eexists _, k3. split; [unfold proc_yield; mrun E1; mrun E2; exact E3|].
    by eexists k2, _, _.
Qed.
End sched.
