(* ===== verification/KernelCorrect.v ===== *)
(** * Correctness of the kernel

    The invariant that holds whenever user code runs, preserved by every
    interrupt; bounded waiting of the scheduler; system calls and messages;
    process allocation; Ctrl-C. *)

From S2P Require Import Prelude Layout Blocks Earth Process Kernel KernelInv KernelOps Sched.

Section correct.
Context {E : Type} `{!Earth E, !EarthLaws E}.
Implicit Types k : kernel E.

(** Whenever user code runs: the address space of the current process is in
    force, and it alone is marked as running. *)
Record user_inv k : Prop := {
  ui_wf : kernel_wf k;
  ui_as : as_of (earth k) = curr_pid k;
  ui_running i p : proc_set k !! i = Some p →
    status p = PROC_RUNNING ↔ Z.of_nat i = proc_curr_idx k;
}.

(** In the kernel: at most the current process is marked as running. *)
Definition run_le k : Prop :=
  ∀ i p, proc_set k !! i = Some p → status p = PROC_RUNNING → Z.of_nat i = proc_curr_idx k.

Lemma run_le_ext idle k k' :
  run_le k → Forall2 (ext_rel idle) (proc_set k) (proc_set k') → proc_curr_idx k' = proc_curr_idx k →
  run_le k'.
Proof.
  intros Hr HF Hc i p' Hp' Hst. destruct (Forall2_lookup_r _ _ _ _ _ HF Hp') as (p & Hp & Hx).
  rewrite Hc. eapply Hr; [done|]. destruct (er_status _ _ _ Hx) as [<-|[?|[?|?]]]; congruence.
Qed.

Lemma sched_table_lookup ps c i j p :
  0 ≤ c → 0 ≤ i → (Z.to_nat c < length ps)%nat → sched_table ps c i !! j = Some p →
  (Z.of_nat j = i ∧ status p = PROC_RUNNING) ∨
  (Z.of_nat j ≠ i ∧
   ((Z.of_nat j = c ∧ status p ≠ PROC_RUNNING) ∨ (Z.of_nat j ≠ c ∧ ps !! j = Some p))).
Proof.
  intros Hc Hi Hlen Hp. unfold sched_table in Hp.
  apply list_lookup_insert_Some in Hp as [(Ei & <- & _)|[Hne Hp]].
  { left. split; [lia|done]. }
  right. split; [lia|].
  destruct (decide (Z.of_nat j = c)) as [Hj|Hj]; [left|right]; (split; [done|]).
  - assert (Ej : Z.to_nat c = j) by lia. destruct (decide _) as [Hr|Hr].
    + rewrite Ej in Hp. rewrite list_lookup_insert_eq in Hp by lia. by injection Hp as <-.
    + rewrite Ej in Hr. by rewrite (list_lookup_total_correct _ _ _ Hp) in Hr.
  - destruct (decide _) as [Hr|Hr]; [|done]. by rewrite list_lookup_insert_ne in Hp by lia.
Qed.

Lemma scheduled_inv k k' i st :
  kernel_wf k → run_le k → 0 ≤ i → scheduled k k' i st → user_inv k'.
Proof.
  intros Hwf Hrun Hi [S1 S2 S3 S4 S5 S6 S7 S8 S9 S10]. split; [done..|].
  intros j p Hp. rewrite S2. rewrite S3 in Hp.
  apply sched_table_lookup in Hp.
  - destruct Hp as [[H1 H2]|[H1 [[H2 H3]|[H2 H3]]]]; [done|split; congruence|].
    split; [|done]. intros Hst. exfalso. apply H2. by eapply Hrun.
  - apply Hwf.
  - done.
  - rewrite (tw_len _ _ (kw_table _ Hwf)). pose proof (kw_curr _ Hwf). unfold nprocess. lia.
Qed.

(** What runs after an interrupt: the current process where it was stopped, or
    a new process from its entry point. *)
Definition resumed (r : resume) k : Prop :=
  match r with
  | CtxJump => csr_of (earth k) MEPC = mepc (proc_at k (proc_curr_idx k)) ∧
               csr_of (earth k) MSCRATCH = sp (proc_at k (proc_curr_idx k))
  | EnterApp a0 a1 => csr_of (earth k) MEPC = APPS_ENTRY ∧ a0 = APPS_ARG ∧ a1 = APPS_ARG + 4
  end.

(** What an interrupt does to the entry of a process: its status may change, but not
    where it goes on, except that Ctrl-C sends a user process to [idle]; only a new
    process is ready to be entered. *)
Record kept (idle : Z) (p p' : process) : Prop := {
  kp_same : same_proc p p';
  kp_sp : sp p' = sp p;
  kp_mepc : mepc p' = mepc p ∨ killable p = true ∧ mepc p' = idle;
  kp_ready : status p' = PROC_READY → status p = PROC_READY;
}.

#[export] Instance kept_preorder idle : PreOrder (kept idle).
Proof.
  split; [intros p; split; auto; done|].
  intros p q r [[A1 A2] A3 A4 A5] [[B1 B2] B3 B4 B5]. split; [split; congruence|congruence| |auto].
  rewrite A2 in B4. destruct B4 as [->|B4]; auto.
Qed.
#[export] Instance Forall2_kept_preorder idle : PreOrder (Forall2 (kept idle)).
Proof. split; [apply _|apply _]. Qed.

Lemma kept_status idle st p : st ≠ PROC_READY → kept idle p (with_status st p).
Proof. intros Hst. split; auto; done. Qed.

Lemma ext_ready idle p p' : ext_rel idle p p' → status p' = PROC_READY → status p = PROC_READY.
Proof. intros H Hr. destruct (er_status _ _ _ H) as [<-|[?|[?|?]]]; congruence. Qed.

Lemma ext_kept idle ps ps' : Forall2 (ext_rel idle) ps ps' → Forall2 (kept idle) ps ps'.
Proof. intros H. eapply Forall2_impl; [done|]. intros p p' H'. pose proof (ext_ready _ _ _ H'). destruct H'. by split. Qed.

Lemma sched_kept idle ps c i :
  0 ≤ i → (Z.to_nat c < length ps)%nat → (Z.to_nat i < length ps)%nat →
  Forall2 (kept idle) ps (sched_table ps c i).
Proof.
  intros H0 Hc Hi. unfold sched_table. set (ps1 := if decide _ then _ else ps).
  assert (H1 : Forall2 (kept idle) ps ps1).
  { unfold ps1. destruct (decide _); [|reflexivity].
    eapply Forall2_insert_self; [apply _|by apply list_lookup_lookup_total_lt|by apply kept_status]. }
  etransitivity; [exact H1|]. eapply Forall2_insert_self; [apply _| |by apply kept_status].
  apply list_lookup_lookup_total_lt. by rewrite <-(Forall2_length _ _ _ H1).
Qed.

(** The entry of a process in related tables. *)
Lemma kept_at idle k k' i :
  kernel_wf k → 0 ≤ i < MAX_NPROCESS → Forall2 (kept idle) (proc_set k) (proc_set k') →
  kept idle (proc_at k i) (proc_at k' i).
Proof.
  intros Hwf Hi HF.
  destruct (Forall2_lookup_l _ _ _ _ _ HF (entry_lookup k i Hwf Hi)) as (p' & Hp' & H).
  unfold proc_at at 2. by rewrite (list_lookup_total_correct _ _ _ Hp').
Qed.

(** How a kernel entry ends: ready for user code. *)
Definition entry_post (idle : Z) k (r : resume) k' : Prop :=
  user_inv k' ∧ Forall2 (kept idle) (proc_set k) (proc_set k') ∧
  match r with
  | EnterApp a0 a1 => csr_of (earth k') MEPC = APPS_ENTRY ∧ a0 = APPS_ARG ∧ a1 = APPS_ARG + 4 ∧
      status (proc_at k (proc_curr_idx k')) = PROC_READY
  | CtxJump => True
  end.

(** A kernel entry: it may wait for ever when nothing can run; otherwise it
    leaves the kernel ready for user code. *)
Definition entry_ok (idle : Z) (m : M (kernel E) resume) : Prop :=
  ∀ k, kernel_wf k → run_le k → as_of (earth k) = curr_pid k → curr_status k = PROC_RUNNING →
    m k = Spin ∨
    returns m k (entry_post idle k).

Lemma proc_yield_inv u w k :
  kernel_wf k → run_le k →
  proc_yield u w k = Spin ∨
  returns (proc_yield u w) k (entry_post (proc_idle u) k).
Proof.
  intros Hwf Hrun. destruct (proc_yield_spec u w k Hwf) as [Hs|Hr]; [by left|right].
  eapply returns_mono; [exact Hr|cbv beta]. intros r k' (k1 & i & st & W & Ef & -> & Hsd). split; [|split].
  - destruct (find_next_Some _ _ _ _ Ef) as (d & _ & -> & _).
    pose proof (slot_range (proc_curr_idx k1) d).
    apply (scheduled_inv k1 k' (slot (proc_curr_idx k1) d) st); [apply W| |lia|exact Hsd].
    eapply run_le_ext; [exact Hrun|apply W|apply W].
  - etransitivity; [apply ext_kept, W|]. rewrite (sd_table _ _ _ _ Hsd).
    destruct (find_next_Some _ _ _ _ Ef) as (d & _ & -> & _).
    pose proof (slot_range (proc_curr_idx k1) d). pose proof (kw_curr _ (wt_wf _ _ _ W)).
    pose proof (tw_len _ _ (kw_table _ (wt_wf _ _ _ W))) as Hl. unfold nprocess in Hl.
    apply sched_kept; [lia|rewrite Hl; lia..].
  - unfold resume_of. pose proof (sd_mepc _ _ _ _ Hsd) as Hm.
    destruct (find_next_Some _ _ _ _ Ef) as (d & _ & Ei & Est & _).
    destruct (decide (st = PROC_READY)) as [Hrd|]; [|done]. split_and!; try done.
    rewrite (sd_curr _ _ _ _ Hsd). pose proof (slot_range (proc_curr_idx k1) d) as Hd.
    rewrite <-Ei in Hd.
    apply (kp_ready _ _ _ (kept_at (proc_idle u) k k1 i Hwf Hd ltac:(apply ext_kept, W))).
    unfold proc_at. by rewrite <-Est.
Qed.

Lemma bind_spin_eq {S A B} (m : M S A) (f : A → M S B) s a s1 :
  m s = Ret a s1 → f a s1 = Spin → (m ≫= f) s = Spin.
Proof. intros E1 E2. by rewrite (bind_ret_eq _ _ _ _ _ E1). Qed.

Lemma entry_post_trans idle k k1 r k' :
  kernel_wf k → Forall2 (ext_rel idle) (proc_set k) (proc_set k1) →
  entry_post idle k1 r k' → entry_post idle k r k'.
Proof.
  intros Hwf HF (H1 & H2 & H3). apply ext_kept in HF. split; [done|]. split; [by etransitivity|].
  destruct r as [|a0 a1]; [done|]. destruct H3 as (H3 & H4 & H5 & H6). split_and!; try done.
  by apply (kp_ready _ _ _ (kept_at idle k k1 _ Hwf ltac:(apply H1) HF)).
Qed.

Lemma proc_yield_entry u w : entry_ok (proc_idle u) (proc_yield u w).
Proof. intros k Hwf Hrun _ _. by apply proc_yield_inv. Qed.

Lemma proc_syscall_entry u w : entry_ok (proc_idle u) (proc_syscall u w).
Proof.
  intros k Hwf Hrun Has Hst. unfold proc_syscall.
  destruct (syscall_handle_spec k Hwf Has) as ([] & k1 & E1 & H1).
  destruct (handled_wf (proc_idle u) k k1 Hwf) as (Hwf1 & HF & _); [by right|done|].
  destruct (proc_yield_inv u w k1) as [Hs|Hr]; [done| |left|right].
  - eapply run_le_ext; [done..|]. apply H1.
  - by eapply bind_spin_eq.
  - apply returns_bind. exists tt, k1. split; [done|]. eapply returns_mono; [exact Hr|cbv beta].
    intros r k' H2. by apply (entry_post_trans (proc_idle u) k k1).
Qed.

Lemma proc_external_entry u w : entry_ok (proc_idle u) (proc_external u w).
Proof.
  intros k Hwf Hrun Has Hst. unfold proc_external.
  destruct (external_handle_spec u k Hwf) as (rc & k1 & E1 & _ & H1 & HF).
  destruct (proc_yield_inv u w k1) as [Hs|Hr]; [apply H1| |left|right].
  - eapply run_le_ext; [done..|]. apply H1.
  - by eapply bind_spin_eq.
  - apply returns_bind. exists rc, k1. split; [done|]. eapply returns_mono; [exact Hr|cbv beta].
    intros r k' H2. by apply (entry_post_trans (proc_idle u) k k1).
Qed.

(** Saving the context of the current process. *)
Lemma save_inv k s m :
  user_inv k →
  let k1 := set_procs (alter (with_context s m) (Z.to_nat (proc_curr_idx k))) k in
  kernel_wf k1 ∧ run_le k1 ∧ as_of (earth k1) = curr_pid k1 ∧ curr_status k1 = PROC_RUNNING.
Proof.
  intros [Hwf Has Hrun] k1. pose proof (curr_lookup k Hwf) as Hl.
  set (p := proc_at k (proc_curr_idx k)) in *.
  assert (Hset : proc_set k1 = <[Z.to_nat (proc_curr_idx k):=with_context s m p]> (proc_set k)).
  { unfold k1. simpl. by rewrite (list_alter_as_insert _ _ _ _ Hl). }
  assert (Hat : proc_at k1 (proc_curr_idx k1) = with_context s m p).
  { unfold proc_at. rewrite Hset. apply list_lookup_total_insert_eq. by eapply lookup_lt_Some. }
  assert (Hpid : curr_pid k1 = curr_pid k) by (unfold curr_pid; rewrite Hat; done).
  split_and!.
  - destruct Hwf as [W1 W2 W3 W4 W5]. split; try done; [|by rewrite Hpid].
    rewrite Hset. eapply table_wf_insert; [done..|exact W3].
  - intros i q Hq Hst. rewrite Hset in Hq.
    apply list_lookup_insert_Some in Hq as [(Ei & <- & _)|[_ Hq]]; [|by eapply Hrun].
    pose proof (kw_curr _ Hwf). simpl. lia.
  - by rewrite Hpid.
  - unfold curr_status. rewrite Hat. simpl. eapply (Hrun (Z.to_nat (proc_curr_idx k))); [done|].
    pose proof (kw_curr _ Hwf). lia.
Qed.

(** Restoring the context of the process that runs next. *)
Lemma restore_context k :
  user_inv k →
  returns (p ← gets (λ k, proc_at k (proc_curr_idx k));
           _ ← on_earth (csr_write MEPC (mepc p));
           _ ← on_earth (csr_write MSCRATCH (sp p));
           _ ← on_earth etty_user_mode;
           mret CtxJump) k
    (λ r k', r = CtxJump ∧ user_inv k' ∧ resumed CtxJump k' ∧ proc_set k' = proc_set k).
Proof.
  intros [Hwf Has Hrun]. apply returns_bind, returns_gets.
  set (p := proc_at k (proc_curr_idx k)).
  destruct (csr_write_law MEPC (mepc p) (earth k) (kw_earth _ Hwf))
    as (e1 & E1 & O1 & A1 & S1 & C1 & D1).
  apply returns_bind, returns_earth. exists tt, e1. split; [done|]. cbv beta.
  destruct (csr_write_law MSCRATCH (sp p) e1 O1) as (e2 & E2 & O2 & A2 & S2 & C2 & D2).
  apply returns_bind, returns_earth. exists tt, e2. split; [done|]. cbv beta.
  apply returns_bind, returns_keeps; [apply user_mode_law|done|]. simpl.
  intros _ e3 [O3 A3 S3 C3]. rstep. split; [done|]. split; [|split; [split; simpl|done]].
  - split; [by destruct Hwf|simpl; rewrite A3, A2, A1; exact Has|done].
  - rewrite C3, D2, C1 by done. done.
  - rewrite C3, C2. done.
Qed.

(** The table when the context of the current process has been saved. *)
Definition saved_table k : table :=
  alter (with_context (csr_of (earth k) MSCRATCH) (csr_of (earth k) MEPC))
    (Z.to_nat (proc_curr_idx k)) (proc_set k).

Lemma save_at ps i j s m :
  alter (with_context s m) i ps !!! j =
  if decide (i = j ∧ (j < length ps)%nat) then with_context s m (ps !!! j) else ps !!! j.
Proof.
  rewrite !list_lookup_total_alt. case_decide as Hd.
  - destruct Hd as [-> Hj]. rewrite list_lookup_alter_eq.
    by destruct (lookup_lt_is_Some_2 ps j Hj) as [p ->].
  - destruct (decide (i = j)) as [->|Hij]; [|by rewrite list_lookup_alter_ne].
    rewrite list_lookup_alter_eq, lookup_ge_None_2; [done|]. apply not_and_l in Hd as [|]; [done|lia].
Qed.

Lemma ctx_entry_spec idle m k :
  entry_ok idle m → user_inv k →
  ctx_entry m k = Spin ∨
  returns (ctx_entry m) k (λ r k', user_inv k' ∧ resumed r k' ∧
    Forall2 (kept idle) (saved_table k) (proc_set k') ∧
    (r ≠ CtxJump → status (proc_at k (proc_curr_idx k')) = PROC_READY)).
Proof.
  intros Hm Hinv. unfold ctx_entry.
  set (k1 := set_procs (alter (with_context (csr_of (earth k) MSCRATCH) (csr_of (earth k) MEPC))
               (Z.to_nat (proc_curr_idx k))) k).
  assert (Hsave : ∀ (f : resume → M (kernel E) resume),
    (m' ← on_earth (csr_read MEPC); s ← on_earth (csr_read MSCRATCH); i ← gets proc_curr_idx;
     _ ← modify (set_procs (alter (with_context s m') (Z.to_nat i))); r ← m; f r) k =
    (r ← m; f r) k1).
  { intros f. unfold on_earth. unfold mbind at 1, M_bind at 1. rewrite csr_read_law.
    unfold mbind at 1, M_bind at 1. simpl. rewrite csr_read_law. by destruct k. }
  rewrite Hsave.
  destruct (save_inv k (csr_of (earth k) MSCRATCH) (csr_of (earth k) MEPC) Hinv)
    as (W & R & A & St). fold k1 in W, R, A, St.
  destruct (Hm k1 W R A St) as [Hs|(r & k2 & E2 & Hinv2 & HF & Hr)].
  - left. unfold mbind, M_bind. by rewrite Hs.
  - right. unfold returns. rewrite Hsave, (bind_ret_eq _ _ _ _ _ E2). destruct r as [|a0 a1].
    + destruct (restore_context k2 Hinv2) as (r & k3 & E3 & -> & H3 & H4 & Hset).
      exists CtxJump, k3. split; [exact E3|]. split; [done|]. split; [done|]. by rewrite Hset.
    + eexists _, k2. split; [done|]. destruct Hr as (R1 & R2 & R3 & R4).
      split; [done|]. split; [done|]. split; [done|]. intros _. rewrite <-R4.
      unfold proc_at. simpl. rewrite save_at. by case_decide.
Qed.

(** ** Interrupts *)

(** The interrupts that the kernel handles. *)
Definition known_intr (id : Z) : bool :=
  (id =? INTR_ID_SOFT) || (id =? INTR_ID_TIMER) || (id =? INTR_ID_EXTERNAL).

(** After an interrupt with [id]: a server that the timer interrupted goes on with nothing
    changed, in all other cases a process is resumed and all contexts are kept. *)
Definition handled_intr (idle id : Z) k (r : resume) k' : Prop :=
  if (id =? INTR_ID_TIMER) && (curr_pid k <? GPID_SHELL)
  then r = CtxJump ∧ proc_set k' = proc_set k ∧ proc_curr_idx k' = proc_curr_idx k ∧
       ∀ c, csr_of (earth k') c = csr_of (earth k) c
  else resumed r k' ∧ Forall2 (kept idle) (saved_table k) (proc_set k') ∧
       (r ≠ CtxJump → status (proc_at k (proc_curr_idx k')) = PROC_READY).

Lemma intr_entry_spec u w id k :
  user_inv k → known_intr id = true →
  intr_entry u w id k = Spin ∨
  returns (intr_entry u w id) k (λ r k', user_inv k' ∧ handled_intr (proc_idle u) id k r k').
Proof.
  intros Hinv Hid. unfold intr_entry, handled_intr, returns. rewrite !gets_bind.
  destruct ((id =? INTR_ID_TIMER) && (curr_pid k <? GPID_SHELL)).
  - right. destruct Hinv as [Hwf Has Hrun].
    apply returns_bind, returns_keeps; [apply timer_reset_law|apply Hwf|]. intros _ e1 [O1 A1 S1 C1].
    apply returns_bind, returns_keeps; [apply user_mode_law|done|]. intros _ e2 [O2 A2 S2 C2].
    rstep. split; [|split_and!; try done; intros c; simpl in *; by rewrite C2, C1].
    split; [by destruct Hwf|simpl in *; rewrite A2, A1; exact Has|done].
  - unfold known_intr in Hid. rewrite !orb_true_iff, !Z.eqb_eq in Hid.
    destruct Hid as [[->| ->]| ->]; simpl; apply ctx_entry_spec; try done.
    + apply proc_syscall_entry.
    + apply proc_yield_entry.
    + apply proc_external_entry.
Qed.

Lemma handled_intr_earth idle id k1 k r k' :
  k1 = set_earth (earth k1) k → same_view earth_ok as_of sc_of csr_of (earth k) (earth k1) →
  handled_intr idle id k1 r k' → handled_intr idle id k r k'.
Proof.
  intros Hk [_ _ _ V] H. revert H. unfold handled_intr, saved_table. rewrite !V.
  assert (H1 : proc_set k1 = proc_set k) by (by rewrite Hk).
  assert (H2 : proc_curr_idx k1 = proc_curr_idx k) by (by rewrite Hk).
  unfold curr_pid, proc_at. rewrite H1, H2.
  destruct (_ && _); [|done]. intros (G1 & G2 & G3 & G4). split_and!; try done.
  intros c. by rewrite G4.
Qed.

Lemma intr_entry_unknown u w id k :
  known_intr id = false → intr_entry u w id k = Fatal "intr_entry: unknown interrupt" k.
Proof.
  unfold known_intr. rewrite !orb_false_iff. intros [[E1 E2] E3]. unfold intr_entry.
  by rewrite gets_bind, E1, E2, E3.
Qed.

(** ** Traps *)

(** [trap_entry] leaves the dispatch to the handlers. *)
Lemma trap_entry_dispatch u w k (mcause := csr_of (earth k) MCAUSE) :
  user_inv k →
  ∃ k1, user_inv k1 ∧ same_view earth_ok as_of sc_of csr_of (earth k) (earth k1) ∧
    k1 = set_earth (earth k1) k ∧
    trap_entry u w k =
      (if Z.land mcause (Z.shiftl 1 31) =? 0 then Ret None k1
       else (r ← intr_entry u w (Z.land mcause 0x3FF); mret (Some r)) k1).
Proof.
  intros [Hwf Has Hrun]. destruct (kernel_mode_law (earth k) (kw_earth _ Hwf)) as ([] & e & E1 & V).
  exists (set_earth e k). split; [|split; [done|split; [done|]]].
  - destruct V as [V1 V2 V3 V4]. split; [by destruct Hwf|simpl; by rewrite V2|done].
  - unfold trap_entry, mbind at 1, M_bind at 1, on_earth at 1. rewrite E1. cbv beta iota zeta.
    unfold mbind at 1, M_bind at 1, on_earth at 1. rewrite csr_read_law. cbv beta iota zeta.
    change (earth (set_earth e k)) with e. rewrite (sv_csr _ _ _ _ _ _ V MCAUSE). fold mcause.
    change (set_earth e (set_earth e k)) with (set_earth e k).
    by destruct (_ =? 0).
Qed.
End correct.
