(* ===== verification/Machine.v ===== *)
(** * An earth layer for the kernel

    [machine] puts together what the kernel of Kernel.v needs: the tty driver
    of Tty.v on any UART, the interrupt controller, a timer, control registers,
    and for every process its system call area and the rest of its memory.
    [machine_laws] shows that it keeps the promises of Earth.v, so the theorems
    about the kernel apply to the kernel on the driver.  A pointer that a
    process passes is followed in the memory outside the system call area. *)

From S2P Require Import Prelude Layout Blocks Ring Uart Tty TtyOps Intr Earth.

Record machine (H : Type) := Machine {
  m_tty : tty H;
  m_as : Z;
  m_sc : Z → syscall;
  m_mem : Z → Z → Z;              (* process, address: a byte *)
  m_csr : csr → Z;
  m_msip : Z;
  m_mtime : Z;
  m_mtimecmp : Z;
}.
Arguments Machine {H} _ _ _ _ _ _ _ _.
Arguments m_tty {H} _.
Arguments m_as {H} _.
Arguments m_sc {H} _ _.
Arguments m_mem {H} _ _ _.
Arguments m_csr {H} _ _.
Arguments m_msip {H} _.
Arguments m_mtime {H} _.
Arguments m_mtimecmp {H} _.

(** [QUANTUM] of earth/cpu_timer.c on the Arty board. *)
Definition QUANTUM : Z := 5000.

Definition chars (s : string) : list Z :=
  (λ a, Z.of_N (Ascii.N_of_ascii a)) <$> String.list_ascii_of_string s.

Section machine.
Context {H : Type} `{!Mmio H, !Uart H}.
Implicit Types e : machine H.

Definition put_tty (t : tty H) e : machine H :=
  Machine t (m_as e) (m_sc e) (m_mem e) (m_csr e) (m_msip e) (m_mtime e) (m_mtimecmp e).
Definition put_as (p : Z) e : machine H :=
  Machine (m_tty e) p (m_sc e) (m_mem e) (m_csr e) (m_msip e) (m_mtime e) (m_mtimecmp e).
Definition put_sc (s : syscall) e : machine H :=
  Machine (m_tty e) (m_as e) (λ p, if decide (p = m_as e) then s else m_sc e p) (m_mem e)
    (m_csr e) (m_msip e) (m_mtime e) (m_mtimecmp e).
Definition put_byte (a v : Z) e : machine H :=
  Machine (m_tty e) (m_as e) (m_sc e)
    (λ p b, if decide (p = m_as e ∧ b = a) then v else m_mem e p b)
    (m_csr e) (m_msip e) (m_mtime e) (m_mtimecmp e).
Definition put_csr (c : csr) (v : Z) e : machine H :=
  Machine (m_tty e) (m_as e) (m_sc e) (m_mem e) (λ c', if decide (c' = c) then v else m_csr e c')
    (m_msip e) (m_mtime e) (m_mtimecmp e).
Definition put_msip (v : Z) e : machine H :=
  Machine (m_tty e) (m_as e) (m_sc e) (m_mem e) (m_csr e) v (m_mtime e) (m_mtimecmp e).
Definition put_mtimecmp (v : Z) e : machine H :=
  Machine (m_tty e) (m_as e) (m_sc e) (m_mem e) (m_csr e) (m_msip e) (m_mtime e) v.

Definition on_tty {A} (m : M (tty H) A) : M (machine H) A := λ e,
  match m (m_tty e) with
  | Ret a t => Ret a (put_tty t e)
  | Fatal w t => Fatal w (put_tty t e)
  | Undef w => Undef w
  | Spin => Spin
  end.

(** The bytes at a pointer of the process that is switched in. *)
Definition user_bytes (ptr len : Z) e : list Z := m_mem e (m_as e) <$> seqZ ptr len.

#[export] Instance machine_earth : Earth (machine H) := {|
  timer_reset := _ ← modify (λ e, put_mtimecmp (m_mtime e + QUANTUM) e); mret 0;
  mmu_switch p := _ ← modify (put_as p); mret 0;
  mmu_free p := mret 0;
  trap_external := λ e,
    on_tty (Intr.trap_external (rx_ready (dev (m_tty e))) 0) e;
  etty_read ptr :=
    '(rc, r) ← on_tty tty_read;
    _ ← (match r with Some c => modify (put_byte ptr c) | None => mret tt end);
    mret rc;
  etty_write ptr len :=
    msg ← gets (user_bytes ptr len); on_tty (tty_write msg len);
  etty_read_tail := '(rc, _) ← on_tty tty_read_tail; mret rc;
  etty_kernel_mode := on_tty tty_kernel_mode;
  etty_user_mode := on_tty tty_user_mode;
  eprintf s :=
    _ ← on_tty (tty_write_kernel (S tx_wait_max) (chars s) (Z.of_nat (length (chars s))));
    mret tt;
  sc_get := gets (λ e, m_sc e (m_as e));
  sc_set s := modify (put_sc s);
  msip_clear := modify (put_msip 0);
  csr_read c := gets (λ e, m_csr e c);
  csr_write c v := modify (put_csr c v);
  wfi := mret tt;
|}.
End machine.

Lemma chars_range s : Forall (λ c, 0 ≤ c < 256) (chars s).
Proof.
  unfold chars. apply Forall_fmap, Forall_true. intros a. simpl.
  pose proof (Ascii.N_ascii_bounded a). lia.
Qed.

Section machine_laws.
Context {H : Type} `{!Mmio H, !Uart H, !Plic H}.
Implicit Types e : machine H.

(** Output buffers are safe, and memory holds bytes. *)
Definition machine_ok e : Prop := tty_weak (m_tty e) ∧ ∀ p a, 0 ≤ m_mem e p a < 256.

Lemma on_tty_keeps {A} (m : M (tty H) A) (P : A → Prop) e :
  machine_ok e → returns m (m_tty e) (λ a t, tty_weak t ∧ P a) →
  ∃ a e', on_tty m e = Ret a e' ∧ P a ∧
    same_view machine_ok m_as m_sc m_csr e e' ∧ m_mem e' = m_mem e.
Proof.
  intros [_ Hm] (a & t & E & Hw & HP). exists a, (put_tty t e). unfold on_tty. rewrite E.
  split; [done|]. split; [done|]. by split.
Qed.

(** Reading from the input buffer. *)
Lemma input_op_weak (m : M (tty H) (Z * option Z)) t :
  (m = tty_read ∨ m = tty_read_tail) → tty_weak t →
  returns m t (λ a t', tty_weak t' ∧
    (a = (-1, None) ∨ ∃ c, a = (0, Some c) ∧ 0 ≤ c < 256)).
Proof.
  intros Hm [Hrx Htx]. pose proof (ring_queue_char _ Hrx) as Hc. fold (inq t) in Hc.
  destruct Hm as [->| ->].
  - pose proof (tty_read_spec t Hrx) as Hr. destruct (inq t) as [|c q].
    + exists (-1, None), t. split; [done|]. split; [by split|by left].
    + destruct Hr as (t' & E & W & _ & T & _). exists (0, Some c), t'. split; [done|].
      split; [split; [done|by rewrite (ts_buf _ _ T)]|]. right. exists c. split; [done|].
      by inversion Hc.
  - destruct (tty_read_tail_spec t Hrx) as [[_ E]|(q & c & t' & Eq & E & W & _ & T & _)].
    + exists (-1, None), t. split; [done|]. split; [by split|by left].
    + exists (0, Some c), t'. split; [done|].
      split; [split; [done|by rewrite (ts_buf _ _ T)]|]. right. exists c. split; [done|].
      rewrite Eq in Hc. apply Forall_app in Hc as [_ Hc]. by inversion Hc.
Qed.

Lemma on_tty_law {A} (m : M (tty H) A) :
  (∀ t, tty_weak t → returns m t (λ _ t', tty_weak t')) →
  keeps_view machine_ok m_as m_sc m_csr (on_tty m).
Proof.
  intros Hm e Hok. destruct (on_tty_keeps m (λ _, True) e Hok) as (a & e' & E & _ & Hv & _).
  - eapply returns_mono; [apply Hm, Hok|]. done.
  - by exists a, e'.
Qed.

Lemma user_bytes_range ptr len e :
  machine_ok e → Forall (λ c, 0 ≤ c < 256) (user_bytes ptr len e).
Proof.
  intros [_ Hm]. unfold user_bytes. apply Forall_fmap, Forall_true. intros a. apply Hm.
Qed.

#[export] Program Instance machine_laws : EarthLaws (machine H) := {|
  earth_ok := machine_ok;
  as_of := m_as;
  sc_of := m_sc;
  csr_of := m_csr;
|}.
Next Obligation. intros e [Hw Hm]. eexists _, _. split; [done|]. by split. Qed.
Next Obligation.
  intros e Hok.
  destruct (on_tty_keeps (Intr.trap_external (rx_ready (dev (m_tty e))) 0) (λ _, True) e Hok)
    as (a & e' & E & _ & Hv & _); [|by exists a, e'].
  eapply returns_mono; [apply trap_external_safe; [apply Hok|done]|]. done.
Qed.
Next Obligation.
  intros e Hok.
  destruct (on_tty_keeps tty_read_tail (λ _, True) e Hok) as ([rc r] & e' & E & _ & Hv & _).
  - eapply returns_mono; [apply input_op_weak; [by right|apply Hok]|]. naive_solver.
  - exists rc, e'. split; [|done]. simpl. mrun E. done.
Qed.
Next Obligation. apply on_tty_law. intros t [H1 H2]. by apply returns_modify. Qed.
Next Obligation. apply on_tty_law. intros t [H1 H2]. by apply returns_modify. Qed.
Next Obligation.
  intros s e Hok.
  destruct (tty_write_kernel_spec (S tx_wait_max) (chars s) (m_tty e) ltac:(lia) (chars_range s)) as (h & E & _).
  destruct (on_tty_keeps (tty_write_kernel (S tx_wait_max) (chars s)
    (Z.of_nat (length (chars s)))) (λ _, True) e Hok) as (a & e' & E' & _ & Hv & _).
  - eexists _, _. split; [exact E|]. destruct Hok as [[H1 H2] _]. by split.
  - exists tt, e'. split; [|done]. simpl. mrun E'. done.
Qed.
Next Obligation. intros e [Hw Hm]. eexists _, _. split; [done|]. by split. Qed.
Next Obligation. intros e Hok. by exists tt, e. Qed.
Next Obligation. intros p e [Hw Hm]. eexists _, _. split; [done|]. by split_and!. Qed.
Next Obligation. intros p e Hok. exists 0, e. by split_and!. Qed.
Next Obligation.
  intros ptr e Hok.
  destruct (on_tty_keeps tty_read (λ a, a = (-1, None) ∨ ∃ c, a = (0, Some c) ∧ 0 ≤ c < 256) e Hok)
    as ([rc r] & e' & E & Hr & [V1 V2 V3 V4] & Hmem).
  { apply input_op_weak; [by left|apply Hok]. }
  destruct Hr as [[= -> ->]|(c & [= -> ->] & Hc)].
  - exists (-1), e'. split; [simpl; by mrun E|]. split_and!; try done. by right.
  - exists 0, (put_byte ptr c e'). split; [simpl; by mrun E|]. destruct V1 as [V1 V1'].
    split; [split; [done|]|split; [by left|split; [done|split; [intros q _; apply V3|apply V4]]]].
    intros p a. simpl. case_decide; [done|apply V1'].
Qed.
Next Obligation.
  intros ptr len e Hok.
  destruct (on_tty_keeps (tty_write (user_bytes ptr len e) len)
    (λ rc, rc = 0 ∨ rc = -1 ∨ rc = -2) e Hok) as (rc & e' & E & Hr & Hv & _).
  - apply tty_write_safe; [apply Hok|by apply user_bytes_range|].
    unfold user_bytes. rewrite length_fmap, length_seqZ. lia.
  - by exists rc, e'.
Qed.
Next Obligation. done. Qed.
Next Obligation.
  intros s e [Hw Hm]. eexists. split; [done|]. split_and!; try done; simpl.
  - by rewrite decide_True.
  - intros q Hq. by rewrite decide_False.
Qed.
Next Obligation. done. Qed.
Next Obligation.
  intros c v e [Hw Hm]. eexists. split; [done|]. split_and!; try done; simpl.
  - by rewrite decide_True.
  - intros c' Hc. by rewrite decide_False.
Qed.
End machine_laws.
