(* ===== verification/KernelThms.v ===== *)
(** * Theorems about the kernel

    The main properties of grass/kernel.c and grass/process.c, proved for any
    earth layer with the laws of Earth.v, each with a run on the machine of
    Machine.v and the simulated UART of TtyCorrect.v. *)

From S2P Require Import Prelude Layout Blocks Ring Uart Tty TtyOps Intr TtyCorrect.
From S2P Require Import Earth Process Kernel KernelInv KernelOps Delivery Sched KernelCorrect Machine.

(** ** A kernel with four waiting servers and user processes *)

(** An executable check of [table_wf]. *)
Definition entry_okb (n : Z) (p : process) : bool :=
  (0 <=? pid p) && (pid p <=? n) && (bool_decide (status p = PROC_UNUSED) || (0 <? pid p)) &&
  (negb (0 <? pid p) || eqb (killable p) (GPID_USER_START <=? pid p)).
Definition distinctb (ps : table) : bool :=
  forallb (λ i, forallb (λ j, (i =? j)%nat ||
    negb ((0 <? pid (ps !!! i)) && (pid (ps !!! i) =? pid (ps !!! j)))) (seq 0 nprocess))
    (seq 0 nprocess).
Definition table_wfb (ps : table) (n : Z) : bool :=
  (length ps =? nprocess)%nat && (0 <=? n) && forallb (entry_okb n) ps && distinctb ps.

Lemma table_wfb_sound ps n : table_wfb ps n = true → table_wf ps n.
Proof.
  unfold table_wfb. rewrite !andb_true_iff, Nat.eqb_eq, Z.leb_le, forallb_forall.
  intros [[[H1 H2] H3] H4].
  assert (He : ∀ i p, ps !! i = Some p → entry_okb n p = true).
  { intros i p Hp. apply H3, list_elem_of_In. by eapply list_elem_of_lookup_2. }
  unfold entry_okb in He. split; [done..| | | |].
  - intros i p Hp. specialize (He i p Hp). rewrite !andb_true_iff, !Z.leb_le in He. lia.
  - intros i p Hp Hs. specialize (He i p Hp).
    rewrite !andb_true_iff, orb_true_iff, bool_decide_eq_true, Z.ltb_lt in He. naive_solver.
  - intros i j p q Hp Hq Hpos Heq. pose proof (lookup_lt_Some _ _ _ Hp).
    pose proof (lookup_lt_Some _ _ _ Hq).
    unfold distinctb in H4. rewrite forallb_forall in H4.
    specialize (H4 i ltac:(apply in_seq; lia)). rewrite forallb_forall in H4.
    specialize (H4 j ltac:(apply in_seq; lia)).
    rewrite (list_lookup_total_correct _ _ _ Hp), (list_lookup_total_correct _ _ _ Hq) in H4.
    rewrite (proj2 (Z.ltb_lt _ _) Hpos), (proj2 (Z.eqb_eq _ _) Heq), orb_false_r in H4.
    by apply Nat.eqb_eq in H4.
  - intros i p Hp Hpos. specialize (He i p Hp).
    rewrite !andb_true_iff, (proj2 (Z.ltb_lt _ _) Hpos) in He. simpl in He.
    destruct He as [_ He]. by apply eqb_prop in He.
Qed.

Definition demo_procs (users : list process) : table :=
  let ps := [Process 1 PROC_REQUESTING false 0 0; Process 2 PROC_REQUESTING false 0 0;
             Process 3 PROC_REQUESTING false 0 0; Process 4 PROC_REQUESTING false 0 0] ++ users in
  ps ++ replicate (nprocess - length ps) (Process 0 PROC_UNUSED false 0 0).

(** Process [p] has made system call [t] with receiver [r]; the servers wait
    for messages, other processes have made none. *)
Definition demo_sc (p t r : Z) (q : Z) : syscall :=
  if q =? p then Syscall t (SysMsg 0 r (replicate 1024 Byte.x41)) 0
  else Syscall (if q <? GPID_USER_START then SYS_RECV else SYS_UNUSED)
         (SysMsg 0 0 (replicate 1024 Byte.x00)) 0.

Definition demo_machine (p : Z) (input : list Z) (sc : Z → syscall) : machine sim :=
  Machine (tty0 8 input) p sc (λ _ _, 65) (λ _, 0) 0 0 0.

Definition demo_kernel (users : list process) (m : kernel_msg) (e : machine sim)
    : kernel (machine sim) :=
  Kernel (demo_procs users) 4 6 m e.

Definition no_msg : kernel_msg := KernelMsg 0 0 0 (replicate 1024 Byte.x00).
Definition two_users : list process :=
  [Process 5 PROC_RUNNING true 0 0; Process 6 PROC_RUNNABLE true 0x80001000 0x08005010].
Definition demo_u : kparams := KParams (replicate 516 Byte.x00) 0x08002900.

Lemma demo_machine_ok p input sc : machine_ok (demo_machine p input sc).
Proof. split; [split; [apply ring_wf_empty|apply ring_wf_weak, ring_wf_empty]|done]. Qed.

Lemma demo_wf users m e :
  table_wfb (demo_procs users) 6 = true → 0 < pid (demo_procs users !!! 4%nat) →
  (in_use m = 0 ∨ in_use m = 1) → machine_ok e → kernel_wf (demo_kernel users m e).
Proof. intros H1 H2 H3 H4. split; try done. by apply table_wfb_sound. Qed.

Lemma demo_user_inv input sc :
  user_inv (demo_kernel two_users no_msg (demo_machine 5 input sc)).
Proof.
  split; [apply demo_wf; [done|done|by left|apply demo_machine_ok]|done|].
  intros i p Hp. do 16 (destruct i as [|i]; [injection Hp as <-; done|]). done.
Qed.

(** ** Interrupts *)

(** C2: The kernel's invariant.  Whatever trap is taken while user code runs:
    - for the three interrupts of the kernel it never reaches an undefined access
      or a FATAL; unless it waits for ever because nothing can run, it gives
      control back with exactly the current process marked as running, its address
      space in force, and the saved program counter and stack pointer of that
      process (or the entry point of a new process) loaded.  The context of the
      interrupted process has been saved, and the saved contexts of all other
      processes are as they were, except that Ctrl-C sends a user process to
      [proc_idle].  A timer interrupt of a server resumes the server with nothing
      changed;
    - any other interrupt is the FATAL of [intr_entry];
    - on an exception nothing is done, and no process is resumed. *)
Theorem trap_entry_inv {E} `{!Earth E, !EarthLaws E} (u : kparams) (w : nat) (k : kernel E) :
  let mcause := csr_of (earth k) MCAUSE in
  let id := Z.land mcause 0x3FF in
  user_inv k →
  if Z.land mcause (Z.shiftl 1 31) =? 0 then
    returns (trap_entry u w) k (λ r k', r = None ∧ user_inv k' ∧ k' = set_earth (earth k') k ∧
      same_view earth_ok as_of sc_of csr_of (earth k) (earth k'))
  else if known_intr id then
    trap_entry u w k = Spin ∨
    returns (trap_entry u w) k (λ r k', ∃ r', r = Some r' ∧ user_inv k' ∧
      handled_intr (proc_idle u) id k r' k')
  else ∃ e, trap_entry u w k = Fatal "intr_entry: unknown interrupt" (set_earth e k).
Proof.
  intros mcause id Hinv. destruct (trap_entry_dispatch u w k Hinv) as (k1 & I1 & V1 & Hk & Et).
  fold mcause in Et. fold id in Et. unfold returns. rewrite Et.
  destruct (Z.land mcause (Z.shiftl 1 31) =? 0); [by exists None, k1|].
  destruct (known_intr id) eqn:Ei.
  - destruct (intr_entry_spec u w id k1 I1 Ei) as [Es|(r & k2 & E2 & I2 & H2)]; [left|right].
    + unfold mbind, M_bind. by rewrite Es.
    + exists (Some r), k2. split; [unfold mbind, M_bind; by rewrite E2|]. exists r.
      split; [done|]. split; [done|]. by apply (handled_intr_earth _ _ k1).
  - exists (earth k1). unfold mbind, M_bind. rewrite intr_entry_unknown by done. by rewrite Hk at 1.
Qed.

(** Process 5 is interrupted by the timer and process 6 runs. *)
Definition demo_timer : machine sim :=
  put_csr MCAUSE (2 ^ 31 + 7) (put_csr MEPC 0x08005044 (demo_machine 5 [] (demo_sc 5 0 0))).
Lemma trap_entry_inv_witness : ∃ k',
  trap_entry demo_u 0 (demo_kernel two_users no_msg demo_timer) = Ret (Some CtxJump) k' ∧
  user_inv k' ∧ curr_pid k' = 6 ∧ m_csr (earth k') MEPC = 0x08005010 ∧
  mepc (proc_at k' 4) = 0x08005044.
Proof.
  assert (Hinv : user_inv (demo_kernel two_users no_msg demo_timer)).
  { pose proof (demo_user_inv [] (demo_sc 5 0 0)) as [W A R]. split; [|done|done].
    destruct W as [W1 W2 W3 W4 W5]. by split. }
  pose proof (trap_entry_inv demo_u 0 (demo_kernel two_users no_msg demo_timer) Hinv) as H.
  cbv zeta in H. change (csr_of (earth (demo_kernel two_users no_msg demo_timer)) MCAUSE)
    with (2 ^ 31 + 7) in H.
  change (known_intr _) with true in H. change (_ =? 0) with false in H.
  destruct H as [Hs|(r & k' & E & r' & -> & Hinv' & _)].
  - exfalso. vm_compute in Hs. discriminate Hs.
  - vm_compute in E. injection E as <- <-. eexists. split; [vm_compute; reflexivity|].
    split; [exact Hinv'|]. by vm_compute.
Defined.

(** ** Scheduling *)

(** [n] calls of [proc_yield] in a row, with anything in between that keeps the
    current index; after each, process [j] can run but another one was chosen. *)
Inductive passed_over {E} `{!Earth E, !EarthLaws E} (u : kparams) (j : Z)
    : nat → kernel E → Prop :=
| po_nil k : passed_over u j 0 k
| po_step n k w r k1 k2 :
    proc_yield u w k = Ret r k1 →
    runnable_at (proc_set k1) j = true → proc_curr_idx k1 ≠ j →
    kernel_wf k2 → proc_curr_idx k2 = proc_curr_idx k1 →
    passed_over u j n k2 → passed_over u j (S n) k.

(** The process chosen is at most as far as any other that can run. *)
Lemma yield_nearer {E} `{!Earth E, !EarthLaws E} u j w (k : kernel E) r k1 :
  kernel_wf k → 0 ≤ j < MAX_NPROCESS →
  proc_yield u w k = Ret r k1 → runnable_at (proc_set k1) j = true → proc_curr_idx k1 ≠ j →
  dist (proc_curr_idx k1) j < dist (proc_curr_idx k) j.
Proof.
  intros Hwf Hj E1 Hr Hne. destruct (proc_yield_spec u w k Hwf) as [Hs|(r' & k1' & E2 & H2)].
  { by rewrite E1 in Hs. }
  rewrite E1 in E2. injection E2 as <- <-. destruct H2 as (k0 & i & st & W & Ef & _ & S).
  rewrite (sd_curr _ _ _ _ S) in *. pose proof (wt_wf _ _ _ W) as Hwf0.
  destruct (find_next_Some _ _ _ _ Ef) as (d & Hd & Hi & _).
  pose proof (slot_range (proc_curr_idx k0) d) as Hir. rewrite <-Hi in Hir.
  assert (Hlen : (Z.to_nat (proc_curr_idx k0) < length (proc_set k0))%nat)
    by (eapply lookup_lt_Some; by apply curr_lookup).
  rewrite (sd_table _ _ _ _ S) in Hr.
  rewrite sched_table_runnable in Hr by (done || lia || apply Hwf0).
  destruct (find_next_runnable (proc_set k0) (proc_curr_idx k0) j Hj Hr) as (i' & st' & Ef' & Hle).
  rewrite Ef in Ef'. injection Ef' as <- <-.
  rewrite <-(wt_curr _ _ _ W). by apply dist_decreases.
Qed.

(** C12: Bounded waiting.  A process that can run is passed over at most 15 times
    in a row: within 16 scheduling decisions the kernel chooses it, whatever
    happens between the decisions. *)
Theorem sched_bounded_wait {E} `{!Earth E, !EarthLaws E} (u : kparams) (j : Z) (n : nat)
    (k : kernel E) :
  kernel_wf k → 0 ≤ j < MAX_NPROCESS → passed_over u j n k → Z.of_nat n < MAX_NPROCESS.
Proof.
  intros Hwf Hj Hrun.
  assert (Hgen : Z.of_nat n < dist (proc_curr_idx k) j); [|pose proof (dist_range (proc_curr_idx k) j); lia].
  revert Hwf. induction Hrun as [k|n k w r k1 k2 E1 Hr Hne Hwf2 Hc _ IH]; intros Hwf.
  - pose proof (dist_range (proc_curr_idx k) j). lia.
  - specialize (IH Hwf2). pose proof (yield_nearer u j w k r k1 Hwf Hj E1 Hr Hne).
    rewrite Hc in IH. lia.
Qed.

Lemma sched_bounded_wait_witness :
  let k := demo_kernel two_users no_msg (demo_machine 5 [] (demo_sc 5 0 0)) in
  passed_over demo_u 4 1 k ∧ 1 < MAX_NPROCESS.
Proof.
  intros k. assert (Hp : passed_over demo_u 4 1 k).
  { destruct (proc_yield_spec demo_u 0 k) as [Hs|(r & k1 & E & k0 & i & st & W & Ef & _ & S)].
    - apply demo_user_inv.
    - vm_compute in Hs. discriminate Hs.
    - assert (Hi : proc_curr_idx k1 = 5 ∧ runnable_at (proc_set k1) 4 = true).
      { vm_compute in E. injection E as <- <-. by vm_compute. }
      apply (po_step demo_u 4 0 k 0 r k1 k1); [exact E|apply Hi|by rewrite (proj1 Hi)|apply S|done|].
      apply po_nil. }
  split; [exact Hp|]. apply (sched_bounded_wait demo_u 4 1 k); [apply demo_user_inv|done|exact Hp].
Defined.

Lemma progress_runnable ps ps' j :
  Forall2 progress ps ps' → (Z.to_nat j < length ps)%nat →
  runnable_at ps j = true → runnable_at ps' j = true.
Proof.
  intros HF Hj Hr. destruct (lookup_lt_is_Some_2 ps _ Hj) as [p Hp].
  destruct (Forall2_lookup_l _ _ _ _ _ HF Hp) as (p' & Hp' & Hpr).
  unfold runnable_at in *. rewrite (list_lookup_total_correct _ _ _ Hp) in Hr.
  rewrite (list_lookup_total_correct _ _ _ Hp'). by destruct Hpr as [->|[_ ->]].
Qed.

(** [proc_yield] when some process can run: requests are tried again, then the next
    process is chosen. *)
Lemma proc_yield_quiet {E} `{!Earth E, !EarthLaws E} (u : kparams) (w : nat) (k : kernel E)
    (j rc : Z) (e : E) :
  kernel_wf k → 0 ≤ j < MAX_NPROCESS → runnable_at (proc_set k) j = true →
  trap_external (earth k) = Ret rc e → rc ≠ RET_SPECIAL_CHAR →
  returns (proc_yield u w) k (λ r k', ∃ k1 d st,
    idle_sc_same (proc_set k) (earth k) (earth k1) ∧ external_post k k1 ∧
    Forall2 progress (proc_set k) (proc_set k1) ∧ proc_curr_idx k1 = proc_curr_idx k ∧
    1 ≤ d ≤ MAX_NPROCESS ∧ st = status (proc_at k1 (slot (proc_curr_idx k) d)) ∧
    can_run st = true ∧
    (∀ d', 1 ≤ d' < d → runnable_at (proc_set k1) (slot (proc_curr_idx k) d') = false) ∧
    r = resume_of st ∧ scheduled k1 k' (slot (proc_curr_idx k) d) st).
Proof.
  intros Hwf Hj Hr Et Hrc. unfold proc_yield. apply returns_bind.
  eapply returns_mono; [by eapply external_handle_quiet|cbv beta].
  intros _ k1 (_ & Hp & HF & Hi & _). pose proof Hp as [P1 P2 P3 P4 P5 P6].
  assert (Hlen : (Z.to_nat j < length (proc_set k))%nat)
    by (eapply lookup_lt_Some; by apply entry_lookup).
  pose proof (progress_runnable _ _ j HF Hlen Hr) as Hr1.
  destruct (find_next_runnable (proc_set k1) (proc_curr_idx k1) j Hj Hr1) as (i & st & Ef & _).
  assert (Ey : yield_loop u w k1 = Ret (i, st) k1) by (destruct w; simpl; by rewrite gets_bind, Ef).
  apply returns_bind. exists (i, st), k1. split; [done|].
  destruct (find_next_Some _ _ _ _ Ef) as (d & Hd & -> & -> & Hrun & Hfirst).
  eapply returns_mono; [apply switch_to_spec; [done|apply slot_range|by apply can_run_used]|cbv beta].
  intros r k2 [-> Hs]. rewrite P2 in *. by exists k1, d, (status (proc_at k1 (slot (proc_curr_idx k) d))).
Qed.

(** C13: If some process can run and no Ctrl-C is pending, [proc_yield] returns
    without waiting.  Before it decides, waiting requests are tried again and
    nothing else happens to the table; it chooses the first process after the
    current one, in the order of the table, that can run, marks it as running
    and the old one as runnable, and switches to its address space. *)
Theorem proc_yield_picks {E} `{!Earth E, !EarthLaws E} (u : kparams) (w : nat) (k : kernel E)
    (j rc : Z) (e : E) :
  kernel_wf k → 0 ≤ j < MAX_NPROCESS → runnable_at (proc_set k) j = true →
  trap_external (earth k) = Ret rc e → rc ≠ RET_SPECIAL_CHAR →
  returns (proc_yield u w) k (λ r k', ∃ k1 d st,
    Forall2 progress (proc_set k) (proc_set k1) ∧ proc_curr_idx k1 = proc_curr_idx k ∧
    1 ≤ d ≤ MAX_NPROCESS ∧ st = status (proc_at k1 (slot (proc_curr_idx k) d)) ∧
    can_run st = true ∧
    (∀ d', 1 ≤ d' < d → runnable_at (proc_set k1) (slot (proc_curr_idx k) d') = false) ∧
    r = resume_of st ∧ scheduled k1 k' (slot (proc_curr_idx k) d) st).
Proof.
  intros Hwf Hj Hr Et Hrc. eapply returns_mono; [by eapply proc_yield_quiet|cbv beta].
  intros r k' (k1 & d & st & _ & _ & Hk). by exists k1, d, st.
Qed.

Lemma proc_yield_picks_witness : ∃ r k',
  proc_yield demo_u 0 (demo_kernel two_users no_msg (demo_machine 5 [] (demo_sc 5 0 0))) = Ret r k' ∧
  curr_pid k' = 6 ∧ m_as (earth k') = 6.
Proof.
  destruct (proc_yield_picks demo_u 0
    (demo_kernel two_users no_msg (demo_machine 5 [] (demo_sc 5 0 0))) 5 0
    (demo_machine 5 [] (demo_sc 5 0 0)))
    as (r & k' & E & k1 & d & st & _ & _ & _ & _ & _ & _ & _ & S).
  - apply demo_user_inv.
  - done.
  - by vm_compute.
  - by vm_compute.
  - done.
  - exists r, k'. split; [exact E|]. vm_compute in E. injection E as <- <-. by vm_compute.
Defined.

(** ** System calls and messages *)

(** C23: [syscall_handle] for the current process, on every branch ([handled],
    [sys_outcome]).  A message that can be sent or received is, by the contents of
    the buffer alone.  A request of the tty has the result [rc] that the tty
    driver returns for it, called with the request cleared.  With 0 the process is
    runnable, its request cleared and its return value 0, after a read that stores
    its character outside the system call area, too; with -1, and when a message
    has to wait, it is requesting and its request is as before; with another
    result, a write that can never succeed, it is runnable and gets -1.  No other
    process's entry or system call area changes. *)
Theorem syscall_handle_correct {E} `{!Earth E, !EarthLaws E} (k : kernel E) :
  kernel_wf k → as_of (earth k) = curr_pid k →
  returns syscall_handle k (λ _ k', handled k k' (curr_pid k)).
Proof. apply syscall_handle_spec. Qed.

Lemma syscall_handle_correct_witness : ∃ k',
  syscall_handle (demo_kernel two_users no_msg (demo_machine 5 [] (demo_sc 5 SYS_SEND 6))) = Ret tt k' ∧
  handled (demo_kernel two_users no_msg (demo_machine 5 [] (demo_sc 5 SYS_SEND 6))) k' 5.
Proof.
  destruct (syscall_handle_correct
    (demo_kernel two_users no_msg (demo_machine 5 [] (demo_sc 5 SYS_SEND 6)))) as ([] & k' & E & H).
  - apply demo_user_inv.
  - done.
  - exists k'. exact (conj E H).
Defined.

(** C15: Messages.  If the current process sends while the kernel's buffer is
    free, and later the receiver asks for a message before another one was
    sent, the receiver's system call area holds exactly the bytes that were
    sent, with the sender's pid, and both calls return 0; the buffer is free
    again. *)
Theorem ipc_delivers {E} `{!Earth E, !EarthLaws E} (k1 k2 : kernel E) (k1' : kernel E) :
  kernel_wf k1 → as_of (earth k1) = curr_pid k1 →
  in_use (KERNEL_MSG_BUFF k1) = 0 → type (sc_of (earth k1) (curr_pid k1)) = SYS_SEND →
  receiver (msg (sc_of (earth k1) (curr_pid k1))) = curr_pid k2 →
  syscall_handle k1 = Ret tt k1' →
  kernel_wf k2 → as_of (earth k2) = curr_pid k2 →
  KERNEL_MSG_BUFF k2 = KERNEL_MSG_BUFF k1' → type (sc_of (earth k2) (curr_pid k2)) = SYS_RECV →
  retval (sc_of (earth k1') (curr_pid k1)) = 0 ∧
  returns syscall_handle k2 (λ _ k2',
    sc_of (earth k2') (curr_pid k2) =
      Syscall SYS_UNUSED
        (SysMsg (curr_pid k1) (receiver (msg (sc_of (earth k2) (curr_pid k2))))
           (content (msg (sc_of (earth k1) (curr_pid k1))))) 0 ∧
    in_use (KERNEL_MSG_BUFF k2') = 0 ∧ curr_status k2' = PROC_RUNNABLE).
Proof.
  intros W1 A1 Hfree T1 Hrecv E1 W2 A2 Hbuf T2.
  destruct (syscall_handle_spec k1 W1 A1) as ([] & k1a & E1' & [_ _ _ _ _ _ (st1 & rc1 & Hset1 & Ho1 & _)]).
  rewrite E1 in E1'. injection E1' as <-.
  assert (Hs1 : serve_msg (curr_pid k1) (sc_of (earth k1) (curr_pid k1)) (KERNEL_MSG_BUFF k1) =
    Some (msg (sc_of (earth k1) (curr_pid k1)),
          KernelMsg 1 (curr_pid k1) (curr_pid k2) (content (msg (sc_of (earth k1) (curr_pid k1)))))).
  { unfold serve_msg. by rewrite T1, Hfree, Hrecv. }
  destruct (served_inv _ _ _ _ _ _ _ _ _ Ho1 Hs1) as (_ & Hm1 & Hsc1).
  rewrite Hsc1. split; [done|].
  eapply returns_mono; [by apply syscall_handle_spec|cbv beta].
  intros _ k2' [_ H1 _ _ _ _ (st2 & rc2 & Hset2 & Ho2 & _)].
  assert (Hs2 : serve_msg (curr_pid k2) (sc_of (earth k2) (curr_pid k2)) (KERNEL_MSG_BUFF k2) =
    Some (SysMsg (curr_pid k1) (receiver (msg (sc_of (earth k2) (curr_pid k2))))
            (content (msg (sc_of (earth k1) (curr_pid k1)))),
          KernelMsg 0 (curr_pid k1) (curr_pid k2) (content (msg (sc_of (earth k1) (curr_pid k1)))))).
  { unfold serve_msg. rewrite T2, Hbuf, Hm1. simpl. by rewrite Z.eqb_refl. }
  destruct (served_inv _ _ _ _ _ _ _ _ _ Ho2 Hs2) as (-> & Hm2 & Hsc2).
  rewrite Hsc2, Hm2. split_and!; try done. unfold curr_status, proc_at. rewrite H1, Hset2.
  rewrite list_lookup_total_insert_eq; [done|]. eapply lookup_lt_Some. by apply curr_lookup.
Qed.

Lemma ipc_delivers_witness : ∃ k1' k2',
  syscall_handle (demo_kernel two_users no_msg (demo_machine 5 [] (demo_sc 5 SYS_SEND 6)))
    = Ret tt k1' ∧
  syscall_handle (Kernel (demo_procs two_users) 5 6 (KERNEL_MSG_BUFF k1')
                    (demo_machine 6 [] (demo_sc 6 SYS_RECV 0))) = Ret tt k2' ∧
  msg (m_sc (earth k2') 6) = SysMsg 5 0 (replicate 1024 Byte.x41).
Proof.
  destruct (syscall_handle_spec (demo_kernel two_users no_msg
    (demo_machine 5 [] (demo_sc 5 SYS_SEND 6)))) as ([] & k1' & E1 & H1);
    [apply demo_user_inv|done|].
  set (k2 := Kernel (demo_procs two_users) 5 6 (KERNEL_MSG_BUFF k1')
               (demo_machine 6 [] (demo_sc 6 SYS_RECV 0))).
  destruct (ipc_delivers _ k2 k1' (ui_wf _ (demo_user_inv [] (demo_sc 5 SYS_SEND 6))))
    as (_ & [] & k2' & E2 & Hsc & _); [done..|exact E1| | | | |].
  - split; [by apply table_wfb_sound|done|done| |apply demo_machine_ok].
    vm_compute in E1. injection E1 as <-. by right.
  - done.
  - done.
  - done.
  - exists k1', k2'. split; [exact E1|]. split; [exact E2|]. exact (f_equal msg Hsc).
Defined.

(** ** External interrupts *)

(** [external_handle] without a Ctrl-C gives the kernel back as it was: the
    same current process in its address space, no register changed.  The only
    processes whose entry may change are those that were requesting, and they
    can only become runnable; system call areas of other processes are as they
    were. *)
Theorem external_handle_restores {E} `{!Earth E, !EarthLaws E} (u : kparams) (k : kernel E)
    (rc : Z) (e : E) :
  kernel_wf k → trap_external (earth k) = Ret rc e → rc ≠ RET_SPECIAL_CHAR →
  returns (external_handle u) k (λ r k', r = 0 ∧ kernel_wf k' ∧
    proc_curr_idx k' = proc_curr_idx k ∧ as_of (earth k') = curr_pid k ∧
    (∀ c, csr_of (earth k') c = csr_of (earth k) c) ∧
    Forall2 progress (proc_set k) (proc_set k') ∧
    idle_sc_same (proc_set k) (earth k) (earth k')).
Proof.
  intros Hwf Et Hrc. eapply returns_mono; [by eapply external_handle_quiet|cbv beta].
  intros r k' (-> & [P1 P2 P3 P4 P5 P6] & HF & Hsc & _). done.
Qed.

Lemma external_handle_restores_witness : ∃ k',
  external_handle demo_u (demo_kernel two_users no_msg (demo_machine 5 [104] (demo_sc 5 0 0)))
    = Ret 0 k' ∧ proc_curr_idx k' = 4 ∧ m_as (earth k') = 5.
Proof.
  destruct (trap_external (demo_machine 5 [104] (demo_sc 5 0 0))) as [rc e| | |] eqn:Et;
    try (exfalso; vm_compute in Et; discriminate Et).
  destruct (external_handle_restores demo_u
    (demo_kernel two_users no_msg (demo_machine 5 [104] (demo_sc 5 0 0))) rc e)
    as (r & k' & E & -> & _ & Hc & Ha & _).
  - apply demo_user_inv.
  - exact Et.
  - vm_compute in Et. injection Et as <- _. done.
  - exists k'. split; [exact E|]. split; [exact Hc|exact Ha].
Defined.

(** C14: A process that waits for a message gets it.  If process [q] is waiting
    in [SYS_RECV] and a message for it is in the kernel's buffer, the next
    external interrupt without Ctrl-C makes [q] runnable with exactly that
    message, whatever the other processes request: no request before [q]'s in
    the table takes or overwrites the message, none after it disturbs [q]. *)
Theorem waiting_receiver_served {E} `{!Earth E, !EarthLaws E} (u : kparams) (k : kernel E)
    (rc : Z) (e : E) (j : nat) (q : process) (s : Z) (c : list byte) :
  kernel_wf k → trap_external (earth k) = Ret rc e → rc ≠ RET_SPECIAL_CHAR →
  proc_set k !! j = Some q → status q = PROC_REQUESTING →
  type (sc_of (earth k) (pid q)) = SYS_RECV → KERNEL_MSG_BUFF k = KernelMsg 1 s (pid q) c →
  returns (external_handle u) k (λ _ k',
    proc_set k' !! j = Some (with_status PROC_RUNNABLE q) ∧
    sc_of (earth k') (pid q) =
      Syscall SYS_UNUSED (SysMsg s (receiver (msg (sc_of (earth k) (pid q)))) c) 0).
Proof.
  intros Hwf Et Hrc H1 H2 H3 H4.
  eapply returns_mono; [by eapply external_handle_delivers|cbv beta]. by intros _ k' [D1 D2].
Qed.

Lemma waiting_receiver_served_witness : ∃ k',
  external_handle demo_u (demo_kernel two_users (KernelMsg 1 5 2 (replicate 1024 Byte.x41))
    (demo_machine 5 [] (demo_sc 5 0 0))) = Ret 0 k' ∧
  m_sc (earth k') 2 = Syscall SYS_UNUSED (SysMsg 5 0 (replicate 1024 Byte.x41)) 0.
Proof.
  set (k := demo_kernel two_users (KernelMsg 1 5 2 (replicate 1024 Byte.x41))
    (demo_machine 5 [] (demo_sc 5 0 0))).
  destruct (waiting_receiver_served demo_u k 0 (demo_machine 5 [] (demo_sc 5 0 0)) 1
    (Process 2 PROC_REQUESTING false 0 0) 5 (replicate 1024 Byte.x41)) as (r & k' & E & _ & Hsc).
  - apply demo_wf; [done|done|by right|apply demo_machine_ok].
  - by vm_compute.
  - done.
  - done.
  - done.
  - done.
  - done.
  - exists k'. split; [|exact Hsc]. assert (r = 0) as -> by (vm_compute in E; by injection E as <- _).
    exact E.
Defined.

(** ** The process table *)

(** [proc_alloc] hands out a pid that no entry has ever had, in the first
    unused entry, and the table stays well formed (pids distinct, exactly user
    processes killable).  It stops with FATAL exactly when all 16 entries are in
    use.  The counter must be below the largest [int]. *)
Theorem proc_alloc_correct (ps : table) (nprocs : Z) :
  table_wf ps nprocs → nprocs < 2 ^ 31 - 1 →
  match proc_alloc ps nprocs with
  | None => ∀ p, p ∈ ps → status p ≠ PROC_UNUSED
  | Some (new, ps') =>
      0 < new < 2 ^ 31 ∧ table_wf ps' new ∧ (∀ p, p ∈ ps → pid p ≠ new) ∧
      ∃ i p, ps !! i = Some p ∧ status p = PROC_UNUSED ∧
        (∀ j q, (j < i)%nat → ps !! j = Some q → status q ≠ PROC_UNUSED) ∧
        ps' = <[i := Process new PROC_LOADING (GPID_USER_START <=? new) (sp p) (mepc p)]> ps
  end.
Proof.
  intros Hwf Hn. destruct (proc_alloc ps nprocs) as [[new ps']|] eqn:Ea.
  - destruct (proc_alloc_wf _ _ _ _ Hwf Ea) as (-> & Hwf' & Hfresh & _).
    pose proof (tw_nprocs _ _ Hwf). split; [lia|]. split; [done|]. split; [done|].
    unfold proc_alloc in Ea. destruct (alloc_slot _ ps) as [ps1|] eqn:Es; [|done].
    injection Ea as <-. by apply alloc_slot_Some.
  - unfold proc_alloc in Ea. destruct (alloc_slot _ ps) eqn:Es; [done|].
    exact (proj1 (alloc_slot_None _ _) Es).
Qed.

Lemma proc_alloc_correct_witness :
  match proc_alloc (demo_procs two_users) 6 with
  | None => False
  | Some (new, ps') => new = 7 ∧ table_wf ps' 7 ∧ ∀ p, p ∈ demo_procs two_users → pid p ≠ 7
  end.
Proof.
  assert (H : table_wf (demo_procs two_users) 6) by (by apply table_wfb_sound).
  pose proof (proc_alloc_correct (demo_procs two_users) 6 H eq_refl) as P.
  destruct (proc_alloc (demo_procs two_users) 6) as [[new ps']|] eqn:Ea; [|discriminate Ea].
  assert (new = 7) as -> by (vm_compute in Ea; by injection Ea as <- _).
  destruct P as (_ & P2 & P3 & _). exact (conj eq_refl (conj P2 P3)).
Defined.

(** [proc_free(-1)] frees exactly the user applications: their entries
    become unused, every other entry and the system call areas of the servers
    are as they were, and the table stays well formed. *)
Theorem proc_free_all {E} `{!Earth E, !EarthLaws E} (ps : table) (nprocs : Z) (e : E) :
  table_wf ps nprocs → earth_ok e →
  returns (proc_free mmu_free (-1) ps) e (λ ps' e', table_wf ps' nprocs ∧ as_of e' = as_of e ∧
    (∀ q, q < GPID_USER_START → sc_of e' q = sc_of e q) ∧
    ∀ i p, ps !! i = Some p →
      ps' !! i = Some (if GPID_USER_START <=? pid p then with_status PROC_UNUSED p else p)).
Proof.
  intros Hwf Hok. destruct (free_users_spec ps e Hok) as (e' & E1 & _ & A & S).
  exists (freed <$> ps), e'. split; [exact E1|]. split; [by apply table_wf_freed|].
  split; [done|]. split; [done|]. intros i p Hp. rewrite list_lookup_fmap, Hp. simpl. f_equal.
  unfold freed. destruct (GPID_USER_START <=? pid p); [|done].
  destruct (decide (status p = PROC_UNUSED)) as [Hs|Hs]; simpl.
  - rewrite bool_decide_eq_false_2 by naive_solver. unfold with_status. rewrite <-Hs. by destruct p.
  - by rewrite bool_decide_eq_true_2.
Qed.

Lemma proc_free_all_witness : ∃ ps' e',
  proc_free mmu_free (-1) (demo_procs two_users) (demo_machine 1 [] (demo_sc 5 0 0)) = Ret ps' e' ∧
  table_wf ps' 6.
Proof.
  destruct (proc_free_all (demo_procs two_users) 6 (demo_machine 1 [] (demo_sc 5 0 0)))
    as (ps' & e' & E & Hwf & _).
  - by apply table_wfb_sound.
  - apply demo_machine_ok.
  - exists ps', e'. exact (conj E Hwf).
Defined.

(** ** Ctrl-C *)

(** C25: Ctrl-C while no server is at work.  [special_handle] makes the first
    process that can be killed send the KILLALL request and then idle, marks all
    other killable processes as zombies, and touches no server; if there is
    none to kill nothing changes. *)
Theorem special_handle_stops {E} `{!Earth E, !EarthLaws E} (u : kparams) (k : kernel E) :
  kernel_wf k → Forall server_idle (proc_set k) →
  returns (special_handle u) k (λ _ k', kernel_wf k' ∧
    proc_set k' = (stopped u (proc_set k) false).1 ∧
    match find stoppable (proc_set k) with
    | Some p => sc_of (earth k') (pid p) = killall_sc u (sc_of (earth k) (pid p)) ∧
                ∀ q, q ≠ pid p → sc_of (earth k') q = sc_of (earth k) q
    | None => proc_set k' = proc_set k ∧ ∀ q, sc_of (earth k') q = sc_of (earth k) q
    end).
Proof.
  intros Hwf Hidle. eapply returns_mono; [by apply special_handle_table|cbv beta].
  intros _ k' (H1 & H2 & H3). split; [done|]. split; [done|]. unfold report_sc in H3.
  destruct (find stoppable (proc_set k)) eqn:Ef; [done|]. split; [|done].
  by rewrite H2, stopped_none.
Qed.

Lemma special_handle_stops_witness : ∃ k',
  special_handle demo_u (demo_kernel two_users no_msg (demo_machine 5 [3] (demo_sc 5 0 0)))
    = Ret tt k' ∧
  (status <$> proc_set k' !! 4%nat) = Some PROC_REQUESTING ∧
  (status <$> proc_set k' !! 5%nat) = Some PROC_ZOMBIE.
Proof.
  destruct (special_handle_stops demo_u
    (demo_kernel two_users no_msg (demo_machine 5 [3] (demo_sc 5 0 0)))) as ([] & k' & E & _ & Hset & _).
  - apply demo_user_inv.
  - apply Forall_lookup. intros i p Hp Hle.
    do 16 (destruct i as [|i]; [injection Hp as <-; (by left) || (by right) || (by vm_compute in Hle)|]).
    done.
  - exists k'. split; [exact E|]. rewrite Hset. done.
Defined.

(** The KILLALL request goes to whatever process the killed one sent to
    last.  [special_handle] sets the contents and the type of the message but
    not its receiver: after Ctrl-C in a process whose last message was to the
    file server, the request in transit is addressed to the file server, and the
    process server never learns of it. *)
Example special_handle_receiver :
  match external_handle demo_u
          (demo_kernel two_users no_msg (demo_machine 5 [SPECIAL_CTRL_C] (demo_sc 5 0 GPID_FILE))) with
  | Ret _ k' =>
      let m := KERNEL_MSG_BUFF k' in
      in_use m = 1 ∧ ksender m = 5 ∧ kreceiver m = GPID_FILE ∧
      take 4 (kmsg m) = take 4 (put_request PROC_KILLALL [] [])
  | _ => False
  end.
Proof. by vm_compute. Qed.
