(* ===== verification/LostCall.v ===== *)
(** * A system call that is lost

    All processes share one software interrupt bit.  A process fills its system
    call area, sets the bit and waits for its request to be cleared; if an external
    interrupt is taken first, and some process is waiting with a request, the
    kernel clears the bit when it tries that request again. *)

From S2P Require Import Prelude Layout Blocks Ring Uart Tty TtyOps Intr TtyCorrect.
From S2P Require Import Earth Process Kernel KernelInv KernelOps Delivery Sched KernelCorrect Machine KernelThms.

(** ** The software interrupt bit *)

(** Code after which [f] is 0 if it was before, and code after which it is 0. *)
Section zero.
Context {S : Type} (f : S → Z).

Definition keeps0 {A} (m : M S A) : Prop := ∀ s a s', f s = 0 → m s = Ret a s' → f s' = 0.
Definition clears {A} (m : M S A) : Prop := ∀ s a s', m s = Ret a s' → f s' = 0.

Lemma keeps0_ret {A} (a : A) : keeps0 (mret a).
Proof. intros s a' s' Hs [= _ <-]. done. Qed.
Lemma keeps0_gets {A} (g : S → A) : keeps0 (gets g).
Proof. intros s a' s' Hs [= _ <-]. done. Qed.
Lemma keeps0_modify g : (∀ s, f s = 0 → f (g s) = 0) → keeps0 (modify g).
Proof. intros Hg s a' s' Hs [= _ <-]. by apply Hg. Qed.
Lemma keeps0_spin {A} : keeps0 (spin : M S A).
Proof. intros s a s' _ E. discriminate E. Qed.
Lemma keeps0_bind {A B} (m : M S A) (g : A → M S B) :
  keeps0 m → (∀ a, keeps0 (g a)) → keeps0 (m ≫= g).
Proof.
  intros Hm Hg s b s' Hs E. unfold mbind, M_bind in E. destruct (m s) as [a s1| | |] eqn:E1; [|done..].
  apply (Hg a s1 b s'); [by apply (Hm s a)|done].
Qed.

Lemma clears_later {A B} (m : M S A) (g : A → M S B) : (∀ a, clears (g a)) → clears (m ≫= g).
Proof.
  intros Hg s b s' E. unfold mbind, M_bind in E. destruct (m s) as [a s1| | |] eqn:E1; [|done..].
  by apply (Hg a s1 b s').
Qed.
Lemma clears_bind {A B} (m : M S A) (g : A → M S B) :
  clears m → (∀ a, keeps0 (g a)) → clears (m ≫= g).
Proof.
  intros Hm Hg s b s' E. unfold mbind, M_bind in E. destruct (m s) as [a s1| | |] eqn:E1; [|done..].
  apply (Hg a s1 b s'); [by apply (Hm s a)|done].
Qed.
End zero.

Create HintDb msip.
#[export] Hint Resolve keeps0_ret keeps0_gets keeps0_spin : msip.

Ltac msip_step :=
  first
    [ solve [eauto with msip]
    | apply keeps0_bind; [|intros ?]
    | apply keeps0_modify; solve [auto]
    | progress case_match ].
Ltac msip := repeat msip_step.

Section msip.
Context {H : Type} `{!Mmio H, !Uart H, !Plic H}.
Implicit Types k : kernel (machine H).
Local Abbreviation bit := (λ k : kernel (machine H), m_msip (earth k)).
Local Abbreviation keeps := (keeps0 bit).

Lemma keeps_tty {A} (m : M (tty H) A) : keeps0 m_msip (on_tty m).
Proof. intros e a e' He E. unfold on_tty in E. destruct (m (m_tty e)); [|done..]. by injection E as <- <-. Qed.
Hint Resolve keeps_tty : msip.

Lemma keeps_earth {A} (m : M (machine H) A) : keeps0 m_msip m → keeps (on_earth m).
Proof.
  intros Hm k a k' Hk E. unfold on_earth in E. destruct (m (earth k)) as [b e| | |] eqn:E1; [|done..].
  injection E as <- <-. by apply (Hm (earth k) b).
Qed.

(** The functions of the earth layer that the kernel calls. *)
Lemma keeps_op :
  keeps (on_earth timer_reset) ∧ (∀ p, keeps (on_earth (mmu_switch p))) ∧ keeps (on_earth trap_external) ∧
  (∀ p, keeps (on_earth (etty_read p))) ∧ (∀ p n, keeps (on_earth (etty_write p n))) ∧
  keeps (on_earth etty_read_tail) ∧ keeps (on_earth etty_user_mode) ∧ (∀ s, keeps (on_earth (eprintf s))) ∧
  keeps (on_earth sc_get) ∧ (∀ s, keeps (on_earth (sc_set s))) ∧ keeps (on_earth msip_clear) ∧
  (∀ c, keeps (on_earth (csr_read c))) ∧ (∀ c v, keeps (on_earth (csr_write c v))) ∧ keeps (on_earth wfi).
Proof.
  split_and!; intros; apply keeps_earth; cbn; msip. intros e a e' He E.
  exact (keeps_tty (Intr.trap_external (rx_ready (dev (m_tty e))) 0) e a e' He E).
Qed.

Ltac ops := destruct keeps_op as (? & ? & ? & ? & ? & ? & ? & ? & ? & ? & ? & ? & ? & ?).

Lemma keeps_sc_update g : keeps (sc_update g).
Proof. ops. unfold sc_update. msip. Qed.
Hint Resolve keeps_sc_update : msip.

(** The second half of [syscall_handle] leaves the bit alone, the first clears it. *)
Lemma keeps_serve ty :
  keeps (if ty =? SYS_RECV then y_recv else if ty =? SYS_SEND then y_send
         else if ty =? TTY_READ then proc_tty_read
         else if ty =? TTY_WRITE then proc_tty_write else mret (-1)).
Proof. ops. unfold y_recv, y_send, proc_tty_read, proc_tty_write. msip. Qed.
Hint Resolve keeps_serve : msip.

Lemma clears_msip : clears bit (on_earth (E := machine H) msip_clear).
Proof. intros k a k' [= <- <-]. done. Qed.

Lemma syscall_handle_clears : clears bit (syscall_handle (E := machine H)).
Proof.
  unfold syscall_handle. apply clears_later; intros sc. do 2 (apply clears_later; intros _).
  apply clears_bind; [apply clears_msip|intros _].
  apply keeps0_bind; [msip|intros p]. apply keeps0_bind; [msip|intros _].
  apply keeps0_bind; [apply keeps_serve|intros rc]. msip.
Qed.

Lemma clears_keeps {A} (m : M (kernel (machine H)) A) : clears bit m → keeps m.
Proof. intros Hm k a k' _. apply Hm. Qed.
Lemma keeps_syscall_handle : keeps syscall_handle.
Proof. apply clears_keeps, syscall_handle_clears. Qed.
Hint Resolve keeps_syscall_handle : msip.

Lemma keeps_requesting_loop n : ∀ i, keeps (requesting_loop n i).
Proof. ops. induction n; intros i; cbn [requesting_loop]; msip. Qed.

Lemma keeps_special_handle u : keeps (special_handle u).
Proof.
  ops. unfold special_handle. assert (Hl : ∀ n i b, keeps (special_loop u n i b)).
  { induction n as [|n IH]; intros i b; cbn [special_loop]; unfold report; msip. }
  msip.
Qed.
Hint Resolve keeps_requesting_loop keeps_special_handle : msip.

Lemma keeps_external_handle u : keeps (external_handle u).
Proof. ops. unfold external_handle. msip. Qed.
Hint Resolve keeps_external_handle : msip.

Lemma keeps_proc_yield u w : keeps (proc_yield u w).
Proof.
  ops. unfold proc_yield. assert (Hl : keeps (yield_loop u w)).
  { induction w as [|w IH]; cbn [yield_loop]; unfold proc_wait; msip. }
  apply keeps0_bind; [msip|intros _]. apply keeps0_bind; [exact Hl|intros [i st]]. unfold switch_to. msip.
Qed.

(** If some process is requesting, its request is tried and the bit is cleared. *)
Lemma requesting_loop_clears n : ∀ i j k k' a,
  0 ≤ i → i ≤ j < i + Z.of_nat n → status (proc_at k j) = PROC_REQUESTING →
  requesting_loop n i k = Ret a k' → m_msip (earth k') = 0.
Proof.
  induction n as [|n IH]; intros i j k k' a Hi Hj Hst E; [lia|]. cbn [requesting_loop] in E.
  rewrite gets_bind in E. destruct (decide (status (proc_at k i) = PROC_REQUESTING)) as [Hs|Hs].
  - match type of E with ?m k = _ => assert (Hm : clears bit m) end; [|by apply (Hm k a)].
    apply clears_bind; [|intros _; apply keeps_requesting_loop].
    do 2 (apply clears_later; intros _). apply syscall_handle_clears.
  - assert (i ≠ j) by (intros ->; done). apply (IH (i + 1) j k k' a); [lia|lia|done|exact E].
Qed.

Lemma external_handle_clears u k k' a j rc e :
  0 ≤ j < MAX_NPROCESS → status (proc_at k j) = PROC_REQUESTING →
  trap_external (earth k) = Ret rc e → rc ≠ RET_SPECIAL_CHAR →
  external_handle u k = Ret a k' → m_msip (earth k') = 0.
Proof.
  ops. intros Hj Hst Et Hrc E. unfold external_handle in E.
  assert (Et' : on_earth trap_external k = Ret rc (set_earth e k)) by (unfold on_earth; by rewrite Et).
  unfold mbind at 1, M_bind at 1 in E. rewrite Et', gets_bind, (proj2 (Z.eqb_neq _ _) Hrc) in E.
  change ((_ ← requesting_loop nprocess 0; _ ← modify (set_curr (proc_curr_idx (set_earth e k)));
    p ← gets curr_pid; _ ← on_earth (mmu_switch p); mret 0) (set_earth e k) = Ret a k') in E.
  unfold mbind at 1, M_bind at 1 in E.
  destruct (requesting_loop nprocess 0 (set_earth e k)) as [[] k1| | |] eqn:E1; [|done..].
  eapply (requesting_loop_clears _ 0 j) in E1; [|done..].
  match type of E with ?m k1 = _ => assert (Hm : keeps m) by msip end. by apply (Hm k1 a).
Qed.
End msip.

(** ** The theorem *)

(** A running process stays as it is while requests of others are tried. *)
Lemma running_kept {E} `{!Earth E, !EarthLaws E} (k k1 : kernel E) :
  kernel_wf k → curr_status k = PROC_RUNNING →
  Forall2 progress (proc_set k) (proc_set k1) → idle_sc_same (proc_set k) (earth k) (earth k1) →
  proc_set k1 !! Z.to_nat (proc_curr_idx k) = Some (proc_at k (proc_curr_idx k)) ∧
  sc_of (earth k1) (curr_pid k) = sc_of (earth k) (curr_pid k).
Proof.
  intros Hwf Hst HF Hsc. pose proof (curr_lookup k Hwf) as Hl. split.
  - destruct (Forall2_lookup_l _ _ _ _ _ HF Hl) as (q & Hq & [->|[Hs _]]); [done|].
    unfold curr_status in Hst. congruence.
  - apply Hsc. intros q Hq Hpid Hs. apply list_elem_of_lookup in Hq as [i Hi].
    assert (i = Z.to_nat (proc_curr_idx k)) as ->.
    { eapply (tw_uniq _ _ (kw_table _ Hwf)); [exact Hi|exact Hl|rewrite Hpid; apply Hwf|exact Hpid]. }
    rewrite Hl in Hi. injection Hi as <-. unfold curr_status in Hst. congruence.
Qed.

(** The scheduler leaves it runnable, or running. *)
Lemma sched_table_current (ps : table) (c i : Z) (p : process) :
  ps !! Z.to_nat c = Some p → status p = PROC_RUNNING →
  ∃ p', sched_table ps c i !! Z.to_nat c = Some p' ∧ pid p' = pid p ∧
    (status p' = PROC_RUNNABLE ∨ status p' = PROC_RUNNING).
Proof.
  intros Hl Hst. unfold sched_table. rewrite (list_lookup_total_correct _ _ _ Hl), decide_True by done.
  assert (Hc : <[Z.to_nat c:=with_status PROC_RUNNABLE p]> ps !! Z.to_nat c =
    Some (with_status PROC_RUNNABLE p)) by (apply list_lookup_insert_eq; by eapply lookup_lt_Some).
  destruct (decide (Z.to_nat i = Z.to_nat c)) as [->|Hne].
  - rewrite (list_lookup_total_correct _ _ _ Hc). eexists.
    rewrite list_lookup_insert_eq by (by eapply lookup_lt_Some). split; [done|]. split; [done|]. by right.
  - eexists. rewrite list_lookup_insert_ne by done. split; [exact Hc|]. split; [done|]. by left.
Qed.

(** C38: A system call can be lost, on any UART.  A process is running and has filled
    its system call area; the software interrupt that it raised may be pending.
    An external interrupt is taken first, while some other process is requesting,
    and no Ctrl-C arrives.  Trying the waiting requests again clears the software
    interrupt of the running process, too: after the interrupt is handled none is
    pending, the process is runnable or running, not requesting, so the kernel
    does not try its request again, and the request is in its area as before.  The
    process, which waits for it to be cleared, waits for an interrupt that it does
    not raise. *)
Theorem syscall_lost {H} `{!Mmio H, !Uart H, !Plic H} (u : kparams) (w : nat) (k : kernel (machine H))
    (j rc : Z) (e : machine H) :
  kernel_wf k → curr_status k = PROC_RUNNING →
  0 ≤ j < MAX_NPROCESS → status (proc_at k j) = PROC_REQUESTING →
  trap_external (earth k) = Ret rc e → rc ≠ RET_SPECIAL_CHAR →
  (∀ k1 rc1 e1, external_handle u k = Ret 0 k1 → trap_external (earth k1) = Ret rc1 e1 →
     rc1 ≠ RET_SPECIAL_CHAR) →
  returns (proc_external u w) k (λ _ k',
    m_msip (earth k') = 0 ∧ m_sc (earth k') (curr_pid k) = m_sc (earth k) (curr_pid k) ∧
    ∃ p, proc_set k' !! Z.to_nat (proc_curr_idx k) = Some p ∧ pid p = curr_pid k ∧
      (status p = PROC_RUNNABLE ∨ status p = PROC_RUNNING)).
Proof.
  intros Hwf Hst Hj Hreq Et Hrc Hnext. unfold proc_external. apply returns_bind.
  destruct (external_handle_quiet u k rc e Hwf Et Hrc) as (r & k1 & E1 & -> & P & HF & Hi & _).
  exists 0, k1. split; [done|]. pose proof P as [P1 P2 P3 P4 P5 P6].
  pose proof (external_handle_clears u k k1 0 j rc e Hj Hreq Et Hrc E1) as Hm1.
  destruct (running_kept k k1 Hwf Hst HF Hi) as [L1 S1].
  assert (Ha1 : proc_at k1 (proc_curr_idx k1) = proc_at k (proc_curr_idx k)).
  { unfold proc_at at 1. rewrite P2. by apply list_lookup_total_correct. }
  assert (Hst1 : curr_status k1 = PROC_RUNNING) by (unfold curr_status; by rewrite Ha1).
  destruct (trap_external_law (earth k1) (kw_earth _ P1)) as (rc1 & e1 & Et1 & _).
  destruct (proc_yield_quiet u w k1 (proc_curr_idx k1) rc1 e1)
    as (r & k' & E2 & k2 & d & st & Hi2 & P' & HF2 & C2 & _ & _ & _ & _ & _ & Hsd).
  - done.
  - apply P1.
  - unfold runnable_at. change (proc_set k1 !!! _) with (proc_at k1 (proc_curr_idx k1)).
    fold (curr_status k1). by rewrite Hst1.
  - done.
  - by apply (Hnext k1 rc1 e1).
  - exists r, k'. split; [done|]. destruct (running_kept k1 k2 P1 Hst1 HF2 Hi2) as [L2 S2].
    split; [by apply (keeps_proc_yield u w k1 r)|]. split.
    { change (sc_of (earth k') (curr_pid k) = sc_of (earth k) (curr_pid k)).
      rewrite (sd_sc _ _ _ _ Hsd). by rewrite <-P3, S2, P3. }
    rewrite (sd_table _ _ _ _ Hsd), C2, <-P2. rewrite Ha1 in L2. by apply (sched_table_current _ _ _ _ L2).
Qed.

(** Process 5 wants to send to process 6, the servers wait, and a key is pressed. *)
Lemma syscall_lost_witness : ∃ r k',
  proc_external demo_u 0 (demo_kernel two_users no_msg
    (put_msip 1 (demo_machine 5 [104] (demo_sc 5 SYS_SEND 6)))) = Ret r k' ∧
  m_msip (earth k') = 0 ∧ m_sc (earth k') 5 = demo_sc 5 SYS_SEND 6 5.
Proof.
  destruct (syscall_lost demo_u 0 (demo_kernel two_users no_msg
    (put_msip 1 (demo_machine 5 [104] (demo_sc 5 SYS_SEND 6)))) 0 0
    (match trap_external (put_msip 1 (demo_machine 5 [104] (demo_sc 5 SYS_SEND 6))) with
     | Ret _ e => e | _ => demo_machine 5 [] (demo_sc 5 0 0) end)) as (r & k' & E & Hm & Hs & _).
  - apply demo_wf; [by vm_compute|done|by left|]. apply (demo_machine_ok 5 [104] (demo_sc 5 SYS_SEND 6)).
  - reflexivity.
  - done.
  - reflexivity.
  - by vm_compute.
  - done.
  - intros k1 rc1 e1 E1 E2. vm_compute in E1. injection E1 as <-. vm_compute in E2. injection E2 as <- <-. done.
  - exists r, k'. split; [exact E|]. split; [exact Hm|exact Hs].
Defined.
