(* ===== verification/TableThms.v ===== *)
(** * The process table over its life

    The operations of grass/process.c in any order: every table that they make is
    well formed. *)

From S2P Require Import Prelude Layout Blocks Ring Uart Tty TtyOps Intr TtyCorrect.
From S2P Require Import Earth Process Kernel KernelInv Machine KernelThms.

(** A call of one of the functions of grass/process.c. *)
Inductive table_op :=
| OpAlloc
| OpFree (x : Z)
| OpReady (x : Z)
| OpRunning (x : Z)
| OpRunnable (x : Z)
| OpRequesting (x : Z)
| OpZombie (x : Z).

(** The caller names a process; [proc_free] takes -1 as well. *)
Definition op_ok (op : table_op) : Prop :=
  match op with
  | OpAlloc => True
  | OpFree x => x = -1 ∨ 0 < x
  | OpReady x | OpRunning x | OpRunnable x | OpRequesting x | OpZombie x => 0 < x
  end.

Section table.
Context {E : Type} `{!Earth E, !EarthLaws E}.

(** The table and the counter [proc_nprocs]. *)
Definition run_op (op : table_op) (t : table * Z) : M E (table * Z) :=
  let '(ps, n) := t in
  match op with
  | OpAlloc =>
      match proc_alloc ps n with
      | Some (new, ps') => mret (ps', new)
      | None => fatal "proc_alloc: reach the limit of 16 processes"
      end
  | OpFree x => ps' ← proc_free mmu_free x ps; mret (ps', n)
  | OpReady x => mret (proc_set_ready x ps, n)
  | OpRunning x => mret (proc_set_running x ps, n)
  | OpRunnable x => mret (proc_set_runnable x ps, n)
  | OpRequesting x => mret (proc_set_requesting x ps, n)
  | OpZombie x => mret (proc_set_zombie x ps, n)
  end.

Fixpoint run_ops (ops : list table_op) (t : table * Z) : M E (table * Z) :=
  match ops with
  | [] => mret t
  | op :: ops => t ← run_op op t; run_ops ops t
  end.

Definition table_full (ps : table) : Prop := ∀ p, p ∈ ps → status p ≠ PROC_UNUSED.

(** One call: it returns with a well-formed table, or it is [proc_alloc] on a full one. *)
Lemma run_op_wf op ps n e :
  table_wf ps n → earth_ok e → op_ok op →
  (op = OpAlloc ∧ table_full ps ∧ ∃ w, run_op op (ps, n) e = Fatal w e) ∨
  ∃ ps' n' e', run_op op (ps, n) e = Ret (ps', n') e' ∧ table_wf ps' n' ∧ earth_ok e' ∧
    n ≤ n' ≤ n + 1.
Proof.
  intros Hwf Hok Hop.
  assert (Hset : ∀ x st, 0 < x → ∃ ps' n' e', (mret (proc_set_status x st ps, n) : M E _) e =
    Ret (ps', n') e' ∧
    table_wf ps' n' ∧ earth_ok e' ∧ n ≤ n' ≤ n + 1).
  { intros x st Hx. eexists _, _, _. split; [done|]. split; [by apply table_wf_set_status|]. split; [done|lia]. }
  destruct op as [|x|x|x|x|x|x]; [| |right; by apply Hset..].
  - cbn [run_op]. destruct (proc_alloc ps n) as [[new ps']|] eqn:Ea.
    + right. destruct (proc_alloc_wf _ _ _ _ Hwf Ea) as (-> & Hwf' & _).
      eexists _, _, _. split; [done|]. split; [done|]. split; [done|lia].
    + left. split; [done|]. split; [|by eexists]. unfold proc_alloc in Ea.
      destruct (alloc_slot _ ps) eqn:Es; [done|]. exact (proj1 (alloc_slot_None _ _) Es).
  - right. cbn [run_op]. unfold proc_free. destruct (Z.eqb_spec x (-1)) as [->|Hx].
    + destruct (free_users_spec ps e Hok) as (e' & E1 & O1 & _). eexists _, _, _.
      split; [unfold mbind, M_bind; by rewrite E1|]. split; [by apply table_wf_freed|]. split; [done|lia].
    + destruct (mmu_free_law x e Hok) as (rc & e' & E1 & O1 & _). eexists _, _, _.
      split; [unfold mbind, M_bind; by rewrite E1|]. destruct Hop as [|Hop]; [done|].
      split; [by apply table_wf_set_status|]. split; [done|lia].
Qed.

(** C26: The process table is well typed all its life.  Whatever functions of
    process.c are called in whatever order on a well-formed table (each for a
    process, or [proc_free] for all), the table stays well formed: 16 entries, every
    entry that is in use has a positive pid that no other entry has, pids
    come from the counter and exactly the user processes are killable.  The
    counter stays an [int] as long as it is not increased 2^31 times.  The only
    way not to return is the FATAL of [proc_alloc], and then all 16 entries are in use
    at that moment. *)
Theorem process_table_typed (ops : list table_op) (ps : table) (n : Z) (e : E) :
  table_wf ps n → earth_ok e → Forall op_ok ops → n + Z.of_nat (length ops) < 2 ^ 31 →
  match run_ops ops (ps, n) e with
  | Ret (ps', n') e' => table_wf ps' n' ∧ earth_ok e' ∧ n ≤ n' < 2 ^ 31
  | Fatal _ e' => ∃ ops1 ops2 ps1 n1, ops = ops1 ++ OpAlloc :: ops2 ∧
      run_ops ops1 (ps, n) e = Ret (ps1, n1) e' ∧ table_wf ps1 n1 ∧ table_full ps1
  | _ => False
  end.
Proof.
  revert ps n e. induction ops as [|op ops IH]; intros ps n e Hwf Hok Hops Hn.
  { cbn in *. split; [done|]. split; [done|lia]. }
  apply Forall_cons in Hops as [Hop Hops]. cbn [length] in Hn. cbn [run_ops].
  destruct (run_op_wf op ps n e Hwf Hok Hop) as [(-> & Hfull & w & E1)|(ps1 & n1 & e1 & E1 & W1 & O1 & N1)].
  - mrun E1. by exists [], ops, ps, n.
  - mrun E1. specialize (IH ps1 n1 e1 W1 O1 Hops ltac:(lia)).
    destruct (run_ops ops (ps1, n1) e1) as [[ps' n'] e'|w e'| |] eqn:E2; [|..|done|done].
    + destruct IH as (H1 & H2 & H3). split; [done|]. split; [done|lia].
    + destruct IH as (ops1 & ops2 & ps2 & n2 & -> & H1 & H2 & H3).
      exists (op :: ops1), ops2, ps2, n2. split; [done|]. split; [|done]. cbn [run_ops]. by mrun E1.
Qed.
End table.

(** A process ends and its entry is used again. *)
Definition demo_ops : list table_op :=
  [OpAlloc; OpReady 7; OpZombie 5; OpFree 5; OpAlloc; OpFree (-1)].
Lemma process_table_typed_witness : ∃ ps' e',
  run_ops demo_ops (demo_procs two_users, 6) (demo_machine 1 [] (demo_sc 5 0 0)) = Ret (ps', 8) e' ∧
  table_wf ps' 8.
Proof.
  pose proof (process_table_typed demo_ops (demo_procs two_users) 6 (demo_machine 1 [] (demo_sc 5 0 0))
    ltac:(by apply table_wfb_sound) (demo_machine_ok _ _ _)
    ltac:(repeat constructor; cbn; lia) ltac:(cbn; lia)) as H.
  assert (Hn : ∃ ps' e', run_ops demo_ops (demo_procs two_users, 6)
    (demo_machine 1 [] (demo_sc 5 0 0)) = Ret (ps', 8) e') by (by eexists _, _).
  destruct Hn as (ps' & e' & E). rewrite E in H. exists ps', e'. exact (conj E (proj1 H)).
Defined.
