(* ===== verification/User.v ===== *)
(** * User code

    The user-level side of system calls (grass/syscall.c), the calls to the
    servers (library/servers/servers.c) and the messages they exchange
    (library/servers/servers.h).

    User code is a tree: it does something to the state it shares with the rest
    of the system ([Act]), or it has filled its system call area and traps into
    the kernel ([Invoke]); the kernel gives the area back changed.  [Halt] is
    code that makes no more system calls: FATAL and [exit] end in [while (1);].
    [U] adds the process's own system call area, at [SYSCALL_ARG], as state:
    what an earlier call left in it is sent along with the next message. *)

From coqutil Require Import Byte Word.LittleEndianList.
From S2P Require Import Prelude Layout Blocks Earth Dir.

Inductive prog (D A : Type) : Type :=
| Done (a : A)
| Invoke (sc : syscall) (k : syscall → prog D A)
| Act (m : D → outcome D (prog D A))
| Halt (why : string).
Arguments Done {D A} a.
Arguments Invoke {D A} sc k.
Arguments Act {D A} m.
Arguments Halt {D A} why.

Section bind.
Context {D A B : Type} (f : A → prog D B).

Fixpoint prog_bind (p : prog D A) : prog D B :=
  match p with
  | Done a => f a
  | Invoke sc k => Invoke sc (λ sc, prog_bind (k sc))
  | Act m => Act (λ d,
      match m d with
      | Ret p d => Ret (prog_bind p) d
      | Fatal w d => Fatal w d
      | Undef w => Undef w
      | Spin => Spin
      end)
  | Halt w => Halt w
  end.
End bind.
Abbreviation pbind p f := (prog_bind f p).

Definition U (D A : Type) : Type := syscall → prog D (A * syscall).
#[export] Instance U_ret {D} : MRet (U D) := λ A a sc, Done (a, sc).
#[export] Instance U_bind {D} : MBind (U D) := λ A B k m sc,
  pbind (m sc) (λ r, k r.1 r.2).

Section user.
Context {D : Type}.

Definition halt {A} (why : string) : U D A := λ _, Halt why.
(** Code that runs without the kernel. *)
Definition act {A} (m : M D A) : U D A := λ sc, Act (λ d,
  match m d with
  | Ret a d => Ret (Done (a, sc)) d
  | Fatal w d => Fatal w d
  | Undef w => Undef w
  | Spin => Spin
  end).

(** ** System calls (grass/syscall.c) *)

(** [*((int * )0x2000000) = 1; while (sc->type != SYS_UNUSED);] *)
Definition sys_invoke : U D unit := λ sc, Invoke sc (λ sc, Done (tt, sc)).

Definition get_sc {A} (f : syscall → A) : U D A := λ sc, Done (f sc, sc).
Definition set_sc (f : syscall → syscall) : U D unit := λ sc, Done (tt, f sc).

(** [memcpy(sc->msg.content + o, src, n)] *)
Definition put_content (o : nat) (bs : list byte) (m : sys_msg) : sys_msg :=
  SysMsg (Earth.sender m) (receiver m) (overwrite (content m) o bs).

Definition sys_send (receiver : Z) (m : list byte) (size : Z) : U D Z :=
  if SYSCALL_MSG_LEN <? size then mret (-1)
  else if (size <? 0) || (Z.of_nat (length m) <? size) then act (undef "memcpy")
  else
    _ ← set_sc (λ sc, Syscall SYS_SEND
          (put_content 0 (take (Z.to_nat size) m)
             (SysMsg (Earth.sender (msg sc)) receiver (content (msg sc)))) (retval sc));
    _ ← sys_invoke;
    get_sc retval.

(** The return value, and what is copied to the caller's buffer with the
    sender's pid. *)
Definition sys_recv (size : Z) : U D (Z * option (Z * list byte)) :=
  if SYSCALL_MSG_LEN <? size then mret (-1, None)
  else
    _ ← set_sc (λ sc, Syscall SYS_RECV (msg sc) (retval sc));
    _ ← sys_invoke;
    get_sc (λ sc, (retval sc, Some (Earth.sender (msg sc), take (Z.to_nat size) (content (msg sc))))).

(** [ptr] is the address of the character. *)
Definition sys_tty_read (ptr : Z) : U D Z :=
  _ ← set_sc (λ sc, Syscall TTY_READ (put_content 0 (le_split 4 ptr) (msg sc)) (retval sc));
  _ ← sys_invoke;
  get_sc retval.

Definition sys_tty_write (ptr len : Z) : U D Z :=
  _ ← set_sc (λ sc, Syscall TTY_WRITE
        (put_content 4 (le_split 4 len) (put_content 0 (le_split 4 ptr) (msg sc))) (retval sc));
  _ ← sys_invoke;
  get_sc retval.

(** ** Messages *)

(** Fields of a message: an [int] and an [unsigned int] at offset [o]. *)
Definition uint_at (buf : list byte) (o : nat) : Z := le_combine (bytes_at buf o 4).
Definition int_at (buf : list byte) (o : nat) : Z := s32 (uint_at buf o).

(** [struct proc_request], [struct dir_request] and [struct file_request]:
    [junk] is what the fields that are not set contain. *)
Definition proc_request_size : nat := 8 + 16 * 32.
Definition proc_request (type : Z) (junk : list byte) : list byte :=
  overwrite (take proc_request_size junk) 0 (le_split 4 type).
Definition dir_request (ino : Z) (name junk : list byte) : list byte :=
  le_split 4 DIR_LOOKUP ++ le_split 4 ino ++ overwrite (take 32 junk) 0 (name ++ [nul]).
Definition file_request (ino offset : Z) (junk : list byte) : list byte :=
  le_split 4 FILE_READ ++ le_split 4 ino ++ le_split 4 offset ++ take nbytes junk.

Context (junk : list byte).

Definition sys_exit (status : Z) : U D unit :=
  _ ← sys_send GPID_PROCESS (proc_request PROC_EXIT junk) (Z.of_nat proc_request_size); mret tt.

(** ** Calls to the servers (library/servers/servers.c) *)

Definition exit (status : Z) : U D unit := _ ← sys_exit status; halt "exit".

(** [grass->sys_recv(&sender, buf, SYSCALL_MSG_LEN)] *)
Definition recv_msg : U D (Z * list byte) :=
  '(_, r) ← sys_recv SYSCALL_MSG_LEN;
  match r with Some r => mret r | None => act (undef "buf") end.

(** [name] is the string without its null byte. *)
Definition dir_lookup (dir_ino : Z) (name : list byte) : U D Z :=
  if (DIR_NAME_SIZE <=? Z.of_nat (length name)) then act (undef "strcpy")
  else
    _ ← sys_send GPID_DIR (dir_request dir_ino name junk) 40;
    '(sender, buf) ← recv_msg;
    if negb (sender =? GPID_DIR) then halt "dir_lookup: an error occurred"
    else mret (if int_at buf 0 =? DIR_OK then int_at buf 4 else -1).

(** The return value, and the block copied to the caller's buffer. *)
Definition file_read (file_ino offset : Z) : U D (Z * block) :=
  _ ← sys_send GPID_FILE (file_request file_ino offset junk) (12 + BLOCK_SIZE);
  '(sender, buf) ← recv_msg;
  if negb (sender =? GPID_FILE) then halt "file_read: an error occurred"
  else mret (if int_at buf 0 =? FILE_OK then 0 else -1, bytes_at buf 4 nbytes).
End user.
