(* ===== verification/Servers.v ===== *)
(** * The directory and the file server

    apps/system/sys_dir.c and apps/system/sys_file.c as user code.  The loops
    [while (1)] of the servers get the number of requests they may serve.  What
    the C library does to print a line is an argument: the calls to [_write]
    (address and length) that it makes. *)

From coqutil Require Import Byte Word.LittleEndianList.
From S2P Require Import Prelude Layout Blocks Store Earth Dir User.

Section servers.
Context {D : Type} (junk : list byte) (writes : string → list Z → list (Z * Z)).

(** [_write] of library/libc/print.c in a user process, for standard output. *)
Definition _write (ptr len : Z) : U D Z :=
  if DEV_BUFF_SIZE <? len then _ ← sys_tty_write ptr DEV_BUFF_SIZE; mret DEV_BUFF_SIZE
  else _ ← sys_tty_write ptr len; mret len.

(** A line printed with [INFO], [SUCCESS] and the like: its format and arguments. *)
Fixpoint write_all (ws : list (Z * Z)) : U D unit :=
  match ws with
  | [] => mret tt
  | (ptr, len) :: ws => _ ← _write ptr len; write_all ws
  end.
Definition print (line : string) (args : list Z) : U D unit := write_all (writes line args).

(** [strcpy(buf, s); grass->sys_send(GPID_PROCESS, buf, n)]: the notification of
    GPID_PROCESS, [n] counting the null byte. *)
Definition notify (s : string) : U D unit :=
  let m := chars s ++ [nul] in
  _ ← sys_send GPID_PROCESS m (Z.of_nat (length m)); mret tt.

(** The string that starts at offset [o] of a buffer. *)
Definition cstring (buf : list byte) (o : nat) : U D (list byte) :=
  match find_nul (drop o buf) with
  | Some n => mret (take n (drop o buf))
  | None => act (undef "string")
  end.

(** ** apps/system/sys_dir.c *)

Definition dir_do_lookup (dir_ino : Z) (name : list byte) : U D Z :=
  '(_, buf) ← file_read junk dir_ino 0;
  act (dir_search buf name).

(** One request. *)
Definition dir_handle (sender : Z) (buf : list byte) : U D unit :=
  if int_at buf 0 =? DIR_LOOKUP then
    name ← cstring buf 8;
    ino ← dir_do_lookup (int_at buf 4) name;
    let buf := overwrite buf 4 (le_split 4 ino) in
    let status := if ino =? -1 then DIR_ERROR else DIR_OK in
    let buf := overwrite buf 0 (le_split 4 status) in
    _ ← sys_send sender buf 8;
    mret tt
  else halt "sys_dir: request not implemented".
Definition dir_round : U D unit := '(sender, buf) ← recv_msg; dir_handle sender buf.

Fixpoint dir_loop (n : nat) : U D unit :=
  match n with O => act spin | S n => _ ← dir_round; dir_loop n end.

Definition sys_dir (n : nat) : U D unit :=
  _ ← print "Enter kernel process GPID_DIR" [];
  _ ← notify "Finish GPID_DIR initialization";
  dir_loop n.

(** ** apps/system/sys_file.c *)

Section file.
Context (fs : inode_store D).

(** One request; the reply is built in the buffer that holds it. *)
Definition file_handle (sender : Z) (buf : list byte) : U D unit :=
  if int_at buf 0 =? FILE_READ then
    '(r, blk) ← act (read fs (uint_at buf 4) (uint_at buf 8) (bytes_at buf 4 nbytes));
    let buf := overwrite buf 4 blk in
    let status := if r =? 0 then FILE_OK else FILE_ERROR in
    let buf := overwrite buf 0 (le_split 4 status) in
    _ ← sys_send sender buf (4 + BLOCK_SIZE);
    mret tt
  else halt "sys_file: request not implemented".
Definition file_round : U D unit := '(sender, buf) ← recv_msg; file_handle sender buf.

Fixpoint file_loop (n : nat) : U D unit :=
  match n with O => act spin | S n => _ ← file_round; file_loop n end.

Definition sys_file (n : nat) : U D unit :=
  _ ← print "Enter kernel process GPID_FILE" [];
  _ ← notify "Finish GPID_FILE initialization";
  file_loop n.
End file.
End servers.
