(* ===== verification/Net.v ===== *)
(** * Processes that exchange messages

    What the kernel looks like to the processes: each is user code (User.v), one
    message can be on its way ([mailbox]), and the state [D] is shared.  A step
    serves one request, or runs code of one process up to its next request.
    NetKernel.v shows that the kernel of Kernel.v makes only such steps.

    [forced n n']: the network has exactly one step from [n], to [n'], so whatever
    the scheduler does the network gets there. *)

From stdpp Require Import relations.
From S2P Require Import Prelude Layout Blocks Earth Kernel KernelInv User.

Record net (D : Type) := Net {
  tasks : gmap Z (prog D (unit * syscall));
  mailbox : kernel_msg;
  shared : D;
}.
Arguments Net {D} _ _ _.
Arguments tasks {D} _.
Arguments mailbox {D} _.
Arguments shared {D} _.

(** The system call area after a request to the tty: the character of a read is
    stored through the process's pointer, a write may be refused. *)
Definition tty_result (sc sc' : syscall) : Prop :=
  type sc = TTY_READ ∨
  type sc = TTY_WRITE ∧ (sc' = Syscall SYS_UNUSED (msg sc) 0 ∨ sc' = Syscall SYS_UNUSED (msg sc) (-1)).

Section net.
Context {D : Type}.
Implicit Types n : net D.

(** A step of process [p]. *)
Inductive pstep (p : Z) n : net D → Prop :=
| step_msg sc k msg' m' :
    tasks n !! p = Some (Invoke sc k) → serve_msg p sc (mailbox n) = Some (msg', m') →
    pstep p n (Net (<[p:=k (Syscall SYS_UNUSED msg' 0)]> (tasks n)) m' (shared n))
| step_tty sc k sc' :
    tasks n !! p = Some (Invoke sc k) → tty_result sc sc' →
    pstep p n (Net (<[p:=k sc']> (tasks n)) (mailbox n) (shared n))
| step_act m t d :
    tasks n !! p = Some (Act m) → m (shared n) = Ret t d →
    pstep p n (Net (<[p:=t]> (tasks n)) (mailbox n) d).

Definition step n n' : Prop := ∃ p, pstep p n n'.
Definition forced n n' : Prop := step n n' ∧ ∀ n2, step n n2 → n2 = n'.

(** A process that waits for a message, or goes no further. *)
Definition idle (t : prog D (unit * syscall)) : Prop :=
  match t with
  | Invoke sc _ => type sc = SYS_RECV
  | Act m => ∀ d t' d', m d ≠ Ret t' d'
  | _ => True
  end.

Definition others_idle (T : gmap Z (prog D (unit * syscall))) (p : Z) : Prop :=
  ∀ q t, q ≠ p → T !! q = Some t → idle t.

Definition msg_for (m : kernel_msg) (p : Z) : Prop := in_use m ≠ 0 ∧ kreceiver m = p.

Lemma tty_not_msg sc sc' p m : tty_result sc sc' → serve_msg p sc m = None.
Proof. unfold serve_msg. intros [E|[E _]]; by rewrite E. Qed.

(** An idle process moves only when the message is for it. *)
Lemma idle_stays n p t n' :
  tasks n !! p = Some t → idle t → ¬ msg_for (mailbox n) p → ¬ pstep p n n'.
Proof.
  intros Hp Hi Hm Hs. destruct Hs as [sc k msg' m' E Hs|sc k sc' E Hs|m t' d E Hs];
    rewrite E in Hp; injection Hp as <-; simpl in Hi.
  - unfold serve_msg in Hs. rewrite Hi in Hs. simpl in Hs.
    destruct (Z.eqb_spec (in_use (mailbox n)) 0), (Z.eqb_spec (kreceiver (mailbox n)) p); simpl in Hs;
      [done..| |done]. by apply Hm.
  - destruct Hs as [Hs|[Hs _]]; by rewrite Hi in Hs.
  - by eapply Hi.
Qed.

Lemma forced_msg n p sc k msg' m' :
  tasks n !! p = Some (Invoke sc k) → serve_msg p sc (mailbox n) = Some (msg', m') →
  others_idle (tasks n) p → (∀ q, q ≠ p → ¬ msg_for (mailbox n) q) →
  forced n (Net (<[p:=k (Syscall SYS_UNUSED msg' 0)]> (tasks n)) m' (shared n)).
Proof.
  intros Hp Hs Ho Hm. split; [exists p; by econstructor|]. intros n2 [q Hq].
  destruct (decide (q = p)) as [->|Hne].
  - destruct Hq as [sc1 k1 msg1 m1 E Hs1|sc1 k1 sc' E Hs1|m t' d E Hs1];
      rewrite E in Hp; simplify_eq; [done|by rewrite (tty_not_msg _ _ _ _ Hs1) in Hs].
  - exfalso. destruct (tasks n !! q) as [t|] eqn:Et; [|by destruct Hq; congruence].
    eapply idle_stays; [exact Et|by eapply Ho|by apply Hm|exact Hq].
Qed.

(** The message buffer is free: a process sends. *)
Lemma forced_send n p sc k :
  tasks n !! p = Some (Invoke sc k) → type sc = SYS_SEND → in_use (mailbox n) = 0 →
  others_idle (tasks n) p →
  forced n (Net (<[p:=k (Syscall SYS_UNUSED (msg sc) 0)]> (tasks n))
    (KernelMsg 1 p (receiver (msg sc)) (content (msg sc))) (shared n)).
Proof.
  intros Hp Ht Hm Ho. eapply forced_msg; [done| |done|].
  - unfold serve_msg. by rewrite Ht, Hm.
  - intros q _ [Hq _]. by rewrite Hm in Hq.
Qed.

(** The message is for a process that waits. *)
Lemma forced_recv n p sc k s c :
  tasks n !! p = Some (Invoke sc k) → type sc = SYS_RECV → mailbox n = KernelMsg 1 s p c →
  others_idle (tasks n) p →
  forced n (Net (<[p:=k (Syscall SYS_UNUSED (SysMsg s (receiver (msg sc)) c) 0)]> (tasks n))
    (KernelMsg 0 s p c) (shared n)).
Proof.
  intros Hp Ht Hm Ho. eapply forced_msg; [done| |done|].
  - unfold serve_msg. rewrite Ht, Hm. simpl. by rewrite Z.eqb_refl.
  - intros q Hne [_ Hq]. rewrite Hm in Hq. by destruct Hne.
Qed.

(** A process runs on its own. *)
Lemma forced_act n p m t d :
  tasks n !! p = Some (Act m) → m (shared n) = Ret t d → in_use (mailbox n) = 0 →
  others_idle (tasks n) p → forced n (Net (<[p:=t]> (tasks n)) (mailbox n) d).
Proof.
  intros Hp Hs Hm Ho. split; [exists p; by econstructor|]. intros n2 [q Hq].
  destruct (decide (q = p)) as [->|Hne].
  - destruct Hq as [sc1 k1 msg1 m1 E Hs1|sc1 k1 sc' E Hs1|m1 t' d' E Hs1]; rewrite E in Hp;
      [discriminate Hp..|]. injection Hp as ->. rewrite Hs in Hs1. by injection Hs1 as <- <-.
  - exfalso. destruct (tasks n !! q) as [t1|] eqn:Et; [|by destruct Hq; congruence].
    eapply idle_stays; [exact Et|by eapply Ho| |exact Hq]. by intros [Hu _].
Qed.

(** Every run from [n] is on the way to [n'], or goes through it. *)
Lemma forced_run n n' n2 :
  rtc forced n n' → rtc step n n2 → rtc step n2 n' ∨ rtc step n' n2.
Proof.
  intros Hf. revert n2. induction Hf as [n|n n1 n' [Hs Hall] Hf IH]; intros n2 Hr; [by right|].
  destruct Hr as [|n m n2 H1 Hr].
  - left. eapply rtc_l; [done|]. clear -Hf. induction Hf as [|??? [? _]]; [done|by eapply rtc_l].
  - apply Hall in H1 as ->. by apply IH.
Qed.

(** ** Running a network *)

(** A step of process [p]; the tty does what it is asked for. *)
Definition exec (p : Z) n : option (net D) :=
  match tasks n !! p with
  | Some (Invoke sc k) =>
      match serve_msg p sc (mailbox n) with
      | Some (msg', m') => Some (Net (<[p:=k (Syscall SYS_UNUSED msg' 0)]> (tasks n)) m' (shared n))
      | None =>
          if is_tty sc
          then Some (Net (<[p:=k (Syscall SYS_UNUSED (msg sc) 0)]> (tasks n)) (mailbox n) (shared n))
          else None
      end
  | Some (Act m) =>
      match m (shared n) with
      | Ret t d => Some (Net (<[p:=t]> (tasks n)) (mailbox n) d)
      | _ => None
      end
  | _ => None
  end.

Fixpoint exec_all (ps : list Z) n : option (net D) :=
  match ps with
  | [] => Some n
  | p :: ps => n ← exec p n; exec_all ps n
  end.

Lemma exec_sound p n n' : exec p n = Some n' → pstep p n n'.
Proof.
  unfold exec. destruct (tasks n !! p) as [[a|sc k|m|w]|] eqn:Et; try done.
  - destruct (serve_msg p sc (mailbox n)) as [[msg' m']|] eqn:Es.
    + intros [= <-]. by econstructor.
    + destruct (is_tty sc) eqn:Ey; [|done]. intros [= <-]. eapply step_tty; [done|].
      unfold is_tty in Ey. apply orb_true_iff in Ey as [Ey|Ey]; apply Z.eqb_eq in Ey; [by left|].
      right. split; [done|by left].
  - destruct (m (shared n)) as [t d| | |] eqn:Em; try done. intros [= <-]. by econstructor.
Qed.

Lemma exec_all_sound ps : ∀ n n', exec_all ps n = Some n' → rtc step n n'.
Proof.
  induction ps as [|p ps IH]; intros n n' E; cbn [exec_all] in E; [by injection E as ->|].
  destruct (exec p n) as [n1|] eqn:E1; [|done]. eapply rtc_l; [exists p; by apply exec_sound|by apply IH].
Qed.

(** A scheduler that gives each process of a list its turn, again and again. *)
Fixpoint turns (k : nat) (ps : list Z) n : net D :=
  match k with
  | O => n
  | S k => turns k ps (foldl (λ n p, default n (exec p n)) n ps)
  end.

Lemma turns_sound ps k : ∀ n, rtc step n (turns k ps n).
Proof.
  induction k as [|k IH]; intros n; cbn [turns]; [done|]. etrans; [|apply IH]. clear IH.
  revert n. induction ps as [|p ps IH]; intros n; cbn [foldl]; [done|]. etrans; [|apply IH].
  destruct (exec p n) as [n1|] eqn:E; cbn [default from_option]; [|done].
  apply rtc_once. exists p. by apply exec_sound.
Qed.

Lemma turns_reach k ps n (test : net D → bool) :
  test (turns k ps n) = true → ∃ n', rtc step n n' ∧ test n' = true.
Proof. intros Ht. exists (turns k ps n). split; [apply turns_sound|done]. Qed.

(** What a run ends in, as a test. *)
Lemma exec_reaches ps n (test : net D → bool) :
  match exec_all ps n with Some n' => test n' | None => false end = true →
  ∃ n', rtc step n n' ∧ test n' = true.
Proof.
  destruct (exec_all ps n) as [n'|] eqn:E; [|done]. intros Ht. exists n'.
  split; [by eapply exec_all_sound|done].
Qed.

(** A process that cannot move now. *)
Definition blocked n (p : Z) (t : prog D (unit * syscall)) : bool :=
  match t with
  | Invoke sc _ => match serve_msg p sc (mailbox n) with None => negb (is_tty sc) | Some _ => false end
  | Act _ => false
  | _ => true
  end.
Definition all_blocked n : bool :=
  forallb (λ x, blocked n x.1 x.2) (map_to_list (tasks n)).

Lemma all_blocked_stuck n n' : all_blocked n = true → ¬ step n n'.
Proof.
  intros Hb [p Hs]. unfold all_blocked in Hb. rewrite forallb_forall in Hb.
  assert (Hp : ∀ t, tasks n !! p = Some t → blocked n p t = true).
  { intros t Ht. apply (Hb (p, t)), list_elem_of_In. by apply elem_of_map_to_list. }
  destruct Hs as [sc k msg' m' E Hs|sc k sc' E Hs|m t d E Hs]; specialize (Hp _ E); simpl in Hp.
  - by rewrite Hs in Hp.
  - rewrite (tty_not_msg _ _ _ _ Hs) in Hp. unfold is_tty in Hp.
    destruct Hs as [E'|[E' _]]; by rewrite E' in Hp.
  - done.
Qed.
End net.

(** A process that wants to send a message. *)
Definition waits_to_send {D} (t : option (prog D (unit * syscall))) : bool :=
  match t with Some (Invoke sc _) => type sc =? SYS_SEND | _ => false end.
(** ... and one that waits for a message. *)
Definition waits_to_recv {D} (t : option (prog D (unit * syscall))) : bool :=
  match t with Some (Invoke sc _) => type sc =? SYS_RECV | _ => false end.

(** ** A network that is stuck for good *)

Section jam.
Context {D : Type}.
Implicit Types n : net D.

(** The message is for a process that itself wants to send. *)
Definition jammed n (p : Z) : Prop :=
  in_use (mailbox n) = 1 ∧ kreceiver (mailbox n) = p ∧ waits_to_send (tasks n !! p) = true.

(** More generally: the next message request of the process is to send one.  Until
    then it uses the tty and works on its own; [Q] holds of its result. *)
Fixpoint sends_next {A} (Q : A → Prop) (t : prog D A) : Prop :=
  match t with
  | Done a => Q a
  | Invoke sc k => type sc = SYS_SEND ∨ is_tty sc = true ∧ ∀ sc', sends_next Q (k sc')
  | Act m => ∀ d, match m d with Ret t _ => sends_next Q t | _ => True end
  | Halt _ => True
  end.
Definition stale n (p : Z) : Prop :=
  in_use (mailbox n) = 1 ∧ kreceiver (mailbox n) = p ∧
  ∃ t, tasks n !! p = Some t ∧ sends_next (λ _, True) t.

(** A process that asks for a message, or wants to send one. *)
Definition wants_msg n (q : Z) : Prop := ∃ sc k, tasks n !! q = Some (Invoke sc k) ∧ is_tty sc = false.

Lemma waits_wants n q :
  waits_to_send (tasks n !! q) = true ∨ waits_to_recv (tasks n !! q) = true → wants_msg n q.
Proof.
  unfold waits_to_send, waits_to_recv, wants_msg, is_tty.
  destruct (tasks n !! q) as [[|sc k| |]|]; intros [H|H]; try done;
    apply Z.eqb_eq in H; exists sc, k; by rewrite H.
Qed.

Lemma jammed_stale n p : jammed n p → stale n p.
Proof.
  intros (Hu & Hr & Hw). split; [done|]. split; [done|]. unfold waits_to_send in Hw.
  destruct (tasks n !! p) as [[|sc k| |]|]; try done. eexists. split; [done|]. left.
  by apply Z.eqb_eq.
Qed.

(** The message can be taken by its receiver alone, which does not ask for it: it
    stays, and whoever asks for a message or wants to send one is stuck. *)
Lemma stale_step n n' p :
  stale n p → step n n' →
  stale n' p ∧ mailbox n' = mailbox n ∧ ∀ q, wants_msg n q → tasks n' !! q = tasks n !! q.
Proof.
  intros (Hu & Hr & t0 & Ht0 & Hs0) [q Hs].
  assert (Hne : ∀ r t x, wants_msg n r → tasks n !! q = Some t →
    (∀ sc k, t = Invoke sc k → is_tty sc = true) → <[q:=x]> (tasks n) !! r = tasks n !! r).
  { intros r t x (sc & k & Er & Ey) Et Ht. destruct (decide (r = q)) as [->|Hne].
    - rewrite Et in Er. injection Er as ->. by rewrite (Ht sc k eq_refl) in Ey.
    - by apply lookup_insert_ne. }
  assert (Hst : ∀ t x d, tasks n !! q = Some t → (sends_next (λ _, True) t → sends_next (λ _, True) x) →
    stale (Net (<[q:=x]> (tasks n)) (mailbox n) d) p).
  { intros t x d Et Hx. split; [done|]. split; [done|]. cbn [tasks].
    destruct (decide (q = p)) as [->|Hqp].
    - exists x. rewrite lookup_insert_eq. split; [done|]. apply Hx. congruence.
    - exists t0. by rewrite lookup_insert_ne. }
  destruct Hs as [sc k msg' m' E Hs|sc k sc' E Hs|m t d E Hs].
  - exfalso. unfold serve_msg in Hs. rewrite Hu, Hr in Hs. simpl in Hs.
    destruct (Z.eqb_spec (type sc) SYS_RECV) as [Ht|]; [|by destruct (type sc =? SYS_SEND)].
    destruct (Z.eqb_spec p q) as [->|]; [|done]. rewrite E in Ht0. injection Ht0 as <-.
    cbn [sends_next] in Hs0. unfold is_tty in Hs0. rewrite Ht in Hs0. by destruct Hs0 as [|[]].
  - assert (Hy : is_tty sc = true) by (unfold is_tty; by destruct Hs as [->|[-> _]]).
    split; [apply (Hst _ _ _ E)|split; [done|]].
    + intros [H|[_ H]]; [|apply H]. by destruct Hs as [Hs|[Hs _]]; rewrite Hs in H.
    + intros r Hq. cbn [tasks]. apply (Hne r (Invoke sc k)); [done..|]. by intros ? ? [= <- <-].
  - split; [apply (Hst _ _ _ E)|split; [done|]].
    + intros H. specialize (H (shared n)). by rewrite Hs in H.
    + intros r Hq. cbn [tasks]. by apply (Hne r (Act m)).
Qed.

Lemma stale_for_ever n n' p :
  stale n p → rtc step n n' →
  stale n' p ∧ mailbox n' = mailbox n ∧ ∀ q, wants_msg n q → tasks n' !! q = tasks n !! q.
Proof.
  intros Hj Hr. induction Hr as [|n n1 n' Hs Hr IH]; [done|].
  destruct (stale_step _ _ _ Hj Hs) as (Hj1 & Hm & Ht). destruct (IH Hj1) as (Hj' & Hm' & Ht').
  split; [done|]. split; [congruence|]. intros q Hq. rewrite <-(Ht q Hq).
  apply Ht'. destruct Hq as (sc & k & E & Ey). exists sc, k. by rewrite Ht; [|exists sc, k].
Qed.

(** A process sends while the buffer is free. *)
Lemma step_send n p sc k :
  tasks n !! p = Some (Invoke sc k) → type sc = SYS_SEND → in_use (mailbox n) = 0 →
  step n (Net (<[p:=k (Syscall SYS_UNUSED (msg sc) 0)]> (tasks n))
    (KernelMsg 1 p (receiver (msg sc)) (content (msg sc))) (shared n)).
Proof.
  intros Hp Ht Hm. exists p. econstructor; [done|]. unfold serve_msg. by rewrite Ht, Hm.
Qed.

(** A process takes the message that is for it. *)
Lemma step_recv n p sc k s c :
  tasks n !! p = Some (Invoke sc k) → type sc = SYS_RECV → mailbox n = KernelMsg 1 s p c →
  step n (Net (<[p:=k (Syscall SYS_UNUSED (SysMsg s (receiver (msg sc)) c) 0)]> (tasks n))
    (KernelMsg 0 s p c) (shared n)).
Proof.
  intros Hp Ht Hm. exists p. econstructor; [done|]. unfold serve_msg. rewrite Ht, Hm. simpl.
  by rewrite Z.eqb_refl.
Qed.
End jam.
