(* ===== verification/NetKernel.v ===== *)
(** * The kernel runs the network

    The kernel of Kernel.v against the processes of Net.v: what its handlers do to
    the message buffer and to the system call areas is a sequence of steps of the
    network, and a process whose request was served finds in its area what the
    network gives to its code.  So what is proved about all runs of the network
    holds of the processes on the kernel. *)

From stdpp Require Import relations.
From S2P Require Import Prelude Layout Blocks Earth Process Kernel KernelInv KernelOps Sched.
From S2P Require Import Uart TtyCorrect Machine KernelThms User Net.

Section refine.
Context {E : Type} `{!Earth E, !EarthLaws E} {D : Type}.
Implicit Types k : kernel E.
Implicit Types n : net D.
Implicit Types R : Z → Prop.

(** The same request; the return value is not part of it. *)
Definition asks (sc sc' : syscall) : Prop := type sc = type sc' ∧ msg sc = msg sc'.

(** Process [p] waits for its request to be served. *)
Definition asking k (p : Z) : Prop :=
  Exists (λ q, pid q = p ∧ status q = PROC_REQUESTING) (proc_set k).
#[export] Instance asking_dec k p : Decision (asking k p).
Proof. unfold asking. apply _. Defined.

(** The kernel's buffer is the network's, and the processes in [R] have in their
    areas the requests that their code has made. *)
Record agrees R k n : Prop := {
  ag_box : mailbox n = KERNEL_MSG_BUFF k;
  ag_ask p : R p → ∃ sc kont, tasks n !! p = Some (Invoke sc kont) ∧ asks sc (sc_of (earth k) p);
}.

(** From [k] and [n], where the processes in [R] make requests, to [k'] and [n'],
    where those in [R'] still do. *)
Record serves R k n R' k' n' : Prop := {
  sv_steps : rtc step n n';
  sv_agrees : agrees R' k' n';
  sv_fewer p : R' p → R p;
  sv_same p : (R p → R' p) → tasks n' !! p = tasks n !! p;
  sv_sc p : ¬ R p → sc_of (earth k') p = sc_of (earth k) p;
  sv_served p : R p → ¬ R' p → ∃ sc kont, tasks n !! p = Some (Invoke sc kont) ∧
    tasks n' !! p = Some (kont (sc_of (earth k') p));
}.

Lemma serves_refl R k n : agrees R k n → serves R k n R k n.
Proof. intros H. by split. Qed.

Lemma serves_trans R k n R1 k1 n1 R2 k2 n2 :
  (∀ p, Decision (R1 p)) → serves R k n R1 k1 n1 → serves R1 k1 n1 R2 k2 n2 → serves R k n R2 k2 n2.
Proof.
  intros Hdec [A1 A2 A3 A4 A5 A6] [B1 B2 B3 B4 B5 B6]. split.
  - by etrans.
  - done.
  - auto.
  - intros p Hp. rewrite B4 by auto. apply A4. auto.
  - intros p Hp. rewrite B5 by auto. auto.
  - intros p Hp Hn. destruct (decide (R1 p)) as [H1|H1].
    + destruct (B6 p H1 Hn) as (sc & kont & E1 & E2). exists sc, kont. by rewrite <-A4.
    + destruct (A6 p Hp H1) as (sc & kont & E1 & E2). exists sc, kont. split; [done|].
      rewrite B4 by tauto. by rewrite B5.
Qed.

(** Nothing that the processes see has changed. *)
Lemma serves_view R k n R' k' n' k2 :
  serves R k n R' k' n' → KERNEL_MSG_BUFF k2 = KERNEL_MSG_BUFF k' →
  (∀ p, sc_of (earth k2) p = sc_of (earth k') p) → serves R k n R' k2 n'.
Proof.
  intros [A1 [B1 B2] A3 A4 A5 A6] Hm Hs. split; [done|split|done|done|..].
  - congruence.
  - intros p Hp. rewrite Hs. auto.
  - intros p Hp. rewrite Hs. auto.
  - intros p Hp Hn. rewrite Hs. auto.
Qed.

Lemma agrees_view R k n k2 :
  agrees R k n → KERNEL_MSG_BUFF k2 = KERNEL_MSG_BUFF k →
  (∀ p, sc_of (earth k2) p = sc_of (earth k) p) → agrees R k2 n.
Proof. intros [B1 B2] Hm Hs. split; [congruence|]. intros p Hp. rewrite Hs. auto. Qed.

(** ** One system call *)

Lemma serve_asks p sc sc' m : asks sc sc' → serve_msg p sc m = serve_msg p sc' m.
Proof. intros [H1 H2]. unfold serve_msg. by rewrite H1, H2. Qed.

(** The step that an outcome of [syscall_handle] is. *)
Lemma outcome_steps p sc kont scp m rc st m' sc' n :
  tasks n !! p = Some (Invoke sc kont) → asks sc scp → mailbox n = m →
  sys_outcome p scp m rc st m' sc' →
  (st = PROC_REQUESTING ∧ m' = m ∧ asks sc sc') ∨
  (st = PROC_RUNNABLE ∧ step n (Net (<[p:=kont sc']> (tasks n)) m' (shared n))).
Proof.
  intros Ht Ha Hm Ho. pose proof Ha as [Ha1 Ha2].
  destruct Ho as [msg' m1 Hs|Hs|sc1 Hs _|Hs|Hs].
  - right. split; [done|]. exists p. rewrite <-(serve_asks _ _ _ _ Ha), <-Hm in Hs. by econstructor.
  - left. done.
  - right. split; [done|]. exists p. rewrite <-Hm. eapply step_tty; [done|]. left. congruence.
  - right. split; [done|]. exists p. rewrite <-Hm. eapply step_tty; [done|]. right. rewrite Ha2.
    split; [congruence|by left].
  - right. split; [done|]. exists p. rewrite <-Hm. eapply step_tty; [done|]. right. rewrite Ha2.
    split; [congruence|by right].
Qed.

(** Who still asks when the request of the current process was tried. *)
Lemma asking_insert k k' i st (p := proc_at k i) q :
  kernel_wf k → 0 ≤ i < MAX_NPROCESS → 0 < pid p →
  proc_set k' = <[Z.to_nat i:=with_status st p]> (proc_set k) →
  asking k' q ↔ if decide (q = pid p) then st = PROC_REQUESTING else asking k q.
Proof.
  intros Hwf Hi Hpos Hset. pose proof (entry_lookup k i Hwf Hi) as Hl. fold p in Hl.
  assert (Hlt : (Z.to_nat i < length (proc_set k))%nat) by (by eapply lookup_lt_Some).
  assert (Hex : ∀ (ps : table) x, Exists (λ r, pid r = x ∧ status r = PROC_REQUESTING) ps ↔
    ∃ j r, ps !! j = Some r ∧ pid r = x ∧ status r = PROC_REQUESTING).
  { intros ps x. rewrite Exists_exists. setoid_rewrite list_elem_of_lookup. naive_solver. }
  unfold asking. rewrite Hset.
  destruct (decide (q = pid p)) as [->|Hq]; rewrite !Hex; split.
  - intros (j & r & Hj & Hr & Hst). destruct (decide (j = Z.to_nat i)) as [->|Hne].
    + rewrite list_lookup_insert_eq in Hj by done. by injection Hj as <-.
    + rewrite list_lookup_insert_ne in Hj by done. destruct Hne.
      eapply (tw_uniq _ _ (kw_table _ Hwf)); [exact Hj|exact Hl|congruence|done].
  - intros ->. exists (Z.to_nat i). eexists. by split; [apply list_lookup_insert_eq|].
  - intros (j & r & Hj & <- & Hst). destruct (decide (j = Z.to_nat i)) as [->|Hne].
    + rewrite list_lookup_insert_eq in Hj by done. injection Hj as <-. by destruct Hq.
    + rewrite list_lookup_insert_ne in Hj by done. by exists j, r.
  - intros (j & r & Hj & <- & Hst). exists j, r. split; [|done].
    rewrite list_lookup_insert_ne; [done|]. intros <-. rewrite Hl in Hj.
    injection Hj as <-. by destruct Hq.
Qed.

(** [syscall_handle] is at most one step. *)
Lemma handled_serves R k k' n :
  kernel_wf k → R (curr_pid k) → (∀ q, q ≠ curr_pid k → R q ↔ asking k q) →
  agrees R k n → handled k k' (curr_pid k) → ∃ n', serves R k n (asking k') k' n'.
Proof.
  intros Hwf HRp HR [Hbox Hask] Hh. set (p := curr_pid k) in *.
  destruct Hh as [_ _ _ _ Hother _ (st & rc & Hset & Hout & _)].
  assert (Hasking : ∀ q, asking k' q ↔ if decide (q = p) then st = PROC_REQUESTING else asking k q).
  { intros q. apply asking_insert; [done|apply Hwf|apply Hwf|done]. }
  destruct (Hask p HRp) as (sc & kont & Ht & Ha).
  destruct (outcome_steps p sc kont _ _ rc st _ _ n Ht Ha Hbox Hout) as [(-> & Hm & Ha')|[-> Hstep]].
  - exists n. assert (Hsame : ∀ q, asking k' q ↔ R q).
    { intros q. rewrite Hasking. destruct (decide (q = p)) as [->|Hq]; [done|by rewrite HR]. }
    split; [done|split; [congruence|]|..].
    + intros q Hq. destruct (decide (q = p)) as [->|Hne]; [by exists sc, kont|].
      rewrite Hother by done. by apply Hask, Hsame.
    + intros q. apply Hsame.
    + done.
    + intros q Hq. apply Hother. by intros ->.
    + intros q H1 H2. by destruct H2; apply Hsame.
  - eexists. assert (Hne : ∀ q, asking k' q → q ≠ p).
    { intros q Hq ->. apply Hasking in Hq. by rewrite decide_True in Hq. }
    assert (Hle : ∀ q, q ≠ p → asking k' q ↔ R q).
    { intros q Hq. rewrite Hasking, decide_False by done. by rewrite HR. }
    split; [by apply rtc_once|split; [done|]|..]; simpl.
    + intros q Hq. rewrite lookup_insert_ne, Hother by (by apply not_eq_sym, Hne) || by apply Hne.
      apply Hask. apply Hle; [by apply Hne|done].
    + intros q Hq. by apply Hle; [apply Hne|].
    + intros q Hq. destruct (decide (q = p)) as [->|Hqp]; [by destruct (Hne p (Hq HRp))|].
      by rewrite lookup_insert_ne.
    + intros q Hq. apply Hother. by intros ->.
    + intros q H1 H2. destruct (decide (q = p)) as [->|Hqp]; [|by destruct H2; apply Hle].
      exists sc, kont. by rewrite lookup_insert_eq.
Qed.

(** ** Trying the requests again *)

Lemma round_serves k i n :
  kernel_wf k → 0 ≤ i < MAX_NPROCESS → agrees (asking k) k n →
  returns (requesting_round i (proc_at k i)) k (λ _ k', kernel_wf k' ∧
    ∃ n', serves (asking k) k n (asking k') k' n').
Proof.
  intros Hwf Hi Hn. destruct (decide (status (proc_at k i) = PROC_REQUESTING)) as [Hst|Hst];
    [|unfold requesting_round; rewrite decide_False by done; rstep; split; [done|]; exists n;
      by apply serves_refl].
  eapply returns_mono; [by apply requesting_handled|cbv beta].
  intros _ k' (e & S & _ & Hwf1 & Hh). set (k1 := set_earth e (set_curr i k)) in *.
  destruct (handled_wf 0 k1 k' Hwf1) as (Hwf' & _); [by left|done|]. split; [done|].
  destruct (handled_serves (asking k) k1 k' n) as (n' & [V1 V2 V3 V4 V5 V6]); try done.
  - apply Exists_exists. exists (proc_at k i). split; [|done].
    eapply list_elem_of_lookup_2. by apply entry_lookup.
  - by apply (agrees_view _ k).
  - exists n'. split; try done. intros q Hq. rewrite <-S. by apply V5.
Qed.

Lemma loop_serves m : ∀ k i n,
  kernel_wf k → 0 ≤ i → i + Z.of_nat m ≤ MAX_NPROCESS → agrees (asking k) k n →
  returns (requesting_loop m i) k (λ _ k', ∃ n', serves (asking k) k n (asking k') k' n').
Proof.
  induction m as [|m IH]; intros k i n Hwf Hi Hm Hn; cbn [requesting_loop].
  - rstep. exists n. by apply serves_refl.
  - apply returns_bind, returns_gets, returns_bind.
    eapply returns_mono; [apply round_serves; [done|lia|done]|cbv beta].
    intros _ k1 (Hwf1 & n1 & H1).
    eapply returns_mono; [apply (IH k1 (i + 1) n1); [done|lia|lia|eapply sv_agrees, H1]|cbv beta].
    intros _ k2 (n2 & H2). exists n2. eapply serves_trans; [apply asking_dec|done..].
Qed.

(** ** External interrupts and the scheduler *)

Lemma asking_table k k' q : proc_set k' = proc_set k → asking k' q ↔ asking k q.
Proof. unfold asking. by intros ->. Qed.

Lemma serves_table R k n k' n' k2 :
  serves R k n (asking k') k' n' → (∀ q, asking k2 q ↔ asking k' q) →
  KERNEL_MSG_BUFF k2 = KERNEL_MSG_BUFF k' →
  (∀ p, sc_of (earth k2) p = sc_of (earth k') p) → serves R k n (asking k2) k2 n'.
Proof.
  intros H Hq Hm Hs. destruct (serves_view _ _ _ _ _ _ _ H Hm Hs) as [A1 [B1 B2] A3 A4 A5 A6].
  split; [done|split; [done|]|..].
  - intros p Hp. by apply B2, Hq.
  - intros p Hp. by apply A3, Hq.
  - intros p Hp. apply A4. intros HR. by apply Hq, Hp.
  - done.
  - intros p Hp Hn. apply A6; [done|]. by rewrite <-Hq.
Qed.

Lemma external_serves u k n rc e :
  kernel_wf k → trap_external (earth k) = Ret rc e → rc ≠ RET_SPECIAL_CHAR →
  agrees (asking k) k n →
  returns (external_handle u) k (λ _ k', external_post k k' ∧
    ∃ n', serves (asking k) k n (asking k') k' n').
Proof.
  intros Hwf Et Hrc Hn. unfold external_handle.
  destruct (trap_external_law (earth k) (kw_earth _ Hwf)) as (rc' & e' & Et' & [O1 A1 S1 C1]).
  rewrite Et in Et'. injection Et' as <- <-.
  apply returns_bind, returns_earth. exists rc, e. split; [done|].
  set (k0 := set_earth e k). assert (Hwf0 : kernel_wf k0) by (by destruct Hwf).
  apply returns_bind, returns_gets, returns_bind. change (proc_curr_idx k0) with (proc_curr_idx k).
  rewrite (proj2 (Z.eqb_neq _ _) Hrc). apply returns_ret, returns_bind.
  assert (Hn0 : agrees (asking k0) k0 n) by (by apply (agrees_view _ k)).
  destruct (loop_serves nprocess k0 0 n Hwf0) as ([] & k2 & E2 & n' & H2); [lia|done|done|].
  destruct (requesting_loop_spec nprocess k0 0 Hwf0) as ([] & k2' & E2' & [R1 R2 R3 R4 _ _]);
    [lia|done|]. rewrite E2 in E2'. injection E2' as <-.
  exists tt, k2. split; [done|].
  eapply returns_mono; [apply (restore_spec 0 k k2 progress)|cbv beta]; try done.
  - apply progress_ext.
  - intros c. rewrite R4. apply C1.
  - intros r k3 (_ & H & Hset & Hbuf & Hsc). split; [done|]. exists n'.
    destruct (serves_table (asking k) k0 n k2 n' k3) as [V1 V2 V3 V4 V5 V6]; try done.
    { intros q. by apply asking_table. }
    split; try done. intros p Hp. rewrite V5 by done. apply S1.
Qed.

(** Stopping and resuming processes changes nothing about the requests. *)
Lemma status_asking (ps : table) i p st q :
  ps !! i = Some p → status p ≠ PROC_REQUESTING → st ≠ PROC_REQUESTING →
  Exists (λ r, pid r = q ∧ status r = PROC_REQUESTING) (<[i:=with_status st p]> ps) ↔
  Exists (λ r, pid r = q ∧ status r = PROC_REQUESTING) ps.
Proof.
  intros Hi Hp Hst. rewrite !Exists_exists. split; intros (r & Hr & Hpid & Hs);
    apply list_elem_of_lookup_1 in Hr as [j Hj]; exists r; (split; [|done]);
    apply (list_elem_of_lookup_2 _ j); destruct (decide (i = j)) as [<-|Hne].
  - rewrite list_lookup_insert_eq in Hj by (by eapply lookup_lt_Some). by injection Hj as <-.
  - by rewrite list_lookup_insert_ne in Hj.
  - congruence.
  - by rewrite list_lookup_insert_ne.
Qed.

Lemma scheduled_asking k k' i st q :
  kernel_wf k → 0 ≤ i < MAX_NPROCESS → runnable_at (proc_set k) i = true →
  scheduled k k' i st → asking k' q ↔ asking k q.
Proof.
  intros Hwf Hi Hr Hs. unfold asking. rewrite (sd_table _ _ _ _ Hs). unfold sched_table.
  pose proof (curr_lookup k Hwf) as Hc. pose proof (entry_lookup k i Hwf Hi) as Hl.
  unfold proc_at in Hc, Hl. set (c := proc_curr_idx k) in *.
  assert (Hrun : status (proc_set k !!! Z.to_nat i) ≠ PROC_REQUESTING)
    by (unfold runnable_at in Hr; by intros Heq; rewrite Heq in Hr).
  destruct (decide (status (proc_set k !!! Z.to_nat c) = PROC_RUNNING)) as [Hst|Hst].
  - rewrite <-(status_asking (proc_set k) (Z.to_nat c) _ PROC_RUNNABLE q Hc) by (done || by rewrite Hst).
    assert (Hlt : (Z.to_nat c < length (proc_set k))%nat) by (by eapply lookup_lt_Some).
    destruct (decide (Z.to_nat c = Z.to_nat i)) as [Hci|Hci].
    + rewrite <-Hci, list_lookup_total_insert_eq by done.
      by apply status_asking; [apply list_lookup_insert_eq|..].
    + rewrite list_lookup_total_insert_ne by done.
      by apply status_asking; [rewrite list_lookup_insert_ne|..].
  - by apply status_asking.
Qed.

(** The process that runs next waits for nothing. *)
Lemma resumed_not_asking k i st k' :
  scheduled k k' i st → 0 ≤ i < MAX_NPROCESS → ¬ asking k' (curr_pid k').
Proof.
  intros Hs Hi (r & Hr & Hpid & Hst)%Exists_exists. apply list_elem_of_lookup_1 in Hr as [j Hj].
  pose proof (sd_wf _ _ _ _ Hs) as Hwf. pose proof (curr_lookup k' Hwf) as Hc.
  assert (Hij : j = Z.to_nat (proc_curr_idx k')).
  { eapply (tw_uniq _ _ (kw_table _ Hwf)); [done..|rewrite Hpid; apply Hwf|done]. }
  subst j. rewrite Hc in Hj. injection Hj as <-. revert Hst. unfold proc_at.
  rewrite (sd_table _ _ _ _ Hs), (sd_curr _ _ _ _ Hs). unfold sched_table.
  rewrite list_lookup_total_insert_eq; [done|]. pose proof (lookup_lt_Some _ _ _ Hc) as Hlt.
  rewrite (sd_table _ _ _ _ Hs), (sd_curr _ _ _ _ Hs) in Hlt. unfold sched_table in Hlt.
  by rewrite length_insert in Hlt.
Qed.

Lemma yield_serves u w k n rc e j :
  kernel_wf k → trap_external (earth k) = Ret rc e → rc ≠ RET_SPECIAL_CHAR →
  0 ≤ j < MAX_NPROCESS → runnable_at (proc_set k) j = true → agrees (asking k) k n →
  returns (proc_yield u w) k (λ r k', ¬ asking k' (curr_pid k') ∧ as_of (earth k') = curr_pid k' ∧
    ∃ n', serves (asking k) k n (asking k') k' n').
Proof.
  intros Hwf Et Hrc Hj Hr Hn. unfold proc_yield. apply returns_bind.
  eapply returns_mono; [apply returns_and; [by eapply external_serves|by eapply external_handle_quiet]|].
  cbv beta. intros _ k1 ([[P1 P2 P3 P4 P5 P6] (n1 & H1)] & _ & _ & HF & _).
  assert (Hlen : (Z.to_nat j < length (proc_set k))%nat)
    by (eapply lookup_lt_Some; by apply entry_lookup).
  pose proof (progress_runnable _ _ j HF Hlen Hr) as Hr1.
  destruct (find_next_runnable (proc_set k1) (proc_curr_idx k1) j Hj Hr1) as (i & st & Ef & _).
  assert (Ey : yield_loop u w k1 = Ret (i, st) k1) by (destruct w; simpl; by rewrite gets_bind, Ef).
  apply returns_bind. exists (i, st), k1. split; [done|].
  destruct (find_next_Some _ _ _ _ Ef) as (d & Hd & -> & -> & Hrun & Hfirst).
  pose proof (slot_range (proc_curr_idx k1) d) as Hi.
  eapply returns_mono; [apply switch_to_spec; [done|done|by apply can_run_used]|cbv beta].
  intros r k2 [-> Hs]. split; [by eapply resumed_not_asking|]. split; [apply Hs|].
  exists n1. apply (serves_table _ _ _ k1); try apply Hs; [done|].
  intros q. by eapply scheduled_asking.
Qed.

(** The processes that make a request when a system call enters the kernel: the
    waiting ones and the current one. *)
Definition calling k (q : Z) : Prop := q = curr_pid k ∨ asking k q.

(** C3: The kernel refines the network of processes.  A process makes a system
    call while another one can run, and no Ctrl-C arrives.  Then everything the
    kernel does until it resumes a process - serving the call, trying all the
    waiting requests again, switching - is a sequence of steps of the network.  In the end
    the kernel's buffer is the network's; a process that still waits has its request in
    its area and the network has not run it; the area of a process that asked for nothing
    is as it was; a process whose request was served goes on, in the network, with exactly what is in
    its area.  The process that is resumed is not waiting and its address space is in force. *)
Theorem proc_syscall_refines (u : kparams) (w : nat) k n j :
  kernel_wf k → as_of (earth k) = curr_pid k → curr_status k = PROC_RUNNING →
  agrees (calling k) k n →
  0 ≤ j < MAX_NPROCESS → j ≠ proc_curr_idx k → runnable_at (proc_set k) j = true →
  (∀ k1 rc e, syscall_handle k = Ret tt k1 → trap_external (earth k1) = Ret rc e →
     rc ≠ RET_SPECIAL_CHAR) →
  returns (proc_syscall u w) k (λ r k', ¬ asking k' (curr_pid k') ∧ as_of (earth k') = curr_pid k' ∧
    ∃ n', serves (calling k) k n (asking k') k' n').
Proof.
  intros Hwf Has Hst Hn Hj Hne Hr Hq. unfold proc_syscall.
  destruct (syscall_handle_spec k Hwf Has) as ([] & k1 & E1 & Hh).
  apply returns_bind. exists tt, k1. split; [done|].
  destruct (handled_wf 0 k k1 Hwf) as (Hwf1 & _); [by right|done|].
  destruct (handled_serves (calling k) k k1 n) as (n1 & H1); try done.
  { by left. }
  { intros q Hqp. unfold calling. tauto. }
  destruct (trap_external_law (earth k1) (kw_earth _ Hwf1)) as (rc & e & Et & _).
  eapply returns_mono; [apply (yield_serves u w k1 n1 rc e j)|cbv beta]; try done.
  - by eapply Hq.
  - destruct Hh as [_ _ _ _ _ _ (st & rc1 & Hset & _)]. unfold runnable_at. rewrite Hset.
    rewrite list_lookup_total_insert_ne; [done|]. pose proof (kw_curr _ Hwf). lia.
  - eapply sv_agrees, H1.
  - intros r k2 (H2 & H3 & n2 & H4). split; [done|]. split; [done|]. exists n2.
    eapply serves_trans; [apply asking_dec|done..].
Qed.
End refine.

(** Process 5 sends to process 6, the servers wait for messages. *)
Definition demo_asks (q : Z) : prog unit (unit * syscall) :=
  Invoke (demo_sc 5 SYS_SEND 6 q) (λ sc, Done (tt, sc)).
Definition demo_net : net unit :=
  Net (list_to_map ((λ q, (q, demo_asks q)) <$> [1; 2; 3; 4; 5])) no_msg tt.
Definition demo_sending : kernel (machine sim) :=
  demo_kernel two_users no_msg (demo_machine 5 [] (demo_sc 5 SYS_SEND 6)).

Lemma demo_agrees : agrees (calling demo_sending) demo_sending demo_net.
Proof.
  split; [reflexivity|]. intros p Hp. exists (demo_sc 5 SYS_SEND 6 p), (λ sc, Done (tt, sc)).
  split; [|by split].
  assert (Hin : p = 1 ∨ p = 2 ∨ p = 3 ∨ p = 4 ∨ p = 5).
  { destruct Hp as [->|(r & Hr & <- & Hst)%Exists_exists]; [vm_compute; tauto|].
    apply list_elem_of_lookup_1 in Hr as [i Hi].
    do 4 (destruct i as [|i]; [injection Hi as <-; vm_compute; tauto|]).
    do 12 (destruct i as [|i]; [by injection Hi as <-|]). by destruct i. }
  by destruct Hin as [->|[->|[->|[->| ->]]]].
Qed.

Lemma proc_syscall_refines_witness : ∃ r k' n',
  proc_syscall demo_u 0 demo_sending = Ret r k' ∧ rtc step demo_net n' ∧
  ¬ asking k' (curr_pid k') ∧ mailbox n' = KERNEL_MSG_BUFF k'.
Proof.
  destruct (proc_syscall_refines demo_u 0 demo_sending demo_net 5)
    as (r & k' & E & H1 & _ & n' & H2).
  - apply demo_user_inv.
  - reflexivity.
  - reflexivity.
  - exact demo_agrees.
  - done.
  - done.
  - reflexivity.
  - intros k1 rc e E1 E2. vm_compute in E1. injection E1 as <-. vm_compute in E2.
    by injection E2 as <- _.
  - exists r, k', n'. split; [exact E|]. split; [eapply sv_steps, H2|]. split; [exact H1|].
    eapply ag_box, sv_agrees, H2.
Defined.
