(* ===== verification/ServersCorrect.v ===== *)
(** * The servers answer their clients

    [file_read] and [dir_lookup] through the network: requests go to the servers
    and replies come back, with the files of the contract of FileSystem.v in the
    replies.  The lemmas follow the messages: [file_read_leads] for a client of
    the file server, [dir_lookup_leads] for a client of the directory server,
    which is itself a client of the file server. *)

From stdpp Require Import relations.
From coqutil Require Import Byte Word.LittleEndianList.
From S2P Require Import Prelude Layout Blocks Store Treedisk FileSystem Earth Dir.
From S2P Require Import Kernel KernelInv User Servers Net.

(** What the servers rely on: a store that holds the files [F]. *)
Class FileStore {D} (fs : inode_store D) (inv : D → Prop) (F : files) := {
  fst_read d ino off buf : inv d → is_u32 ino → is_u32 off →
    returns (read fs ino off buf) d (λ r d', r = spec_read F ino off buf ∧ inv d');
  fst_wf d : inv d → Forall (Forall wf_block) F;
}.

Definition stores {D} (bs : inode_store D) (bino N : Z) `{!BlockStore bs bino N} (F : files) (d : D) :
  Prop := ∃ room, fs_state bs bino N d F room.

#[export] Program Instance treedisk_file_store {D} (bs : inode_store D) bino N uninit F
    `{!BlockStore bs bino N} : FileStore (treedisk_init uninit bs bino) (stores bs bino N F) F.
Next Obligation.
  intros D bs bino N uninit F HB d ino off buf [room Hd] Hi Ho.
  destruct (read_refines bs bino N uninit d F room ino off buf Hd Hi Ho)
    as [(d' & room' & E & Hd' & Hr)|[Hlt _]]; [|lia].
  exists (spec_read F ino off buf), d'. split; [done|]. split; [done|]. by exists room'.
Qed.
Next Obligation. intros D bs bino N uninit F HB d [room Hd]. by eapply fs_state_wf. Qed.

(** ** Messages *)

Lemma uint_at_app pre v post o :
  length pre = o → uint_at (pre ++ le_split 4 v ++ post) o = u32 v.
Proof.
  intros <-. unfold uint_at, bytes_at. rewrite drop_app_length.
  rewrite take_app_length' by (by rewrite length_le_split). by rewrite le_combine_split.
Qed.

Lemma uint_at_start v post : uint_at (le_split 4 v ++ post) 0 = u32 v.
Proof. by apply (uint_at_app []). Qed.

Lemma bytes_at_app pre bs post o n :
  length pre = o → length bs = n → bytes_at (pre ++ bs ++ post) o n = bs.
Proof. intros <- <-. unfold bytes_at. by rewrite drop_app_length, take_app_length. Qed.

Lemma overwrite_start x bs : overwrite x 0 bs = bs ++ drop (length bs) x.
Proof. done. Qed.

(** ** System calls of user code *)

Section code.
Context {D : Type}.

(** The system call area of a process that sends, and of one that receives. *)
Definition send_sc (r : Z) (bs : list byte) (sc : syscall) : syscall :=
  Syscall SYS_SEND (SysMsg (sender (msg sc)) r (bs ++ drop (length bs) (content (msg sc)))) (retval sc).
Definition recv_sc (sc : syscall) : syscall := Syscall SYS_RECV (msg sc) (retval sc).

Lemma sys_send_eq r m size sc :
  0 ≤ size ≤ SYSCALL_MSG_LEN → size ≤ Z.of_nat (length m) →
  sys_send (D := D) r m size sc =
    Invoke (send_sc r (take (Z.to_nat size) m) sc) (λ sc, Done (retval sc, sc)).
Proof.
  intros [H0 H1] H2. unfold sys_send. rewrite (proj2 (Z.ltb_ge _ _)) by lia.
  by rewrite (proj2 (Z.ltb_ge size 0)), (proj2 (Z.ltb_ge _ size)) by lia.
Qed.

(** A message of the size of its buffer. *)
Lemma sys_send_all r m size sc :
  size = Z.of_nat (length m) → size ≤ SYSCALL_MSG_LEN →
  sys_send (D := D) r m size sc = Invoke (send_sc r m sc) (λ sc, Done (retval sc, sc)).
Proof. intros -> H. rewrite sys_send_eq by lia. by rewrite Nat2Z.id, firstn_all. Qed.

Definition msg_len_ok (sc : syscall) : Prop := length (content (msg sc)) = Z.to_nat SYSCALL_MSG_LEN.

Lemma send_sc_ok r bs sc :
  (length bs ≤ Z.to_nat SYSCALL_MSG_LEN)%nat → msg_len_ok sc → msg_len_ok (send_sc r bs sc).
Proof.
  intros Hb Hl. unfold msg_len_ok, send_sc. cbn [msg content]. rewrite length_app, length_drop, Hl. lia.
Qed.

Lemma recv_msg_eq sc :
  recv_msg (D := D) sc = Invoke (recv_sc sc) (λ sc,
    Done (sender (msg sc), take (Z.to_nat SYSCALL_MSG_LEN) (content (msg sc)), sc)).
Proof. reflexivity. Qed.

(** A server's loop receives a message and handles it. *)
Lemma recv_then {A} (h : Z → list byte → U D A) sc :
  ('(s, b) ← recv_msg; h s b) sc = Invoke (recv_sc sc) (λ sc,
    h (sender (msg sc)) (take (Z.to_nat SYSCALL_MSG_LEN) (content (msg sc))) sc).
Proof. reflexivity. Qed.

Lemma bind_invoke {A B} sc (k : syscall → prog D A) (f : A → prog D B) :
  pbind (Invoke sc k) f = Invoke sc (λ sc, pbind (k sc) f).
Proof. reflexivity. Qed.

Lemma user_bind {A B} (m : U D A) (k : A → U D B) sc :
  (m ≫= k) sc = pbind (m sc) (λ r, k r.1 r.2).
Proof. reflexivity. Qed.
End code.

(** ** Two processes that talk *)

Lemma leads_trans {D} (n1 n2 n3 : net D) : rtc forced n1 n2 → rtc forced n2 n3 → rtc forced n1 n3.
Proof. intros H1 H2. by etrans. Qed.

Section two.
Context {D : Type}.
Implicit Types t : prog D (unit * syscall).
Implicit Types T : gmap Z (prog D (unit * syscall)).

(** Code around a system call: the call goes through it. *)
Definition context {A} (C : prog D A → prog D (unit * syscall)) : Prop :=
  ∀ sc k, C (Invoke sc k) = Invoke sc (λ sc, C (k sc)).

Definition two (a b : Z) ta tb T : gmap Z (prog D (unit * syscall)) := <[a:=ta]> (<[b:=tb]> T).
Definition quiet T (a b : Z) : Prop := ∀ q t, q ≠ a → q ≠ b → T !! q = Some t → idle t.

Lemma two_swap a b ta tb T : a ≠ b → two a b ta tb T = two b a tb ta T.
Proof. intros Hab. unfold two. by rewrite insert_insert_ne. Qed.
Lemma two_at a b ta tb T : two a b ta tb T !! a = Some ta.
Proof. apply lookup_insert_eq. Qed.
Lemma two_set a b ta tb x T : <[a:=x]> (two a b ta tb T) = two a b x tb T.
Proof. unfold two. by rewrite insert_insert_eq. Qed.
Lemma two_others a b ta tb T : quiet T a b → idle tb → others_idle (two a b ta tb T) a.
Proof.
  intros Hq Hb q t Hne Ht. unfold two in Ht. rewrite lookup_insert_ne in Ht by done.
  destruct (decide (q = b)) as [->|Hnb].
  - rewrite lookup_insert_eq in Ht. by injection Ht as <-.
  - rewrite lookup_insert_ne in Ht by done. by eapply Hq.
Qed.
Lemma quiet_swap T a b : quiet T a b → quiet T b a.
Proof. intros H q t Ha Hb. by apply H. Qed.

Lemma quiet_insert T a b c t :
  (∀ q t, q ≠ a → q ≠ b → q ≠ c → T !! q = Some t → idle t) → idle t → quiet (<[c:=t]> T) a b.
Proof.
  intros H Hi q t' Ha Hb Ht. destruct (decide (q = c)) as [->|Hc].
  - rewrite lookup_insert_eq in Ht. by apply (inj Some) in Ht as <-.
  - rewrite lookup_insert_ne in Ht by done. by eapply H.
Qed.

(** The system call areas after a message was sent and received. *)
Definition served (sc : syscall) : syscall := Syscall SYS_UNUSED (msg sc) 0.
Definition received (s : Z) (c : list byte) (sc : syscall) : syscall :=
  Syscall SYS_UNUSED (SysMsg s (receiver (msg sc)) c) 0.

(** A message from [a] to [b], which waits for it. *)
Lemma transfer a b sca ka scb kb T m (d : D) :
  a ≠ b → quiet T a b → in_use m = 0 → type sca = SYS_SEND → receiver (msg sca) = b →
  type scb = SYS_RECV → idle (ka (served sca)) →
  rtc forced (Net (two a b (Invoke sca ka) (Invoke scb kb) T) m d)
    (Net (two a b (ka (served sca)) (kb (received a (content (msg sca)) scb)) T)
       (KernelMsg 0 a b (content (msg sca))) d).
Proof.
  intros Hab Hq Hm Ht Hr Htb Hi. eapply rtc_l; [|apply rtc_once].
  - apply (forced_send _ a sca ka); [apply two_at|done..|by apply two_others].
  - cbn [tasks shared mailbox]. rewrite two_set, Hr, !(two_swap a b) by done.
    pose proof (forced_recv (Net (two b a (Invoke scb kb) (ka (served sca)) T)
      (KernelMsg 1 a b (content (msg sca))) d) b scb kb a (content (msg sca))) as Hf.
    cbn [tasks shared mailbox] in Hf. rewrite two_set in Hf.
    apply Hf; [apply two_at|done..|]. apply two_others; [by apply quiet_swap|done].
Qed.

(** Process [a] runs on its own while [b] waits. *)
Lemma runs a b m t tb T (mb : kernel_msg) (d d' : D) :
  quiet T a b → in_use mb = 0 → idle tb → m d = Ret t d' →
  rtc forced (Net (two a b (Act m) tb T) mb d) (Net (two a b t tb T) mb d').
Proof.
  intros Hq Hm Hb E. apply rtc_once.
  pose proof (forced_act (Net (two a b (Act m) tb T) mb d) a m t d') as Hf.
  cbn [tasks shared mailbox] in Hf. rewrite two_set in Hf.
  apply Hf; [apply two_at|done..|by apply two_others].
Qed.
End two.

(** ** The file server *)

Definition file_reply (r : Z * block) : list byte :=
  le_split 4 (if r.1 =? 0 then FILE_OK else FILE_ERROR) ++ r.2.

Lemma file_reply_fields r c :
  length r.2 = nbytes →
  let m := file_reply r ++ c in
  int_at m 0 = (if r.1 =? 0 then FILE_OK else FILE_ERROR) ∧ bytes_at m 4 nbytes = r.2.
Proof.
  intros Hl. unfold file_reply. rewrite <-!(assoc_L app). split.
  - unfold int_at. rewrite uint_at_start. by destruct (r.1 =? 0).
  - by apply bytes_at_app.
Qed.

(** The reply overlays the request. *)
Lemma file_reply_built c (r : Z * block) :
  length c = Z.to_nat SYSCALL_MSG_LEN → length r.2 = nbytes →
  take (4 + nbytes) (overwrite (overwrite c 4 r.2) 0 (le_split 4 (if r.1 =? 0 then FILE_OK else FILE_ERROR))) =
  file_reply r.
Proof.
  intros Hc Hr. rewrite overwrite_start, length_le_split. unfold overwrite, file_reply.
  rewrite drop_app_length' by (rewrite length_take, Hc; change SYSCALL_MSG_LEN with 1024; lia).
  rewrite (assoc_L app). apply take_app_length'. by rewrite length_app, length_le_split, Hr.
Qed.
Section file.
Context {D : Type} (junk : list byte) (fs : inode_store D) (inv : D → Prop) (F : files).
Context `{!FileStore fs inv F}.
Hypothesis Hjunk : (nbytes ≤ length junk)%nat.
Implicit Types T : gmap Z (prog D (unit * syscall)).

Lemma file_request_length ino off : length (file_request ino off junk) = (12 + nbytes)%nat.
Proof using Hjunk.
  unfold file_request. rewrite !length_app, !length_le_split, length_take. lia.
Qed.

(** A client of the file server: its request, and the reply it waits for. *)
Definition file_answer (sc : syscall) : prog D ((Z * block) * syscall) :=
  let buf := take (Z.to_nat SYSCALL_MSG_LEN) (content (msg sc)) in
  (if negb (sender (msg sc) =? GPID_FILE) then halt "file_read: an error occurred"
   else mret (if int_at buf 0 =? FILE_OK then 0 else -1, bytes_at buf 4 nbytes)) sc.

Lemma file_read_eq ino off sc :
  file_read junk ino off sc =
  Invoke (send_sc GPID_FILE (file_request ino off junk) sc) (λ sc, Invoke (recv_sc sc) file_answer).
Proof using Hjunk.
  unfold file_read. unfold mbind at 1, U_bind at 1. rewrite sys_send_all; [reflexivity|..].
  - by rewrite file_request_length.
  - done.
Qed.

(** The request as the server sees it, and the reply as the client sees it. *)
Lemma file_request_fields ino off c :
  let m := file_request ino off junk ++ c in
  int_at m 0 = FILE_READ ∧ uint_at m 4 = u32 ino ∧ uint_at m 8 = u32 off.
Proof using Type.
  unfold file_request. rewrite <-!(assoc_L app). split_and!.
  - unfold int_at. by rewrite uint_at_start.
  - by apply (uint_at_app (le_split 4 FILE_READ)).
  - rewrite (assoc_L app). by apply uint_at_app.
Qed.

(** One round of the server's loop, from the message on. *)
Definition file_serve (n : nat) (sc : syscall) : prog D (unit * syscall) :=
  pbind (file_handle fs (sender (msg sc)) (take (Z.to_nat SYSCALL_MSG_LEN) (content (msg sc))) sc)
    (λ r, file_loop fs n r.2).

Lemma file_loop_eq n sc : file_loop fs (S n) sc = Invoke (recv_sc sc) (file_serve n).
Proof using Type.
  cbn [file_loop]. rewrite user_bind. unfold file_round. rewrite recv_then, bind_invoke.
  unfold file_serve. cbv beta. reflexivity.
Qed.

Lemma file_loop_idle n sc : idle (file_loop fs n sc).
Proof using Type. destruct n; [|done]. intros d t' d' E. discriminate E. Qed.

(** A request: the server reads the file and is about to send its reply. *)
Lemma file_serve_reads n sc d ino off rest r :
  content (msg sc) = file_request ino off junk ++ rest → msg_len_ok sc → inv d →
  r = spec_read F (u32 ino) (u32 off) (bytes_at (content (msg sc)) 4 nbytes) →
  ∃ m, file_serve n sc = Act m ∧ returns m d (λ t d', inv d' ∧ length r.2 = nbytes ∧
    read fs (u32 ino) (u32 off) (bytes_at (content (msg sc)) 4 nbytes) d = Ret r d' ∧
    t = Invoke (send_sc (sender (msg sc)) (file_reply r) sc) (λ sc, file_loop fs n sc)).
Proof using Hjunk FileStore0.
  intros Hc Hl Hd ->. unfold file_serve, file_handle. rewrite take_ge by (by rewrite Hl).
  set (c := content (msg sc)) in *. change (length c = Z.to_nat SYSCALL_MSG_LEN) in Hl.
  destruct (file_request_fields ino off rest) as (E1 & E2 & E3). rewrite <-Hc in E1, E2, E3.
  rewrite E1, E2, E3. change (FILE_READ =? FILE_READ) with true. cbv iota.
  set (r := spec_read F (u32 ino) (u32 off) (bytes_at c 4 nbytes)).
  assert (Hr : length r.2 = nbytes).
  { assert (Hb : length (bytes_at c 4 nbytes) = nbytes).
    { unfold bytes_at. rewrite length_take, length_drop, Hl.
      change (Z.to_nat SYSCALL_MSG_LEN) with (2 * nbytes)%nat. unfold nbytes, BLOCK_SIZE. lia. }
    unfold r, spec_read. destruct (F !! _) as [f|] eqn:Ef; [|done].
    destruct (f !! _) as [blk|] eqn:Eb; [|done]. cbn [snd].
    eapply (Forall_lookup_1 wf_block); [|exact Eb]. by eapply (Forall_lookup_1 _ F); [eapply fst_wf|]. }
  eexists. split; [reflexivity|].
  destruct (fst_read d (u32 ino) (u32 off) (bytes_at c 4 nbytes) Hd (u32_range _) (u32_range _))
    as (r' & d' & E & -> & Hd'). fold r in E. eexists _, d'. split.
  { cbn [act]. unfold act. rewrite E. reflexivity. }
  split; [done|]. split; [done|]. split; [done|]. destruct r as [rc blk]. cbn [fst snd] in *.
  unfold mbind, U_bind. rewrite sys_send_eq; [|done|].
  - change (Z.to_nat (4 + BLOCK_SIZE)) with (4 + nbytes)%nat.
    pose proof (file_reply_built c (rc, blk) Hl Hr) as Hrep. cbn [fst snd] in Hrep.
    rewrite Hrep. reflexivity.
  - assert (Hl1 : length (overwrite c 4 blk) = length c).
    { apply overwrite_length. rewrite Hl, Hr. change (Z.to_nat SYSCALL_MSG_LEN) with (2 * nbytes)%nat.
      unfold nbytes, BLOCK_SIZE. lia. }
    rewrite overwrite_length, Hl1, Hl; [done|]. rewrite length_le_split, Hl1, Hl. apply Nat.leb_le. done.
Qed.

(** The reply as the client sees it. *)
Lemma file_answer_eq sc r c :
  sender (msg sc) = GPID_FILE → content (msg sc) = file_reply r ++ c → msg_len_ok sc →
  length r.2 = nbytes → r.1 = 0 ∨ r.1 = -1 → file_answer sc = Done (r, sc).
Proof using Type.
  intros Hs Hc Hl Hr Hrc. unfold file_answer. rewrite take_ge by (by rewrite Hl). rewrite Hs, Hc.
  destruct (file_reply_fields r c Hr) as [E1 E2]. rewrite E1, E2. destruct r as [rc blk].
  cbn [fst snd] in *. by destruct Hrc as [->| ->].
Qed.

(** The client's call through the network: its request, the server's work, the
    reply. *)
Lemma file_read_leads C c n sc fsc ino off T m d :
  context C → c ≠ GPID_FILE → quiet T c GPID_FILE → in_use m = 0 → inv d → msg_len_ok sc → msg_len_ok fsc →
  ∃ sc' fsc' m' d' r,
    rtc forced (Net (two c GPID_FILE (C (file_read junk ino off sc)) (file_loop fs (S n) fsc) T) m d)
               (Net (two c GPID_FILE (C (Done (r, sc'))) (file_loop fs n fsc') T) m' d') ∧
    (∃ buf, r = spec_read F (u32 ino) (u32 off) buf ∧ read fs (u32 ino) (u32 off) buf d = Ret r d') ∧
    inv d' ∧ in_use m' = 0 ∧
    msg_len_ok sc' ∧ msg_len_ok fsc'.
Proof using Hjunk FileStore0.
  intros HC Hc Hq Hm Hd Hsc Hfsc. rewrite file_read_eq, HC, file_loop_eq.
  set (req := file_request ino off junk). set (sc1 := send_sc GPID_FILE req sc).
  set (c1 := content (msg sc1)).
  assert (Hl1 : length c1 = Z.to_nat SYSCALL_MSG_LEN).
  { apply send_sc_ok; [|done]. unfold req. rewrite file_request_length. apply Nat.leb_le. done. }
  destruct (file_serve_reads n (received c c1 (recv_sc fsc)) d ino off (drop (length req) (content (msg sc))))
    with (r := spec_read F (u32 ino) (u32 off) (bytes_at c1 4 nbytes))
    as (act1 & Eact & t & d' & Ed & Hd' & Hr & Er & ->); [done..|].
  set (r := spec_read _ _ _ _) in *. set (fsc1 := received c c1 (recv_sc fsc)) in *.
  assert (Hl2 : msg_len_ok (send_sc (sender (msg fsc1)) (file_reply r) fsc1)).
  { apply send_sc_ok; [|done]. unfold file_reply. rewrite length_app, length_le_split, Hr.
    apply Nat.leb_le. done. }
  assert (Hrc : r.1 = 0 ∨ r.1 = -1).
  { unfold r, spec_read. destruct (F !! _) as [f|]; [|by right].
    destruct (f !! _); [by left|by right]. }
  eexists _, _, _, d', r. split.
  { eapply leads_trans; [apply (transfer c GPID_FILE); [done..|by rewrite HC]|].
    fold c1 fsc1. rewrite Eact, HC, (two_swap c) by done.
    eapply leads_trans; [apply runs; [by apply quiet_swap|done| |exact Ed]|].
    { done. }
    eapply leads_trans; [apply (transfer GPID_FILE c); [done|by apply quiet_swap|done..|]|].
    { apply file_loop_idle. }
    rewrite (two_swap GPID_FILE c) by done. rewrite (file_answer_eq _ r (drop (length (file_reply r)) c1));
      [reflexivity|done|done|exact Hl2|exact Hr|exact Hrc]. }
  split; [by eexists|]. split; [done|]. split; [done|]. split; exact Hl2.
Qed.
End file.

(** ** The directory server *)

Definition dir_reply (ino : Z) : list byte :=
  le_split 4 (if ino =? -1 then DIR_ERROR else DIR_OK) ++ le_split 4 ino.

Lemma dir_reply_fields ino c :
  is_s32 ino →
  let m := dir_reply ino ++ c in
  int_at m 0 = (if ino =? -1 then DIR_ERROR else DIR_OK) ∧ int_at m 4 = ino.
Proof.
  intros Hi. unfold dir_reply, int_at. rewrite <-!(assoc_L app). split.
  - rewrite uint_at_start. by destruct (ino =? -1).
  - rewrite uint_at_app by done. by apply s32_u32.
Qed.

(** The reply overlays the request. *)
Lemma dir_reply_built c ino :
  (8 ≤ length c)%nat →
  take 8 (overwrite (overwrite c 4 (le_split 4 ino)) 0
            (le_split 4 (if ino =? -1 then DIR_ERROR else DIR_OK))) = dir_reply ino.
Proof.
  intros Hc. rewrite overwrite_start, length_le_split. unfold overwrite, dir_reply.
  rewrite drop_app_length' by (rewrite length_take; lia).
  rewrite (assoc_L app). apply take_app_length'. by rewrite length_app, !length_le_split.
Qed.

Section dir.
Context {D : Type} (junk : list byte) (fs : inode_store D) (inv : D → Prop) (F : files).
Context `{!FileStore fs inv F}.
Hypothesis Hjunk : (nbytes ≤ length junk)%nat.
Implicit Types T : gmap Z (prog D (unit * syscall)).

Lemma dir_request_length ino name :
  (length name < 32)%nat → length (dir_request ino name junk) = 40%nat.
Proof using Hjunk.
  intros Hn. assert (Hj : length (take 32 junk) = 32%nat).
  { rewrite length_take. change nbytes with 512%nat in Hjunk. lia. }
  unfold dir_request. rewrite !length_app, !length_le_split, overwrite_length; [lia|].
  rewrite length_app, Hj. cbn [length]. lia.
Qed.

Lemma dir_request_fields ino name rest :
  is_s32 ino → nul ∉ name →
  let m := dir_request ino name junk ++ rest in
  int_at m 0 = DIR_LOOKUP ∧ int_at m 4 = ino ∧ find_nul (drop 8 m) = Some (length name) ∧
  take (length name) (drop 8 m) = name.
Proof using Type.
  intros Hi Hn. unfold dir_request, int_at. rewrite <-!(assoc_L app).
  assert (Hd : ∀ l, drop 8 (le_split 4 DIR_LOOKUP ++ le_split 4 ino ++ l) = l).
  { intros l. rewrite (assoc_L app). apply drop_app_length'. by rewrite length_app, !length_le_split. }
  rewrite Hd. split_and!.
  - by rewrite uint_at_start.
  - rewrite uint_at_app by done. by apply s32_u32.
  - rewrite overwrite_start, <-!(assoc_L app). simpl. by apply find_nul_text.
  - rewrite overwrite_start, <-!(assoc_L app). apply take_app_length.
Qed.

(** A client of the directory server. *)
Definition dir_answer (sc : syscall) : prog D (Z * syscall) :=
  let buf := take (Z.to_nat SYSCALL_MSG_LEN) (content (msg sc)) in
  (if negb (sender (msg sc) =? GPID_DIR) then halt "dir_lookup: an error occurred"
   else mret (if int_at buf 0 =? DIR_OK then int_at buf 4 else -1)) sc.

Lemma dir_lookup_eq ino name sc :
  (length name < 32)%nat →
  dir_lookup junk ino name sc =
  Invoke (send_sc GPID_DIR (dir_request ino name junk) sc) (λ sc, Invoke (recv_sc sc) dir_answer).
Proof using Hjunk.
  intros Hn. unfold dir_lookup. rewrite (proj2 (Z.leb_gt _ _)) by (change DIR_NAME_SIZE with 32; lia).
  unfold mbind at 1, U_bind at 1. rewrite sys_send_all; [reflexivity|..].
  - by rewrite dir_request_length.
  - done.
Qed.

Lemma dir_answer_eq sc ino c :
  sender (msg sc) = GPID_DIR → content (msg sc) = dir_reply ino ++ c → msg_len_ok sc →
  is_s32 ino → dir_answer sc = Done (ino, sc).
Proof using Type.
  intros Hs Hc Hl Hi. unfold dir_answer. rewrite take_ge by (by rewrite Hl). rewrite Hs, Hc.
  destruct (dir_reply_fields ino c Hi) as [E1 E2]. rewrite E1, E2.
  by destruct (Z.eqb_spec ino (-1)) as [->|].
Qed.

(** One round of the server's loop, from the message on. *)
Definition dir_serve (n : nat) (sc : syscall) : prog D (unit * syscall) :=
  pbind (dir_handle junk (sender (msg sc)) (take (Z.to_nat SYSCALL_MSG_LEN) (content (msg sc))) sc)
    (λ r, dir_loop junk n r.2).

Lemma dir_loop_eq n sc : dir_loop (D := D) junk (S n) sc = Invoke (recv_sc sc) (dir_serve n).
Proof using Type.
  cbn [dir_loop]. rewrite user_bind. unfold dir_round. rewrite recv_then, bind_invoke.
  unfold dir_serve. cbv beta. reflexivity.
Qed.

Lemma dir_loop_idle n sc : idle (dir_loop (D := D) junk n sc).
Proof using Type. destruct n; [|done]. intros d t' d' E. discriminate E. Qed.

(** The code that waits for the directory's block, and goes on with it. *)
Definition dir_goes_on (n : nat) (s : Z) (buf name : list byte) (p : prog D ((Z * block) * syscall)) :
    prog D (unit * syscall) :=
  pbind (pbind (pbind p (λ r, (let '(_, blk) := r.1 in act (dir_search blk name)) r.2)) (λ r,
    (let buf := overwrite buf 4 (le_split 4 r.1) in
     let status := if r.1 =? -1 then DIR_ERROR else DIR_OK in
     let buf := overwrite buf 0 (le_split 4 status) in
     _ ← sys_send s buf 8; mret tt) r.2)) (λ r, dir_loop junk n r.2).

Lemma dir_serve_reads n sc ino name rest :
  content (msg sc) = dir_request ino name junk ++ rest → msg_len_ok sc → is_s32 ino → nul ∉ name →
  dir_serve n sc =
    dir_goes_on n (sender (msg sc)) (content (msg sc)) name (file_read junk ino 0 sc).
Proof using Type.
  intros Hc Hl Hi Hn. unfold dir_serve, dir_handle. rewrite take_ge by (by rewrite Hl).
  destruct (dir_request_fields ino name rest Hi Hn) as (E1 & E2 & E3 & E4). rewrite <-Hc in E1, E2, E3, E4.
  rewrite E1, E2. change (DIR_LOOKUP =? DIR_LOOKUP) with true. cbv iota. unfold cstring. rewrite E3, E4.
  unfold dir_goes_on, dir_do_lookup. rewrite user_bind. unfold mret at 1, U_ret. cbn [prog_bind fst snd].
  reflexivity.
Qed.

Lemma dir_goes_on_context n s buf name : context (dir_goes_on n s buf name).
Proof using Type. intros sc k. reflexivity. Qed.

(** The block is there: the search, and the reply about to be sent. *)
Lemma dir_goes_on_reply n s sc name rc blk d ino :
  dir_search blk name d = Ret ino d → (8 ≤ length (content (msg sc)))%nat →
  ∀ sc1, ∃ m, dir_goes_on n s (content (msg sc)) name (Done ((rc, blk), sc1)) = Act m ∧
    m d = Ret (Invoke (send_sc s (dir_reply ino) sc1) (λ sc, dir_loop junk n sc)) d.
Proof using Type.
  clear Hjunk. intros E Hl sc1. eexists. split; [reflexivity|]. unfold act. rewrite E. cbn [prog_bind fst snd]. f_equal.
  rewrite user_bind, sys_send_eq; [|done|].
  - cbn [prog_bind]. rewrite dir_reply_built by done. reflexivity.
  - assert (Hl1 : length (overwrite (content (msg sc)) 4 (le_split 4 ino)) = length (content (msg sc))).
    { apply overwrite_length. rewrite length_le_split. lia. }
    rewrite overwrite_length, Hl1; [lia|]. rewrite length_le_split. lia.
Qed.

(** Three processes. *)
Lemma three_rot (a b c : Z) (ta tb tc : prog D (unit * syscall)) T :
  a ≠ b → a ≠ c → two a b ta tb (<[c:=tc]> T) = two b c tb tc (<[a:=ta]> T).
Proof using Type.
  intros Hab Hac. unfold two. by rewrite insert_insert_ne, (insert_insert_ne _ a c).
Qed.

(** The second half of a lookup: the search in the block and the reply. *)
Lemma dir_reply_leads C c n sc sc1 dsc name blk ino T m d :
  context C → c ≠ GPID_DIR → quiet T c GPID_DIR → in_use m = 0 → is_s32 ino →
  msg_len_ok sc → msg_len_ok dsc → dir_search blk name d = Ret ino d →
  ∃ sc' dsc' m',
    rtc forced
      (Net (two c GPID_DIR (C (Invoke (recv_sc sc1) dir_answer))
         (dir_goes_on n c (content (msg sc)) name (Done ((0, blk), dsc))) T) m d)
      (Net (two c GPID_DIR (C (Done (ino, sc'))) (dir_loop junk n dsc') T) m' d) ∧
    in_use m' = 0 ∧ msg_len_ok sc' ∧ msg_len_ok dsc'.
Proof using Type.
  clear Hjunk. intros HC Hc Hq Hm Hi Hsc Hdsc E.
  destruct (dir_goes_on_reply n c sc name 0 blk d ino E) with (sc1 := dsc) as (a & Ea & Ed).
  { rewrite Hsc. apply Nat.leb_le. done. }
  assert (Hl : msg_len_ok (send_sc c (dir_reply ino) dsc)).
  { apply send_sc_ok; [|done]. unfold dir_reply. rewrite length_app, !length_le_split.
    apply Nat.leb_le. done. }
  rewrite Ea, HC, (two_swap c) by done. eexists _, _, _. split.
  { eapply leads_trans; [apply runs; [by apply quiet_swap|done| |exact Ed]; done|].
    eapply leads_trans; [apply (transfer GPID_DIR c); [done|by apply quiet_swap|done..|apply dir_loop_idle]|].
    cbv beta. rewrite (dir_answer_eq _ ino (drop (length (dir_reply ino)) (content (msg dsc)))) by done.
    rewrite (two_swap GPID_DIR) by done. reflexivity. }
  by split_and!.
Qed.

(** The client's call through both servers. *)
Lemma dir_lookup_leads C c n nf sc dsc fsc ino name es T m d :
  context C → c ≠ GPID_DIR → c ≠ GPID_FILE →
  (∀ q t, q ≠ c → q ≠ GPID_DIR → q ≠ GPID_FILE → T !! q = Some t → idle t) → in_use m = 0 → inv d →
  msg_len_ok sc → msg_len_ok dsc → msg_len_ok fsc →
  is_u32 ino → ino < 2 ^ 31 → F !! Z.to_nat ino = Some [dir_block es] →
  Forall entry_ok es → (length (render es) < nbytes)%nat → word name →
  (length name ≤ length (render es))%nat → (length name < 32)%nat →
  ∃ sc' dsc' fsc' m' d',
    rtc forced
      (Net (two c GPID_DIR (C (dir_lookup junk ino name sc)) (dir_loop junk (S n) dsc)
         (<[GPID_FILE:=file_loop fs (S nf) fsc]> T)) m d)
      (Net (two c GPID_DIR (C (Done (lookup_ino es name, sc'))) (dir_loop junk n dsc')
         (<[GPID_FILE:=file_loop fs nf fsc']> T)) m' d') ∧
    (∃ buf r, read fs ino 0 buf d = Ret r d') ∧
    inv d' ∧ in_use m' = 0 ∧ msg_len_ok sc' ∧ msg_len_ok dsc' ∧ msg_len_ok fsc'.
Proof using Hjunk FileStore0.
  intros HC Hcd Hcf Hq Hm Hd Hsc Hdsc Hfsc Hi Hi31 HF Hes Hren Hw Hle H32.
  assert (Hnul : nul ∉ name) by apply Hw. assert (Hs : is_s32 ino) by (unfold is_s32, is_u32 in *; lia).
  rewrite dir_lookup_eq, HC, dir_loop_eq by done.
  set (req := dir_request ino name junk). set (sc1 := send_sc GPID_DIR req sc).
  assert (Hl1 : msg_len_ok sc1).
  { apply send_sc_ok; [|done]. unfold req. rewrite dir_request_length by done. apply Nat.leb_le. done. }
  set (dsc1 := received c (content (msg sc1)) (recv_sc dsc)).
  set (client := C (Invoke (recv_sc (served sc1)) dir_answer)).
  assert (Hclient : idle client) by (unfold client; by rewrite HC).
  (* the request *)
  eassert (L1 : rtc forced _ _).
  { apply (transfer c GPID_DIR sc1 (λ sc, C (Invoke (recv_sc sc) dir_answer)) (recv_sc dsc) (dir_serve n)
      (<[GPID_FILE:=file_loop fs (S nf) fsc]> T) m d); [done| |done..].
    apply quiet_insert; [done|apply file_loop_idle]. }
  fold dsc1 client in L1. rewrite (dir_serve_reads n dsc1 ino name _ eq_refl Hl1 Hs Hnul) in L1.
  (* the directory's block *)
  destruct (file_read_leads junk fs inv F Hjunk (dir_goes_on n c (content (msg sc1)) name) GPID_DIR nf dsc1 fsc
    ino 0 (<[c:=client]> T) (KernelMsg 0 c GPID_DIR (content (msg sc1))) d)
    as (dsc2 & fsc2 & m2 & d2 & r & L2 & (buf & Hr & Er) & Hd2 & Hm2 & Hl2 & Hf2);
    [apply dir_goes_on_context|done| |done..|].
  { apply quiet_insert; [|done]. intros q t H1 H2 H3. by apply Hq. }
  rewrite !(u32_small) in Hr, Er by (done || unfold is_u32 in *; lia).
  unfold spec_read in Hr. rewrite HF in Hr. change ([dir_block es] !! Z.to_nat 0) with (Some (dir_block es)) in Hr.
  cbv iota in Hr. subst r.
  (* the reply *)
  rewrite <-!(three_rot c) in L2 by done.
  destruct (dir_reply_leads C c n sc1 (served sc1) dsc2 name (dir_block es) (lookup_ino es name)
    (<[GPID_FILE:=file_loop fs nf fsc2]> T) m2 d2) as (sc3 & dsc3 & m3 & L3 & Hm3 & Hs3 & Hd3);
    [done..| |done|by apply lookup_ino_range|done|done|by apply dir_search_spec|].
  { apply quiet_insert; [done|apply file_loop_idle]. }
  exists sc3, dsc3, fsc2, m3, d2. split; [|split; [by eexists _, _|by split_and!]].
  eapply leads_trans; [exact L1|]. eapply leads_trans; [exact L2|exact L3].
Qed.
End dir.
