(* ===== verification/PagingOps.v ===== *)
(** * The paging device keeps pages

    [paged s F]: frame [f] of the device of Paging.v holds page [F f], in the
    cache or on the disk.  [paging_write_spec] and [paging_read_spec] are the
    effect of the operations on [F].  [ready]: what eviction needs (on the Arty
    board [paging_write] may evict a slot that holds no frame). *)

From S2P Require Import Prelude Layout Blocks Ramdisk FsDisk Paging.

Definition npage : nat := Z.to_nat PAGE_SIZE.
Definition FRAME_PAGE : Z := Z.shiftr FRAME_CACHE_START 12.

Lemma frame_addr i : Z.shiftr (pages_start + PAGE_SIZE * i) 12 = FRAME_PAGE + i.
Proof.
  rewrite Z.shiftr_div_pow2 by lia. change (2 ^ 12) with 4096. change PAGE_SIZE with 4096.
  change pages_start with (524292 * 4096). change FRAME_PAGE with 524292.
  replace (524292 * 4096 + 4096 * i) with ((524292 + i) * 4096) by lia.
  by apply Z.div_mul.
Qed.

Lemma page_addr n : 0 ≤ n < 2 ^ 20 → Z.shiftr (u32 (Z.shiftl n 12)) 12 = n.
Proof.
  intros Hn. rewrite Z.shiftl_mul_pow2, u32_small, Z.shiftr_div_pow2 by (unfold is_u32; lia).
  by apply Z.div_mul.
Qed.

(** ** Pages on the disk *)

Definition card_page (c : gmap Z block) (f : Z) : page :=
  seqZ (f * NBLOCKS_PER_PAGE) NBLOCKS_PER_PAGE ≫= λ b, c !!! b.

Lemma card_page_ext c c' f :
  (∀ b, f * NBLOCKS_PER_PAGE ≤ b < (f + 1) * NBLOCKS_PER_PAGE → c' !!! b = c !!! b) →
  card_page c' f = card_page c f.
Proof.
  intros H. apply bind_ext_in. intros b Hb. apply elem_of_seqZ in Hb. apply H. lia.
Qed.

Lemma card_page_written c f x :
  length x = npage →
  (∀ b, f * NBLOCKS_PER_PAGE ≤ b < (f + 1) * NBLOCKS_PER_PAGE →
     c !!! b = slice x (b - f * NBLOCKS_PER_PAGE)) →
  card_page c f = x.
Proof.
  intros Hl H. unfold card_page.
  rewrite (bind_ext_in _ (λ b, slice x (b - f * NBLOCKS_PER_PAGE))).
  2:{ intros b Hb. apply elem_of_seqZ in Hb. apply H. lia. }
  rewrite <-(Z.add_0_r (f * NBLOCKS_PER_PAGE)) at 1.
  rewrite <-fmap_add_seqZ, list_fmap_bind.
  rewrite (bind_ext_in _ (slice x)) by (intros b _; simpl; f_equal; lia).
  change NBLOCKS_PER_PAGE with (Z.of_nat 8). rewrite slices_take, take_ge; [done|].
  by rewrite Hl.
Qed.

(** ** Cache slots *)

Definition nslot : nat := Z.to_nat ARTY_CACHED_NFRAMES.

(** Every slot holds a frame or nothing, no frame is in two slots. *)
Record slots_wf (l : list Z) : Prop := {
  sw_len : length l = nslot;
  sw_range i f : l !! i = Some f → f = -1 ∨ 0 ≤ f < NFRAMES;
  sw_uniq i j f : l !! i = Some f → l !! j = Some f → 0 ≤ f → i = j;
}.

Definition full (l : list Z) : Prop := -1 ∉ l.

Lemma find_slot_spec l : ∀ i f,
  match find_slot l i f with
  | Some j => i ≤ j ∧ l !! Z.to_nat (j - i) = Some f
  | None => f ∉ l
  end.
Proof.
  induction l as [|x l IH]; intros i f; simpl; [apply not_elem_of_nil|].
  destruct (Z.eqb_spec x f) as [->|Hne].
  - split; [lia|]. by rewrite Z.sub_diag.
  - specialize (IH (i + 1) f). destruct (find_slot l (i + 1) f) as [j|].
    + destruct IH as [Hj Hl]. split; [lia|].
      replace (Z.to_nat (j - i)) with (S (Z.to_nat (j - (i + 1)))) by lia. done.
    + by apply not_elem_of_cons.
Qed.

Lemma read_scan_spec l : ∀ i f free,
  0 ≤ i →
  match read_scan l i f free with
  | inl j => i ≤ j ∧ l !! Z.to_nat (j - i) = Some f
  | inr r => f ∉ l ∧
      if free =? -1 then (r = -1 ∧ full l) ∨ (i ≤ r ∧ l !! Z.to_nat (r - i) = Some (-1))
      else r = free
  end.
Proof.
  induction l as [|x l IH]; intros i f free Hi; simpl.
  { split; [apply not_elem_of_nil|]. destruct (Z.eqb_spec free (-1)); [|done].
    left. split; [done|]. apply not_elem_of_nil. }
  destruct (Z.eqb_spec x f) as [->|Hne]; [split; [lia|by rewrite Z.sub_diag]|].
  specialize (IH (i + 1) f (if (x =? -1) && (free =? -1) then i else free) ltac:(lia)).
  destruct (read_scan _ _ _ _) as [j|r].
  - destruct IH as [Hj Hl]. split; [lia|].
    by replace (Z.to_nat (j - i)) with (S (Z.to_nat (j - (i + 1)))) by lia.
  - destruct IH as [Hf Hr]. split; [by apply not_elem_of_cons|].
    destruct (Z.eqb_spec x (-1)) as [->|Hx], (Z.eqb_spec free (-1)) as [->|Hfr]; simpl in Hr.
    + rewrite (proj2 (Z.eqb_neq _ _)) in Hr by lia. subst r. right. split; [lia|].
      by rewrite Z.sub_diag.
    + by rewrite (proj2 (Z.eqb_neq _ _)) in Hr.
    + destruct Hr as [[-> Hful]|[Hle Hl]]; [left; split; [done|]; by apply not_elem_of_cons|].
      right. split; [lia|]. by replace (Z.to_nat (r - i)) with (S (Z.to_nat (r - (i + 1)))) by lia.
    + by rewrite (proj2 (Z.eqb_neq _ _)) in Hr.
Qed.

Lemma slots_wf_insert l i f :
  slots_wf l → 0 ≤ f < NFRAMES → f ∉ l → slots_wf (<[i:=f]> l).
Proof.
  intros [W1 W2 W3] Hf Hn.
  assert (Hne : ∀ j, l !! j ≠ Some f) by (intros j Hj; apply Hn; by eapply list_elem_of_lookup_2).
  split; [by rewrite length_insert| |].
  - intros j g Hg. apply list_lookup_insert_Some in Hg as [(_ & -> & _)|[_ Hg]]; [by right|eauto].
  - intros j k g Hj Hk Hg. apply list_lookup_insert_Some in Hj as [(<- & <- & _)|[Hij Hj]],
      Hk as [(<- & E & _)|[Hik Hk]]; try done; [by destruct (Hne k)|..].
    + subst. by destruct (Hne j).
    + by eapply W3.
Qed.

Lemma slots_wf_invalidate l f :
  slots_wf l → slots_wf ((λ x, if x =? f then -1 else x) <$> l).
Proof.
  intros [W1 W2 W3]. split; [by rewrite length_fmap| |].
  - intros i g Hg. apply list_lookup_fmap_Some in Hg as (x & -> & Hx).
    destruct (x =? f); [by left|eauto].
  - intros i j g Hi Hj Hg. apply list_lookup_fmap_Some in Hi as (x & -> & Hx).
    apply list_lookup_fmap_Some in Hj as (y & E & Hy).
    destruct (x =? f), (y =? f); try lia. subst. by eapply W3.
Qed.

(** ** The device *)

Definition in_cache (n : Z) : Prop := FRAME_PAGE ≤ n < FRAME_PAGE + NFRAMES.
Definition upd {A} (F : Z → A) (f : Z) (x : A) : Z → A := λ g, if g =? f then x else F g.

Section paging.
Context {D : Type} (platform : platform_id).
Context (sd : sd_driver D) (rom : Z → byte) (type : disk_type) (rnd : nat → Z).
Context `{!SdCard sd DISK_BLOCKS}.
Implicit Types s : mmu D.
Implicit Types F : Z → page.

(** Frames in the cache, frames on the card [c]. *)
Record cached s (c : gmap Z block) F : Prop := {
  ca_card : sd_holds (pdisk s) c;
  ca_slot i f : cache_slots s !! i = Some f → 0 ≤ f → F f = mem s (FRAME_PAGE + Z.of_nat i);
  ca_disk f : 0 ≤ f < NFRAMES → f ∉ cache_slots s → F f = card_page c f;
}.

Record paged s F : Prop := {
  pg_slots : slots_wf (cache_slots s);
  pg_mem n : length (mem s n) = npage;
  pg_frames : match platform with
              | QEMU => ∀ f, 0 ≤ f < NFRAMES → F f = mem s (FRAME_PAGE + f)
              | ARTY => ∃ c, cached s c F
              end;
}.

(** The operations change nothing outside the frame cache. *)
Record same_user s s' : Prop := {
  su_table : ftable s' = ftable s;
  su_curr : curr_vm_pid s' = curr_vm_pid s;
  su_mem n : ¬ in_cache n → mem s' n = mem s n;
}.

#[local] Instance same_user_preorder : PreOrder same_user.
Proof.
  split; [done|]. intros s1 s2 s3 [A1 A2 A3] [B1 B2 B3]. split; try congruence.
  intros n Hn. by rewrite B3, A3.
Qed.

(** Slots while frame [f] is accessed: a full cache stays full, nothing is moved if
    [f] is there, and while there is room nothing is evicted. *)
Record slot_step (f : Z) (l l' : list Z) : Prop := {
  ss_full : full l → full l';
  ss_hit : f ∈ l → l' = l;
  ss_room g : ¬ full l → g ≠ -1 → g ∈ l → g ∈ l';
}.

Lemma paged_ext s F F' :
  (∀ f, 0 ≤ f < NFRAMES → F' f = F f) → paged s F → paged s F'.
Proof.
  intros HF [P1 P2 P3]. split; [done..|]. destruct platform.
  - intros f Hf. by rewrite HF, P3.
  - destruct P3 as (c & [C1 C2 C3]). exists c. split; [done| |].
    + intros i f Hi Hf. rewrite HF; [by apply C2|].
      destruct (sw_range _ P1 i f Hi); [lia|done].
    + intros f Hf Hn. rewrite HF by done. by apply C3.
Qed.

(** Where frame [f] is in memory. *)
Definition frame_at s (f i : Z) : Prop :=
  0 ≤ i < NFRAMES ∧
  match platform with
  | QEMU => i = f
  | ARTY => cache_slots s !! Z.to_nat i = Some f
  end.

Lemma frame_at_put s F f i x :
  paged s F → 0 ≤ f < NFRAMES → frame_at s f i → length x = npage →
  paged (set_page (FRAME_PAGE + i) x s) (upd F f x).
Proof.
  intros [P1 P2 P3] Hf [Hi Hat] Hx. split; simpl; [done|..].
  { intros n. by destruct (n =? _). }
  unfold upd. destruct platform.
  - subst i. intros g Hg. rewrite P3 by done.
    destruct (Z.eqb_spec g f) as [Hgf|Hgf]; [by rewrite Hgf, Z.eqb_refl|].
    by rewrite (proj2 (Z.eqb_neq _ _)) by lia.
  - destruct P3 as (c & [C1 C2 C3]). exists c. split; simpl; [done|..].
    + intros j g Hj Hg. destruct (Z.eqb_spec g f) as [->|Hne].
      * rewrite (sw_uniq _ P1 j (Z.to_nat i) f) by done. rewrite (proj2 (Z.eqb_eq _ _)); [done|lia].
      * rewrite (proj2 (Z.eqb_neq _ _)); [by apply C2|]. intros E.
        replace (Z.to_nat i) with j in Hat by lia. rewrite Hj in Hat. by injection Hat.
    + intros g Hg Hn. rewrite (proj2 (Z.eqb_neq _ _)); [by apply C3|]. intros ->.
      apply Hn. by eapply list_elem_of_lookup_2.
Qed.

Lemma frame_at_data s F f i :
  paged s F → 0 ≤ f < NFRAMES → frame_at s f i → mem s (FRAME_PAGE + i) = F f.
Proof.
  intros [P1 P2 P3] Hf [Hi Hat]. destruct platform.
  - subst. by rewrite P3.
  - destruct P3 as (c & [C1 C2 C3]). rewrite (C2 _ _ Hat) by lia. f_equal. lia.
Qed.

Lemma frame_at_user s f i x : frame_at s f i → same_user s (set_page (FRAME_PAGE + i) x s).
Proof.
  intros [Hi _]. split; [done..|]. intros n Hn. simpl.
  rewrite (proj2 (Z.eqb_neq _ _)); [done|]. intros ->. apply Hn. unfold in_cache. lia.
Qed.

Lemma cached_paged s c F :
  platform = ARTY → slots_wf (cache_slots s) → (∀ n, length (mem s n) = npage) →
  cached s c F → paged s F.
Proof. intros Hp W Hm C. split; [done..|]. rewrite Hp. by exists c. Qed.

(** Slot [i], whose frame if any is on the card as well, is given to [f]. *)
Lemma claim_slot s F c i f old :
  cached s c F → cache_slots s !! i = Some old → 0 ≤ f < NFRAMES → f ∉ cache_slots s →
  (0 ≤ old → card_page c old = F old) →
  cached (set_slots (<[i:=f]> (cache_slots s)) s) c
    (upd F f (mem s (FRAME_PAGE + Z.of_nat i))).
Proof.
  intros [C1 C2 C3] Hi Hf Hn Hold. split; simpl; [done|..]; unfold upd.
  - intros j g Hj Hg. apply list_lookup_insert_Some in Hj as [(<- & <- & _)|[Hij Hj]].
    + by rewrite Z.eqb_refl.
    + rewrite (proj2 (Z.eqb_neq _ _)); [by apply C2|]. intros ->. apply Hn.
      by eapply list_elem_of_lookup_2.
  - intros g Hg Hng. rewrite (proj2 (Z.eqb_neq _ _)).
    2:{ intros ->. apply Hng. eapply list_elem_of_lookup_2. apply list_lookup_insert_eq.
        by eapply lookup_lt_Some. }
    destruct (decide (g = old)) as [->|Hne]; [symmetry; apply Hold; lia|].
    apply C3; [done|]. intros Hin. apply list_elem_of_lookup_1 in Hin as [j Hj].
    apply Hng. apply (list_elem_of_lookup_2 _ j). rewrite list_lookup_insert_ne; [done|].
    intros ->. congruence.
Qed.

(** An Arty board has an SD card; [rand] is not negative. *)
Hypothesis Htype : platform = ARTY → type = SD_CARD.
Hypothesis Hrnd : ∀ n, 0 ≤ rnd n.

Lemma returns_on_disk {A} (m : M D A) s (Q : A → mmu D → Prop) :
  returns m (pdisk s) (λ a d,
    Q a (Mmu (ftable s) (curr_vm_pid s) (cache_slots s) (mem s) d (nrand s))) →
  returns (on_disk m) s Q.
Proof. intros (a & d & E & HQ). exists a, (Mmu (ftable s) (curr_vm_pid s) (cache_slots s) (mem s) d (nrand s)).
  unfold on_disk. by rewrite E. Qed.

Lemma page_blocks f :
  0 ≤ f < NFRAMES →
  0 ≤ f * NBLOCKS_PER_PAGE ∧ f * NBLOCKS_PER_PAGE + NBLOCKS_PER_PAGE ≤ DISK_BLOCKS.
Proof.
  change NBLOCKS_PER_PAGE with 8. change DISK_BLOCKS with 8192. unfold NFRAMES. lia.
Qed.

Lemma write_page c d f x :
  platform = ARTY → sd_holds d c → 0 ≤ f < NFRAMES → length x = npage →
  returns (earth_disk_write sd type (f * NBLOCKS_PER_PAGE) NBLOCKS_PER_PAGE x) d (λ _ d',
    ∃ c', sd_holds d' c' ∧ card_page c' f = x ∧ ∀ g, g ≠ f → card_page c' g = card_page c g).
Proof using Htype.
  intros Hp Hs Hf Hx. destruct (page_blocks f Hf) as [B1 B2].
  destruct (sdwrite_loop_spec sd 8 d c (f * NBLOCKS_PER_PAGE) 0 x)
    as (d' & c' & E & Hs' & Hc'); [done|lia|done|rewrite Z.add_0_r; exact B2|by rewrite Hx|].
  unfold earth_disk_write. rewrite Htype by done. exists 0, d'. split; [by mrun E|].
  change NBLOCKS_PER_PAGE with 8 in *. exists c'. split; [done|]. split.
  - apply card_page_written; [done|]. change NBLOCKS_PER_PAGE with 8. intros b Hb.
    by rewrite Hc', decide_True by lia.
  - intros g Hg. apply card_page_ext. change NBLOCKS_PER_PAGE with 8. intros b Hb.
    rewrite Hc', decide_False; [done|lia].
Qed.

Lemma read_page c d f :
  platform = ARTY → sd_holds d c → 0 ≤ f < NFRAMES →
  returns (earth_disk_read sd rom type (f * NBLOCKS_PER_PAGE) NBLOCKS_PER_PAGE) d (λ r d',
    r = (0, card_page c f) ∧ sd_holds d' c).
Proof using Htype.
  intros Hp Hs Hf. destruct (page_blocks f Hf) as [B1 B2].
  destruct (sdread_loop_spec sd 8 d c (f * NBLOCKS_PER_PAGE) 0) as (d' & E & Hs');
    [done|lia|done|rewrite Z.add_0_r; exact B2|].
  unfold earth_disk_read. rewrite Htype by done. exists (0, card_page c f), d'. split; [|done].
  unfold sdread. change (Z.to_nat NBLOCKS_PER_PAGE) with 8%nat. mrun E.
  unfold card_page. by rewrite Z.add_0_r.
Qed.

Lemma evict_index n : 0 ≤ Z.rem (rnd n) ARTY_CACHED_NFRAMES < ARTY_CACHED_NFRAMES.
Proof using Hrnd.
  rewrite Z.rem_mod_nonneg by (done || apply Hrnd). by apply Z.mod_pos_bound.
Qed.

(** Nothing changes but the card and the random numbers. *)
Record same_but_disk s s' : Prop := {
  sb_table : ftable s' = ftable s;
  sb_curr : curr_vm_pid s' = curr_vm_pid s;
  sb_slots : cache_slots s' = cache_slots s;
  sb_mem : mem s' = mem s;
}.

Lemma cache_eviction_spec s F :
  platform = ARTY → paged s F → full (cache_slots s) →
  returns (cache_eviction sd type rnd) s (λ i s', ∃ c old,
    0 ≤ i < ARTY_CACHED_NFRAMES ∧ same_but_disk s s' ∧ cached s' c F ∧
    cache_slots s' !! Z.to_nat i = Some old ∧ (0 ≤ old → card_page c old = F old)).
Proof using Htype Hrnd.
  intros Hp [P1 P2 P3] Hfull. rewrite Hp in P3. destruct P3 as (c & [C1 C2 C3]).
  unfold cache_eviction. apply returns_bind. eexists _, _. split; [reflexivity|].
  pose proof (evict_index (nrand s)) as Hidx. set (idx := Z.rem _ _) in *.
  apply returns_bind, returns_gets, returns_bind. cbn [cache_slots].
  assert (Hl : 0 ≤ idx < Z.of_nat (length (cache_slots s))).
  { rewrite (sw_len _ P1). exact Hidx. }
  eexists _, _. split; [by apply arr_get_eq|].
  destruct (lookup_lt_is_Some_2 (cache_slots s) (Z.to_nat idx)) as [old Hold]; [lia|].
  rewrite (list_lookup_total_correct _ _ _ Hold).
  assert (Hr : 0 ≤ old < NFRAMES).
  { destruct (sw_range _ P1 _ _ Hold) as [->|]; [|done]. destruct Hfull.
    by eapply list_elem_of_lookup_2. }
  apply returns_bind, returns_gets, returns_bind, returns_on_disk. cbn [pdisk mem].
  rewrite frame_addr. eapply returns_mono; [by apply (write_page c)|cbv beta].
  intros rc d' (c' & S' & Hw & Hoth). apply returns_ret. exists c', old.
  assert (Hd : card_page c' old = F old) by (rewrite Hw, (C2 _ _ Hold) by lia; f_equal; lia).
  split; [done|]. split; [done|]. split; [|done]. split; simpl; [done|done|].
  intros f Hf Hn. rewrite C3, Hoth by (done || (intros ->; apply Hn; by eapply list_elem_of_lookup_2)).
  done.
Qed.
(** A page is stored at frame [f]'s place. *)
Lemma put_spec s F f i x :
  paged s F → 0 ≤ f < NFRAMES → frame_at s f i → length x = npage →
  returns (store_page (pages_start + PAGE_SIZE * i) x) s (λ _ s',
    paged s' (upd F f x) ∧ same_user s s' ∧ cache_slots s' = cache_slots s).
Proof.
  intros P Hf Hat Hx. apply returns_modify. rewrite frame_addr.
  split; [by apply frame_at_put|]. split; [by eapply frame_at_user|done].
Qed.

Lemma slot_frame_at s f i :
  platform = ARTY → slots_wf (cache_slots s) → 0 ≤ i → cache_slots s !! Z.to_nat i = Some f →
  frame_at s f i.
Proof.
  intros Hp W Hi Hl. unfold frame_at. rewrite Hp. split; [|done].
  apply lookup_lt_Some in Hl. rewrite (sw_len _ W) in Hl.
  unfold nslot, ARTY_CACHED_NFRAMES, NFRAMES in *. lia.
Qed.

Lemma set_slot_spec s i f :
  slots_wf (cache_slots s) → 0 ≤ i < ARTY_CACHED_NFRAMES →
  returns (set_slot i f) s (λ _ s',
    s' = set_slots (<[Z.to_nat i:=f]> (cache_slots s)) s).
Proof.
  intros W Hi. unfold set_slot. apply returns_bind, returns_gets, returns_bind.
  eexists _, _. split; [apply arr_set_eq; rewrite (sw_len _ W); exact Hi|].
  by apply returns_modify.
Qed.

Lemma full_insert (l : list Z) i f : full l → f ≠ -1 → full (<[i:=f]> l).
Proof.
  unfold full. intros Hl Hf Hin. apply list_elem_of_lookup_1 in Hin as [j Hj].
  apply list_lookup_insert_Some in Hj as [(_ & ? & _)|[_ Hj]]; [done|].
  apply Hl. by eapply list_elem_of_lookup_2.
Qed.

Lemma slot_step_insert (l : list Z) i f old :
  l !! i = Some old → f ∉ l → f ≠ -1 → full l ∨ old = -1 → slot_step f l (<[i:=f]> l).
Proof.
  intros Hl Hn Hf Hor. split; [intros; by apply full_insert|done|].
  intros g Hnf Hg Hin. destruct Hor as [?| ->]; [done|].
  apply list_elem_of_lookup_1 in Hin as [j Hj]. apply (list_elem_of_lookup_2 _ j).
  rewrite list_lookup_insert_ne; [done|]. intros <-. congruence.
Qed.

(** Slot [i] is given to frame [f], which is not in the cache. *)
Record claimed s F (c : gmap Z block) (i f : Z) s' : Prop := {
  cl_slots : slots_wf (cache_slots s');
  cl_cached : cached s' c (upd F f (mem s (FRAME_PAGE + i)));
  cl_user : same_user s s';
  cl_mem : mem s' = mem s;
  cl_at : frame_at s' f i;
  cl_step : slot_step f (cache_slots s) (cache_slots s');
}.

Lemma claim_spec s F c i f old :
  platform = ARTY → slots_wf (cache_slots s) →
  cached s c F → 0 ≤ i < ARTY_CACHED_NFRAMES → cache_slots s !! Z.to_nat i = Some old →
  0 ≤ f < NFRAMES → f ∉ cache_slots s → (0 ≤ old → card_page c old = F old) →
  full (cache_slots s) ∨ old = -1 →
  returns (set_slot i f) s (λ _ s', claimed s F c i f s').
Proof.
  intros Hp W C Hi Hl Hf Hn Hold Hor. eapply returns_mono; [by apply set_slot_spec|cbv beta].
  intros _ s' ->.
  assert (W' : slots_wf (<[Z.to_nat i:=f]> (cache_slots s))) by (by apply slots_wf_insert).
  split; try done.
  - replace i with (Z.of_nat (Z.to_nat i)) at 2 by lia. by eapply claim_slot.
  - apply slot_frame_at; [done..|lia|]. apply list_lookup_insert_eq. by eapply lookup_lt_Some.
  - eapply slot_step_insert; [done..|lia|done].
Qed.

(** [upd] twice at the same frame. *)
Lemma paged_upd2 s F f x y : paged s (upd (upd F f x) f y) → paged s (upd F f y).
Proof. apply paged_ext. intros g _. unfold upd. by destruct (g =? f). Qed.

Lemma paging_write_spec s F f n :
  paged s F → 0 ≤ f < NFRAMES → 0 ≤ n < 2 ^ 20 →
  platform = QEMU ∨ full (cache_slots s) ∨ f ∈ cache_slots s →
  returns (paging_write platform sd type rnd f n) s (λ _ s',
    paged s' (upd F f (mem s n)) ∧ same_user s s' ∧
    slot_step f (cache_slots s) (cache_slots s')).
Proof using Htype Hrnd.
  intros P Hf Hn Hok. unfold paging_write. apply returns_bind, returns_gets.
  rewrite page_addr by done. pose proof (pg_mem _ _ P n) as Hlen.
  destruct (decide (platform = QEMU)) as [Hp|Hp].
  - assert (Hat : frame_at s f f) by (unfold frame_at; by rewrite Hp).
    rewrite Hp at 1. rewrite (Z.mul_comm f). eapply returns_mono; [by apply put_spec|cbv beta].
    intros _ s' (H1 & H2 & ->). by split.
  - assert (Hp' : platform = ARTY) by (by destruct platform). rewrite Hp' at 1.
    apply returns_bind, returns_gets. pose proof (find_slot_spec (cache_slots s) 0 f) as Hfs.
    destruct (find_slot (cache_slots s) 0 f) as [i|].
    + destruct Hfs as [Hi Hl]. rewrite Z.sub_0_r in Hl.
      assert (Hat : frame_at s f i) by (apply slot_frame_at; (done || apply P)).
      eapply returns_mono; [by apply put_spec|cbv beta]. intros _ s' (H1 & H2 & ->). by split.
    + destruct Hok as [?|[Hfull|?]]; [done| |done]. apply returns_bind.
      eapply returns_mono; [by apply cache_eviction_spec|cbv beta].
      intros i s1 (c & old & Hi & [B1 B2 B3 B4] & C & Hl & Hold). apply returns_bind.
      eapply returns_mono; [apply (claim_spec s1 F c i f old); try done; rewrite B3; (done || (by left) || apply P)|cbv beta].
      intros _ s2 [W2 C2 [U1 U2 U3] M2 Hat Hfu]. rewrite B3 in *.
      apply returns_bind, returns_gets. rewrite page_addr, M2, B4 by done.
      assert (P2 : paged s2 (upd F f (mem s1 (FRAME_PAGE + i)))).
      { apply (cached_paged _ c); [done..| |done]. rewrite M2, B4. apply P. }
      eapply returns_mono; [by eapply put_spec|cbv beta]. intros _ s3 (P3 & [V1 V2 V3] & ->).
      split; [by eapply paged_upd2|]. split; [split; try congruence|done].
      intros m Hm. rewrite V3, U3 by done. by rewrite B4.
Qed.

(** Frame [f] is read: it is in memory afterwards, at [a]; with [alloc_only] its
    old contents are lost. *)
Record read_post s F (f : Z) (alloc_only : bool) (a : Z) s' F' : Prop := {
  rp_paged : paged s' F';
  rp_other g : 0 ≤ g < NFRAMES → g ≠ f → F' g = F g;
  rp_data : alloc_only = false → F' f = F f;
  rp_user : same_user s s';
  rp_slots : slot_step f (cache_slots s) (cache_slots s');
  rp_at : ∃ i, a = pages_start + PAGE_SIZE * i ∧ frame_at s' f i;
}.

Lemma read_hit s F f i b :
  paged s F → frame_at s f i → read_post s F f b (pages_start + PAGE_SIZE * i) s F.
Proof. intros P Hat. split; try done. by exists i. Qed.

(** After slot [i] was given to [f]: the page is fetched, if it is wanted. *)
Definition fetch (f i : Z) (alloc_only : bool) : M (mmu D) Z :=
  _ ← (if alloc_only then mret tt
       else '(_, x) ← on_disk (earth_disk_read sd rom type (f * NBLOCKS_PER_PAGE)
                                 NBLOCKS_PER_PAGE);
            store_page (pages_start + PAGE_SIZE * i) x);
  mret (pages_start + PAGE_SIZE * i).

Lemma card_page_length c f :
  Store.disk_wf DISK_BLOCKS c → 0 ≤ f < NFRAMES → length (card_page c f) = npage.
Proof.
  intros Hc Hf. destruct (page_blocks f Hf) as [B1 B2]. unfold card_page.
  change npage with (Z.to_nat NBLOCKS_PER_PAGE * nbytes)%nat.
  assert (H : ∀ (l : list Z), Forall (λ b, 0 ≤ b < DISK_BLOCKS) l →
    length (l ≫= λ b, c !!! b) = (length l * nbytes)%nat).
  { induction 1 as [|b l Hb _ IH]; [done|]. rewrite bind_cons, length_app, IH.
    rewrite (Hc b Hb). done. }
  rewrite H; [by rewrite length_seqZ|]. apply Forall_forall. intros b Hb.
  apply elem_of_seqZ in Hb. lia.
Qed.

Lemma fetch_spec s F c f i (b : bool) s1 :
  platform = ARTY → (∀ n, length (mem s n) = npage) → 0 ≤ f < NFRAMES →
  f ∉ cache_slots s → cached s c F → claimed s F c i f s1 →
  returns (fetch f i b) s1 (λ a s', ∃ F', read_post s F f b a s' F').
Proof using Htype.
  intros Hp Hm Hf Hn C [W1 C1 U1 M1 A1 Hfu].
  assert (HF : F f = card_page c f) by (by apply C).
  assert (P1 : paged s1 (upd F f (mem s (FRAME_PAGE + i)))).
  { apply (cached_paged _ c); [done..| |done]. by rewrite M1. }
  assert (Ho : ∀ x g, 0 ≤ g < NFRAMES → g ≠ f → upd F f x g = F g).
  { intros x g _ Hg. unfold upd. by rewrite (proj2 (Z.eqb_neq _ _)). }
  destruct b; apply returns_bind.
  { apply returns_ret, returns_ret. eexists. split; [exact P1|by apply Ho|done|done|done|].
    by exists i. }
  apply returns_bind, returns_on_disk.
  eapply returns_mono; [apply (read_page c); [done|apply C1|done]|cbv beta].
  intros _ d [-> Hs']. set (s2 := Mmu _ _ _ _ _ _).
  assert (P2 : paged s2 (upd F f (mem s (FRAME_PAGE + i)))).
  { apply (cached_paged _ c); [done..|by rewrite <-M1 in Hm|]. by destruct C1. }
  eapply returns_mono; [apply (put_spec s2 (upd F f (mem s (FRAME_PAGE + i))) f i (card_page c f)); [exact P2|done|exact A1|]|cbv beta].
  { apply card_page_length; [|done]. eapply sd_wf. apply C. }
  intros _ s3 (P3 & U3 & E3). apply returns_ret. apply paged_upd2 in P3.
  eexists. split; [exact P3|by apply Ho| | |by rewrite E3|].
  - intros _. unfold upd. by rewrite Z.eqb_refl.
  - destruct U1 as [X1 X2 X3], U3 as [Y1 Y2 Y3].
    split; [by rewrite Y1|by rewrite Y2|]. intros n Hn'. by rewrite Y3, <-X3.
  - exists i. split; [done|]. destruct A1 as [A1 A2]. split; [done|]. by rewrite E3.
Qed.
Lemma paging_read_spec s F f b :
  paged s F → 0 ≤ f < NFRAMES →
  returns (paging_read platform sd rom type rnd f b) s (λ a s', ∃ F', read_post s F f b a s' F').
Proof using Htype Hrnd.
  intros P Hf. unfold paging_read. destruct (decide (platform = QEMU)) as [Hp|Hp].
  { assert (Hat : frame_at s f f) by (unfold frame_at; by rewrite Hp).
    rewrite Hp at 1. rewrite Z.mul_comm. apply returns_ret. exists F. by apply read_hit. }
  assert (Hp' : platform = ARTY) by (by destruct platform). rewrite Hp' at 1.
  apply returns_bind, returns_gets.
  pose proof (read_scan_spec (cache_slots s) 0 f (-1) ltac:(lia)) as Hsc.
  destruct (read_scan _ _ _ _) as [i|r].
  { destruct Hsc as [Hi Hl]. rewrite Z.sub_0_r in Hl. apply returns_ret. exists F.
    apply read_hit; [done|]. apply slot_frame_at; (done || apply P). }
  destruct Hsc as [Hn [[-> Hfull]|[Hr Hl]]]; simpl; apply returns_bind.
  - eapply returns_mono; [by apply cache_eviction_spec|cbv beta].
    intros i s1 (c & old & Hi & [B1 B2 B3 B4] & C & Hl & Hold). apply returns_bind.
    eapply returns_mono; [apply (claim_spec s1 F c i f old); try done; rewrite B3; (done || (by left) || apply P)|cbv beta].
    intros _ s2 Hcl. eapply returns_mono; [eapply (fetch_spec s1 F c f i b s2); try done|cbv beta].
    { rewrite B4. apply P. } { by rewrite B3. }
    intros a s' (F' & [R1 R2 R3 [U1 U2 U3] R5 R6]). exists F'. split; try done.
    + split; [congruence..|]. intros n Hcn. rewrite U3 by done. by rewrite B4.
    + by rewrite B3 in R5.
  - rewrite Z.sub_0_r in Hl. pose proof (lookup_lt_Some _ _ _ Hl) as Hlt.
    rewrite (sw_len _ (pg_slots _ _ P)) in Hlt.
    pose proof (pg_frames _ _ P) as HF. rewrite Hp' in HF. destruct HF as [c C].
    rewrite (proj2 (Z.eqb_neq r (-1))) by lia. apply returns_ret, returns_bind.
    eapply returns_mono; [apply (claim_spec s F c r f (-1)); try done; [apply P|unfold nslot in Hlt; lia|by right]|cbv beta].
    intros _ s2 Hcl. eapply (fetch_spec s F c f r b s2); try done. apply P.
Qed.
End paging.
