(* ===== verification/Mmu.v ===== *)
(** * The memory management unit

    The frame table and the software TLB of earth/cpu_mmu.c, on the paging
    device of Paging.v.  A process's pages are copied to their places in memory
    when the process is switched in and back to its frames when it is switched
    out. *)

From S2P Require Import Prelude Layout Blocks Ramdisk FsDisk Paging.

(** [earth->translation], chosen at boot. *)
Inductive translation_id := PAGE_TABLE | SOFT_TLB.

Definition no_mapping : frame_mapping := FrameMapping 0 0 0.
#[export] Instance frame_mapping_inhabited : Inhabited frame_mapping := populate no_mapping.

Section ops.
Context {D : Type} (platform : platform_id).
Context (sd : sd_driver D) (rom : Z → byte) (type : disk_type) (rnd : nat → Z).
Implicit Types s : mmu D.

(** [for (int i = 0; i < NFRAMES; i++) if (!table[i].use)] *)
Fixpoint first_unused (t : list frame_mapping) (i : Z) : option Z :=
  match t with
  | [] => None
  | m :: t => if use m =? 0 then Some i else first_unused t (i + 1)
  end.

Definition set_entry (i : Z) (m : frame_mapping) : M (mmu D) unit :=
  t ← gets ftable;
  t' ← arr_set t i m;
  modify (set_ftable t').

(** The frame and the address where it is cached. *)
Definition mmu_alloc : M (mmu D) (Z * Z) :=
  t ← gets ftable;
  match first_unused t 0 with
  | Some i =>
      cached_addr ← paging_read platform sd rom type rnd i true;
      t ← gets ftable;
      m ← arr_get t i;
      _ ← set_entry i (FrameMapping 1 (fpid m) (page_no m));
      mret (i, cached_addr)
  | None => fatal "mmu_alloc: no more available frames"
  end.

Fixpoint free_loop (pid : Z) (n : nat) (i : Z) : M (mmu D) unit :=
  match n with
  | O => mret tt
  | S n =>
      t ← gets ftable;
      m ← arr_get t i;
      _ ← (if negb (use m =? 0) && (fpid m =? pid) then
             _ ← paging_invalidate_cache i; set_entry i no_mapping
           else mret tt);
      free_loop pid n (i + 1)
  end.
Definition mmu_free (pid : Z) : M (mmu D) unit := free_loop pid (Z.to_nat NFRAMES) 0.

Definition soft_tlb_map (pid page_no frame_id : Z) : M (mmu D) unit :=
  t ← gets ftable;
  m ← arr_get t frame_id;
  set_entry frame_id (FrameMapping (use m) pid page_no).

(** The two loops of [soft_tlb_switch]. *)
Fixpoint unmap_loop (n : nat) (i : Z) : M (mmu D) unit :=
  match n with
  | O => mret tt
  | S n =>
      t ← gets ftable;
      m ← arr_get t i;
      curr ← gets curr_vm_pid;
      _ ← (if negb (use m =? 0) && (fpid m =? curr)
           then paging_write platform sd type rnd i (page_no m) else mret tt);
      unmap_loop n (i + 1)
  end.

Fixpoint map_loop (pid : Z) (n : nat) (i : Z) : M (mmu D) unit :=
  match n with
  | O => mret tt
  | S n =>
      t ← gets ftable;
      m ← arr_get t i;
      _ ← (if negb (use m =? 0) && (fpid m =? pid) then
             a ← paging_read platform sd rom type rnd i false;
             x ← load_page a;
             store_page (u32 (Z.shiftl (page_no m) 12)) x
           else mret tt);
      map_loop pid n (i + 1)
  end.

Definition soft_tlb_switch (pid : Z) : M (mmu D) unit :=
  curr ← gets curr_vm_pid;
  if pid =? curr then mret tt
  else
    _ ← unmap_loop (Z.to_nat NFRAMES) 0;
    _ ← map_loop pid (Z.to_nat NFRAMES) 0;
    modify (set_vm_pid pid).

Definition page_table_map (pid page_no frame_id : Z) : M (mmu D) unit :=
  if 32 <=? pid then fatal "page_table_map: pid too large"
  else soft_tlb_map pid page_no frame_id.

Definition page_table_switch (pid : Z) : M (mmu D) unit := soft_tlb_switch pid.
End ops.
