(* ===== verification/MmuOps.v ===== *)
(** * Address spaces

    The effect of the operations of Mmu.v on what the processes own: [owned s F
    q n x] says that [x] is the page of process [q] at page number [n], in
    memory if [q] is switched in and else in its frame on the paging device. *)

From S2P Require Import Prelude Layout Blocks Ramdisk FsDisk Paging PagingOps Mmu.

(** The number of frames that are not in use. *)
Definition nfree (t : list frame_mapping) : nat := length (filter (λ m, use m = 0) t).

Lemma nfree_insert t i m m' :
  t !! i = Some m →
  (nfree (<[i:=m']> t) + (if decide (use m = 0%Z) then 1 else 0) =
   nfree t + (if decide (use m' = 0%Z) then 1 else 0))%nat.
Proof.
  intros Hi. unfold nfree. rewrite insert_take_drop by (by eapply lookup_lt_Some).
  rewrite <-(take_drop_middle t i m Hi) at 3.
  rewrite !filter_app, !filter_cons, !length_app. repeat case_decide; simpl; lia.
Qed.

Lemma nfree_pos t : (0 < nfree t)%nat → ∃ m, m ∈ t ∧ use m = 0.
Proof.
  unfold nfree. intros H. destruct (filter (λ m, use m = 0) t) as [|m l] eqn:E; [simpl in H; lia|].
  exists m. assert (Hm : m ∈ filter (λ m, use m = 0) t) by (rewrite E; left).
  by apply list_elem_of_filter in Hm as [? ?].
Qed.

Section spaces.
Context {D : Type} (platform : platform_id).
Context (sd : sd_driver D) (rom : Z → byte) (type : disk_type) (rnd : nat → Z).
Context `{!SdCard sd DISK_BLOCKS}.
Implicit Types s : mmu D.
Implicit Types F : Z → page.

(** Frame [i] is process [q]'s page [n]. *)
Definition maps (t : list frame_mapping) (i q n : Z) : Prop :=
  ∃ m, 0 ≤ i ∧ t !! Z.to_nat i = Some m ∧ use m ≠ 0 ∧ fpid m = q ∧ page_no m = n.

(** Pages of processes are outside the frame cache, and a process has at most
    one frame for a page.  Frames with pid 0 are in use but not mapped. *)
Record table_ok (t : list frame_mapping) : Prop := {
  to_len : length t = Z.to_nat NFRAMES;
  to_page i q n : maps t i q n → q ≠ 0 → 0 ≤ n < 2 ^ 20 ∧ ¬ in_cache n;
  to_uniq i j q n : maps t i q n → maps t j q n → q ≠ 0 → i = j;
  to_unused i m : t !! i = Some m → use m = 0 → m = no_mapping;
}.

Record mmu_wf s F : Prop := {
  mw_paged : paged platform sd s F;
  mw_table : table_ok (ftable s);
  mw_curr : curr_vm_pid s ≠ 0;
}.

(** What the device needs so that eviction never meets an empty slot. *)
Definition ready s : Prop :=
  platform = QEMU ∨ full (cache_slots s) ∨
  ∀ i q n, maps (ftable s) i q n → i ∈ cache_slots s.

(** The page of process [q] at page number [n]: in memory when [q] is switched
    in, else in its frame. *)
Definition owned s F (q n : Z) (x : page) : Prop :=
  ∃ i, maps (ftable s) i q n ∧ x = if q =? curr_vm_pid s then mem s n else F i.

Lemma maps_range t i q n : table_ok t → maps t i q n → 0 ≤ i < NFRAMES.
Proof.
  intros T (m & Hi & Hl & _). apply lookup_lt_Some in Hl. rewrite (to_len _ T) in Hl. lia.
Qed.

Lemma table_get t i s :
  table_ok t → 0 ≤ i < NFRAMES → arr_get t i s = Ret (t !!! Z.to_nat i) s.
Proof. intros T Hi. apply arr_get_eq. rewrite (to_len _ T). unfold NFRAMES in *. lia. Qed.

(** The test of both loops. *)
Lemma maps_test t i q :
  table_ok t → 0 ≤ i < NFRAMES →
  if negb (use (t !!! Z.to_nat i) =? 0) && (fpid (t !!! Z.to_nat i) =? q)
  then maps t i q (page_no (t !!! Z.to_nat i))
  else ∀ n, ¬ maps t i q n.
Proof.
  intros T Hi. assert (Hl : t !! Z.to_nat i = Some (t !!! Z.to_nat i)).
  { apply list_lookup_lookup_total_lt. rewrite (to_len _ T). unfold NFRAMES in *. lia. }
  destruct (Z.eqb_spec (use (t !!! Z.to_nat i)) 0) as [Hu|Hu]; simpl.
  { intros n (m & _ & Hm & Hu' & _). rewrite Hl in Hm. by injection Hm as <-. }
  destruct (Z.eqb_spec (fpid (t !!! Z.to_nat i)) q) as [Hq|Hq].
  - eexists. split_and!; [lia|exact Hl|done..].
  - intros n (m & _ & Hm & _ & Hq' & _). rewrite Hl in Hm. by injection Hm as <-.
Qed.

Lemma ready_step s s' f q n :
  ready s → maps (ftable s) f q n → ftable s' = ftable s →
  slot_step f (cache_slots s) (cache_slots s') → ready s'.
Proof.
  intros [Hq|[Hf|Ha]] Hm Ht [S1 S2 _]; [by left|by right; left; apply S1|].
  right. right. rewrite Ht, S2; [exact Ha|]. by eapply Ha.
Qed.

(** A page outside the frame cache is not part of the device. *)
Lemma store_user s F n x :
  paged platform sd s F → ¬ in_cache n → length x = npage →
  paged platform sd (set_page n x s) F.
Proof.
  intros [P1 P2 P3] Hn Hx. split; simpl; [done|intros m; by destruct (m =? n)|].
  assert (Hne : ∀ f, 0 ≤ f < NFRAMES → (FRAME_PAGE + f =? n) = false).
  { intros f Hf. apply Z.eqb_neq. intros <-. apply Hn. unfold in_cache. lia. }
  destruct platform.
  - intros f Hf. by rewrite Hne, P3.
  - destruct P3 as (c & [C1 C2 C3]). exists c. split; simpl; [done| |done].
    intros i f Hi Hf. rewrite Hne; [by apply C2|].
    apply lookup_lt_Some in Hi. rewrite (sw_len _ P1) in Hi.
    unfold nslot, ARTY_CACHED_NFRAMES, NFRAMES in *. lia.
Qed.

(** Nor are the table and the current process. *)
Lemma paged_same s s' F :
  paged platform sd s F → cache_slots s' = cache_slots s → mem s' = mem s → pdisk s' = pdisk s →
  paged platform sd s' F.
Proof.
  intros [P1 P2 P3] E1 E2 E3. split; [by rewrite E1|by rewrite E2|].
  destruct platform; [by rewrite E2|]. destruct P3 as (c & [C1 C2 C3]). exists c.
  by split; [rewrite E3|rewrite E1, E2|rewrite E1].
Qed.

(** ** Switching *)

Hypothesis Htype : platform = ARTY → type = SD_CARD.
Hypothesis Hrnd : ∀ n, 0 ≤ rnd n.

(** The first loop, over frames [i], ..., [i + n - 1]: they get the pages in
    memory. *)
Record unmapped s F (i : Z) (n : nat) s' F' : Prop := {
  um_paged : paged platform sd s' F';
  um_user : same_user s s';
  um_ready : ready s';
  um_in g p : i ≤ g < i + Z.of_nat n → maps (ftable s) g (curr_vm_pid s) p → F' g = mem s p;
  um_out g : 0 ≤ g < NFRAMES →
    g < i ∨ i + Z.of_nat n ≤ g ∨ (∀ p, ¬ maps (ftable s) g (curr_vm_pid s) p) → F' g = F g;
}.

Lemma unmap_step s F i :
  mmu_wf s F → ready s → 0 ≤ i < NFRAMES →
  let m := ftable s !!! Z.to_nat i in
  returns (if negb (use m =? 0) && (fpid m =? curr_vm_pid s)
           then paging_write platform sd type rnd i (page_no m) else mret tt) s
    (λ _ s', ∃ F', unmapped s F i 1 s' F').
Proof using Htype Hrnd.
  intros [P T C] R Hi m. pose proof (maps_test (ftable s) i (curr_vm_pid s) T Hi) as Ht.
  fold m in Ht. destruct (negb _ && _).
  - destruct (to_page _ T _ _ _ Ht C) as [Hn _].
    eapply returns_mono; [apply (paging_write_spec platform sd type rnd Htype Hrnd s F); try done|].
    { destruct R as [?|[?|Ha]]; [by left|by right; left|right; right; by eapply Ha]. }
    intros _ s' (P' & U & S). eexists. split; [exact P'|done|..].
    + eapply ready_step; [done|exact Ht|apply U|done].
    + intros g p Hg Hm. assert (g = i) as -> by lia. unfold upd. rewrite Z.eqb_refl.
      destruct Ht as (m1 & _ & L1 & _ & _ & <-), Hm as (m2 & _ & L2 & _ & _ & <-). congruence.
    + intros g Hg Ho. unfold upd. destruct (Z.eqb_spec g i) as [->|]; [|done].
      destruct Ho as [?|[?|Ho]]; [lia..|]. by destruct (Ho (page_no m)).
  - apply returns_ret. exists F. split; try done.
    intros g p Hg Hm. assert (g = i) as -> by lia. by destruct (Ht p).
Qed.

Lemma unmapped_trans s F i n s1 F1 s2 F2 :
  table_ok (ftable s) → curr_vm_pid s ≠ 0 → 0 ≤ i → i + Z.of_nat (S n) ≤ NFRAMES →
  unmapped s F i 1 s1 F1 → unmapped s1 F1 (i + 1) n s2 F2 → unmapped s F i (S n) s2 F2.
Proof.
  intros T C Hi Hn [P1 [U1 U2 U3] R1 I1 O1] [P2 [V1 V2 V3] R2 I2 O2].
  rewrite U1, U2 in *.
  split; [done|split; [congruence..|]|done|..].
  - intros m Hm. by rewrite V3, U3.
  - intros g p Hg Hm. destruct (decide (g = i)) as [->|Hne].
    + rewrite O2 by lia. apply I1; [lia|done].
    + rewrite (I2 g p) by (done || lia). apply U3. by eapply (to_page _ T).
  - intros g Hg Ho. rewrite O2, O1; [done|done| |done|]; destruct Ho as [?|[?|?]];
      [by left|by right; left; lia|by right; right|left; lia|right; left; lia|by right; right].
Qed.

Lemma unmap_loop_spec n : ∀ s F i,
  mmu_wf s F → ready s → 0 ≤ i → i + Z.of_nat n ≤ NFRAMES →
  returns (unmap_loop platform sd type rnd n i) s (λ _ s', ∃ F', unmapped s F i n s' F').
Proof using Htype Hrnd.
  induction n as [|n IH]; intros s F i W R Hi Hn; cbn [unmap_loop].
  - apply returns_ret. exists F. split; try done; [apply W|]. intros g p Hg. lia.
  - apply returns_bind, returns_gets, returns_bind.
    eexists _, _. split; [apply table_get; [apply W|lia]|].
    apply returns_bind, returns_gets, returns_bind.
    eapply returns_mono; [apply (unmap_step s F i W R); lia|cbv beta].
    intros _ s1 (F1 & H1). eapply returns_mono; [apply (IH s1 F1 (i + 1)); [|apply H1|lia|lia]|cbv beta].
    { destruct H1 as [P1 [U1 U2 _] _ _ _], W as [_ T C]. split; [done|by rewrite U1|by rewrite U2]. }
    intros _ s2 (F2 & H2). exists F2. eapply unmapped_trans; [apply W|apply W|done..].
Qed.
(** The second loop: memory gets the pages of process [q]. *)
Record mapped (q : Z) s F (i : Z) (n : nat) s' : Prop := {
  mp_paged : paged platform sd s' F;
  mp_table : ftable s' = ftable s;
  mp_curr : curr_vm_pid s' = curr_vm_pid s;
  mp_ready : ready s';
  mp_in g p : i ≤ g < i + Z.of_nat n → maps (ftable s) g q p → mem s' p = F g;
  mp_out p : ¬ in_cache p → (∀ g, i ≤ g < i + Z.of_nat n → ¬ maps (ftable s) g q p) →
    mem s' p = mem s p;
}.

Lemma map_step q s F i :
  mmu_wf s F → ready s → q ≠ 0 → 0 ≤ i < NFRAMES →
  let m := ftable s !!! Z.to_nat i in
  returns (if negb (use m =? 0) && (fpid m =? q) then
             a ← paging_read platform sd rom type rnd i false;
             x ← load_page a;
             store_page (u32 (Z.shiftl (page_no m) 12)) x
           else mret tt) s (λ _ s', mapped q s F i 1 s').
Proof using Htype Hrnd.
  intros [P T C] R Hq Hi m. pose proof (maps_test (ftable s) i q T Hi) as Ht.
  fold m in Ht. destruct (negb _ && _).
  - destruct (to_page _ T _ _ _ Ht Hq) as [Hn Hc]. apply returns_bind.
    eapply returns_mono; [by apply (paging_read_spec platform sd rom type rnd Htype Hrnd s F)|cbv beta].
    intros a s1 (F1 & [P1 O1 D1 [U1 U2 U3] S1 (k & -> & A1)]). specialize (D1 eq_refl).
    assert (Hd : mem s1 (FRAME_PAGE + k) = F i) by (rewrite <-D1; by eapply frame_at_data).
    assert (P1' : paged platform sd s1 F).
    { apply (paged_ext platform sd s1 F1 F); [|exact P1]. intros f Hf. destruct (decide (f = i)) as [->|]; [done|].
      symmetry. by apply O1. }
    apply returns_bind, returns_gets, returns_modify. rewrite frame_addr, page_addr, Hd by done.
    split; simpl; [|done|done|..].
    + apply store_user; [done..|]. rewrite <-Hd. apply P1.
    + eapply (ready_step s); [done|exact Ht|done|done].
    + intros g p Hg Hm. assert (g = i) as -> by lia.
      destruct Ht as (m1 & _ & L1 & _ & _ & E1), Hm as (m2 & _ & L2 & _ & _ & <-).
      rewrite (proj2 (Z.eqb_eq _ _)); [done|congruence].
    + intros p Hp Hno. rewrite (proj2 (Z.eqb_neq _ _)); [by apply U3|].
      intros ->. by apply (Hno i); [lia|].
  - apply returns_ret. split; try done.
    intros g p Hg Hm. assert (g = i) as -> by lia. by destruct (Ht p).
Qed.

Lemma mapped_trans q s F i n s1 s2 :
  table_ok (ftable s) → q ≠ 0 → mapped q s F i 1 s1 → mapped q s1 F (i + 1) n s2 →
  mapped q s F i (S n) s2.
Proof.
  intros T Hq [P1 T1 C1 R1 I1 O1] [P2 T2 C2 R2 I2 O2]. rewrite T1 in *.
  split; [done|congruence|congruence|done|..].
  - intros g p Hg Hm. destruct (decide (g = i)) as [->|Hne]; [|apply I2; [lia|done]].
    rewrite O2; [apply I1; [lia|done]|by eapply (to_page _ T)|].
    intros g Hg' Hm'. pose proof (to_uniq _ T _ _ _ _ Hm Hm' Hq). lia.
  - intros p Hp Hno. rewrite O2, O1; [done|done| |done|]; intros g Hg; apply Hno; lia.
Qed.

Lemma map_loop_spec q n : ∀ s F i,
  mmu_wf s F → ready s → q ≠ 0 → 0 ≤ i → i + Z.of_nat n ≤ NFRAMES →
  returns (map_loop platform sd rom type rnd q n i) s (λ _ s', mapped q s F i n s').
Proof using Htype Hrnd.
  induction n as [|n IH]; intros s F i W R Hq Hi Hn; cbn [map_loop].
  - apply returns_ret. split; try done; [apply W|]. intros g p Hg. lia.
  - apply returns_bind, returns_gets, returns_bind.
    eexists _, _. split; [apply table_get; [apply W|lia]|]. apply returns_bind.
    eapply returns_mono; [apply (map_step q s F i W R Hq); lia|cbv beta].
    intros _ s1 H1. eapply returns_mono; [apply (IH s1 F (i + 1)); [|apply H1|done|lia|lia]|cbv beta].
    { destruct H1 as [P1 U1 U2 _ _ _], W as [_ T C]. split; [done|by rewrite U1|by rewrite U2]. }
    intros _ s2 H2. eapply mapped_trans; [apply W|done..].
Qed.

(** Switching to [q]: every page of every process is as it was. *)
Lemma soft_tlb_switch_spec q s F :
  mmu_wf s F → ready s → q ≠ 0 →
  returns (soft_tlb_switch platform sd rom type rnd q) s (λ _ s', ∃ F',
    mmu_wf s' F' ∧ ready s' ∧ ftable s' = ftable s ∧ curr_vm_pid s' = q ∧
    (∀ r n x, r ≠ 0 → owned s F r n x → owned s' F' r n x) ∧
    (∀ n, ¬ in_cache n → (∀ i, ¬ maps (ftable s) i q n) → mem s' n = mem s n) ∧
    ∀ g, 0 ≤ g < NFRAMES → (∀ p, ¬ maps (ftable s) g (curr_vm_pid s) p) → F' g = F g).
Proof using Htype Hrnd.
  intros W R Hq. unfold soft_tlb_switch. apply returns_bind, returns_gets.
  destruct (Z.eqb_spec q (curr_vm_pid s)) as [->|Hne]; [apply returns_ret; by exists F|].
  apply returns_bind. eapply returns_mono; [by apply (unmap_loop_spec _ s F 0)|cbv beta].
  intros _ s1 (F1 & [P1 [T1 C1 M1] R1 I1 O1]). pose proof (mw_table _ _ W) as T.
  assert (W1 : mmu_wf s1 F1) by (destruct W; split; [done|by rewrite T1|by rewrite C1]).
  apply returns_bind. eapply returns_mono; [by apply (map_loop_spec q _ s1 F1 0)|cbv beta].
  intros _ s2 [P2 T2 C2 R2 I2 O2]. rewrite T1 in *. apply returns_modify. exists F1.
  split; [split; simpl; [by eapply paged_same|by rewrite T2|done]|].
  split; [exact R2|]. split; [done|]. split; [done|]. split; [|split].
  - intros r n x Hr (i & Hm & ->). pose proof (maps_range _ _ _ _ T Hm) as Hi.
    exists i. simpl. rewrite T2. split; [done|].
    destruct (Z.eqb_spec r (curr_vm_pid s)) as [->|Hrc].
    + rewrite (proj2 (Z.eqb_neq _ _)) by done. symmetry. apply I1; [exact Hi|done].
    + destruct (Z.eqb_spec r q) as [->|Hrq].
      * rewrite (I2 i n) by done. symmetry. apply O1; [done|]. right. right.
        intros p Hm'. destruct Hm as (m & _ & L & _ & <- & _), Hm' as (m' & _ & L' & _ & E & _).
        congruence.
      * symmetry. apply O1; [done|]. right. right.
        intros p Hm'. destruct Hm as (m & _ & L & _ & <- & _), Hm' as (m' & _ & L' & _ & E & _).
        congruence.
  - intros n Hn Hno. simpl. rewrite O2; [by apply M1|done|]. intros g _. by apply Hno.
  - intros g Hg Hno. apply O1; auto.
Qed.

(** The current process writes one of its pages. *)
Lemma store_owned s F n x :
  mmu_wf s F → (∃ i, maps (ftable s) i (curr_vm_pid s) n) → length x = npage →
  mmu_wf (set_page n x s) F ∧
  ∀ r m y, r ≠ 0 → owned s F r m y →
    owned (set_page n x s) F r m (if (r =? curr_vm_pid s) && (m =? n) then x else y).
Proof using Type.
  intros [P T C] [i Hm] Hx. destruct (to_page _ T _ _ _ Hm C) as [_ Hc].
  split; [by split; [apply store_user|..]|].
  intros r m y Hr (j & Hj & ->). exists j. split; [done|]. simpl.
  destruct (r =? curr_vm_pid s); [|done]. by destruct (m =? n).
Qed.

(** ** Frames *)

Lemma first_unused_spec t : ∀ i,
  match first_unused t i with
  | Some j => i ≤ j ∧ ∃ m, t !! Z.to_nat (j - i) = Some m ∧ use m = 0 ∧
      ∀ k m', (k < Z.to_nat (j - i))%nat → t !! k = Some m' → use m' ≠ 0
  | None => ∀ m, m ∈ t → use m ≠ 0
  end.
Proof using Type.
  induction t as [|m t IH]; intros i; simpl.
  { intros m Hm. by apply elem_of_nil in Hm. }
  destruct (Z.eqb_spec (use m) 0) as [Hu|Hu].
  { split; [lia|]. exists m. rewrite Z.sub_diag. split_and!; try done. intros k m' Hk. lia. }
  specialize (IH (i + 1)). destruct (first_unused t (i + 1)) as [j|].
  - destruct IH as (Hj & m1 & Hl & Hu1 & Hlt). split; [lia|]. exists m1.
    replace (Z.to_nat (j - i)) with (S (Z.to_nat (j - (i + 1)))) by lia.
    split_and!; [done..|]. intros [|k] m' Hk Hk'; simpl in Hk'; [by simplify_eq|].
    eapply Hlt; [|done]. lia.
  - intros m' Hm'. apply elem_of_cons in Hm' as [->|Hm']; [done|by apply IH].
Qed.

Lemma set_entry_spec s i m :
  length (ftable s) = Z.to_nat NFRAMES → 0 ≤ i < NFRAMES →
  returns (set_entry i m) s (λ _ s', s' = set_ftable (<[Z.to_nat i:=m]> (ftable s)) s).
Proof using Type.
  intros Hl Hi. unfold set_entry. apply returns_bind, returns_gets, returns_bind.
  eexists _, _. split; [apply arr_set_eq; unfold NFRAMES in *; lia|]. by apply returns_modify.
Qed.

Lemma maps_insert t i m j q n :
  (Z.to_nat i < length t)%nat → 0 ≤ i →
  maps (<[Z.to_nat i:=m]> t) j q n ↔
  (j = i ∧ use m ≠ 0 ∧ fpid m = q ∧ page_no m = n) ∨ (j ≠ i ∧ maps t j q n).
Proof using Type.
  clear -t. intros Hi H0. unfold maps. destruct (decide (j = i)) as [->|Hne].
  - rewrite list_lookup_insert_eq by done. naive_solver.
  - destruct (decide (0 ≤ j)) as [Hj|Hj]; [rewrite list_lookup_insert_ne by lia|]; naive_solver.
Qed.

(** Replacing an entry: what the table's well-formedness needs of the new one. *)
Lemma table_ok_insert t i m :
  table_ok t → 0 ≤ i < NFRAMES →
  (use m = 0 → m = no_mapping) →
  (use m ≠ 0 → fpid m ≠ 0 → 0 ≤ page_no m < 2 ^ 20 ∧ ¬ in_cache (page_no m) ∧
     ∀ j, j ≠ i → ¬ maps t j (fpid m) (page_no m)) →
  table_ok (<[Z.to_nat i:=m]> t).
Proof using Type.
  intros [T1 T2 T3 T4] Hi Hu Hm.
  assert (Hl : (Z.to_nat i < length t)%nat) by (rewrite T1; unfold NFRAMES in *; lia).
  split; [by rewrite length_insert| | |].
  - intros j q n Hj Hq. apply maps_insert in Hj as [(-> & Hu' & <- & <-)|[_ Hj]]; [| |lia|lia].
    + by destruct (Hm Hu' Hq) as (? & ? & _).
    + by eapply T2.
  - intros j k q n Hj Hk Hq.
    apply maps_insert in Hj as [(-> & Hu' & <- & <-)|[Hj' Hj]]; [| |lia|lia];
      (apply maps_insert in Hk as [(-> & Hu'' & E1 & E2)|[Hk' Hk]]; [| |lia|lia]).
    + done.
    + destruct (Hm Hu' Hq) as (_ & _ & Hno). by destruct (Hno k).
    + subst. destruct (Hm Hu'' Hq) as (_ & _ & Hno). by destruct (Hno j).
    + by eapply T3.
  - intros j m' Hj Hu'. apply list_lookup_insert_Some in Hj as [(_ & -> & _)|[_ Hj]]; [by apply Hu|].
    by eapply T4.
Qed.
(** Entry [i] belongs to no process, before and after: what processes own is as
    it was. *)
Lemma owned_other s F s' F' i m :
  mmu_wf s F → ftable s' = <[Z.to_nat i:=m]> (ftable s) → 0 ≤ i < NFRAMES →
  curr_vm_pid s' = curr_vm_pid s → (∀ n, ¬ in_cache n → mem s' n = mem s n) →
  (∀ g, 0 ≤ g < NFRAMES → g ≠ i → F' g = F g) →
  (∀ q n, maps (ftable s) i q n → q = 0) →
  ∀ r n x, r ≠ 0 → owned s F r n x → owned s' F' r n x.
Proof using Type.
  intros [P T C] Ht Hi Hc Hm HF Hno r n x Hr (j & Hj & ->).
  assert (Hne : j ≠ i) by (intros ->; apply Hr; by eapply Hno).
  assert (Hl : (Z.to_nat i < length (ftable s))%nat)
    by (rewrite (to_len _ T); unfold NFRAMES in *; lia).
  exists j. rewrite Ht, Hc. split; [apply maps_insert; [done|lia|by right]|].
  rewrite Hm by (by eapply (to_page _ T)). rewrite HF; [done| |done]. by eapply maps_range.
Qed.

(** A frame in use that belongs to nobody, with its place in memory. *)
Record allocated s F (i a : Z) s' F' : Prop := {
  al_range : 0 ≤ i < NFRAMES;
  al_first : use (ftable s !!! Z.to_nat i) = 0 ∧
    ∀ j, 0 ≤ j < i → use (ftable s !!! Z.to_nat j) ≠ 0;
  al_wf : mmu_wf s' F';
  al_table : ftable s' = <[Z.to_nat i:=FrameMapping 1 0 0]> (ftable s);
  al_curr : curr_vm_pid s' = curr_vm_pid s;
  al_at : ∃ k, a = pages_start + PAGE_SIZE * k ∧ frame_at platform s' i k;
  al_frames g : 0 ≤ g < NFRAMES → g ≠ i → F' g = F g;
  al_mem n : ¬ in_cache n → mem s' n = mem s n;
  al_slots : slot_step i (cache_slots s) (cache_slots s');
}.

Lemma mmu_alloc_spec s F :
  mmu_wf s F →
  (∃ m, m ∈ ftable s ∧ use m = 0) →
  returns (mmu_alloc platform sd rom type rnd) s (λ r s', ∃ F', allocated s F r.1 r.2 s' F').
Proof using Htype Hrnd.
  intros [P T C] (m0 & Hm0 & Hu0). unfold mmu_alloc. apply returns_bind, returns_gets.
  pose proof (first_unused_spec (ftable s) 0) as Hfu.
  destruct (first_unused (ftable s) 0) as [i|]; [|by destruct (Hfu m0 Hm0)].
  destruct Hfu as (Hi & m & Hl & Hu & Hlt). rewrite Z.sub_0_r in *.
  assert (Hr : 0 ≤ i < NFRAMES).
  { pose proof (lookup_lt_Some _ _ _ Hl) as H. rewrite (to_len _ T) in H. unfold NFRAMES in *. lia. }
  apply returns_bind.
  eapply returns_mono; [by apply (paging_read_spec platform sd rom type rnd Htype Hrnd s F)|cbv beta].
  intros a s1 (F1 & [P1 O1 _ [U1 U2 U3] S1 A1]).
  apply returns_bind, returns_gets, returns_bind. rewrite U1.
  eexists _, _. split; [by apply table_get|]. apply returns_bind.
  assert (Hl1 : length (ftable s1) = Z.to_nat NFRAMES) by (rewrite U1; apply T).
  eapply returns_mono; [by apply set_entry_spec|cbv beta]. intros _ s2 ->. apply returns_ret.
  rewrite (list_lookup_total_correct _ _ _ Hl), (to_unused _ T _ _ Hl Hu), U1. simpl.
  exists F1. split; simpl; try done.
  - rewrite (list_lookup_total_correct _ _ _ Hl). split; [done|]. intros j Hj.
    apply (Hlt (Z.to_nat j)); [lia|]. apply list_lookup_lookup_total_lt.
    rewrite (to_len _ T). unfold NFRAMES in *. lia.
  - split; simpl; [by eapply paged_same|by apply table_ok_insert|by rewrite U2].
Qed.

Lemma alloc_ready s F i a s' F' :
  table_ok (ftable s) → allocated s F i a s' F' → ready s → ready s'.
Proof using Type.
  clear rom type rnd Htype Hrnd. intros T [Ai _ _ At _ (k & _ & Aat) _ _ [S1 _ S3]] [?|[Hf|Ha]]; [by left|by right; left; apply S1|].
  destruct (decide (platform = QEMU)) as [|Hp]; [by left|]. right.
  destruct (decide (-1 ∈ cache_slots s)) as [Hin|Hin]; [|left; by apply S1]. right.
  intros j q n Hj. rewrite At in Hj.
  apply maps_insert in Hj as [(-> & _)|[_ Hj]]; [| |by rewrite (to_len _ T); unfold NFRAMES in *; lia|lia].
  - destruct Aat as [_ Aat]. destruct platform; [done|]. by eapply list_elem_of_lookup_2.
  - apply S3; [unfold full; tauto| |by eapply Ha]. destruct Hj as (m & Hm & _). lia.
Qed.

(** Allocation changes nothing for processes. *)
Lemma alloc_keeps s F s' F' i :
  mmu_wf s F → 0 ≤ i < NFRAMES → use (ftable s !!! Z.to_nat i) = 0 →
  ftable s' = <[Z.to_nat i:=FrameMapping 1 0 0]> (ftable s) →
  curr_vm_pid s' = curr_vm_pid s → (∀ n, ¬ in_cache n → mem s' n = mem s n) →
  (∀ g, 0 ≤ g < NFRAMES → g ≠ i → F' g = F g) →
  (∀ r n x, r ≠ 0 → owned s F r n x → owned s' F' r n x) ∧
  ∀ j r n, r ≠ 0 → maps (ftable s') j r n → maps (ftable s) j r n.
Proof using Type.
  intros W Hi Hu Ht Hc Hm HF. pose proof (mw_table _ _ W) as T.
  assert (Hl : (Z.to_nat i < length (ftable s))%nat)
    by (rewrite (to_len _ T); unfold NFRAMES in *; lia).
  split.
  - eapply owned_other; try done. intros q n (m & _ & L & Hu' & _).
    rewrite (list_lookup_total_correct _ _ _ L) in Hu. done.
  - intros j r n Hr Hj. rewrite Ht in Hj. apply maps_insert in Hj as [(_ & _ & E & _)|[_ Hj]];
      [|done|done|lia]. simpl in E. by subst.
Qed.

(** Frame [i], at place [k] in memory, is filled: other pages of processes that
    are not in it are as they were. *)
Lemma fill_frame s F i k x :
  mmu_wf s F → 0 ≤ i < NFRAMES → frame_at platform s i k → length x = npage →
  mmu_wf (set_page (FRAME_PAGE + k) x s) (upd F i x) ∧
  ∀ r m y, r ≠ 0 → ¬ maps (ftable s) i r m → owned s F r m y →
    owned (set_page (FRAME_PAGE + k) x s) (upd F i x) r m y.
Proof using Type.
  intros [P T C] Hi Hat Hx. destruct (frame_at_user platform s i k x Hat) as [_ _ Hm].
  split; [by split; [apply frame_at_put|..]|].
  intros r m y Hr Hno (j & Hj & ->). exists j. split; [done|].
  assert (Hne : j ≠ i) by (intros ->; done). unfold upd. rewrite (proj2 (Z.eqb_neq _ _) Hne).
  change (curr_vm_pid (set_page (FRAME_PAGE + k) x s)) with (curr_vm_pid s).
  rewrite Hm by (by eapply (to_page _ T)). done.
Qed.

(** An allocated frame is given to process [q] as page [n]. *)
Lemma soft_tlb_map_spec s F q n i :
  mmu_wf s F → 0 ≤ i < NFRAMES → ftable s !!! Z.to_nat i = FrameMapping 1 0 0 →
  q ≠ 0 → 0 ≤ n < 2 ^ 20 → ¬ in_cache n → (∀ j, ¬ maps (ftable s) j q n) →
  returns (soft_tlb_map q n i) s (λ _ s', mmu_wf s' F ∧
    s' = set_ftable (<[Z.to_nat i:=FrameMapping 1 q n]> (ftable s)) s ∧
    owned s' F q n (if q =? curr_vm_pid s then mem s n else F i) ∧
    ∀ r m x, r ≠ 0 → owned s F r m x → owned s' F r m x).
Proof using Type.
  intros W Hi He Hq Hn Hc Hno. destruct W as [P T C] eqn:EW. clear EW. unfold soft_tlb_map.
  apply returns_bind, returns_gets, returns_bind. eexists _, _. split; [by apply table_get|].
  rewrite He. simpl. eapply returns_mono; [apply set_entry_spec; [apply T|done]|cbv beta].
  assert (Hl : (Z.to_nat i < length (ftable s))%nat)
    by (rewrite (to_len _ T); unfold NFRAMES in *; lia).
  intros _ s' ->.
  assert (T' : table_ok (<[Z.to_nat i:=FrameMapping 1 q n]> (ftable s))).
  { by apply table_ok_insert. }
  split; [split; [by eapply paged_same|exact T'|done]|]. split; [done|]. split.
  - exists i. split; [|done]. simpl. apply maps_insert; [done|lia|]. left. done.
  - eapply (owned_other s F _ F i); try done. intros r m (e & _ & L & _ & <- & _).
    rewrite (list_lookup_total_correct _ _ _ L) in He. by subst.
Qed.

Lemma map_ready s i m :
  table_ok (ftable s) → 0 ≤ i < NFRAMES → use (ftable s !!! Z.to_nat i) ≠ 0 → ready s →
  ready (set_ftable (<[Z.to_nat i:=m]> (ftable s)) s).
Proof using Type.
  clear rom type rnd Htype Hrnd. intros T Hi Hu [?|[?|Ha]]; [by left|by right; left|]. right. right. intros j q n Hj. simpl in *.
  assert (Hl : (Z.to_nat i < length (ftable s))%nat) by (rewrite (to_len _ T); unfold NFRAMES in *; lia).
  apply maps_insert in Hj as [(-> & _)|[_ Hj]]; [|by eapply Ha|done|lia].
  eapply (Ha i). eexists. split; [lia|]. split; [by apply list_lookup_lookup_total_lt|done].
Qed.

Lemma invalidate_spec s F f :
  paged platform sd s F → 0 ≤ f < NFRAMES →
  returns (paging_invalidate_cache f) s (λ _ s', ∃ F',
    paged platform sd s' F' ∧ (∀ g, g ≠ f → F' g = F g) ∧
    s' = set_slots ((λ x, if x =? f then -1 else x) <$> cache_slots s) s).
Proof using Type.
  clear Htype. intros [P1 P2 P3] Hf. apply returns_modify. set (l' := _ <$> _).
  assert (Hl : ∀ i g, l' !! i = Some g → 0 ≤ g → cache_slots s !! i = Some g ∧ g ≠ f).
  { intros i g Hg H0. apply list_lookup_fmap_Some in Hg as (x & -> & Hx).
    by destruct (Z.eqb_spec x f); [lia|]. }
  assert (Hin : ∀ g, g ∈ cache_slots s → g ≠ f → g ∈ l').
  { intros g Hg Hne. apply list_elem_of_fmap. exists g. by rewrite (proj2 (Z.eqb_neq _ _)). }
  destruct platform.
  - exists F. split; [|done]. split; [by apply slots_wf_invalidate|done..].
  - destruct P3 as (c & [C1 C2 C3]). exists (upd F f (card_page c f)).
    split; [split; [by apply slots_wf_invalidate|done|exists c; split; [done|..]]|]; unfold upd.
    + intros i g Hg H0. destruct (Hl i g Hg H0) as [Hi Hne].
      rewrite (proj2 (Z.eqb_neq _ _)) by done. by apply C2.
    + intros g Hg Hn. destruct (Z.eqb_spec g f) as [->|Hne]; [done|].
      apply C3; [done|]. intros Hi. by apply Hn, Hin.
    + split; [|done]. intros g Hne. by rewrite (proj2 (Z.eqb_neq _ _)).
Qed.

(** Frames [i], ..., [i + n - 1] of process [q] are given back. *)
Record released (q : Z) s F (i : Z) (n : nat) s' F' : Prop := {
  rl_wf : mmu_wf s' F';
  rl_curr : curr_vm_pid s' = curr_vm_pid s;
  rl_mem : mem s' = mem s;
  rl_maps j r p : maps (ftable s') j r p ↔
    maps (ftable s) j r p ∧ ¬ (r = q ∧ i ≤ j < i + Z.of_nat n);
  rl_frames g : 0 ≤ g < NFRAMES → (∀ p, ¬ maps (ftable s) g q p) → F' g = F g;
  rl_cached : (∀ j r p, maps (ftable s) j r p → j ∈ cache_slots s) →
    ∀ j r p, maps (ftable s') j r p → j ∈ cache_slots s';
}.

Lemma release_step q s F i :
  mmu_wf s F → 0 ≤ i < NFRAMES →
  let m := ftable s !!! Z.to_nat i in
  returns (if negb (use m =? 0) && (fpid m =? q) then
             _ ← paging_invalidate_cache i; set_entry i no_mapping
           else mret tt) s (λ _ s', ∃ F', released q s F i 1 s' F').
Proof using Type.
  intros [P T C] Hi m. pose proof (maps_test (ftable s) i q T Hi) as Ht. fold m in Ht.
  destruct (negb _ && _).
  - apply returns_bind. eapply returns_mono; [by apply (invalidate_spec s F i)|cbv beta].
    intros _ s1 (F1 & P1 & O1 & ->).
    eapply returns_mono; [apply set_entry_spec; [apply T|done]|cbv beta]. intros _ s' ->. simpl.
    assert (Hl : (Z.to_nat i < length (ftable s))%nat)
      by (rewrite (to_len _ T); unfold NFRAMES in *; lia).
    assert (Hmaps : ∀ j r p, maps (<[Z.to_nat i:=no_mapping]> (ftable s)) j r p ↔
      j ≠ i ∧ maps (ftable s) j r p).
    { intros j r p. rewrite maps_insert by (done || lia). simpl. split; [|by right].
      by intros [(_ & H & _)|?]. }
    exists F1. split; simpl; [|done|done|..].
    + split; [by eapply paged_same|by apply table_ok_insert|done].
    + intros j r p. rewrite Hmaps. split.
      * intros [Hne Hm]. split; [done|]. lia.
      * intros [Hm Hn]. split; [|done]. intros ->. apply Hn. split; [|lia].
        destruct Ht as (m1 & _ & L1 & _ & <- & _), Hm as (m2 & _ & L2 & _ & <- & _). congruence.
    + intros g Hg Hno. apply O1. intros ->. by destruct (Hno (page_no m)).
    + intros Hall j r p Hm. apply Hmaps in Hm as [Hne Hm]. apply list_elem_of_fmap.
      exists j. rewrite (proj2 (Z.eqb_neq _ _)) by done. split; [done|by eapply Hall].
  - apply returns_ret. exists F. split; try done.
    intros j r p. split; [|by intros []]. intros Hm. split; [done|]. intros [-> Hj].
    assert (j = i) as -> by lia. by destruct (Ht p).
Qed.

Lemma free_loop_spec q n : ∀ s F i,
  mmu_wf s F → 0 ≤ i → i + Z.of_nat n ≤ NFRAMES →
  returns (free_loop q n i) s (λ _ s', ∃ F', released q s F i n s' F').
Proof using Type.
  induction n as [|n IH]; intros s F i W Hi Hn; cbn [free_loop].
  { apply returns_ret. exists F. split; try done. intros j r p. split; [|by intros []].
    intros Hm. split; [done|]. lia. }
  apply returns_bind, returns_gets, returns_bind.
  eexists _, _. split; [apply table_get; [apply W|lia]|]. apply returns_bind.
  eapply returns_mono; [apply (release_step q s F i W); lia|cbv beta].
  intros _ s1 (F1 & [W1 C1 M1 T1 O1 A1]).
  eapply returns_mono; [apply (IH s1 F1 (i + 1) W1); lia|cbv beta].
  intros _ s2 (F2 & [W2 C2 M2 T2 O2 A2]). exists F2. split; [done|congruence|congruence|..].
  - intros j r p. rewrite T2, T1. split; [intros [[? ?] ?]|intros [? ?]]; split_and?; try done; lia.
  - intros g Hg Hno. rewrite O2, O1; [done..|]. intros p Hm. apply T1 in Hm as [Hm _].
    by destruct (Hno p).
  - intros Hall. by apply A2, A1.
Qed.
End spaces.
