(* ===== verification/MmuCorrect.v ===== *)
(** * Theorems about the memory management unit

    The main properties of earth/cpu_mmu.c and earth/dev_page.c, with runs on a
    machine with two processes. *)

From S2P Require Import Prelude Layout Blocks Store Ramdisk FsDisk.
From S2P Require Import Paging PagingOps Mmu MmuOps FsCorrect.

(** ** Private memory *)

(** What the system does with memory: the kernel switches to a process, the
    process that is switched in writes one of its pages. *)
Inductive vm_ev :=
| Switch (q : Z)
| StorePage (n : Z) (x : page).

(** Every process has memory of its own. *)
Definition spaces : Type := Z → Z → page.

Definition spec_vm (curr : Z) (A : spaces) (e : vm_ev) : Z * spaces :=
  match e with
  | Switch q => (q, A)
  | StorePage n x => (curr, λ r m, if (r =? curr) && (m =? n) then x else A r m)
  end.

Fixpoint spec_vms (curr : Z) (A : spaces) (es : list vm_ev) : Z * spaces :=
  match es with
  | [] => (curr, A)
  | e :: es => let '(curr, A) := spec_vm curr A e in spec_vms curr A es
  end.

(** Processes write pages they have. *)
Fixpoint vm_ok (t : list frame_mapping) (curr : Z) (es : list vm_ev) : Prop :=
  match es with
  | [] => True
  | Switch q :: es => q ≠ 0 ∧ vm_ok t q es
  | StorePage n x :: es => (∃ i, maps t i curr n) ∧ length x = npage ∧ vm_ok t curr es
  end.

Section correct.
Context {D : Type} (platform : platform_id).
Context (sd : sd_driver D) (rom : Z → byte) (type : disk_type) (rnd : nat → Z).
Context `{!SdCard sd DISK_BLOCKS}.
Implicit Types s : mmu D.

Definition run_vm (e : vm_ev) : M (mmu D) unit :=
  match e with
  | Switch q => soft_tlb_switch platform sd rom type rnd q
  | StorePage n x => modify (set_page n x)
  end.

Fixpoint run_vms (es : list vm_ev) : M (mmu D) unit :=
  match es with
  | [] => mret tt
  | e :: es => _ ← run_vm e; run_vms es
  end.

(** The concrete state shows the private memories. *)
Definition shows s (F : Z → page) (A : spaces) : Prop :=
  ∀ r n x, r ≠ 0 → owned s F r n x → A r n = x.

Lemma owned_exists s F r n : (∃ i, maps (ftable s) i r n) → ∃ x, owned s F r n x.
Proof. intros [i Hm]. eexists. by exists i. Qed.

Lemma shows_maps s F A s' F' A' :
  ftable s' = ftable s → shows s F A →
  (∀ r n x, r ≠ 0 → owned s F r n x → owned s' F' r n (A' r n)) →
  table_ok (ftable s) → shows s' F' A'.
Proof.
  intros Ht HA H T r n x Hr (i & Hm & ->). rewrite Ht in Hm.
  destruct (owned_exists s F r n) as [y Hy]; [by exists i|].
  destruct (H r n y Hr Hy) as (j & Hm' & E). rewrite Ht in Hm'.
  by rewrite (to_uniq _ T _ _ _ _ Hm Hm' Hr).
Qed.

(** The software TLB follows the private memories. *)
Lemma run_vms_shows (s : mmu D) (F : Z → page) (A : spaces) (es : list vm_ev) :
  (platform = ARTY → type = SD_CARD) → (∀ n, 0 ≤ rnd n) →
  mmu_wf platform sd s F → ready platform s → shows s F A →
  vm_ok (ftable s) (curr_vm_pid s) es →
  returns (run_vms es) s (λ _ s', ∃ F', mmu_wf platform sd s' F' ∧ ready platform s' ∧
    ftable s' = ftable s ∧
    curr_vm_pid s' = (spec_vms (curr_vm_pid s) A es).1 ∧
    shows s' F' (spec_vms (curr_vm_pid s) A es).2).
Proof.
  intros Htype Hrnd. revert s F A. induction es as [|[q|n x] es IH]; intros s F A W R HA Hok; simpl.
  - apply returns_ret. by exists F.
  - destruct Hok as [Hq Hok]. apply returns_bind.
    eapply returns_mono; [by apply (soft_tlb_switch_spec platform sd rom type rnd Htype Hrnd q s F)|].
    cbv beta. intros _ s1 (F1 & W1 & R1 & T1 & C1 & O1 & _).
    assert (HA1 : shows s1 F1 A).
    { apply (shows_maps s F A); [done|done| |apply W].
      intros r m y Hr Hy. rewrite (HA r m y Hr Hy). by apply O1. }
    specialize (IH s1 F1 A W1 R1 HA1). rewrite T1, C1 in IH. by apply IH.
  - destruct Hok as (Hm & Hx & Hok). apply returns_bind, returns_modify.
    destruct (store_owned platform sd s F n x W Hm Hx) as [W1 O1].
    apply (IH (set_page n x s) F); [done|done| |done].
    apply (shows_maps s F A); [done|done| |apply W].
    intros r m y Hr Hy. rewrite (HA r m y Hr Hy). by apply O1.
Qed.

(** C10: Every process has private memory.  For any sequence of context switches
    ([soft_tlb_switch]) and page writes by the process that is switched in, the
    software TLB behaves as if each process had memory of its own: after the
    sequence every page of every process is the one the process wrote last (or
    the one it had), whether the process is switched in or not.  This holds on
    QEMU, where all frames are in memory, and on the Arty board, where frames
    are moved between the cache and the SD card by random eviction, as long as
    eviction cannot meet an empty slot ([ready]). *)
Theorem address_spaces_private (s : mmu D) (F : Z → page) (A : spaces) (es : list vm_ev) :
  (platform = ARTY → type = SD_CARD) → (∀ n, 0 ≤ rnd n) →
  mmu_wf platform sd s F → ready platform s → shows s F A →
  vm_ok (ftable s) (curr_vm_pid s) es →
  returns (run_vms es) s (λ _ s', ∃ F', mmu_wf platform sd s' F' ∧ ready platform s' ∧
    ftable s' = ftable s ∧
    curr_vm_pid s' = (spec_vms (curr_vm_pid s) A es).1 ∧
    shows s' F' (spec_vms (curr_vm_pid s) A es).2).
Proof. apply run_vms_shows. Qed.
End correct.

(** ** A machine with two processes *)

Definition fill (b : byte) : page := replicate npage b.
Definition zero_page : page := fill Byte.x00.

(** Processes 5 and 6 have a page each, in frames 0 and 1. *)
Definition two_mappings : list frame_mapping :=
  [FrameMapping 1 5 0x80000; FrameMapping 1 6 0x80000] ++ replicate 254 no_mapping.

(** An Arty board whose cache is full of other frames: frames 0 and 1 are on the
    card. *)
Definition demo_arty : mmu (gmap Z block) :=
  Mmu two_mappings 5 (seqZ 2 28) (λ _, zero_page) (disk_of DISK_BLOCKS (λ _, null_block)) 0.

Lemma demo_card_page f :
  0 ≤ f < NFRAMES → card_page (disk_of DISK_BLOCKS (λ _, null_block)) f = zero_page.
Proof.
  intros Hf. destruct (page_blocks f Hf) as [B1 B2].
  apply card_page_written; [apply length_replicate|]. change NBLOCKS_PER_PAGE with 8 in *.
  intros b Hb. rewrite disk_of_lookup by lia. unfold slice, zero_page, fill, null_block.
  rewrite drop_replicate, take_replicate. f_equal.
  unfold npage, nbytes. change PAGE_SIZE with 4096. change BLOCK_SIZE with 512. lia.
Qed.

Lemma seqZ_slots : slots_wf (seqZ 2 28).
Proof.
  split; [done| |].
  - intros i f Hf. apply lookup_seqZ in Hf. right. unfold NFRAMES. lia.
  - intros i j f Hi Hj _. apply lookup_seqZ in Hi, Hj. lia.
Qed.

Lemma two_mappings_lookup i m :
  two_mappings !! i = Some m →
  i = 0%nat ∧ m = FrameMapping 1 5 0x80000 ∨ i = 1%nat ∧ m = FrameMapping 1 6 0x80000 ∨
  m = no_mapping.
Proof.
  unfold two_mappings. intros Hl. apply lookup_app_Some in Hl as [Hl|[_ Hl]].
  - destruct i as [|[|i]]; simpl in Hl; [injection Hl as <-; auto..|done].
  - apply lookup_replicate in Hl as [-> _]. auto.
Qed.

Lemma two_mappings_maps i q n :
  maps two_mappings i q n → n = 0x80000 ∧ (i = 0 ∧ q = 5 ∨ i = 1 ∧ q = 6).
Proof.
  intros (m & Hi & Hl & Hu & <- & <-).
  destruct (two_mappings_lookup _ _ Hl) as [[E ->]|[[E ->]| ->]]; simpl in *; [lia|lia|done].
Qed.

Lemma two_mappings_ok : table_ok two_mappings.
Proof.
  split; [done|..].
  - intros i q n Hm _. apply two_mappings_maps in Hm as [-> _]. split; [lia|].
    unfold in_cache. change FRAME_PAGE with 0x80004. lia.
  - intros i j q n Hi Hj _. apply two_mappings_maps in Hi, Hj. lia.
  - intros i m Hl Hu. by destruct (two_mappings_lookup _ _ Hl) as [[_ ->]|[[_ ->]| ->]].
Qed.

Lemma demo_arty_wf : mmu_wf ARTY mem_sd demo_arty (λ _, zero_page).
Proof.
  split; [|apply two_mappings_ok|done]. split; [apply seqZ_slots|intros n; apply length_replicate|].
  exists (disk_of DISK_BLOCKS (λ _, null_block)). split; [|done|].
  - split; [done|]. intros b Hb. rewrite disk_of_lookup by done. apply length_replicate.
  - intros f Hf _. by rewrite demo_card_page.
Qed.

Definition demo_evs : list vm_ev :=
  [StorePage 0x80000 (fill Byte.x41); Switch 6; StorePage 0x80000 (fill Byte.x42); Switch 5].

Lemma address_spaces_private_witness : ∃ s',
  run_vms ARTY mem_sd (λ _, Byte.x00) SD_CARD Z.of_nat demo_evs demo_arty = Ret tt s' ∧
  mem s' 0x80000 = fill Byte.x41.
Proof.
  destruct (address_spaces_private ARTY mem_sd (λ _, Byte.x00) SD_CARD Z.of_nat demo_arty
    (λ _, zero_page) (λ _ _, zero_page) demo_evs) as ([] & s' & E & F' & _ & _ & Ht & Hc & Hs).
  - done.
  - lia.
  - apply demo_arty_wf.
  - right. left. unfold full. intros Hin. apply elem_of_seqZ in Hin. lia.
  - intros r n x Hr (i & _ & ->). by destruct (_ =? _).
  - assert (H5 : ∃ i, maps (ftable demo_arty) i 5 0x80000).
    { exists 0. eexists. split_and!; [lia|reflexivity|done..]. }
    assert (H6 : ∃ i, maps (ftable demo_arty) i 6 0x80000).
    { exists 1. eexists. split_and!; [lia|reflexivity|done..]. }
    split; [exact H5|]. split; [apply length_replicate|]. split; [done|].
    split; [exact H6|]. split; [apply length_replicate|]. done.
  - exists s'. split; [exact E|]. simpl in Hc.
    rewrite <-(Hs 5 0x80000 (mem s' 0x80000) ltac:(done)); [done|].
    exists 0. rewrite Ht, Hc. split; [|done]. eexists. split_and!; [lia|reflexivity|done..].
Defined.

(** ** Taking pages from a process *)

(** [mmu_free] takes all pages of a process that is not switched in, gives
    their frames back and leaves the pages of all other processes as they
    were. *)
Theorem mmu_free_correct {D} (platform : platform_id) (sd : sd_driver D)
    `{!SdCard sd DISK_BLOCKS} (s : mmu D) (F : Z → page) (q : Z) :
  mmu_wf platform sd s F → q ≠ curr_vm_pid s →
  returns (mmu_free q) s (λ _ s', ∃ F', mmu_wf platform sd s' F' ∧
    curr_vm_pid s' = curr_vm_pid s ∧ (∀ i n, ¬ maps (ftable s') i q n) ∧
    ∀ r n x, r ≠ 0 → r ≠ q → owned s F r n x → owned s' F' r n x).
Proof.
  intros W Hq. eapply returns_mono; [by apply (free_loop_spec platform sd q _ s F 0)|cbv beta].
  intros _ s' (F' & [W' C' M' T' O' _]). exists F'. split; [done|]. split; [done|].
  pose proof (mw_table _ _ _ _ W) as T. split.
  - intros i n Hm. apply T' in Hm as [Hm Hn]. apply Hn. split; [done|].
    by apply (maps_range _ _ _ _ T Hm).
  - intros r n x Hr Hrq (i & Hm & ->). exists i. rewrite C', M'. split.
    + apply T'. split; [done|]. by intros [? _].
    + rewrite O'; [done|by apply (maps_range _ _ _ _ T Hm)|].
      intros p Hm'. destruct Hm as (m & _ & L & _ & <- & _), Hm' as (m' & _ & L' & _ & E & _).
      congruence.
Qed.

Lemma mmu_free_correct_witness : ∃ s' F',
  mmu_free 6 demo_arty = Ret tt s' ∧ owned s' F' 5 0x80000 zero_page ∧
  ∀ i n, ¬ maps (ftable s') i 6 n.
Proof.
  destruct (mmu_free_correct ARTY mem_sd demo_arty (λ _, zero_page) 6)
    as ([] & s' & E & F' & _ & _ & Hno & Ho).
  - apply demo_arty_wf.
  - done.
  - exists s', F'. split; [exact E|]. split; [|exact Hno]. apply Ho; [done..|].
    exists 0. split; [|done]. eexists. split_and!; [lia|reflexivity|done..].
Defined.

(** ** Eviction of an empty slot *)

(** A driver that keeps a log of the blocks it is asked to write. *)
Definition log_sd : sd_driver (list Z) :=
  SdDriver (λ _ l, Ret null_block l) (λ b _ l, Ret tt (l ++ [b])).

(** On the Arty board [paging_write] evicts a random slot without looking
    for an empty one, which [paging_read] does.  When the slot it hits is empty
    ([-1]), [cache_eviction] writes the page to the eight blocks before the
    start of the disk. *)
Example evict_empty_slot :
  match paging_write ARTY log_sd SD_CARD (λ _, 3) 0 0x80000
          (Mmu two_mappings 5 (replicate 28 (-1)) (λ _, zero_page) [] 0) with
  | Ret _ s' => pdisk s' = [-8; -7; -6; -5; -4; -3; -2; -1]
  | _ => False
  end.
Proof. by vm_compute. Qed.
