(* ===== verification/PtCorrect.v ===== *)
(** * Correctness of the page tables

    [tables s r L T]: page [r] is the root table; the leaf table for the 4 MB from
    [v * 2^22] on is page [L !! v]; [T] gives the entry for each page number.
    [setup_identity_region] changes [T] for the pages of the region and nothing
    else. *)

From S2P Require Import Prelude Layout Blocks Ramdisk FsDisk Paging PagingOps Mmu MmuOps.
From S2P Require Import FsCorrect PageTable.

(** ** Words of a page *)

Lemma page_words (x : page) : length x = npage → length (words_of_block x) = 1024%nat.
Proof. intros H. by apply words_of_bytes_length. Qed.

Lemma set_page_word_length (x : page) i v : length x = npage → length (set_word x i v) = npage.
Proof.
  intros H. unfold set_word. rewrite block_of_words_length, length_insert, page_words by done.
  reflexivity.
Qed.

Lemma get_set_page_word (x : page) (i j v : Z) :
  length x = npage → 0 ≤ i < 1024 → 0 ≤ j < 1024 → is_u32 v →
  get_word (set_word x (Z.to_nat i) v) (Z.to_nat j) =
    if decide (j = i) then v else get_word x (Z.to_nat j).
Proof.
  intros Hx Hi Hj Hv. case_decide as E.
  - subst. unfold get_word. rewrite words_of_set_word by done.
    apply list_lookup_total_insert_eq. rewrite page_words by done. lia.
  - apply get_set_word_ne; [done|lia].
Qed.

Lemma get_zero_word n i : (i < n)%nat → get_word (replicate (4 * n) Byte.x00) i = 0.
Proof.
  intros Hi. unfold get_word, words_of_block.
  assert (words_of_bytes (replicate (4 * n) Byte.x00) = replicate n 0) as ->.
  { clear Hi. induction n as [|n IH]; [done|].
    replace (4 * S n)%nat with (S (S (S (S (4 * n))))) by lia. cbn [replicate words_of_bytes].
    rewrite IH. reflexivity. }
  by rewrite lookup_total_replicate_2.
Qed.

Lemma get_zero_entry i : 0 ≤ i < 1024 → get_word (replicate npage Byte.x00) (Z.to_nat i) = 0.
Proof.
  intros Hi. change npage with (4 * Z.to_nat 1024)%nat. apply get_zero_word, Z2Nat.inj_lt; lia.
Qed.

(** Entry [i] of the table in page [p]. *)
Lemma entry_addr p i :
  0 ≤ i < 1024 →
  Z.shiftr (p * PAGE_SIZE + 4 * i) 12 = p ∧
  Z.to_nat (Z.shiftr (Z.land (p * PAGE_SIZE + 4 * i) 0xFFF) 2) = Z.to_nat i.
Proof.
  intros Hi. change 0xFFF with (Z.ones 12). rewrite Z.land_ones, !Z.shiftr_div_pow2 by lia.
  change PAGE_SIZE with 4096. change (2 ^ 12) with 4096. change (2 ^ 2) with 4.
  split; [|f_equal]; Z.to_euclidean_division_equations; lia.
Qed.

Lemma word_at_entry m p i :
  0 ≤ i < 1024 → word_at m (p * PAGE_SIZE + 4 * i) = get_word (m p) (Z.to_nat i).
Proof. intros Hi. destruct (entry_addr p i Hi) as [E1 E2]. unfold word_at. by rewrite E1, E2. Qed.

(** ** The tables *)

Section tables.
Context {D : Type} (sd : sd_driver D) (rom : Z → byte) (type : disk_type) (rnd : nat → Z).
Implicit Types s : pt_state D.
Implicit Types v : mmu D.

(** The state before: tables are put only into frames that were not in use. *)
Context (v0 : mmu D).

(** Page [p] holds frame [i], which is in use now. *)
Definition taken v (p : Z) : Prop :=
  ∃ i m, p = FRAME_PAGE + i ∧ 0 ≤ i < NFRAMES ∧ ftable v !! Z.to_nat i = Some m ∧ use m ≠ 0 ∧
    ∃ m0, ftable v0 !! Z.to_nat i = Some m0 ∧ use m0 = 0.

(** What was in use before is as it was. *)
Record untouched v : Prop := {
  ut_len0 : length (ftable v0) = Z.to_nat NFRAMES;
  ut_len : length (ftable v) = Z.to_nat NFRAMES;
  ut_page n : length (mem v n) = npage;
  ut_table i m : ftable v0 !! i = Some m → use m ≠ 0 → ftable v !! i = Some m;
  ut_mem n : ¬ taken v n → mem v n = mem v0 n;
  ut_slots : cache_slots v = cache_slots v0;
}.

Record tables v (r : Z) (L : gmap Z Z) (T : Z → Z) : Prop := {
  tb_ut : untouched v;
  tb_root : taken v r;
  tb_leaf u p : L !! u = Some p → taken v p ∧ p ≠ r;
  tb_inj u w p : L !! u = Some p → L !! w = Some p → u = w;
  tb_entry u : 0 ≤ u < 1024 →
    get_word (mem v r) (Z.to_nat u) = match L !! u with Some p => p * 1024 + 1 | None => 0 end;
  tb_pte u p i : L !! u = Some p → 0 ≤ i < 1024 → get_word (mem v p) (Z.to_nat i) = T (u * 1024 + i);
  tb_none u i : L !! u = None → 0 ≤ i < 1024 → T (u * 1024 + i) = 0;
}.

Lemma taken_range v p : taken v p → 0x80004 ≤ p < 0x80104.
Proof using Type.
  intros (i & m & -> & Hi & _). change FRAME_PAGE with 0x80004. change NFRAMES with 256 in Hi. lia.
Qed.

(** The first free frame. *)
Lemma qemu_alloc v :
  length (ftable v) = Z.to_nat NFRAMES → (0 < nfree (ftable v))%nat →
  returns (mmu_alloc QEMU sd rom type rnd) v (λ r v', ∃ i m, r = (i, (FRAME_PAGE + i) * PAGE_SIZE) ∧
    0 ≤ i < NFRAMES ∧ ftable v !! Z.to_nat i = Some m ∧ use m = 0 ∧
    v' = set_ftable (<[Z.to_nat i:=FrameMapping 1 (fpid m) (page_no m)]> (ftable v)) v).
Proof using Type.
  intros Hl Hf. unfold mmu_alloc. destruct (nfree_pos _ Hf) as (m1 & Hm1 & Hu1).
  pose proof (first_unused_spec (ftable v) 0) as Hfu. rstep.
  destruct (first_unused (ftable v) 0) as [i|]; [|by destruct (Hfu m1 Hm1)].
  destruct Hfu as (Hi0 & m & Hm & Hu & _). rewrite Z.sub_0_r in Hm.
  assert (Hi : 0 ≤ i < NFRAMES).
  { apply lookup_lt_Some in Hm. rewrite Hl in Hm. change NFRAMES with 256 in *. lia. }
  rstep. cbn [paging_read]. rstep.
  exists m, v. split.
  { rewrite arr_get_eq by (rewrite Hl; unfold NFRAMES in *; lia).
    by rewrite (list_lookup_total_correct _ _ _ Hm). }
  rcall (apply set_entry_spec; [done|done]). intros _ v' ->. rstep.
  exists i, m. split_and!; [|lia|lia|done..].
  f_equal. unfold FRAME_PAGE, pages_start. rewrite Z.shiftr_div_pow2 by lia.
  change FRAME_CACHE_START with (0x80004 * 4096). change PAGE_SIZE with 4096.
  change (2 ^ 12) with 4096. rewrite Z.div_mul by done. lia.
Qed.

(** A frame taken for a table and cleared. *)
Lemma take_frame v i m m' (p := FRAME_PAGE + i)
    (v' := set_page p (replicate npage Byte.x00) (set_ftable (<[Z.to_nat i:=m']> (ftable v)) v)) :
  untouched v → 0 ≤ i < NFRAMES → ftable v !! Z.to_nat i = Some m → use m = 0 → use m' = 1 →
  untouched v' ∧ taken v' p ∧ ¬ taken v p ∧ (∀ q, taken v q → taken v' q) ∧
  (nfree (ftable v) ≤ S (nfree (ftable v')))%nat.
Proof using Type.
  clear sd rom type rnd. intros [U0 U1 U2 U3 U4 U5] Hi Hm Hu Hu'.
  assert (Hlen : (Z.to_nat i < length (ftable v))%nat) by (by eapply lookup_lt_Some).
  assert (H0 : ∃ m0, ftable v0 !! Z.to_nat i = Some m0 ∧ use m0 = 0).
  { destruct (ftable v0 !! Z.to_nat i) as [m0|] eqn:E0; [|apply lookup_ge_None_1 in E0; lia].
    exists m0. split; [done|]. destruct (decide (use m0 = 0)) as [|Hn]; [done|].
    pose proof (U3 _ _ E0 Hn). naive_solver. }
  assert (Hkeep : ∀ q, taken v q → taken v' q).
  { intros q (j & mj & -> & Hj & Hlj & Huj & H0j). exists j, mj.
    split; [done|]. split; [done|]. split; [|done].
    cbn [v' ftable set_page set_ftable]. rewrite list_lookup_insert_ne; [done|].
    intros E. assert (i = j) as <- by lia. congruence. }
  split; [split|split_and!]; [done| | | | |done| | |done|]; cbn [v' ftable mem set_page set_ftable].
  - by rewrite length_insert.
  - intros n. destruct (n =? p); [apply length_replicate|apply U2].
  - intros j mj Hj Huj. rewrite list_lookup_insert_ne; [by apply U3|]. intros <-. naive_solver.
  - intros n Hn. destruct (Z.eqb_spec n p) as [->|Hne]; [|apply U4; intros Ht; by apply Hn, Hkeep].
    destruct Hn. exists i, m'. split; [done|]. split; [done|].
    split; [by apply list_lookup_insert_eq|]. split; [lia|done].
  - exists i, m'. split; [done|]. split; [done|].
    split; [by apply list_lookup_insert_eq|]. split; [lia|done].
  - intros (j & mj & Ej & Hj & Hlj & Huj & _). assert (j = i) as -> by (unfold p in Ej; lia). congruence.
  - pose proof (nfree_insert (ftable v) (Z.to_nat i) m m' Hm) as Hn.
    rewrite decide_True, decide_False in Hn by lia. lia.
Qed.

Lemma table_frame_spec v pid :
  untouched v → (0 < nfree (ftable v))%nat →
  returns (table_frame QEMU sd rom type rnd pid) v (λ a v', ∃ p, a = p * PAGE_SIZE ∧
    untouched v' ∧ taken v' p ∧ ¬ taken v p ∧ (∀ q, taken v q → taken v' q) ∧
    mem v' p = replicate npage Byte.x00 ∧ (∀ q, q ≠ p → mem v' q = mem v q) ∧
    (nfree (ftable v) ≤ S (nfree (ftable v')))%nat).
Proof using Type.
  intros U Hf. pose proof (ut_len _ U) as U1. unfold table_frame.
  rcall (by apply qemu_alloc). intros _ v1 (i & m & -> & Hi & Hm & Hu & ->).
  assert (Hlen : (Z.to_nat i < length (ftable v))%nat) by (by eapply lookup_lt_Some).
  rstep. exists (FrameMapping 1 (fpid m) (page_no m)). eexists. split.
  { rewrite arr_get_eq by (cbn [ftable set_ftable]; rewrite length_insert, U1; unfold NFRAMES in *; lia).
    cbn [ftable set_ftable]. by rewrite list_lookup_total_insert_eq. }
  rcall (apply set_entry_spec; [cbn [ftable set_ftable]; by rewrite length_insert|done]).
  intros _ v2 ->. unfold store_page. rstep. exists (FRAME_PAGE + i).
  cbn [use fpid page_no ftable set_ftable]. rewrite list_insert_insert_eq.
  assert (Z.shiftr ((FRAME_PAGE + i) * PAGE_SIZE) 12 = FRAME_PAGE + i) as ->.
  { rewrite Z.shiftr_div_pow2 by lia. by apply Z.div_mul. }
  destruct (take_frame v i m (FrameMapping 1 pid (page_no m)) U Hi Hm Hu eq_refl) as (T1 & T2 & T3 & T4 & T5).
  split_and!; [done..| | |exact T5]; cbn [mem set_page set_ftable].
  - by rewrite Z.eqb_refl.
  - intros q Hq. by rewrite (proj2 (Z.eqb_neq _ _)).
Qed.

(** ** Writing entries *)

Lemma tables_ext v r L T T' : (∀ n, T n = T' n) → tables v r L T → tables v r L T'.
Proof using Type.
  intros E [? ? ? ? ? T6 T7]. split; try done; intros; rewrite <-E; eauto.
Qed.

Lemma store_word_entry v p i x :
  0 ≤ i < 1024 →
  store_word (p * PAGE_SIZE + 4 * i) x v =
    Ret tt (set_page p (set_word (mem v p) (Z.to_nat i) x) v).
Proof using Type. intros Hi. destruct (entry_addr p i Hi) as [E1 E2]. unfold store_word, modify. by rewrite E1, E2. Qed.

Lemma untouched_set v p x :
  untouched v → taken v p → length x = npage → untouched (set_page p x v).
Proof using Type.
  intros [U0 U1 U2 U3 U4 U5] Hp Hx. split; [done|done| |done| |done]; cbn [mem set_page].
  - intros n. by destruct (n =? p).
  - intros n Hn. destruct (Z.eqb_spec n p) as [->|]; [done|by apply U4].
Qed.

(** An entry of a leaf table. *)
Lemma tables_leaf v r L T u p i x :
  tables v r L T → L !! u = Some p → 0 ≤ i < 1024 → is_u32 x →
  tables (set_page p (set_word (mem v p) (Z.to_nat i) x) v) r L
    (λ n, if n =? u * 1024 + i then x else T n).
Proof using Type.
  clear sd rom type rnd. intros [T1 T2 T3 T4 T5 T6 T7] Hu Hi Hx. destruct (T3 u p Hu) as [Hp Hpr].
  split; [|done..| | |]; cbn [mem set_page].
  - apply untouched_set; [done..|]. apply set_page_word_length, (ut_page _ T1).
  - intros w Hw. rewrite (proj2 (Z.eqb_neq r p)) by done. by apply T5.
  - intros w q j Hw Hj. destruct (Z.eqb_spec q p) as [->|Hq].
    + assert (w = u) as -> by (by eapply T4).
      rewrite get_set_page_word by (done || apply (ut_page _ T1)).
      destruct (decide (j = i)) as [->|Hne]; [by rewrite Z.eqb_refl|].
      rewrite (proj2 (Z.eqb_neq _ _)) by lia. by apply T6.
    + rewrite (proj2 (Z.eqb_neq _ _)); [by apply T6|]. intros E.
      assert (w = u) as -> by lia. rewrite Hu in Hw. by injection Hw.
  - intros w j Hw Hj. rewrite (proj2 (Z.eqb_neq _ _)); [by apply T7|]. intros E.
    assert (w = u) as -> by lia. congruence.
Qed.

(** A new leaf table, in a page that is not one of the tables. *)
Lemma tables_new v r L T u p :
  tables v r L T → 0 ≤ u < 1024 → L !! u = None → taken v p → p ≠ r →
  (∀ w, L !! w ≠ Some p) → mem v p = replicate npage Byte.x00 →
  tables (set_page r (set_word (mem v r) (Z.to_nat u) (p * 1024 + 1)) v) r (<[u:=p]> L) T.
Proof using Type.
  clear sd rom type rnd. intros [T1 T2 T3 T4 T5 T6 T7] Hu HL Hp Hpr Hno Hz. pose proof (taken_range _ _ Hp).
  assert (Hx : is_u32 (p * 1024 + 1)) by (unfold is_u32; lia).
  split; [|done|..]; cbn [mem set_page].
  - apply untouched_set; [done..|]. apply set_page_word_length, (ut_page _ T1).
  - intros w q Hw. apply lookup_insert_Some in Hw as [[_ <-]|[_ Hw]]; [done|by eapply T3].
  - intros w w' q Hw Hw'. apply lookup_insert_Some in Hw as [[<- <-]|[_ Hw]];
      apply lookup_insert_Some in Hw' as [[<- ?]|[_ Hw']]; subst; [done| | |by eapply T4];
      exfalso; by eapply Hno.
  - intros w Hw. rewrite Z.eqb_refl, get_set_page_word by (done || apply (ut_page _ T1)).
    destruct (decide (w = u)) as [->|Hne]; [by rewrite lookup_insert_eq|].
    rewrite lookup_insert_ne by done. by apply T5.
  - intros w q j Hw Hj. apply lookup_insert_Some in Hw as [[<- <-]|[Hne Hw]].
    + rewrite (proj2 (Z.eqb_neq _ _)), Hz, T7 by done. by apply get_zero_entry.
    + destruct (T3 w q Hw) as [_ Hqr]. rewrite (proj2 (Z.eqb_neq _ _)) by done. by apply T6.
  - intros w j Hw Hj. apply lookup_insert_None in Hw as [Hw _]. by apply T7.
Qed.

(** ** Regions *)

Lemma pte_eq n flag :
  0 ≤ n < 2 ^ 20 → 0 ≤ flag < 1024 →
  Z.lor (Z.shiftr (u32 (n * PAGE_SIZE)) 2) flag = n * 1024 + flag ∧ is_u32 (n * 1024 + flag).
Proof using Type.
  intros Hn Hf. rewrite u32_small by (unfold is_u32; change PAGE_SIZE with 4096; lia).
  rewrite Z.shiftr_div_pow2 by lia. change PAGE_SIZE with (1024 * 2 ^ 2).
  rewrite Z.mul_assoc, Z.div_mul by done. split; [|unfold is_u32; lia].
  by apply (lor_low 10).
Qed.

(** The table after the pages from [b] on, [n] of them, were mapped. *)
Definition with_region (T : Z → Z) (b n flag : Z) (k : Z) : Z :=
  if decide (b ≤ k < b + n) then k * 1024 + flag else T k.

Lemma leaf_loop_spec n b flag : 0 ≤ b → 0 ≤ flag < 1024 → ∀ v r L T i,
  tables v r L T → 0 ≤ i → b mod 1024 + i + Z.of_nat n ≤ 1024 → b + i + Z.of_nat n ≤ 2 ^ 20 →
  ∀ p, L !! (b / 1024) = Some p →
  returns (leaf_loop n (p * PAGE_SIZE) (b mod 1024) (b * PAGE_SIZE) flag i) v (λ _ v',
    tables v' r L (with_region T (b + i) (Z.of_nat n) flag) ∧ ftable v' = ftable v).
Proof using Type.
  clear sd rom type rnd. intros Hb Hf.
  induction n as [|n IH]; intros v r L T i Ht Hi H1 H2 p Hp; cbn [leaf_loop].
  { apply returns_ret. split; [|done]. eapply tables_ext; [|done]. intros k. unfold with_region.
    by rewrite decide_False by lia. }
  pose proof (Z.mod_pos_bound b 1024 eq_refl).
  destruct (pte_eq (b + i) flag) as [E Hu]; [lia|done|].
  replace (b * PAGE_SIZE + i * PAGE_SIZE) with ((b + i) * PAGE_SIZE) by lia. rewrite E.
  apply returns_bind. eexists _, _. split; [apply store_word_entry; lia|].
  eapply returns_mono; [eapply IH; [by apply (tables_leaf v r L T (b / 1024)); [..|lia|]|lia..|done]|cbv beta].
  intros _ v' [Ht' Ef]. split; [|done]. eapply tables_ext; [|done]. intros k. unfold with_region.
  assert (b / 1024 * 1024 + (b mod 1024 + i) = b + i) as -> by (Z.to_euclidean_division_equations; lia).
  destruct (Z.eqb_spec k (b + i)) as [->|Hk].
  - by rewrite decide_False, decide_True by lia.
  - repeat case_decide; (done || lia).
Qed.

Lemma returns_on_vm {A} (m : M (mmu D) A) s (Q : A → pt_state D → Prop) :
  returns m (vm s) (λ a v', Q a (set_vm v' s)) → returns (on_vm m) s Q.
Proof using Type. intros (a & v' & E & HQ). exists a, (set_vm v' s). unfold on_vm. by rewrite E. Qed.

(** The leaf table that an entry of the root points to. *)
Lemma leaf_of_entry p :
  0 ≤ p < 2 ^ 20 → Z.land (u32 (Z.shiftl (p * 1024 + 1) 2)) 0xFFFFF000 = p * PAGE_SIZE.
Proof using Type.
  intros Hp. rewrite Z.shiftl_mul_pow2, u32_small by (unfold is_u32; lia).
  change 0xFFFFF000 with (Z.shiftl (Z.ones 20) 12).
  replace ((p * 1024 + 1) * 2 ^ 2) with (p * PAGE_SIZE + 4) by (change PAGE_SIZE with 4096; lia).
  apply Z.bits_inj'. intros n Hn. rewrite Z.land_spec, Z.shiftl_spec by lia.
  change PAGE_SIZE with (2 ^ 12). rewrite <-(lor_low 12), Z.lor_spec by lia.
  destruct (decide (n < 12)) as [Hlt|Hge].
  - rewrite (Z.testbit_neg_r (Z.ones 20)), Z.mul_pow2_bits_low by lia. apply andb_false_r.
  - assert (Z.testbit 4 n = false) as ->.
    { rewrite <-(Z.mod_small 4 (2 ^ 12)) by done. apply Z.mod_pow2_bits_high. lia. }
    rewrite orb_false_r, Z.mul_pow2_bits, <-(Z.mod_small p (2 ^ 20)) by lia.
    rewrite <-Z.land_ones, Z.land_spec by lia. by destruct (Z.testbit p _), (Z.testbit (Z.ones 20) _).
Qed.

(** The first half of [setup_identity_region]: afterwards there is a leaf table. *)
Definition find_leaf (pid vpn1 root e : Z) : M (pt_state D) unit :=
  if negb (Z.land e 0x1 =? 0) then modify (set_leaf (Z.land (u32 (Z.shiftl e 2)) 0xFFFFF000))
  else
    leaf ← on_vm (table_frame QEMU sd rom type rnd pid);
    _ ← modify (set_leaf leaf);
    on_vm (store_word (root + 4 * vpn1) (Z.lor (Z.shiftr leaf 2) 0x1)).

(** What the page tables do not touch. *)
Definition settings s := (pmpaddr0 s, pmpcfg0 s, satp s, translation s).
Record same_globals s s' : Prop := {
  sg_root : root s' = root s;
  sg_base : pid_to_pagetable_base s' = pid_to_pagetable_base s;
  sg_rest : settings s' = settings s;
}.

Lemma find_leaf_spec s r L T pid u :
  tables (vm s) r L T → root s = r * PAGE_SIZE → 0 ≤ u < 1024 → (0 < nfree (ftable (vm s)))%nat →
  returns (find_leaf pid u (root s) (match L !! u with Some p => p * 1024 + 1 | None => 0 end)) s
    (λ _ s', ∃ L' p, tables (vm s') r L' T ∧ L' !! u = Some p ∧ leaf s' = p * PAGE_SIZE ∧
      same_globals s s' ∧ (nfree (ftable (vm s)) ≤ S (nfree (ftable (vm s'))))%nat).
Proof using Type.
  intros Ht Hr Hu Hf. unfold find_leaf. destruct (L !! u) as [p|] eqn:EL.
  - destruct (tb_leaf _ _ _ _ Ht u p EL) as [Hp _]. pose proof (taken_range _ _ Hp).
    assert (Z.land (p * 1024 + 1) 1 = 1) as ->.
    { change 1 with (Z.ones 1) at 2. rewrite Z.land_ones by lia. change (2 ^ 1) with 2.
      Z.to_euclidean_division_equations. lia. }
    cbn [negb Z.eqb]. apply returns_modify. exists L, p. cbn [vm leaf set_leaf].
    rewrite leaf_of_entry by lia. split_and!; [done..|lia].
  - change (negb (Z.land 0 1 =? 0)) with false. cbv iota. apply returns_bind, returns_on_vm.
    destruct (Ht) as [U Hroot Hleaf _ _ _ _].
    eapply returns_mono; [by apply table_frame_spec|cbv beta].
    intros a v' (p & -> & U' & Hp & Hnew & Hkeep & Hz & Hmem & Hn).
    apply returns_bind, returns_modify, returns_on_vm.
    assert (Hpr : p ≠ r) by (by intros ->).
    assert (Hpl : ∀ w, L !! w ≠ Some p) by (intros w Hw; by destruct (Hleaf w p Hw)).
    pose proof (taken_range _ _ Hp). destruct (pte_eq p 1) as [E1 _]; [lia..|].
    rewrite u32_small in E1 by (unfold is_u32; change PAGE_SIZE with 4096; lia). rewrite E1, Hr.
    eexists _, _. split; [by apply store_word_entry|]. cbn [vm leaf set_vm set_leaf].
    exists (<[u:=p]> L), p. split_and!; [|apply lookup_insert_eq|done|done|done].
    apply tables_new; [|done..]. destruct Ht as [_ _ T3 T4 T5 T6 T7]. split; [done|by apply Hkeep| |done| | |done].
    + intros w q Hw. destruct (T3 w q Hw). by split; [apply Hkeep|].
    + intros w Hw. rewrite Hmem by done. by apply T5.
    + intros w q j Hw Hj. rewrite Hmem; [by eapply T6|]. intros ->. by eapply Hpl.
Qed.

Lemma setup_identity_region_spec s r L T pid b n flag :
  tables (vm s) r L T → root s = r * PAGE_SIZE → 0 ≤ b → 0 ≤ n → b + n ≤ 2 ^ 20 → b < 2 ^ 20 →
  b mod 1024 + n ≤ 1024 → 0 ≤ flag < 1024 → (0 < nfree (ftable (vm s)))%nat →
  returns (setup_identity_region QEMU sd rom type rnd pid (b * PAGE_SIZE) n flag) s (λ _ s', ∃ L',
    tables (vm s') r L' (with_region T b n flag) ∧ same_globals s s' ∧
    (nfree (ftable (vm s)) ≤ S (nfree (ftable (vm s'))))%nat).
Proof using Type.
  intros Ht Hr Hb Hn Hbn Hb2 Hmod Hf Hfree. unfold setup_identity_region.
  assert (Hu : Z.shiftr (b * PAGE_SIZE) 22 = b / 1024).
  { rewrite Z.shiftr_div_pow2 by lia. change (2 ^ 22) with (1024 * 4096). change PAGE_SIZE with 4096.
    by rewrite Z.div_mul_cancel_r. }
  assert (H0 : Z.land (Z.shiftr (b * PAGE_SIZE) 12) 0x3FF = b mod 1024).
  { rewrite Z.shiftr_div_pow2 by lia. change (2 ^ 12) with PAGE_SIZE. rewrite Z.div_mul by done.
    by apply (Z.land_ones b 10). }
  rewrite Hu, H0. assert (Hur : 0 ≤ b / 1024 < 1024) by (Z.to_euclidean_division_equations; lia).
  apply returns_bind, returns_gets, returns_bind, returns_on_vm, returns_gets. rewrite Hr, word_at_entry, (tb_entry _ _ _ _ Ht) by done.
  rewrite <-Hr. change (set_vm (vm s) s) with (PtState (vm s) (root s) (leaf s) (pid_to_pagetable_base s)
    (pmpaddr0 s) (pmpcfg0 s) (satp s) (translation s)). destruct s as [vms rs ls bs pa pc sa tr].
  cbn [vm root leaf pid_to_pagetable_base pmpaddr0 pmpcfg0 satp translation] in *.
  rcall (by apply (find_leaf_spec (PtState vms rs ls bs pa pc sa tr) r L T pid (b / 1024))).
  intros _ s1 (L' & p & Ht1 & Hp & Hl & Hg & Hn1).
  apply returns_bind, returns_gets, returns_on_vm. rewrite Hl.
  eapply returns_mono; [apply (leaf_loop_spec (Z.to_nat n) b flag Hb Hf _ r L' T 0 Ht1); [lia..|done]|cbv beta].
  intros _ v' [Ht2 Ef]. rewrite Z.add_0_r, Z2Nat.id in Ht2 by lia. exists L'. cbn [vm set_vm]. rewrite Ef.
  split_and!; [done| |done]. by destruct Hg.
Qed.

Definition region_has (k : Z) (reg : Z * Z) : Prop :=
  reg.1 / PAGE_SIZE ≤ k < reg.1 / PAGE_SIZE + reg.2.
#[local] Instance region_has_dec k reg : Decision (region_has k reg).
Proof using Type. unfold region_has. apply _. Defined.

(** Page-aligned, and within the part of the address space of one leaf table. *)
Record region_ok (reg : Z * Z) : Prop := {
  ro_aligned : reg.1 = reg.1 / PAGE_SIZE * PAGE_SIZE;
  ro_range : 0 ≤ reg.1 / PAGE_SIZE < 2 ^ 20 ∧ 0 ≤ reg.2;
  ro_end : reg.1 / PAGE_SIZE + reg.2 ≤ 2 ^ 20;
  ro_leaf : (reg.1 / PAGE_SIZE) mod 1024 + reg.2 ≤ 1024;
}.

Definition with_regions (T : Z → Z) (rs : list (Z * Z)) (k : Z) : Z :=
  if decide (Exists (region_has k) rs) then k * 1024 + OS_RWX else T k.

Lemma setup_regions_spec pid rs : Forall region_ok rs → ∀ s r L T,
  tables (vm s) r L T → root s = r * PAGE_SIZE → (length rs ≤ nfree (ftable (vm s)))%nat →
  returns (setup_regions QEMU sd rom type rnd pid rs) s (λ _ s', ∃ L',
    tables (vm s') r L' (with_regions T rs) ∧ same_globals s s').
Proof using Type.
  induction 1 as [|[a n] rs [R1 R2 R3 R4] _ IH]; intros s r L T Ht Hr Hn; cbn [setup_regions].
  { apply returns_ret. exists L. split; [|done]. eapply tables_ext; [|done]. intros k.
    unfold with_regions. by rewrite decide_False by (rewrite Exists_nil; auto). }
  cbn [fst snd length] in *.
  pose proof (setup_identity_region_spec s r L T pid (a / PAGE_SIZE) n OS_RWX Ht Hr ltac:(lia)
    ltac:(lia) R3 ltac:(lia) R4 ltac:(done) ltac:(lia)) as Hcall. rewrite <-R1 in Hcall.
  rcall (exact Hcall).
  intros _ s1 (L1 & Ht1 & [G1 G2 G3] & Hn1).
  eapply returns_mono; [apply (IH s1 r L1 _ Ht1); [congruence|lia]|cbv beta].
  intros _ s2 (L2 & Ht2 & [K1 K2 K3]). exists L2. split; [|split; congruence].
  eapply tables_ext; [|done]. intros k. unfold with_regions, with_region.
  destruct (decide (Exists (region_has k) rs)) as [He|He].
  - rewrite decide_True; [done|]. by right.
  - destruct (decide (a / PAGE_SIZE ≤ k < a / PAGE_SIZE + n)) as [Hk|Hk].
    + rewrite decide_True; [done|]. left. exact Hk.
    + rewrite decide_False; [done|]. rewrite Exists_cons. by intros [?|?].
Qed.

(** ** The processor's translation *)

Lemma land_low h l m : 0 ≤ l < 1024 → 0 ≤ m < 1024 → Z.land (h * 1024 + l) m = Z.land l m.
Proof using Type.
  intros Hl Hm.
  assert (E : Z.land m (Z.ones 10) = m) by (rewrite Z.land_ones by lia; by apply Z.mod_small).
  rewrite <-E at 1. rewrite (Z.land_comm m), Z.land_assoc, Z.land_ones by lia.
  change (2 ^ 10) with 1024. rewrite Z.add_comm, Z.mod_add, Z.mod_small by lia. done.
Qed.

Lemma shiftr_low h l : 0 ≤ l < 1024 → Z.shiftr (h * 1024 + l) 10 = h.
Proof using Type.
  intros Hl. rewrite Z.shiftr_div_pow2 by lia. change (2 ^ 10) with 1024.
  rewrite Z.div_add_l, Z.div_small by lia. lia.
Qed.

Definition satp_of (r : Z) : Z := Z.lor (Z.shiftr (r * PAGE_SIZE) 12) (Z.shiftl 1 31).

Lemma satp_root r :
  0 ≤ r < 2 ^ 20 → Z.land (satp_of r) (Z.shiftl 1 31) ≠ 0 ∧ Z.land (satp_of r) 0x3FFFFF = r.
Proof using Type.
  intros Hr. unfold satp_of. rewrite Z.shiftr_div_pow2 by lia. change (2 ^ 12) with PAGE_SIZE.
  rewrite Z.div_mul by done. split.
  - intros E. apply (f_equal (λ z, Z.testbit z 31)) in E.
    rewrite Z.land_spec, Z.lor_spec, orb_true_r in E. done.
  - rewrite Z.land_lor_distr_l. change 0x3FFFFF with (Z.ones 22). rewrite Z.land_ones by lia.
    rewrite Z.mod_small by lia. apply Z.lor_0_r.
Qed.

(** Only the pages of the tables matter. *)
Lemma walk_tables v r L T m va :
  tables v r L T → (∀ p, taken v p → m p = mem v p) → 0 ≤ va < 2 ^ 32 →
  let pte := T (va / PAGE_SIZE) in
  walk m (satp_of r) va =
    if (Z.land pte 0x1 =? 0) || (Z.land pte 0xE =? 0) then None
    else Some (Z.shiftr pte 10 * PAGE_SIZE + va mod PAGE_SIZE, Z.land pte 0x1F).
Proof using Type.
  clear sd rom type rnd. intros Ht Hm Hva pte. unfold walk. destruct (satp_root r) as [S1 S2].
  { pose proof (taken_range _ _ (tb_root _ _ _ _ Ht)). lia. }
  rewrite (proj2 (Z.eqb_neq _ _) S1), S2.
  assert (Hu : 0 ≤ Z.shiftr va 22 < 1024).
  { rewrite Z.shiftr_div_pow2 by lia. Z.to_euclidean_division_equations. lia. }
  assert (Hi : 0 ≤ Z.land (Z.shiftr va 12) 0x3FF < 1024).
  { change 0x3FF with (Z.ones 10). rewrite Z.land_ones by lia. by apply Z.mod_pos_bound. }
  assert (Hk : Z.shiftr va 22 * 1024 + Z.land (Z.shiftr va 12) 0x3FF = va / PAGE_SIZE).
  { change 0x3FF with (Z.ones 10). rewrite Z.land_ones, !Z.shiftr_div_pow2 by lia.
    change PAGE_SIZE with 4096. Z.to_euclidean_division_equations. lia. }
  rewrite word_at_entry, (Hm r (tb_root _ _ _ _ Ht)), (tb_entry _ _ _ _ Ht) by done.
  destruct (L !! Z.shiftr va 22) as [p|] eqn:EL.
  - rewrite !land_low, shiftr_low by lia. change (Z.land 1 1 =? 0) with false.
    change (negb (Z.land 1 14 =? 0)) with false. cbv iota.
    rewrite word_at_entry, (Hm p (proj1 (tb_leaf _ _ _ _ Ht _ _ EL))), (tb_pte _ _ _ _ Ht _ p _ EL), Hk by done.
    fold pte.
    change 0xFFF with (Z.ones 12). rewrite (Z.land_ones va) by lia. done.
  - assert (pte = 0) as -> by (unfold pte; rewrite <-Hk; by apply (tb_none _ _ _ _ Ht)). done.
Qed.
End tables.

(** ** The identity mapping *)

(** The regions that [pagetable_identity_mapping] maps. *)
Definition mapped (va : Z) : Prop := Exists (λ reg, reg.1 ≤ va < reg.1 + reg.2 * PAGE_SIZE) regions.
#[export] Instance mapped_dec va : Decision (mapped va).
Proof. unfold mapped. apply _. Defined.

Lemma regions_ok : Forall region_ok regions.
Proof.
  unfold regions. repeat constructor; by vm_compute.
Qed.

Lemma mapped_page va : Exists (region_has (va / PAGE_SIZE)) regions ↔ mapped va.
Proof.
  assert (Hreg : ∀ reg, region_ok reg →
    region_has (va / PAGE_SIZE) reg ↔ reg.1 ≤ va < reg.1 + reg.2 * PAGE_SIZE).
  { intros [a n] [R1 _ _ _]. unfold region_has. cbn [fst snd] in *. set (b := a / PAGE_SIZE) in *.
    rewrite R1. change PAGE_SIZE with 4096. Z.to_euclidean_division_equations. lia. }
  pose proof (proj1 (Forall_forall _ _) regions_ok) as Hok. unfold mapped. rewrite !Exists_exists.
  split; intros (reg & Hin & H); exists reg; (split; [done|]); by apply Hreg; [apply Hok|].
Qed.

Section mapping.
Context {D : Type} (sd : sd_driver D) (rom : Z → byte) (type : disk_type) (rnd : nat → Z).

Lemma identity_tables (s : pt_state D) pid :
  length (ftable (vm s)) = Z.to_nat NFRAMES → (∀ n, length (mem (vm s) n) = npage) →
  (16 ≤ nfree (ftable (vm s)))%nat → 0 ≤ pid < Z.of_nat (length (pid_to_pagetable_base s)) →
  returns (pagetable_identity_mapping QEMU sd rom type rnd pid) s (λ _ s', ∃ r L,
    tables (vm s) (vm s') r L (with_regions (λ _, 0) regions) ∧ root s' = r * PAGE_SIZE ∧
    pid_to_pagetable_base s' = <[Z.to_nat pid:=root s']> (pid_to_pagetable_base s) ∧
    settings s' = settings s).
Proof.
  intros Hl Hm Hf Hp. unfold pagetable_identity_mapping.
  assert (U : untouched (vm s) (vm s)) by (by split).
  apply returns_bind, returns_on_vm. eapply returns_mono; [apply (table_frame_spec sd rom type rnd (vm s)); [done|lia]|cbv beta].
  intros a v1 (r & -> & U1 & Hr & Hno & _ & Hz & _ & Hn). apply returns_bind, returns_modify.
  apply returns_bind, returns_gets. cbn [pid_to_pagetable_base set_root set_vm].
  apply returns_bind. eexists _, _. split; [by apply arr_set_eq|]. apply returns_bind, returns_modify.
  eapply returns_mono; [apply (setup_regions_spec sd rom type rnd (vm s) pid regions regions_ok _ r ∅ (λ _, 0))|cbv beta].
  - split; [done..| | | | |]; cbn [vm set_base set_root set_vm].
    + intros u p Hu. by rewrite lookup_empty in Hu.
    + intros u w p Hu. by rewrite lookup_empty in Hu.
    + intros u Hu. rewrite Hz, lookup_empty. by apply get_zero_entry.
    + intros u p i Hu. by rewrite lookup_empty in Hu.
    + done.
  - done.
  - change (length regions) with 15%nat. cbn [vm set_base set_root set_vm]. lia.
  - intros _ s' (L & Ht & [G1 G2 G3]). exists r, L. split; [done|]. by rewrite G1, G2, G3.
Qed.
End mapping.

(** The frames in use have the same contents in memory [m]. *)
Definition same_frames {D} (v : mmu D) (m : Z → page) : Prop :=
  ∀ i e, ftable v !! i = Some e → use e ≠ 0 →
    m (FRAME_PAGE + Z.of_nat i) = mem v (FRAME_PAGE + Z.of_nat i).

(** Frames in use, and memory outside the free frames, are as before. *)
Definition used_kept {D} (s s' : pt_state D) : Prop :=
  (∀ i m, ftable (vm s) !! i = Some m → use m ≠ 0 → ftable (vm s') !! i = Some m) ∧
  ∀ n, (∀ i m, n = FRAME_PAGE + Z.of_nat i → ftable (vm s) !! i = Some m → use m ≠ 0) →
    mem (vm s') n = mem (vm s) n.

Lemma identity_mapping_spec {D} (sd : sd_driver D) (rom : Z → byte) (type : disk_type)
    (rnd : nat → Z) (s : pt_state D) (pid : Z) :
  length (ftable (vm s)) = Z.to_nat NFRAMES → (∀ n, length (mem (vm s) n) = npage) →
  (16 ≤ nfree (ftable (vm s)))%nat → 0 ≤ pid < Z.of_nat (length (pid_to_pagetable_base s)) →
  returns (pagetable_identity_mapping QEMU sd rom type rnd pid) s (λ _ s',
    (∀ m va, same_frames (vm s') m → 0 ≤ va < 2 ^ 32 →
       walk m (Z.lor (Z.shiftr (root s') 12) (Z.shiftl 1 31)) va =
         if decide (mapped va) then Some (va, OS_RWX) else None) ∧
    settings s' = settings s ∧ used_kept s s' ∧ cache_slots (vm s') = cache_slots (vm s) ∧
    (∀ n, length (mem (vm s') n) = npage) ∧
    pid_to_pagetable_base s' !! Z.to_nat pid = Some (root s')).
Proof.
  intros Hl Hm Hf Hp. eapply returns_mono; [by apply identity_tables|cbv beta].
  intros _ s' (r & L & Ht & Hr & Hb & Hset). destruct (tb_ut _ _ _ _ _ Ht) as [_ U1 U2 U3 U4 U5]. split_and!.
  - intros m va Hsame Hva. rewrite Hr. change (Z.lor _ _) with (satp_of r).
    rewrite (walk_tables _ _ _ _ _ m va Ht); [|intros p (i & e & -> & Hi & He & Hu & _)|done].
    2:{ rewrite <-(Z2Nat.id i) by lia. by eapply Hsame. }
    unfold with_regions. pose proof (mapped_page va) as Hmap.
    destruct (decide (mapped va)), (decide (Exists (region_has (va / PAGE_SIZE)) regions)); [|tauto..|done].
    rewrite !land_low, shiftr_low by done. cbn [orb Z.land Z.eqb]. do 2 f_equal.
    symmetry. rewrite Z.mul_comm. by apply Z.div_mod.
  - done.
  - split; [done|]. intros n Hn. apply U4. intros (i & m & -> & Hi & _ & _ & m0 & H0 & Hu0).
    eapply (Hn (Z.to_nat i)); [lia|done|done].
  - done.
  - done.
  - rewrite Hb. apply list_lookup_insert_eq. lia.
Qed.

(** ** [mmu_init] *)

(** The user's choice: the first of [0] and [1] that is typed. *)
Fixpoint choice (input : list Z) : option Z :=
  match input with
  | [] => None
  | c :: input => if (c =? 0x30) || (c =? 0x31) then Some c else choice input
  end.

Lemma choose_spec {D} input : ∀ c (s : pt_state D), (c =? 0x30) || (c =? 0x31) = false →
  choose c input s = match choice input with Some c => Ret c s | None => Spin end.
Proof.
  induction input as [|c' input IH]; intros c s Hc; cbn [choose choice]; rewrite Hc; [done|].
  destruct ((c' =? 0x30) || (c' =? 0x31)) eqn:E; [|by apply IH].
  destruct input; cbn [choose]; by rewrite E.
Qed.

(** What [mmu_init] sets up: physical memory protection opens all of memory,
    and the processor translates the addresses of user code as [tr] says. *)
Record initialised {D} (t : translation_id) (tr : Z → option (Z * Z)) (s s' : pt_state D) : Prop := {
  in_translation : translation s' = t;
  in_pmp : pmpcfg0 s' = 0xF ∧ pmpaddr0 s' * 4 = 2 ^ 32;
  in_slots : cache_slots (vm s') = replicate (Z.to_nat ARTY_CACHED_NFRAMES) (-1);
  in_walk m va : same_frames (vm s') m → 0 ≤ va < 2 ^ 32 → walk m (satp s') va = tr va;
  in_page n : length (mem (vm s') n) = npage;
  in_kept : used_kept s s';
}.

Definition untranslated (va : Z) : option (Z * Z) := Some (va, 0x1F).
Definition identity_mapped (va : Z) : option (Z * Z) :=
  if decide (mapped va) then Some (va, OS_RWX) else None.

(** ** Frames for the tables

    [takes k m]: [m] takes at most [k] free frames, and gives them to nobody. *)

Definition clean (t : list frame_mapping) : Prop :=
  Forall (λ m, m = no_mapping ∨ m = FrameMapping 1 0 0) t.

Record spent {D} (k : nat) (v v' : mmu D) : Prop := {
  sp_clean : clean (ftable v');
  sp_len : length (ftable v') = length (ftable v);
  sp_curr : curr_vm_pid v' = curr_vm_pid v;
  sp_disk : pdisk v' = pdisk v;
  sp_free : (nfree (ftable v) ≤ k + nfree (ftable v'))%nat;
}.

Section takes.
Context {D S : Type} (get : S → mmu D).

Definition takes (k : nat) {A} (m : M S A) : Prop :=
  ∀ s a s', clean (ftable (get s)) → m s = Ret a s' → spent k (get s) (get s').

Lemma takes_bind {A B} k1 k2 (m : M S A) (f : A → M S B) :
  takes k1 m → (∀ a, takes k2 (f a)) → takes (k1 + k2) (m ≫= f).
Proof.
  intros H1 H2 s a s' Hc E. apply bind_ret_inv in E as (x & s1 & E1 & E2).
  destruct (H1 _ _ _ Hc E1) as [A1 A2 A3 A4 A5], (H2 x _ _ _ A1 E2) as [B1 B2 B3 B4 B5].
  split; [done|congruence..|lia].
Qed.

Lemma takes_same {A} (m : M S A) :
  (∀ s a s', m s = Ret a s' → ftable (get s') = ftable (get s) ∧
     curr_vm_pid (get s') = curr_vm_pid (get s) ∧ pdisk (get s') = pdisk (get s)) →
  takes 0 m.
Proof. intros H s a s' Hc E. destruct (H _ _ _ E) as (H1 & H2 & H3). split; congruence || by rewrite H1. Qed.
End takes.

Lemma takes_state {D S} (get : S → mmu D) {A} (f : S → A) (g : S → S) :
  takes get 0 (gets f) ∧ ((∀ s, ftable (get (g s)) = ftable (get s) ∧
    curr_vm_pid (get (g s)) = curr_vm_pid (get s) ∧ pdisk (get (g s)) = pdisk (get s)) →
    takes get 0 (modify g)).
Proof. split; [|intros Hg]; apply takes_same; intros s a s' [= <- <-]; [done|apply Hg]. Qed.

Lemma takes_pure {D S} (get : S → mmu D) {A} (m : M S A) :
  (∀ s a s', m s = Ret a s' → s' = s) → takes get 0 m.
Proof. intros H. apply takes_same. intros s a s' E. by rewrite (H _ _ _ E). Qed.

Section table_frames.
Context {D : Type} (sd : sd_driver D) (rom : Z → byte) (type : disk_type) (rnd : nat → Z).

Lemma clean_insert t i m : clean t → m = no_mapping ∨ m = FrameMapping 1 0 0 → clean (<[i:=m]> t).
Proof. intros Ht Hm. by apply Forall_insert. Qed.

Lemma set_entry_ret i m (v : mmu D) a v' :
  set_entry i m v = Ret a v' → v' = set_ftable (<[Z.to_nat i:=m]> (ftable v)) v.
Proof.
  unfold set_entry. rewrite gets_bind. unfold arr_set. destruct (_ && _); [|done]. by intros [= _ <-].
Qed.

Lemma store_page_ret a x (v : mmu D) r v' : store_page a x v = Ret r v' → ∃ n y, v' = set_page n y v.
Proof. intros [= _ <-]. by eexists _, _. Qed.

Lemma takes_table_frame : takes id 1 (table_frame (D := D) QEMU sd rom type rnd 0).
Proof.
  intros v a v' Hc E. unfold table_frame, mmu_alloc in E. unfold id in *.
  apply bind_ret_inv in E as ([f b] & v1 & E1 & E). rewrite gets_bind in E1.
  pose proof (first_unused_spec (ftable v) 0) as Hfu.
  destruct (first_unused (ftable v) 0) as [i|]; [|done].
  destruct Hfu as (Hi & m & Hl & Hu & _). rewrite Z.sub_0_r in Hl.
  pose proof (lookup_lt_Some _ _ _ Hl) as Hlt.
  assert (m = no_mapping) as ->.
  { destruct (Forall_lookup_1 _ _ _ _ Hc Hl) as [->| ->]; [done|by simpl in Hu]. }
  cbn [paging_read] in E1. apply bind_ret_inv in E1 as (z & v2 & [= <- <-] & E1). rewrite gets_bind in E1.
  rewrite (bind_ret_eq _ _ _ _ _ (arr_get_eq (ftable v) i v ltac:(lia))) in E1.
  rewrite (list_lookup_total_correct _ _ _ Hl) in E1.
  apply bind_ret_inv in E1 as (x & v3 & ->%set_entry_ret & [= <- <- <-]).
  apply bind_ret_inv in E as (t & v3 & [= <- <-] & E). cbn [ftable set_ftable] in E.
  set (t := <[Z.to_nat i:=_]> (ftable v)) in *.
  assert (Ht : length t = length (ftable v)) by apply length_insert.
  assert (Hti : t !!! Z.to_nat i = FrameMapping 1 0 0) by (by apply list_lookup_total_insert_eq).
  rewrite (bind_ret_eq _ _ _ _ _ (arr_get_eq t i _ ltac:(lia))), Hti in E.
  apply bind_ret_inv in E as (y & v4 & ->%set_entry_ret & E).
  apply bind_ret_inv in E as (w & v5 & (n & x5 & ->)%store_page_ret & [= _ <-]).
  pose proof (nfree_insert (ftable v) (Z.to_nat i) _ (FrameMapping 1 0 0) Hl) as Hn. simpl in Hn.
  split; cbn [ftable set_ftable set_page use page_no curr_vm_pid pdisk]; unfold t;
    rewrite ?list_insert_insert_eq; [|by rewrite length_insert|done|done|lia].
  apply clean_insert; [done|by right].
Qed.

Lemma takes_leaf_loop n : ∀ (l vpn0 addr flag i : Z), takes id 0 (leaf_loop (D := D) n l vpn0 addr flag i).
Proof.
  induction n as [|n IH]; intros l vpn0 addr flag i; cbn [leaf_loop]; [by apply takes_pure; intros s a s' [= _ <-]|].
  apply (takes_bind id 0 0); [by apply (takes_state id id)|]. intros _. apply IH.
Qed.

Lemma takes_on_vm {A} k (m : M (mmu D) A) : takes id k m → takes vm k (on_vm m).
Proof.
  intros Hm s a s' Hc E. unfold on_vm in E. destruct (m (vm s)) eqn:Em; simplify_eq/=.
  by apply (Hm (vm s) a).
Qed.

Lemma takes_region addr npages flag :
  takes vm 1 (setup_identity_region (D := D) QEMU sd rom type rnd 0 addr npages flag).
Proof.
  unfold setup_identity_region. apply (takes_bind _ 0 1); [by apply (takes_state vm root id)|]. intros r.
  apply (takes_bind _ 0 1); [by apply takes_on_vm, (takes_state id _ id)|]. intros e.
  apply (takes_bind _ 1 0).
  - destruct (negb _).
    + intros s a s' Hc [= _ <-]. by split; simpl; [..|lia].
    + apply (takes_bind _ 1 0); [by apply takes_on_vm, takes_table_frame|]. intros l.
      apply (takes_bind _ 0 0); [by apply (takes_state vm root)|]. intros _.
      by apply takes_on_vm, (takes_state id id).
  - intros _. cbv zeta. apply (takes_bind _ 0 0); [by apply (takes_state vm leaf id)|]. intros l.
    apply takes_on_vm, takes_leaf_loop.
Qed.

Lemma takes_regions rs : takes vm (length rs) (setup_regions (D := D) QEMU sd rom type rnd 0 rs).
Proof.
  induction rs as [|[a n] rs IH]; cbn [setup_regions length]; [by apply takes_pure; intros s ? s' [= _ <-]|].
  apply (takes_bind _ 1); [apply takes_region|by intros _].
Qed.

(** The root and one table for each region. *)
Lemma takes_translation c : takes vm 16 (use_translation (D := D) QEMU sd rom type rnd c).
Proof.
  unfold use_translation. destruct (c =? 0x30); [|intros s a s' Hc [= _ <-]; by split; simpl; [..|lia]].
  apply (takes_bind _ 0 16); [by apply (takes_state vm root)|]. intros _.
  apply (takes_bind _ 16 0).
  - unfold pagetable_identity_mapping. apply (takes_bind _ 1 15); [apply takes_on_vm, takes_table_frame|].
    intros r. do 2 (apply (takes_bind _ 0 15); [by apply (takes_state vm pid_to_pagetable_base)|]; intros ?).
    apply (takes_bind _ 0 15).
    { apply takes_pure. intros s x s'. unfold arr_set. destruct (_ && _); [by intros [= _ <-]|done]. }
    intros l. apply (takes_bind _ 0 15); [by apply (takes_state vm root)|]. intros _. apply takes_regions.
  - intros _. apply (takes_bind _ 0 0); [by apply (takes_state vm root id)|]. intros r.
    by apply (takes_state vm root).
Qed.
End table_frames.

(** What [mmu_start] leaves alone: memory and the frame table. *)
Record started {D} (s s' : pt_state D) : Prop := {
  st_init : initialised SOFT_TLB untranslated s s';
  st_base : pid_to_pagetable_base s' = pid_to_pagetable_base s;
  st_vm : vm s' = set_slots (replicate (Z.to_nat ARTY_CACHED_NFRAMES) (-1)) (vm s);
}.

Lemma mmu_start_spec {D} (s : pt_state D) :
  satp s = 0 → (∀ n, length (mem (vm s) n) = npage) → ∃ s', mmu_start s = Ret tt s' ∧ started s s'.
Proof.
  intros Hs Hm. eexists. split; [reflexivity|]. split; [|done|done].
  split; [done..| |done|done]. intros m va _ _. cbn [satp set_translation set_pmp set_vm]. by rewrite Hs.
Qed.

Lemma use_translation_spec {D} (sd : sd_driver D) (rom : Z → byte) (type : disk_type)
    (rnd : nat → Z) (s s1 : pt_state D) (c : Z) :
  length (ftable (vm s)) = Z.to_nat NFRAMES → (∀ n, length (mem (vm s) n) = npage) →
  (16 ≤ nfree (ftable (vm s)))%nat → length (pid_to_pagetable_base s) = 32%nat → started s s1 →
  returns (use_translation QEMU sd rom type rnd c) s1 (λ _,
    if c =? 0x30 then initialised PAGE_TABLE identity_mapped s
    else initialised SOFT_TLB untranslated s).
Proof.
  intros Hl Hm Hf Hb [[I1 I2 I3 I4 I5 I6] Eb Ev]. unfold use_translation. destruct (c =? 0x30).
  - apply returns_bind, returns_modify.
    rcall (apply identity_mapping_spec; cbn [vm set_translation pid_to_pagetable_base];
      rewrite ?Ev, ?Eb; try done). { by rewrite Hb. }
    intros _ s2 (Hw & Hset & Hk & Hsl & Hp & _). apply returns_bind, returns_gets, returns_modify.
    unfold settings in Hset. injection Hset as S1 S2 S3 S4. cbn [vm set_translation] in *.
    split; [exact S4| |by rewrite <-I3|exact Hw|exact Hp|].
    2:{ unfold used_kept in Hk. cbn [vm set_translation] in Hk. by rewrite Ev in Hk. }
    change (pmpcfg0 s2 = 0xF ∧ pmpaddr0 s2 * 4 = 2 ^ 32). by rewrite S1, S2.
  - apply returns_modify. by split.
Qed.

(** C17: Memory translation at boot.  On the Arty board [mmu_init] chooses the
    software TLB; on QEMU the choice is the first [0] or [1] that the user types
    ([mmu_init] waits for one).  With page tables the processor then translates
    every 32-bit address in the regions of the memory map to itself, readable,
    writable and executable, and faults on every other address; without them no
    address is translated.  The tables are in frames that were free; no other
    page of memory and no entry of a frame in use has changed, and the translation
    stays the same while the frames in use keep their contents. *)
Theorem mmu_init_correct {D} (platform : platform_id) (sd : sd_driver D) (rom : Z → byte)
    (type : disk_type) (rnd : nat → Z) (s : pt_state D) (input : list Z) :
  length (ftable (vm s)) = Z.to_nat NFRAMES → (∀ n, length (mem (vm s) n) = npage) →
  (16 ≤ nfree (ftable (vm s)))%nat → length (pid_to_pagetable_base s) = 32%nat → satp s = 0 →
  match platform, choice input with
  | ARTY, _ =>
      returns (mmu_init ARTY sd rom type rnd input) s (λ _, initialised SOFT_TLB untranslated s)
  | QEMU, Some c =>
      returns (mmu_init QEMU sd rom type rnd input) s (λ _,
        if c =? 0x30 then initialised PAGE_TABLE identity_mapped s
        else initialised SOFT_TLB untranslated s)
  | QEMU, None => mmu_init QEMU sd rom type rnd input s = Spin
  end.
Proof.
  intros Hl Hm Hf Hb Hs. unfold mmu_init. destruct (mmu_start_spec s Hs Hm) as (s1 & E1 & H1).
  destruct platform.
  - rewrite decide_False by done. destruct (choice input) as [c|] eqn:Ec.
    + apply returns_bind. exists tt, s1. split; [done|]. apply returns_bind. exists c, s1.
      split; [by rewrite choose_spec, Ec|]. by apply use_translation_spec.
    + mrun E1. unfold mbind, M_bind. by rewrite choose_spec, Ec.
  - rewrite decide_True by done. apply returns_bind. exists tt, s1. split; [done|].
    apply returns_ret, H1.
Qed.

(** A machine at boot: all frames free, no translation. *)
Definition boot_pt : pt_state (gmap Z block) :=
  PtState (Mmu (replicate (Z.to_nat NFRAMES) no_mapping) (-1) (replicate 28 0)
    (λ _, replicate npage Byte.x00) ∅ 0) 0 0 (replicate 32 0) 0 0 0 SOFT_TLB.

(** The user types a wrong character and then [0]; the address of the UART is
    mapped, the one of the GPIO controller is not. *)
Lemma mmu_init_correct_witness : ∃ s',
  mmu_init QEMU mem_sd (λ _, Byte.x00) SD_CARD Z.of_nat [0x41; 0x30] boot_pt = Ret tt s' ∧
  translation s' = PAGE_TABLE ∧ walk (mem (vm s')) (satp s') 0x10013004 = Some (0x10013004, OS_RWX) ∧
  walk (mem (vm s')) (satp s') 0x10012000 = None.
Proof.
  destruct (mmu_init_correct QEMU mem_sd (λ _, Byte.x00) SD_CARD Z.of_nat boot_pt [0x41; 0x30])
    as ([] & s' & E & [I1 _ _ I4 _ _]).
  - reflexivity.
  - intros n. apply length_replicate.
  - apply Nat.leb_le. vm_compute. reflexivity.
  - reflexivity.
  - reflexivity.
  - exists s'. split; [exact E|]. split; [exact I1|].
    assert (Hs : same_frames (vm s') (mem (vm s'))) by (intros i e _ _; reflexivity).
    split; (rewrite (I4 _ _ Hs) by lia); vm_compute; reflexivity.
Defined.
