(* ===== verification/Elf.v ===== *)
(** * The ELF loader

    library/elf/elf.c: the kernel and the applications are loaded from ELF files
    that are read block by block.  The reader, one of the functions that the
    callers pass ([grass_read], [sys_proc_read], [app_read]), is an argument: it
    gives a block of the file and may change the state (the disk).  Memory and
    frames are those of Mmu.v.  Progress messages are left out. *)

From coqutil Require Import Byte Word.LittleEndianList.
From S2P Require Import Prelude Layout Blocks Ramdisk FsDisk Paging Mmu.

(** ** Bytes in memory *)

Section memory.
Context {D : Type}.
Implicit Types s : mmu D.

(** The bytes [bs] at address [a], page by page; [k] is at least the number of
    pages they touch. *)
Fixpoint put_bytes (k : nat) (a : Z) (bs : list byte) s : mmu D :=
  match k, bs with
  | S k, _ :: _ =>
      let o := a mod PAGE_SIZE in
      let room := Z.to_nat (PAGE_SIZE - o) in
      let n := Z.shiftr a 12 in
      put_bytes k (a + (PAGE_SIZE - o)) (drop room bs)
        (set_page n (overwrite (mem s n) (Z.to_nat o) (take room bs)) s)
  | _, _ => s
  end.
Definition store_bytes (a : Z) (bs : list byte) : M (mmu D) unit :=
  modify (put_bytes (Z.to_nat (Z.of_nat (length bs) / PAGE_SIZE + 2)) a bs).

(** [memset(a, 0, n)] *)
Definition zero_bytes (a n : Z) : M (mmu D) unit :=
  store_bytes a (replicate (Z.to_nat n) Byte.x00).
End memory.

(** ** ELF headers (library/elf/elf.h) *)

Record elf32_program_header := ProgramHeader {
  p_offset : Z;
  p_vaddr : Z;
  p_filesz : Z;
  p_memsz : Z;
}.

(** A little-endian field of [n] bytes at offset [o] of a buffer. *)
Definition field {S} (buf : list byte) (o : Z) (n : nat) : M S Z :=
  if (0 <=? o) && (o + Z.of_nat n <=? Z.of_nat (length buf))
  then mret (le_combine (take n (drop (Z.to_nat o) buf)))
  else undef "field outside the buffer".

Definition e_phoff {S} (buf : list byte) : M S Z := field buf 28 4.
Definition e_phnum {S} (buf : list byte) : M S Z := field buf 44 2.

(** [pheader[i]], at [e_phoff] in the buffer. *)
Definition get_pheader {S} (buf : list byte) (phoff i : Z) : M S elf32_program_header :=
  let o := phoff + 32 * i in
  offset ← field buf (o + 4) 4;
  vaddr ← field buf (o + 8) 4;
  filesz ← field buf (o + 16) 4;
  memsz ← field buf (o + 20) 4;
  mret (ProgramHeader offset vaddr filesz memsz).

Section loader.
Context {D : Type} (platform : platform_id).
Context (sd : sd_driver D) (rom : Z → byte) (type : disk_type) (rnd : nat → Z).
Context (translation : translation_id).
Implicit Types s : mmu D.

Definition mmu_map (pid page_no frame_no : Z) : M (mmu D) unit :=
  match translation with
  | SOFT_TLB => soft_tlb_map pid page_no frame_no
  | PAGE_TABLE => page_table_map pid page_no frame_no
  end.

(** The rounds of a loop over a file of [filesz] bytes. *)
Definition rounds (filesz : Z) : nat := Z.to_nat (filesz / BLOCK_SIZE + 2).

(** A frame for page [n] of the process: its place in memory. *)
Definition give_page (pid n : Z) : M (mmu D) Z :=
  '(frame_no, base) ← mmu_alloc platform sd rom type rnd;
  _ ← mmu_map pid n frame_no;
  mret base.

(** [while (code_start < ((APPS_ENTRY + APPS_SIZE) >> 12))] *)
Fixpoint bss_loop (pid : Z) (n : nat) (code_start : Z) : M (mmu D) unit :=
  match n with
  | O => spin
  | S n =>
      if code_start <? Z.shiftr (APPS_ENTRY + APPS_SIZE) 12 then
        base ← give_page pid code_start;
        _ ← zero_bytes base PAGE_SIZE;
        bss_loop pid n (code_start + 1)
      else mret tt
  end.

(** [for (int i = 0; i < argc; i++) argv_addr[i] = ...] *)
Fixpoint argv_loop (n : nat) (base i : Z) : M (mmu D) unit :=
  match n with
  | O => mret tt
  | S n =>
      _ ← store_bytes (base + 4 + 4 * i)
            (le_split 4 (APPS_ARG + 4 + 4 * CMD_NARGS + i * CMD_ARG_LEN));
      argv_loop n base (i + 1)
  end.

(** ** The loader

    The reader runs in a monad [T] of its own: [app_read] exchanges messages with
    the file server. *)

Context {T : Type → Type} `{!MRet T, !MBind T, !Lift (mmu D) T}.
Context (reader : Z → T block).

(** [for (int off = 0; off < pheader->p_filesz; off += BLOCK_SIZE)
       reader(block_offset++, entry + off);] *)
Fixpoint grass_loop (n : nat) (filesz off block_offset : Z) : T unit :=
  match n with
  | O => lift spin
  | S n =>
      if off <? filesz then
        blk ← reader block_offset;
        _ ← lift (store_bytes (GRASS_ENTRY + off) blk);
        grass_loop n filesz (off + BLOCK_SIZE) (block_offset + 1)
      else mret tt
  end.

(** The size of the last [memset] is unsigned: with a file larger than
    [GRASS_SIZE] it runs over the end of memory. *)
Definition load_grass (ph : elf32_program_header) : T unit :=
  _ ← grass_loop (rounds (p_filesz ph)) (p_filesz ph) 0 (p_offset ph / BLOCK_SIZE);
  if GRASS_SIZE <? p_filesz ph then lift (undef "memset")
  else lift (zero_bytes (GRASS_ENTRY + p_filesz ph) (GRASS_SIZE - p_filesz ph)).

(** The first loop of [load_app]; it returns [code_start] and [base].  The
    first round sets [base]. *)
Fixpoint code_loop (pid : Z) (n : nat) (filesz off block_offset code_start base : Z) :
    T (Z * Z) :=
  match n with
  | O => lift spin
  | S n =>
      if off <? filesz then
        '(code_start, base) ←
          (if off mod PAGE_SIZE =? 0 then
             base ← lift (give_page pid code_start);
             mret (code_start + 1, base)
           else mret (code_start, base));
        blk ← reader block_offset;
        _ ← lift (store_bytes (base + off mod PAGE_SIZE) blk);
        code_loop pid n filesz (off + BLOCK_SIZE) (block_offset + 1) code_start base
      else mret (code_start, base)
  end.

(** [argv] is the array of [CMD_ARG_LEN]-byte strings that [req->argv] is, or
    [NULL]. *)
Definition load_app (pid argc : Z) (argv : option (list byte)) (ph : elf32_program_header) :
    T unit :=
  let filesz := p_filesz ph in
  '(code_start, base) ← code_loop pid (rounds filesz) filesz 0 (p_offset ph / BLOCK_SIZE)
                          (Z.shiftr APPS_ENTRY 12) 0;
  let last_page_filled := filesz mod PAGE_SIZE in
  let last_page_nzeros := PAGE_SIZE - last_page_filled in
  _ ← (if last_page_filled =? 0 then mret tt
       else lift (zero_bytes (base + last_page_filled) last_page_nzeros));
  _ ← lift (bss_loop pid (Z.to_nat (APPS_SIZE / PAGE_SIZE + 1)) code_start);
  let stack_start := Z.shiftr APPS_ARG 12 in
  base ← lift (give_page pid stack_start);
  _ ← lift (store_bytes base (le_split 4 argc));
  _ ← match argv with
      | Some a =>
          if (0 <=? argc) && (argc * CMD_ARG_LEN <=? Z.of_nat (length a))
          then lift (store_bytes (base + 4 + 4 * CMD_NARGS) (take (Z.to_nat (argc * CMD_ARG_LEN)) a))
          else lift (undef "memcpy")
      | None => mret tt
      end;
  _ ← lift (argv_loop (Z.to_nat argc) base 0);
  _ ← lift (give_page pid (stack_start + 1));
  mret tt.

Definition load_header (pid argc : Z) (argv : option (list byte)) (ph : elf32_program_header) :
    T unit :=
  if p_memsz ph =? 0 then mret tt
  else if p_vaddr ph =? GRASS_ENTRY then load_grass ph
  else if p_vaddr ph =? APPS_ENTRY then load_app pid argc argv ph
  else lift (fatal "elf_load: Invalid p_vaddr").

(** The loop over the program headers. *)
Fixpoint pheader_loop (pid argc : Z) (argv : option (list byte)) (buf : block) (phoff : Z)
    (n : nat) (i : Z) : T unit :=
  match n with
  | O => mret tt
  | S n =>
      ph ← lift (get_pheader buf phoff i);
      _ ← load_header pid argc argv ph;
      pheader_loop pid argc argv buf phoff n (i + 1)
  end.

Definition elf_load (pid argc : Z) (argv : option (list byte)) : T unit :=
  buf ← reader 0;
  phoff ← lift (e_phoff buf);
  phnum ← lift (e_phnum buf);
  pheader_loop pid argc argv buf phoff (Z.to_nat phnum) 0.
End loader.

(** The readers of earth/earth.c, grass/grass.c and apps/system/sys_proc.c for
    the executables of the kernel: block [block_no] after [start]. *)
Definition exec_read {D} (sd : sd_driver D) (rom : Z → byte) (type : disk_type) (start : Z)
    (block_no : Z) : M (mmu D) block :=
  '(_, blk) ← on_disk (earth_disk_read sd rom type (start + block_no) 1);
  mret blk.
