(* ===== verification/SysProc.v ===== *)
(** * The process server

    apps/system/sys_proc.c as user code.  It starts the other servers, then starts
    and ends applications on request.  It calls [proc_alloc], [proc_free] and
    [proc_set_ready] of the kernel and the loader directly, so its code acts on
    the process table and on the memory ([world]); the program of an application
    is read through the file server, in the middle of the loader.

    The static variable [app_pid] and the local [shell_waiting] of [main] are
    arguments of the loop; [app_ino] is an argument of [app_read]. *)

From coqutil Require Import Byte Word.LittleEndianList.
From S2P Require Import Prelude Layout Blocks Store Ramdisk FsDisk Earth Process Dir.
From S2P Require Import Paging Mmu Elf User Servers.

Record world (D : Type) := World {
  procs : table;
  nprocs : Z;
  vm : mmu D;
}.
Arguments World {D} _ _ _.
Arguments procs {D} _.
Arguments nprocs {D} _.
Arguments vm {D} _.

Section world.
Context {D : Type}.
Implicit Types w : world D.

Definition set_vm (v : mmu D) w : world D := World (procs w) (nprocs w) v.
Definition on_vm {A} (m : M (mmu D) A) : M (world D) A := λ w,
  match m (vm w) with
  | Ret a v => Ret a (set_vm v w)
  | Fatal why v => Fatal why (set_vm v w)
  | Undef why => Undef why
  | Spin => Spin
  end.

(** The loader as part of user code. *)
#[export] Instance lift_vm : Lift (mmu D) (U (world D)) := λ A m, act (on_vm m).

(** The file server's store, on the disk. *)
Definition on_disk {A} (m : M D A) : M (world D) A := on_vm (Paging.on_disk m).
Definition world_fs (fs : inode_store D) : inode_store (world D) :=
  InodeStore (λ ino, on_disk (getsize fs ino)) (λ ino n, on_disk (setsize fs ino n))
    (λ ino b buf, on_disk (read fs ino b buf)) (λ ino b blk, on_disk (write fs ino b blk)).

(** [grass->proc_alloc], [grass->proc_free] and [grass->proc_set_ready] *)
Definition grass_proc_alloc : M (world D) Z :=
  w ← gets id;
  match proc_alloc (procs w) (nprocs w) with
  | Some (pid, ps) => _ ← modify (λ w, World ps pid (vm w)); mret pid
  | None => fatal "proc_alloc: reach the limit of 16 processes"
  end.
Definition grass_proc_free (pid : Z) : M (world D) unit :=
  ps ← gets procs;
  ps' ← on_vm (proc_free mmu_free pid ps);
  modify (λ w, World ps' (nprocs w) (vm w)).
Definition grass_proc_set_ready (pid : Z) : M (world D) unit :=
  modify (λ w, World (proc_set_ready pid (procs w)) (nprocs w) (vm w)).
End world.

Section sys_proc.
Context {D : Type} (platform : platform_id).
Context (sd : sd_driver D) (rom : Z → byte) (type : disk_type) (rnd : nat → Z).
Context (translation : translation_id) (junk : list byte) (writes : string → list Z → list (Z * Z)).

(** [req->argc], [req->argv] as bytes, and [req->argv[req->argc - 1][0]]. *)
Definition req_argc (buf : list byte) : Z := int_at buf 4.
Definition req_argv (buf : list byte) : list byte := bytes_at buf 8 (16 * 32).
Definition last_arg (buf : list byte) : U (world D) byte :=
  let i := req_argc buf - 1 in
  if (0 <=? i) && (i <? CMD_NARGS)
  then mret (req_argv buf !!! Z.to_nat (i * CMD_ARG_LEN))
  else act (undef "argv").
Definition amp : byte := Byte.x26.

(** [file_read] copies the block whatever the status of the reply is. *)
Definition app_read (app_ino off : Z) : U (world D) block :=
  '(_, blk) ← file_read junk app_ino off; mret blk.

(** The result and [app_pid]. *)
Definition app_spawn (buf : list byte) (app_pid : Z) : U (world D) (Z * Z) :=
  bin_ino ← dir_lookup junk 0 (chars "bin/");
  name ← cstring buf 8;
  app_ino ← dir_lookup junk bin_ino name;
  if app_ino <? 0 then mret (-1, app_pid)
  else
    app_pid ← act grass_proc_alloc;
    c ← last_arg buf;
    let argc := if decide (c = amp) then req_argc buf - 1 else req_argc buf in
    _ ← elf_load platform sd rom type rnd translation (app_read app_ino) app_pid argc
          (Some (req_argv buf));
    _ ← act (grass_proc_set_ready app_pid);
    mret (0, app_pid).

Definition sys_proc_read (base block_no : Z) : U (world D) block :=
  lift (exec_read sd rom type base block_no).

(** [sysproc_names[pid - 1]] has four entries. *)
Definition sys_spawn (base : Z) : U (world D) unit :=
  pid ← act grass_proc_alloc;
  _ ← (if (1 <=? pid) && (pid <=? 4) then print writes "Load kernel process #%d: %s" [pid]
       else act (undef "sysproc_names"));
  _ ← elf_load platform sd rom type rnd translation (sys_proc_read base) pid 0 None;
  act (grass_proc_set_ready pid).

(** [grass->sys_send(GPID_SHELL, (void * )reply, sizeof(reply))], the size being
    that of a pointer. *)
Definition reply_shell (buf : list byte) : U (world D) unit :=
  _ ← sys_send GPID_SHELL buf 4; mret tt.

(** One request; the new [shell_waiting] and [app_pid]. *)
Definition proc_handle (sender : Z) (buf : list byte) (shell_waiting : bool) (app_pid : Z) :
    U (world D) (bool * Z) :=
  let req := int_at buf 0 in
  if req =? PROC_SPAWN then
    '(rc, app_pid) ← app_spawn buf app_pid;
    let buf := overwrite buf 0 (le_split 4 (if rc <? 0 then CMD_ERROR else CMD_OK)) in
    c ← last_arg buf;
    let shell_waiting := negb (bool_decide (c = amp)) in
    _ ← (if negb shell_waiting && (0 <? app_pid)
         then print writes "process %d running in the background" [app_pid] else mret tt);
    _ ← reply_shell buf;
    mret (shell_waiting, app_pid)
  else if req =? PROC_EXIT then
    _ ← act (grass_proc_free sender);
    _ ← (if shell_waiting && (app_pid =? sender) then reply_shell buf
         else print writes "background process %d terminated" [sender]);
    mret (shell_waiting, app_pid)
  else if req =? PROC_KILLALL then
    _ ← act (grass_proc_free (-1));
    _ ← (if shell_waiting then reply_shell buf else mret tt);
    mret (shell_waiting, app_pid)
  else halt "sys_proc: invalid request".

Fixpoint proc_loop (n : nat) (shell_waiting : bool) (app_pid : Z) : U (world D) unit :=
  match n with
  | O => act spin
  | S n =>
      '(sender, buf) ← recv_msg;
      '(shell_waiting, app_pid) ← proc_handle sender buf shell_waiting app_pid;
      proc_loop n shell_waiting app_pid
  end.

(** [shell_waiting] is not initialised: [waiting0] is its value at the start. *)
Definition sys_proc (n : nat) (waiting0 : bool) : U (world D) unit :=
  _ ← print writes "Enter kernel process GPID_PROCESS" [];
  _ ← sys_spawn SYS_FILE_EXEC_START;
  '(_, buf) ← recv_msg;
  s ← cstring buf 0;
  _ ← print writes "sys_proc receives: %s" (byte.unsigned <$> s);
  _ ← sys_spawn SYS_DIR_EXEC_START;
  '(_, buf) ← recv_msg;
  s ← cstring buf 0;
  _ ← print writes "sys_proc receives: %s" (byte.unsigned <$> s);
  _ ← sys_spawn SYS_SHELL_EXEC_START;
  proc_loop n waiting0 0.
End sys_proc.
