(* ===== verification/ElfCorrect.v ===== *)
(** * Correctness of the ELF loader

    [given] describes the pages that a process that is being loaded has got so
    far; the lemmas say what allocation, writes and reads of the file do to it.
    The theorems: an application's address space holds the bytes of its ELF
    segment, zeros after them, and the arguments where its start code looks for
    them; the kernel's image is where the processor jumps to. *)

From coqutil Require Import Byte Word.LittleEndianList.
From S2P Require Import Prelude Layout Blocks Ramdisk FsDisk FsCorrect Paging PagingOps.
From S2P Require Import Mmu MmuOps MmuCorrect Elf.

(** ** Bytes in pages *)

(** A prefix that is extended by what is written behind it. *)
Lemma overwrite_prefix x o bs (l : list byte) :
  (o + length bs ≤ length x)%nat → take o x = take o l →
  bs = take (length bs) (drop o l) → take (o + length bs) (overwrite x o bs) = take (o + length bs) l.
Proof.
  intros H Hp Hbs. unfold overwrite.
  rewrite (assoc_L app), take_app_length' by (rewrite length_app, length_take; lia).
  rewrite Hp. rewrite <-take_take_drop. by rewrite <-Hbs.
Qed.

(** A write that stays in one page. *)
Lemma store_bytes_page {D} (a : Z) (bs : list byte) (s : mmu D) :
  bs ≠ [] → a mod PAGE_SIZE + Z.of_nat (length bs) ≤ PAGE_SIZE →
  store_bytes a bs s = Ret tt (set_page (Z.shiftr a 12)
    (overwrite (mem s (Z.shiftr a 12)) (Z.to_nat (a mod PAGE_SIZE)) bs) s).
Proof.
  intros Hbs Hle. pose proof (Z.mod_pos_bound a PAGE_SIZE ltac:(done)).
  unfold store_bytes, modify. f_equal.
  replace (Z.to_nat (Z.of_nat (length bs) / PAGE_SIZE + 2))
    with (S (S (Z.to_nat (Z.of_nat (length bs) / PAGE_SIZE))))
    by (pose proof (Z.div_pos (Z.of_nat (length bs)) PAGE_SIZE); lia).
  destruct bs as [|b bs]; [done|]. cbn [put_bytes].
  rewrite (take_ge (b :: bs)), (drop_ge (b :: bs)) by lia. done.
Qed.

(** An offset in a page of the frame cache. *)
Lemma cache_addr k o :
  0 ≤ o < PAGE_SIZE →
  Z.shiftr (pages_start + PAGE_SIZE * k + o) 12 = FRAME_PAGE + k ∧
  (pages_start + PAGE_SIZE * k + o) mod PAGE_SIZE = o.
Proof.
  intros Ho. unfold FRAME_PAGE. rewrite !Z.shiftr_div_pow2 by lia.
  change (2 ^ 12) with PAGE_SIZE. unfold pages_start. change FRAME_CACHE_START with (0x80004 * PAGE_SIZE).
  replace (0x80004 * PAGE_SIZE + PAGE_SIZE * k + o) with (o + (0x80004 + k) * PAGE_SIZE) by lia.
  rewrite Z.div_add, Z.mod_add, Z.div_small, Z.mod_small, Z.div_mul by (done || lia). lia.
Qed.

(** ** Pages given to a process *)

Section given.
Context {D : Type} (platform : platform_id).
Context (sd : sd_driver D) (rom : Z → byte) (type : disk_type) (rnd : nat → Z).
Context `{!SdCard sd DISK_BLOCKS}.
Context (translation : translation_id) (pid : Z).
(** A fact about the disk that writes to the paging area do not change. *)
Context (I : D → Prop).
Implicit Types s : mmu D.
Implicit Types F : Z → page.

(** Memory outside the frame cache and the frames that were in use. *)
Record others s0 F0 s F : Prop := {
  ot_mem n : ¬ in_cache n → mem s n = mem s0 n;
  ot_table i m : ftable s0 !! i = Some m → use m ≠ 0 → ftable s !! i = Some m;
  ot_frame f m : 0 ≤ f < NFRAMES → ftable s0 !! Z.to_nat f = Some m → use m ≠ 0 → F f = F0 f;
  ot_new f n m : maps (ftable s) f pid n → ftable s0 !! Z.to_nat f = Some m → use m = 0;
  ot_only f r n : r ≠ 0 → r ≠ pid → maps (ftable s) f r n → maps (ftable s0) f r n;
}.

(** From [s0] to [s] the process was given exactly the pages [ps], and nobody
    else has lost or got anything. *)
Record given s0 F0 s F (ps : list (Z * page)) : Prop := {
  gv_wf : mmu_wf platform sd s F;
  gv_curr : curr_vm_pid s = curr_vm_pid s0;
  gv_own n x : (n, x) ∈ ps → owned s F pid n x;
  gv_only f n : maps (ftable s) f pid n → n ∈ ps.*1;
  gv_keep r n x : r ≠ 0 → r ≠ pid → owned s0 F0 r n x → owned s F r n x;
  gv_free : (nfree (ftable s) + length ps = nfree (ftable s0))%nat;
  gv_disk : I (pdisk s);
  gv_ready : ready platform s0 → ready platform s;
  gv_others : others s0 F0 s F;
}.

(** Page [n] of the process is in memory at address [base]. *)
Definition page_at s (n base : Z) : Prop :=
  ∃ f k, 0 ≤ f < NFRAMES ∧ base = pages_start + PAGE_SIZE * k ∧ frame_at platform s f k ∧
    maps (ftable s) f pid n.

Hypothesis Htype : platform = ARTY → type = SD_CARD.
Hypothesis Hrnd : ∀ n, 0 ≤ rnd n.
Hypothesis Hpid : pid ≠ 0.
Hypothesis Htrans : translation = PAGE_TABLE → pid < 32.
Hypothesis Hstable : platform = ARTY → ∀ d f x, I d → 0 ≤ f < NFRAMES → length x = npage →
  returns (earth_disk_write sd type (f * NBLOCKS_PER_PAGE) NBLOCKS_PER_PAGE x) d (λ _ d', I d').

(** Allocation may evict a frame from the cache. *)
Lemma evict_disk s F :
  platform = ARTY → paged platform sd s F → full (cache_slots s) → I (pdisk s) →
  returns (cache_eviction sd type rnd) s (λ _ s', I (pdisk s')).
Proof using Hrnd Hstable.
  clear Htype. intros Hp [P1 P2 _] Hfull HI. unfold cache_eviction.
  apply returns_bind. eexists _, _. split; [reflexivity|].
  pose proof (evict_index rnd Hrnd (nrand s)) as Hidx. set (idx := Z.rem _ _) in *.
  apply returns_bind, returns_gets, returns_bind. cbn [cache_slots].
  assert (Hl : 0 ≤ idx < Z.of_nat (length (cache_slots s))) by (rewrite (sw_len _ P1); exact Hidx).
  eexists _, _. split; [by apply arr_get_eq|].
  destruct (lookup_lt_is_Some_2 (cache_slots s) (Z.to_nat idx)) as [old Hold]; [lia|].
  rewrite (list_lookup_total_correct _ _ _ Hold).
  assert (Hr : 0 ≤ old < NFRAMES).
  { destruct (sw_range _ P1 _ _ Hold) as [->|]; [|done]. destruct Hfull.
    by eapply list_elem_of_lookup_2. }
  apply returns_bind, returns_gets, returns_bind, returns_on_disk. cbn [pdisk mem].
  eapply returns_mono; [by apply Hstable|cbv beta]. intros rc d' HI'. by apply returns_ret.
Qed.

Lemma set_slot_disk s i f :
  slots_wf (cache_slots s) → 0 ≤ i < ARTY_CACHED_NFRAMES → I (pdisk s) →
  returns (set_slot i f) s (λ _ s', I (pdisk s')).
Proof using Type.
  intros W Hi HI. unfold set_slot. apply returns_bind, returns_gets, returns_bind.
  eexists _, _. split; [apply arr_set_eq; by rewrite (sw_len _ W)|]. by apply returns_modify.
Qed.

Lemma paging_read_disk s F f :
  paged platform sd s F → I (pdisk s) →
  returns (paging_read platform sd rom type rnd f true) s (λ _ s', I (pdisk s')).
Proof using Htype Hrnd Hstable.
  intros P HI. pose proof (pg_slots _ _ _ _ P) as Hsl. unfold paging_read.
  destruct (decide (platform = QEMU)) as [Hp|Hp].
  { rewrite Hp at 1. by apply returns_ret. }
  assert (Hp' : platform = ARTY) by (clear -Hp; by destruct platform). rewrite Hp' at 1.
  apply returns_bind, returns_gets.
  pose proof (read_scan_spec (cache_slots s) 0 f (-1) ltac:(lia)) as Hsc.
  destruct (read_scan _ _ _ _) as [j|j]; [by apply returns_ret|].
  assert (Hfin : ∀ s1 i, slots_wf (cache_slots s1) → 0 ≤ i < ARTY_CACHED_NFRAMES → I (pdisk s1) →
    returns (_ ← set_slot i f; _ ← (mret tt : M (mmu D) unit);
             mret (pages_start + PAGE_SIZE * i)) s1 (λ _ s', I (pdisk s'))).
  { intros s1 i Hs1 Hi HI1. rcall (by apply set_slot_disk). intros _ s2 HI2. rstep. done. }
  destruct Hsc as [Hn [[-> Hfull]|[Hr Hl]]]; simpl (_ =? _); cbv iota.
  - rcall (apply returns_and; [by apply (cache_eviction_spec platform sd type rnd Htype Hrnd s F)|
      by apply (evict_disk s F)]).
    intros i s1 [(c & old & Hi & [_ _ B3 _] & _) HI1]. apply Hfin; [by rewrite B3|done|done].
  - rewrite Z.sub_0_r in Hl. pose proof (lookup_lt_Some _ _ _ Hl) as Hlt.
    rewrite (sw_len _ Hsl) in Hlt. rewrite (proj2 (Z.eqb_neq j (-1))) by lia.
    rcall (by apply (returns_ret j s (λ a s', a = j ∧ s' = s))). intros ? ? [-> ->].
    apply Hfin; [done|unfold nslot in Hlt; lia|done].
Qed.

Lemma alloc_disk s F :
  mmu_wf platform sd s F → (∃ m, m ∈ ftable s ∧ use m = 0) → I (pdisk s) →
  returns (mmu_alloc platform sd rom type rnd) s (λ _ s', I (pdisk s')).
Proof using Htype Hrnd Hstable.
  intros W (m0 & Hm0 & Hu0) HI. unfold mmu_alloc. apply returns_bind, returns_gets.
  pose proof (first_unused_spec (ftable s) 0) as Hfu.
  destruct (first_unused (ftable s) 0) as [i|]; [|by destruct (Hfu m0 Hm0)].
  destruct Hfu as (Hi & m & Hl & _). rewrite Z.sub_0_r in *. apply lookup_lt_Some in Hl.
  pose proof (to_len _ (mw_table _ _ _ _ W)) as Hlen. rewrite Hlen in Hl.
  rcall (apply returns_and; [apply (paging_read_spec platform sd rom type rnd Htype Hrnd s F i true);
    [apply W|unfold NFRAMES in *; lia]|apply (paging_read_disk s F); [apply W|done]]).
  intros a s1 [(F1 & [_ _ _ [U1 _ _] _ _]) HI1]. apply returns_bind, returns_gets, returns_bind.
  rewrite U1. eexists _, _. split; [apply arr_get_eq; rewrite Hlen; lia|].
  rcall (apply set_entry_spec; [by rewrite U1|unfold NFRAMES in *; lia]). intros _ s2 ->.
  by apply returns_ret.
Qed.

Lemma mmu_map_soft n f s Q :
  returns (soft_tlb_map pid n f) s Q → returns (mmu_map translation pid n f) s Q.
Proof using Htrans.
  unfold mmu_map, page_table_map. destruct translation; [|done].
  by rewrite (proj2 (Z.leb_gt _ _)) by (by apply Htrans).
Qed.

Lemma others_alloc s0 F0 s F s1 F1 f n :
  (Z.to_nat f < length (ftable s))%nat → 0 ≤ f → others s0 F0 s F →
  use (ftable s !!! Z.to_nat f) = 0 → ftable s1 = <[Z.to_nat f:=FrameMapping 1 0 0]> (ftable s) →
  (∀ m, ¬ in_cache m → mem s1 m = mem s m) →
  (∀ g, 0 ≤ g < NFRAMES → g ≠ f → F1 g = F g) →
  (∀ j r m, r ≠ 0 → maps (ftable s1) j r m → maps (ftable s) j r m) →
  others s0 F0 (set_ftable (<[Z.to_nat f:=FrameMapping 1 pid n]> (ftable s1)) s1) F1.
Proof using Hpid.
  clear Htype Hrnd Htrans Hstable. intros Hl H0 [O1 O2 O3 O4 O5] Hu At Am Ao Hno.
  assert (Hne : ∀ i m, ftable s0 !! i = Some m → use m ≠ 0 → i ≠ Z.to_nat f).
  { intros i m Hi Hm ->. pose proof (O2 _ _ Hi Hm) as E. rewrite (list_lookup_total_correct _ _ _ E) in Hu. done. }
  split; simpl.
  - intros m Hm. by rewrite Am, O1.
  - intros i m Hi Hm. rewrite At, list_insert_insert_eq, list_lookup_insert_ne; [by apply O2|].
    intros E. by apply (Hne i m).
  - intros g m Hg Hi Hm. rewrite Ao; [by eapply O3|done|]. intros ->. by apply (Hne (Z.to_nat f) m).
  - intros g p m Hg Hi. apply maps_insert in Hg as [(-> & _)|[_ Hg]]; [| |by rewrite At, length_insert|lia].
    + destruct (decide (use m = 0)) as [|Hm]; [done|]. by destruct (Hne _ _ Hi Hm).
    + by eapply O4; [apply Hno|].
  - intros g r m Hr Hrp Hg. apply maps_insert in Hg as [(_ & _ & <- & _)|[_ Hg]];
      [done| |by rewrite At, length_insert|lia]. by apply O5, Hno.
Qed.

(** A new page: it has some contents, and a place in memory. *)
Lemma give_page_spec s0 F0 s F ps n :
  given s0 F0 s F ps → pid ≠ curr_vm_pid s0 → n ∉ ps.*1 → 0 ≤ n < 2 ^ 20 → ¬ in_cache n →
  (0 < nfree (ftable s))%nat →
  returns (give_page platform sd rom type rnd translation pid n) s (λ base s', ∃ F' y,
    length y = npage ∧ given s0 F0 s' F' ((n, y) :: ps) ∧ page_at s' n base).
Proof using Htype Hrnd Hpid Htrans Hstable.
  intros [W C O N K Fr Di Re Ot] Hpc Hnew Hn Hc Hfree. unfold give_page.
  rcall (by apply returns_and; [by apply (mmu_alloc_spec platform sd rom type rnd Htype Hrnd s F W),
    nfree_pos|by apply (alloc_disk s F W); [apply nfree_pos|]]).
  intros [f a] s1 [(F1 & Hal) Di1]. cbn [fst snd] in Hal.
  pose proof (alloc_ready platform sd s F f a s1 F1 (mw_table _ _ _ _ W) Hal) as Hre.
  destruct Hal as [Ai Af W1 At Ac (k & -> & Aat) Ao Am _].
  destruct (alloc_keeps platform sd s F s1 F1 f W Ai (proj1 Af) At Ac Am Ao) as [Hk Hno1].
  pose proof (mw_table _ _ _ _ W) as T.
  assert (Hl : (Z.to_nat f < length (ftable s))%nat)
    by (rewrite (to_len _ T); unfold NFRAMES in *; lia).
  rcall (apply mmu_map_soft, (soft_tlb_map_spec platform sd s1 F1 pid n f W1 Ai); try done).
  { by rewrite At, list_lookup_total_insert_eq. }
  { intros j Hj. apply Hno1, N in Hj; done. }
  intros _ s2 (W2 & -> & Hown & Hkeep). apply returns_ret.
  rewrite (proj2 (Z.eqb_neq _ _)) in Hown by congruence.
  exists F1, (F1 f). split; [|split].
  - rewrite <-(frame_at_data platform sd s1 F1 f k (mw_paged _ _ _ _ W1) Ai Aat). apply W1.
  - split; simpl.
    + exact W2.
    + congruence.
    + intros m x Hm. apply elem_of_cons in Hm as [Hm|Hm]; [by simplify_eq|].
      apply Hkeep, Hk, O; done.
    + intros g m Hm. apply elem_of_cons.
      apply maps_insert in Hm as [(_ & _ & _ & <-)|[_ Hm]];
        [by left| |by rewrite At, length_insert|lia].
      right. by apply (N g), Hno1.
    + intros r m x Hr Hrp Hx. apply Hkeep, Hk, K; done.
    + rewrite At, list_insert_insert_eq.
      pose proof (nfree_insert (ftable s) (Z.to_nat f) _ (FrameMapping 1 pid n)
        (list_lookup_lookup_total_lt _ _ Hl)) as Hcnt.
      rewrite decide_True in Hcnt by apply Af. simpl in Hcnt. lia.
    + exact Di1.
    + intros R0. apply map_ready; [apply W1|done| |by apply Hre, Re].
      by rewrite At, list_lookup_total_insert_eq.
    + apply (others_alloc s0 F0 s F s1 F1 f n Hl (proj1 Ai) Ot (proj1 Af) At Am Ao Hno1).
  - exists f, k. split_and!; [lia..|done|done|]. simpl. apply maps_insert;
      [by rewrite At, length_insert|lia|by left].
Qed.

(** The contents of a page that is in memory. *)
Lemma page_at_data s F n base y :
  mmu_wf platform sd s F → pid ≠ curr_vm_pid s → page_at s n base → owned s F pid n y →
  ∃ f k, 0 ≤ f < NFRAMES ∧ base = pages_start + PAGE_SIZE * k ∧ frame_at platform s f k ∧
    maps (ftable s) f pid n ∧ F f = y ∧ mem s (FRAME_PAGE + k) = y ∧ length y = npage.
Proof using Hpid.
  intros W Hc (f & k & Hf & -> & Hat & Hm) (j & Hj & ->). rewrite (proj2 (Z.eqb_neq _ _)) by done.
  assert (j = f) as -> by (eapply (to_uniq _ (mw_table _ _ _ _ W)); done).
  pose proof (frame_at_data platform sd s F f k (mw_paged _ _ _ _ W) Hf Hat) as Hd.
  exists f, k. split_and!; try done; [lia..|]. rewrite <-Hd. apply W.
Qed.

(** Bytes are stored in the page that was given last. *)
Lemma fill_page_spec s0 F0 s F ps n y base o a bs :
  given s0 F0 s F ((n, y) :: ps) → page_at s n base → pid ≠ curr_vm_pid s0 → n ∉ ps.*1 →
  a = base + o → 0 ≤ o → o + Z.of_nat (length bs) ≤ PAGE_SIZE → bs ≠ [] →
  returns (store_bytes a bs) s (λ _ s', ∃ F',
    given s0 F0 s' F' ((n, overwrite y (Z.to_nat o) bs) :: ps) ∧ page_at s' n base).
Proof using Hpid.
  clear Htype Hrnd Htrans Hstable. intros [W C O N K Fr Di Re Ot] Hat Hpc Hnew -> Ho Hle Hbs.
  destruct (page_at_data s F n base y W ltac:(congruence) Hat (O n y ltac:(left)))
    as (f & k & Hf & -> & Hfk & Hm & HF & Hd & Hly).
  assert (Hlt : o < PAGE_SIZE) by (destruct bs; [done|]; simpl in Hle; lia).
  destruct (cache_addr k o ltac:(lia)) as [Ha1 Ha2].
  eexists _, _. split; [apply store_bytes_page; [done|by rewrite Ha2]|]. rewrite Ha1, Ha2, Hd.
  set (y' := overwrite y (Z.to_nat o) bs).
  assert (Hly' : length y' = npage).
  { unfold y'. rewrite overwrite_length; [done|]. rewrite Hly. unfold npage. lia. }
  destruct (fill_frame platform sd s F f k y' W Hf Hfk Hly') as [W' Hkeep].
  pose proof (mw_table _ _ _ _ W) as T.
  assert (Hother : ∀ r m, (r, m) ≠ (pid, n) → ¬ maps (ftable s) f r m).
  { intros r m Hne (e & _ & L & _ & <- & <-). destruct Hm as (e' & _ & L' & _ & E1 & E2).
    rewrite L in L'. injection L' as <-. congruence. }
  exists (upd F f y'). split; [split; simpl; try done|].
  - intros m x Hx. apply elem_of_cons in Hx as [Hx|Hx].
    + simplify_eq. exists f. split; [done|]. simpl. rewrite C, (proj2 (Z.eqb_neq _ _)) by done.
      unfold upd. by rewrite Z.eqb_refl.
    + apply Hkeep; [done| |apply O; by right]. apply Hother. intros [= ->]. apply Hnew.
      apply list_elem_of_fmap. by exists (n, x).
  - intros r m x Hr Hrp Hx. apply Hkeep; [done| |by apply K]. apply Hother. by intros [= -> _].
  - destruct Ot as [O1 O2 O3 O4 O5], (frame_at_user platform s f k y' Hfk) as [_ _ Hmu].
    split; [intros m Hcm; by rewrite Hmu, O1|exact O2| |exact O4|exact O5].
    intros g m Hg Hi Hum. unfold upd. destruct (Z.eqb_spec g f) as [->|]; [|by eapply O3].
    by destruct Hum, (O4 f n m Hm Hi).
  - exists f, k. exact (conj Hf (conj eq_refl (conj Hfk Hm))).
Qed.

(** ** The reader *)

(** What the loader relies on: a call returns block [n] of the file, the pages of
    all processes are as before, and so are the slots of the frame cache: the
    loader keeps the address [base] of a cached frame across calls of the reader.
    A reader that only reads the disk does so on both platforms
    ([plain_reads_reads]).  [app_read] of the process server exchanges messages,
    so that other processes run: on QEMU, where frames have fixed places, it
    keeps them, on the Arty board a frame may be evicted meanwhile. *)
Definition keeps s F s' F' : Prop :=
  mmu_wf platform sd s' F' ∧ I (pdisk s') ∧
  ftable s' = ftable s ∧ curr_vm_pid s' = curr_vm_pid s ∧
  (∀ r n x, r ≠ 0 → owned s F r n x → owned s' F' r n x) ∧
  (∀ f k, frame_at platform s f k → frame_at platform s' f k) ∧
  (ready platform s → ready platform s') ∧
  (∀ n, ¬ in_cache n → mem s' n = mem s n) ∧ ∀ f, 0 ≤ f < NFRAMES → F' f = F f.

Definition reads (reader : Z → M (mmu D) block) (file : list byte) : Prop :=
  ∀ s F n, mmu_wf platform sd s F → I (pdisk s) → 0 ≤ n → (n + 1) * BLOCK_SIZE ≤ Z.of_nat (length file) →
    returns (reader n) s (λ blk s', blk = slice file n ∧ ∃ F', keeps s F s' F').

Lemma given_keeps s0 F0 s F ps s' F' :
  given s0 F0 s F ps → keeps s F s' F' →
  given s0 F0 s' F' ps ∧ ∀ n base, page_at s n base → page_at s' n base.
Proof using Hpid.
  intros [W C O N K Fr Di Re Ot] (W' & Di' & T' & C' & O' & A' & Re' & Me' & Fe'). split.
  - split; try congruence; try done; [..|auto|].
    + intros n x Hx. apply O'; [done|by apply O].
    + intros f n. rewrite T'. apply N.
    + intros r n x Hr Hrp Hx. apply O'; [done|by apply K].
    + destruct Ot as [O1 O2 O3 O4 O5]. split; [|by rewrite T'| |by rewrite T'|by rewrite T'].
      * intros n Hn. by rewrite Me', O1.
      * intros f m Hf Hm Hu. rewrite Fe' by done. by eapply O3.
  - intros n base (f & k & Hf & E & Hat & Hm). exists f, k. rewrite T'. split_and!; try done; [lia..|].
    by apply A'.
Qed.
End given.

(** ** The segment of a file *)

(** The offset of a page, as a number that [lia] does not compute with. *)
Lemma page_offset j : ∃ q, (j * npage)%nat = q ∧ Z.of_nat q = Z.of_nat j * PAGE_SIZE ∧
  Z.of_nat npage = PAGE_SIZE.
Proof. eexists. split_and!; [done| |done]. by rewrite Nat2Z.inj_mul. Qed.

Lemma npage_blocks : npage = (8 * nbytes)%nat.
Proof. done. Qed.

Section segment.
Context (file : list byte) (b0 filesz : Z).
Hypothesis Hb0 : 0 ≤ b0.
Hypothesis Hsize : 0 ≤ filesz ≤ APPS_SIZE.
(** The file goes on to the end of the block where the segment ends. *)
Definition nblk : nat := Z.to_nat ((filesz + BLOCK_SIZE - 1) / BLOCK_SIZE).
Hypothesis Hfile : (b0 + Z.of_nat nblk) * BLOCK_SIZE ≤ Z.of_nat (length file).

(** The bytes of the segment, and page [j] of them. *)
Definition seg : list byte := drop (Z.to_nat (b0 * BLOCK_SIZE)) file.
Definition data (j : nat) : page := take npage (drop (j * npage) seg).

Lemma nblk_le : (nblk ≤ 24)%nat.
Proof using All.
  unfold nblk. change BLOCK_SIZE with 512. change APPS_SIZE with 12288 in *.
  Z.to_euclidean_division_equations. lia.
Qed.

(** Block [i] of the segment is block [i mod 8] of its page [i / 8]. *)
Lemma seg_block i :
  slice file (b0 + Z.of_nat i) = take nbytes (drop (i mod 8 * nbytes) (data (i / 8))).
Proof using All.
  unfold slice, data, seg. pose proof (Nat.div_mod_eq i 8) as Hi.
  pose proof (Nat.mod_upper_bound i 8 ltac:(done)) as Hr. apply list_eq. intros k.
  destruct (decide (k < nbytes)%nat) as [Hk|Hk]; [|by rewrite !lookup_take_ge by lia].
  rewrite npage_blocks. change nbytes with 512%nat in *. change BLOCK_SIZE with 512.
  rewrite !lookup_take_lt, !lookup_drop, lookup_take_lt, !lookup_drop by lia. f_equal. lia.
Qed.

Lemma data_length j : (8 * j + 8 ≤ nblk)%nat → length (data j) = npage.
Proof using All.
  intros Hj. unfold data, seg. rewrite length_take, !length_drop, npage_blocks.
  change nbytes with 512%nat. change BLOCK_SIZE with 512 in *. lia.
Qed.

(** ** The image: the bytes of the segment, then zeros *)

Definition image : list byte := take (Z.to_nat filesz) seg ++ replicate (Z.to_nat (APPS_SIZE - filesz)) Byte.x00.
Definition image_page (j : nat) : page := take npage (drop (j * npage) image).

Lemma seg_length : (Z.to_nat filesz ≤ length seg)%nat.
Proof using All.
  unfold seg. rewrite length_drop. unfold nblk in *.
  change BLOCK_SIZE with 512 in *. Z.to_euclidean_division_equations. lia.
Qed.

Lemma image_lookup k :
  image !! k = if decide (k < Z.to_nat filesz)%nat then seg !! k
               else if decide (k < Z.to_nat APPS_SIZE)%nat then Some Byte.x00 else None.
Proof using All.
  pose proof seg_length as Hl. unfold image. case_decide.
  - rewrite lookup_app_l by (rewrite length_take; lia). by rewrite lookup_take_lt.
  - rewrite lookup_app_r by (rewrite length_take; lia). rewrite length_take, Nat.min_l by lia.
    case_decide; [apply lookup_replicate_2|apply lookup_replicate_None]; lia.
Qed.

Lemma image_page_full j : (Z.of_nat (S j) * PAGE_SIZE ≤ filesz) → image_page j = data j.
Proof using All.
  intros Hj. unfold image_page, data. apply list_eq. intros k.
  destruct (decide (k < npage)%nat) as [Hk|Hk]; [|by rewrite !lookup_take_ge by lia].
  rewrite !lookup_take_lt, !lookup_drop, image_lookup by done.
  rewrite decide_True; [done|]. unfold npage in *. change PAGE_SIZE with 4096 in *. lia.
Qed.

Lemma image_page_zero j :
  (j < 3)%nat → filesz ≤ Z.of_nat j * PAGE_SIZE → image_page j = replicate npage Byte.x00.
Proof using All.
  intros Hj Hf. unfold image_page. destruct (page_offset j) as (q & -> & Hq & Hn).
  change PAGE_SIZE with 4096 in *. apply list_eq. intros k.
  destruct (decide (k < npage)%nat) as [Hk|Hk].
  - rewrite lookup_take_lt, lookup_drop, image_lookup, lookup_replicate_2 by done.
    rewrite decide_False, decide_True by (change APPS_SIZE with 12288; lia). done.
  - rewrite lookup_take_ge by lia. symmetry. apply lookup_replicate_None. lia.
Qed.

(** The page where the segment ends: the rest is cleared. *)
Lemma image_page_last j o y :
  filesz = Z.of_nat j * PAGE_SIZE + o → 0 < o < PAGE_SIZE → length y = npage →
  take (Z.to_nat o) y = take (Z.to_nat o) (data j) →
  overwrite y (Z.to_nat o) (replicate (Z.to_nat (PAGE_SIZE - o)) Byte.x00) = image_page j.
Proof using All.
  unfold image_page, data. destruct (page_offset j) as (q & -> & Hq & Hn).
  change PAGE_SIZE with 4096 in *. intros Hf Ho Hy Hp. apply list_eq. intros k.
  rewrite overwrite_lookup by (rewrite length_replicate, Hy; lia).
  rewrite length_replicate. destruct (decide (k < npage)%nat) as [Hk|Hk].
  - rewrite lookup_take_lt, lookup_drop, image_lookup by done. change APPS_SIZE with 12288 in *.
    case_decide as Hko.
    + rewrite lookup_replicate_2 by lia. by rewrite decide_False, decide_True by lia.
    + rewrite decide_True by lia. rewrite <-(lookup_take_lt y (Z.to_nat o)), Hp by lia.
      by rewrite !lookup_take_lt, lookup_drop by lia.
  - rewrite decide_False by lia. rewrite lookup_take_ge by lia. apply lookup_ge_None. lia.
Qed.
End segment.

(** ** The page with the arguments *)

Definition arg_ptr (i : nat) : list byte :=
  le_split 4 (APPS_ARG + 4 + 4 * CMD_NARGS + Z.of_nat i * CMD_ARG_LEN).

(** What [argv_loop] makes of the page. *)
Fixpoint argv_page (n i : nat) (y : page) : page :=
  match n with
  | O => y
  | S n => argv_page n (S i) (overwrite y (4 + 4 * i) (arg_ptr i))
  end.

Lemma argv_page_spec n : ∀ i y, (4 * (i + n) + 4 ≤ length y)%nat →
  length (argv_page n i y) = length y ∧
  (∀ j, (i ≤ j < i + n)%nat → bytes_at (argv_page n i y) (4 + 4 * j) 4 = arg_ptr j) ∧
  ∀ o k, (o + k ≤ 4 + 4 * i ∨ 4 + 4 * (i + n) ≤ o)%nat →
    bytes_at (argv_page n i y) o k = bytes_at y o k.
Proof.
  induction n as [|n IH]; intros i y Hl; cbn [argv_page].
  - split_and!; [done| |done]. intros j Hj. lia.
  - set (y' := overwrite y (4 + 4 * i) (arg_ptr i)).
    assert (Hp : length (arg_ptr i) = 4%nat) by apply length_le_split.
    assert (Hy' : length y' = length y) by (apply overwrite_length; lia).
    destruct (IH (S i) y') as (L & P & O); [lia|]. split_and!; [lia|..].
    + intros j Hj. destruct (decide (j = i)) as [->|Hne]; [|apply P; lia].
      rewrite O by lia. unfold y'. rewrite <-Hp at 2. apply bytes_at_same. lia.
    + intros o k Ho. rewrite O by lia. apply bytes_at_other; lia.
Qed.

(** The page as [app_entry] and [main] read it: the number of arguments, the
    pointers to them, and the arguments themselves. *)
Record args_page (argc : Z) (args : list byte) (y : page) : Prop := {
  ap_argc : bytes_at y 0 4 = le_split 4 argc;
  ap_argv i : (i < Z.to_nat argc)%nat → bytes_at y (4 + 4 * i) 4 = arg_ptr i;
  ap_args : bytes_at y 68 (Z.to_nat (argc * CMD_ARG_LEN)) = take (Z.to_nat (argc * CMD_ARG_LEN)) args;
}.

(** ** Loading an application *)

Definition code_page : Z := Z.shiftr APPS_ENTRY 12.

(** Pages [code_page], ..., [code_page + n - 1] with the contents [g]. *)
Fixpoint pages_upto (g : nat → page) (n : nat) : list (Z * page) :=
  match n with
  | O => []
  | S n => (code_page + Z.of_nat n, g n) :: pages_upto g n
  end.

Lemma pages_upto_ext g g' n : (∀ i, (i < n)%nat → g i = g' i) → pages_upto g n = pages_upto g' n.
Proof.
  induction n as [|n IH]; intros H; [done|]. simpl. rewrite H, IH by (intros; try apply H; lia). done.
Qed.

Lemma pages_upto_new g n m : (n ≤ m)%nat → code_page + Z.of_nat m ∉ (pages_upto g n).*1.
Proof.
  induction n as [|n IH]; intros H; simpl; [apply not_elem_of_nil|].
  rewrite not_elem_of_cons. split; [lia|apply IH; lia].
Qed.

Lemma pages_upto_length g n : length (pages_upto g n) = n.
Proof. induction n as [|n IH]; simpl; [done|by rewrite IH]. Qed.

Lemma code_page_ok m : (m < 3)%nat → 0 ≤ code_page + Z.of_nat m < 2 ^ 20 ∧ ¬ in_cache (code_page + Z.of_nat m).
Proof. unfold in_cache. change code_page with 0x8005. change FRAME_PAGE with 0x80004. lia. Qed.

Section load_app.
Context {D : Type} (platform : platform_id).
Context (sd : sd_driver D) (rom : Z → byte) (type : disk_type) (rnd : nat → Z).
Context `{!SdCard sd DISK_BLOCKS}.
Context (translation : translation_id) (pid : Z) (reader : Z → M (mmu D) block).
Context (I : D → Prop).
Implicit Types s : mmu D.
Implicit Types F : Z → page.

Hypothesis Htype : platform = ARTY → type = SD_CARD.
Hypothesis Hrnd : ∀ n, 0 ≤ rnd n.
Hypothesis Hpid : pid ≠ 0.
Hypothesis Htrans : translation = PAGE_TABLE → pid < 32.
Hypothesis Hstable : platform = ARTY → ∀ d f x, I d → 0 ≤ f < NFRAMES → length x = npage →
  returns (earth_disk_write sd type (f * NBLOCKS_PER_PAGE) NBLOCKS_PER_PAGE x) d (λ _ d', I d').

Context (file : list byte) (b0 filesz : Z).
Hypothesis Hreads : reads platform sd I reader file.
Hypothesis Hb0 : 0 ≤ b0.
Hypothesis Hsize : 0 ≤ filesz ≤ APPS_SIZE.
Hypothesis Hfile : (b0 + Z.of_nat (nblk filesz)) * BLOCK_SIZE ≤ Z.of_nat (length file).
Local Abbreviation nblk := (nblk filesz).
Local Abbreviation data := (data file b0).

Context (s0 : mmu D) (F0 : Z → page).
Hypothesis Hcurr : pid ≠ curr_vm_pid s0.
Hypothesis Hroom : (5 ≤ nfree (ftable s0))%nat.
Local Abbreviation given := (given platform sd pid I s0 F0).
Local Abbreviation page_at := (page_at platform pid).

(** Page [j] is the current one, and its first [r] blocks are there. *)
Definition filling (j r : nat) (code base : Z) s F : Prop :=
  code = code_page + Z.of_nat j + 1 ∧ page_at s (code_page + Z.of_nat j) base ∧ ∃ y,
    given s F ((code_page + Z.of_nat j, y) :: pages_upto data j) ∧ length y = npage ∧
    take (r * nbytes) y = take (r * nbytes) (data j).

(** [i] blocks have been loaded. *)
Definition loaded (i : nat) (code base : Z) s F : Prop :=
  match i with
  | O => code = code_page ∧ given s F []
  | S i => filling (i / 8) (i mod 8 + 1) code base s F
  end.

Lemma off_mod i :
  BLOCK_SIZE * Z.of_nat i mod PAGE_SIZE = BLOCK_SIZE * Z.of_nat (i mod 8).
Proof using Type.
  clear. change PAGE_SIZE with (BLOCK_SIZE * 8). rewrite Z.mul_mod_distr_l by done.
  by rewrite Nat2Z.inj_mod.
Qed.

Lemma new_page_step j code s F :
  given s F (pages_upto data j) → (j < 3)%nat → code = code_page + Z.of_nat j →
  returns (base ← give_page platform sd rom type rnd translation pid code;
           mret (code + 1, base)) s (λ r s', ∃ F', filling j 0 r.1 r.2 s' F').
Proof using Htype Hrnd Hpid Htrans Hstable Hcurr Hroom.
  clear Hsize Hfile Hb0 Hreads. intros G Hj ->. destruct (code_page_ok _ Hj) as [Hn Hc].
  rcall (apply (give_page_spec platform sd rom type rnd translation pid I
    Htype Hrnd Hpid Htrans Hstable s0 F0 s F _ _ G Hcurr); [by apply pages_upto_new|done|done|]).
  { pose proof (gv_free _ _ _ _ _ _ _ _ _ G) as Hf. rewrite pages_upto_length in Hf. lia. }
  intros base' s2 (F2 & y & Hy & G2 & At). apply returns_ret. exists F2.
  split_and!; [done..|]. by exists y.
Qed.

(** The start of a round: a page for block [i], new if it is the first there. *)
Lemma page_step i code base s F :
  loaded i code base s F → (i < nblk)%nat →
  returns (if BLOCK_SIZE * Z.of_nat i mod PAGE_SIZE =? 0 then
             base ← give_page platform sd rom type rnd translation pid code;
             mret (code + 1, base)
           else mret (code, base)) s
    (λ r s', ∃ F', filling (i / 8) (i mod 8) r.1 r.2 s' F').
Proof using Htype Hrnd Hpid Htrans Hstable Hb0 Hsize Hfile Hcurr Hroom.
  intros HL Hi. pose proof (nblk_le file b0 filesz Hb0 Hsize Hfile) as Hle. rewrite off_mod.
  assert (Hj : (i / 8 < 3)%nat) by (apply Nat.Div0.div_lt_upper_bound; lia).
  destruct i as [|i]; [destruct HL as [-> G]; by apply (new_page_step 0 _ s F); [|lia|lia]|].
  pose proof (Nat.div_mod_eq i 8). pose proof (Nat.div_mod_eq (S i) 8).
  pose proof (Nat.mod_upper_bound i 8 ltac:(done)). pose proof (Nat.mod_upper_bound (S i) 8 ltac:(done)).
  destruct HL as (-> & At & y & G & Hy & Hp).
  destruct (decide (S i mod 8 = 0)%nat) as [E|E].
  - assert (Ej : (S i / 8 = S (i / 8))%nat) by lia. rewrite E, Ej in *. simpl (_ =? _). cbv iota.
    apply (new_page_step _ _ s F); [|lia|lia]. cbn [pages_upto].
    replace (i mod 8 + 1)%nat with 8%nat in Hp by lia. rewrite <-npage_blocks in Hp.
    rewrite !take_ge in Hp by (rewrite ?(data_length file b0 filesz Hb0 Hsize Hfile); lia). by rewrite <-Hp.
  - replace (S i / 8)%nat with (i / 8)%nat in * by lia.
    replace (S i mod 8)%nat with (i mod 8 + 1)%nat in * by lia.
    rewrite (proj2 (Z.eqb_neq _ _)) by (change BLOCK_SIZE with 512; lia).
    apply returns_ret. exists F. split_and!; [done..|]. by exists y.
Qed.

(** The rest of a round: the block is read and stored behind the others. *)
Lemma block_step i code base s F :
  filling (i / 8) (i mod 8) code base s F → (i < nblk)%nat →
  returns (blk ← reader (b0 + Z.of_nat i);
           store_bytes (base + BLOCK_SIZE * Z.of_nat i mod PAGE_SIZE) blk) s
    (λ _ s', ∃ F', loaded (S i) code base s' F').
Proof using Hpid Hreads Hb0 Hsize Hfile Hcurr.
  clear Hroom. intros (-> & At & y & G & Hy & Hp) Hi. rewrite off_mod.
  pose proof (Nat.mod_upper_bound i 8 ltac:(done)) as Hr.
  rcall (apply (Hreads s F (b0 + Z.of_nat i) (gv_wf _ _ _ _ _ _ _ _ _ G) (gv_disk _ _ _ _ _ _ _ _ _ G)); [lia|];
    change BLOCK_SIZE with 512 in *; lia).
  intros blk s1 (-> & F1 & HK).
  destruct (given_keeps platform sd pid I Hpid s0 F0 s F _ s1 F1 G HK) as [G1 At1].
  set (blk := slice _ _).
  assert (Hblk : length blk = nbytes).
  { unfold blk. apply slice_wf; [lia|]. change BLOCK_SIZE with 512 in *. lia. }
  assert (Ho : Z.to_nat (BLOCK_SIZE * Z.of_nat (i mod 8)) = (i mod 8 * nbytes)%nat)
    by (change nbytes with 512%nat; change BLOCK_SIZE with 512; lia).
  eapply returns_mono; [apply (fill_page_spec platform sd pid I Hpid s0 F0 s1 F1 _ _ y base
    (BLOCK_SIZE * Z.of_nat (i mod 8)) _ blk G1 (At1 _ _ At) Hcurr)|cbv beta].
  - by apply pages_upto_new.
  - done.
  - change BLOCK_SIZE with 512. lia.
  - rewrite Hblk, nbytes_Z. change PAGE_SIZE with (8 * BLOCK_SIZE). change BLOCK_SIZE with 512. lia.
  - intros E. by rewrite E in Hblk.
  - intros _ s2 (F2 & G2 & At2). exists F2. split_and!; [done..|]. eexists. split; [exact G2|].
    rewrite Ho.
    assert (Hle : (i mod 8 * nbytes + length blk ≤ length y)%nat)
      by (rewrite Hblk, Hy, npage_blocks; change nbytes with 512%nat; lia).
    split; [by rewrite overwrite_length|].
    replace ((i mod 8 + 1) * nbytes)%nat with (i mod 8 * nbytes + length blk)%nat by lia.
    apply overwrite_prefix; [done|done|]. rewrite Hblk. unfold blk.
    apply (seg_block file b0 filesz Hb0 Hsize Hfile).
Qed.

Lemma code_loop_spec n : ∀ i code base s F,
  loaded i code base s F → (i ≤ nblk)%nat → (nblk - i < n)%nat →
  returns (code_loop platform sd rom type rnd translation reader pid n filesz
             (BLOCK_SIZE * Z.of_nat i) (b0 + Z.of_nat i) code base) s
    (λ r s', ∃ F', loaded nblk r.1 r.2 s' F').
Proof using Htype Hrnd Hpid Htrans Hstable Hb0 Hsize Hreads Hfile Hcurr Hroom.
  induction n as [|n IH]; intros i code base s F HL Hi Hn; [lia|]. cbn [code_loop].
  assert (Hend : BLOCK_SIZE * Z.of_nat i < filesz ↔ (i < nblk)%nat).
  { clear -Hsize. unfold ElfCorrect.nblk. change BLOCK_SIZE with 512. Z.to_euclidean_division_equations. lia. }
  destruct (Z.ltb_spec (BLOCK_SIZE * Z.of_nat i) filesz) as [Hlt|Hge].
  - assert (Hlt' : (i < nblk)%nat) by (by apply Hend).
    rcall (by apply (page_step i code base s F)). intros [code1 base1] s1 (F1 & HF1). cbn [fst snd] in HF1.
    destruct (block_step i code1 base1 s1 F1 HF1 Hlt') as ([] & s2 & E & F2 & HL2).
    apply bind_ret_inv in E as (blk & s1' & E1 & E2).
    unfold returns. rewrite (bind_ret_eq _ _ _ _ _ E1), (bind_ret_eq _ _ _ _ _ E2).
    replace (BLOCK_SIZE * Z.of_nat i + BLOCK_SIZE) with (BLOCK_SIZE * Z.of_nat (S i)) by lia.
    replace (b0 + Z.of_nat i + 1) with (b0 + Z.of_nat (S i)) by lia.
    apply (IH (S i) code1 base1 s2 F2 HL2); lia.
  - apply returns_ret. exists F. assert (i = nblk) as -> by lia. exact HL.
Qed.


Local Abbreviation image_page := (image_page file b0 filesz).
(** The number of pages with bytes of the file. *)
Definition ncode : nat := Z.to_nat ((filesz + PAGE_SIZE - 1) / PAGE_SIZE).

Lemma blocks_pages i :
  nblk = S i →
  ncode = S (i / 8) ∧ (filesz mod PAGE_SIZE ≠ 0 →
    filesz = Z.of_nat (i / 8) * PAGE_SIZE + filesz mod PAGE_SIZE ∧
    filesz mod PAGE_SIZE ≤ Z.of_nat ((i mod 8 + 1) * nbytes)) ∧
  (filesz mod PAGE_SIZE = 0 → filesz = Z.of_nat (S (i / 8)) * PAGE_SIZE ∧ (i mod 8 + 1 = 8)%nat).
Proof using Hsize.
  clear -Hsize. unfold ncode, ElfCorrect.nblk. change nbytes with 512%nat.
  change BLOCK_SIZE with 512. change PAGE_SIZE with 4096. intros E.
  pose proof (Nat.div_mod_eq i 8). pose proof (Nat.mod_upper_bound i 8 ltac:(done)).
  Z.to_euclidean_division_equations. lia.
Qed.

(** After the file: the pages with bytes of the file are those of the image. *)
Lemma clear_spec code base s F :
  loaded nblk code base s F →
  returns (if filesz mod PAGE_SIZE =? 0 then mret tt
           else zero_bytes (base + filesz mod PAGE_SIZE) (PAGE_SIZE - filesz mod PAGE_SIZE)) s
    (λ _ s', code = code_page + Z.of_nat ncode ∧ ∃ F', given s' F' (pages_upto image_page ncode)).
Proof using Hpid Hb0 Hsize Hfile Hcurr.
  clear Hroom. pose proof (Z.mod_pos_bound filesz PAGE_SIZE ltac:(done)) as Hmod.
  intros HL. assert (Hcase : nblk = 0%nat ∨ ∃ i, nblk = S i) by (clear; destruct nblk; eauto).
  destruct Hcase as [En|[i En]]; rewrite En in HL.
  { assert (filesz = 0) as E. { clear -En Hsize. unfold ElfCorrect.nblk in En.
      change BLOCK_SIZE with 512 in *. Z.to_euclidean_division_equations. lia. }
    unfold ncode. rewrite E. destruct HL as [-> G]. apply returns_ret. split; [done|by exists F]. }
  destruct (blocks_pages i En) as (-> & Hpart & Hwhole).
  destruct HL as (-> & At & y & G & Hy & Hp).
  assert (Hdone : pages_upto data (i / 8) = pages_upto image_page (i / 8)).
  { apply pages_upto_ext. intros k Hk.
    symmetry. apply (image_page_full file b0 filesz Hb0 Hsize Hfile).
    clear -Hk Hpart Hwhole Hmod. change PAGE_SIZE with 4096 in *. lia. }
  rewrite Hdone in G.
  destruct (Z.eqb_spec (filesz mod PAGE_SIZE) 0) as [E|E].
  - destruct (Hwhole E) as [Hf H8]. apply returns_ret. split; [lia|]. exists F. cbn [pages_upto].
    rewrite H8, <-npage_blocks in Hp.
    rewrite (image_page_full file b0 filesz Hb0 Hsize Hfile (i / 8)) by (by rewrite <-Hf).
    rewrite !take_ge in Hp; [by rewrite <-Hp|..|lia].
    pose proof (Nat.div_mod_eq i 8). rewrite (data_length file b0 filesz Hb0 Hsize Hfile); lia.
  - destruct (Hpart E) as [Hf Ho]. unfold zero_bytes.
    eapply returns_mono; [apply (fill_page_spec platform sd pid I Hpid s0 F0 s F _ _ y base
      (filesz mod PAGE_SIZE) _ (replicate (Z.to_nat (PAGE_SIZE - filesz mod PAGE_SIZE)) Byte.x00) G At Hcurr)|cbv beta].
    + by apply pages_upto_new.
    + done.
    + lia.
    + rewrite length_replicate. lia.
    + destruct (Z.to_nat _) eqn:E'; [lia|done].
    + intros _ s' (F' & G' & _). split; [lia|]. exists F'. cbn [pages_upto].
      rewrite <-(image_page_last file b0 filesz Hb0 Hsize Hfile _ (filesz mod PAGE_SIZE) y);
        [done|done|lia|done|].
      apply (f_equal (take (Z.to_nat (filesz mod PAGE_SIZE)))) in Hp.
      rewrite !take_take, !Nat.min_l in Hp by lia. done.
Qed.

Lemma bss_loop_spec n : ∀ j s F,
  given s F (pages_upto image_page j) → (ncode ≤ j ≤ 3)%nat → (3 - j < n)%nat →
  returns (bss_loop platform sd rom type rnd translation pid n (code_page + Z.of_nat j)) s
    (λ _ s', ∃ F', given s' F' (pages_upto image_page 3)).
Proof using Htype Hrnd Hpid Htrans Hstable Hb0 Hsize Hfile Hcurr Hroom.
  induction n as [|n IH]; intros j s F G Hj Hn; [lia|]. cbn [bss_loop].
  change (Z.shiftr (APPS_ENTRY + APPS_SIZE) 12) with (code_page + 3).
  destruct (Z.ltb_spec (code_page + Z.of_nat j) (code_page + 3)) as [Hlt|Hge].
  - destruct (code_page_ok j ltac:(lia)) as [Hp1 Hp2].
    rcall (apply (give_page_spec platform sd rom type rnd translation pid I
      Htype Hrnd Hpid Htrans Hstable s0 F0 s F _ _ G Hcurr); [by apply pages_upto_new|done|done|]).
    { pose proof (gv_free _ _ _ _ _ _ _ _ _ G) as Hf. rewrite pages_upto_length in Hf. lia. }
    intros base s1 (F1 & y & Hy & G1 & At). unfold zero_bytes.
    rcall (apply (fill_page_spec platform sd pid I Hpid s0 F0 s1 F1 _ _ y base 0 base
      (replicate (Z.to_nat PAGE_SIZE) Byte.x00) G1 At Hcurr); [by apply pages_upto_new|lia|done..]).
    intros _ s2 (F2 & G2 & _).
    replace (code_page + Z.of_nat j + 1) with (code_page + Z.of_nat (S j)) by lia.
    apply (IH (S j) s2 F2); [|lia|lia]. cbn [pages_upto].
    rewrite (image_page_zero file b0 filesz Hb0 Hsize Hfile); [|lia|].
    + replace (replicate npage Byte.x00) with (overwrite y (Z.to_nat 0) (replicate (Z.to_nat PAGE_SIZE) Byte.x00)); [done|].
      unfold overwrite. rewrite length_replicate, drop_ge by (rewrite Hy; done). by rewrite app_nil_r.
    + clear -Hj Hsize. unfold ncode in Hj. change PAGE_SIZE with 4096 in *.
      Z.to_euclidean_division_equations. lia.
  - apply returns_ret. exists F. assert (j = 3%nat) as -> by lia. exact G.
Qed.

Lemma argv_loop_spec ps m base n : ∀ i y s F,
  given s F ((m, y) :: ps) → page_at s m base → m ∉ ps.*1 →
  (i + n ≤ 16)%nat →
  returns (argv_loop n base (Z.of_nat i)) s (λ _ s', ∃ F',
    given s' F' ((m, argv_page n i y) :: ps) ∧ page_at s' m base).
Proof using Hpid Hcurr.
  clear Hroom Hsize Hfile Hb0 Hreads.
  induction n as [|n IH]; intros i y s F G At Hm Hn; cbn [argv_loop argv_page].
  { apply returns_ret. by exists F. }
  rcall (apply (fill_page_spec platform sd pid I Hpid s0 F0 s F ps m y base
    (Z.of_nat (4 + 4 * i)) _ (arg_ptr i) G At Hcurr Hm); [lia|lia| |done]).
  { change (length (arg_ptr i)) with 4%nat. change PAGE_SIZE with 4096. lia. }
  intros _ s1 (F1 & G1 & At1). rewrite Nat2Z.id in G1.
  replace (Z.of_nat i + 1) with (Z.of_nat (S i)) by lia.
  apply (IH (S i) _ s1 F1); [done..|lia].
Qed.

(** The arguments of [load_app]: at most 16, of 32 bytes each. *)
Definition args_ok (argc : Z) (argv : option (list byte)) : Prop :=
  0 ≤ argc ≤ CMD_NARGS ∧
  match argv with
  | Some a => Z.of_nat (length a) = CMD_NARGS * CMD_ARG_LEN
  | None => argc = 0
  end.

(** The copy of the arguments. *)
Lemma memcpy_args_spec ps m base argc argv y s F :
  given s F ((m, y) :: ps) → page_at s m base → m ∉ ps.*1 → args_ok argc argv → length y = npage →
  returns (match argv with
           | Some a =>
               if (0 <=? argc) && (argc * CMD_ARG_LEN <=? Z.of_nat (length a))
               then store_bytes (base + 4 + 4 * CMD_NARGS)
                      (take (Z.to_nat (argc * CMD_ARG_LEN)) a)
               else undef "memcpy"
           | None => mret tt
           end) s (λ _ s', ∃ F' y',
    given s' F' ((m, y') :: ps) ∧ page_at s' m base ∧ length y' = npage ∧
    bytes_at y' 68 (Z.to_nat (argc * CMD_ARG_LEN)) =
      take (Z.to_nat (argc * CMD_ARG_LEN)) (default [] argv) ∧
    bytes_at y' 0 4 = bytes_at y 0 4).
Proof using Hpid Hcurr.
  clear Hroom Hsize Hfile Hb0 Hreads.
  intros G At Hm [Hargc Hargv] Hy. change CMD_NARGS with 16 in *. change CMD_ARG_LEN with 32 in *.
  destruct argv as [a|]; [|subst argc; apply returns_ret; by exists F, y].
  rewrite (proj2 (Z.leb_le _ _)), (proj2 (Z.leb_le _ _)) by lia. cbv iota. simpl andb. cbv iota.
  set (bs := take _ a). assert (Hbs : length bs = Z.to_nat (argc * 32))
    by (unfold bs; rewrite length_take; lia).
  destruct (decide (argc = 0)) as [E|E].
  { assert (bs = []) as Hb by (unfold bs; by rewrite E). rewrite Hb.
    eexists _, _. split; [done|]. exists F, y. split_and!; try done. by rewrite E. }
  assert (Hle : (68 + length bs ≤ length y)%nat) by (rewrite Hy, Hbs; unfold npage; change PAGE_SIZE with 4096; lia).
  eapply returns_mono; [apply (fill_page_spec platform sd pid I Hpid s0 F0 s F ps m y base 68 _ bs
    G At Hcurr Hm); [lia|lia| |]|cbv beta].
  - rewrite Hbs. change PAGE_SIZE with 4096. lia.
  - intros Hb. rewrite Hb in Hbs. simpl in Hbs. lia.
  - intros _ s' (F' & G' & At'). eexists F', _. split; [exact G'|]. change (Z.to_nat 68) with 68%nat.
    split_and!; [done|by rewrite overwrite_length| |].
    + change (take _ (default [] (Some a))) with bs. rewrite <-Hbs. by apply bytes_at_same.
    + apply bytes_at_other; [done|lia].
Qed.

Definition arg_page_no : Z := Z.shiftr APPS_ARG 12.

Lemma arg_page_ok : ¬ in_cache arg_page_no ∧ ¬ in_cache (arg_page_no + 1).
Proof using Type.
  clear. unfold in_cache. change arg_page_no with 0x80000. change FRAME_PAGE with 0x80004. lia.
Qed.

(** The pages for the arguments and the stack. *)
Lemma args_spec argc argv s F :
  given s F (pages_upto image_page 3) → args_ok argc argv →
  returns (base ← give_page platform sd rom type rnd translation pid arg_page_no;
           _ ← store_bytes base (le_split 4 argc);
           _ ← match argv with
               | Some a =>
                   if (0 <=? argc) && (argc * CMD_ARG_LEN <=? Z.of_nat (length a))
                   then store_bytes (base + 4 + 4 * CMD_NARGS)
                          (take (Z.to_nat (argc * CMD_ARG_LEN)) a)
                   else undef "memcpy"
               | None => mret tt
               end;
           _ ← argv_loop (Z.to_nat argc) base 0;
           _ ← give_page platform sd rom type rnd translation pid (arg_page_no + 1);
           mret tt) s (λ _ s', ∃ F' y z,
    given s' F' ((arg_page_no + 1, z) :: (arg_page_no, y) :: pages_upto image_page 3) ∧
    args_page argc (default [] argv) y).
Proof using Htype Hrnd Hpid Htrans Hstable Hcurr Hroom.
  clear Hsize Hfile Hb0 Hreads. intros G Hargs. pose proof Hargs as [Hargc _].
  change CMD_NARGS with 16 in Hargc.
  assert (Hnew : arg_page_no ∉ (pages_upto image_page 3).*1 ∧
                 arg_page_no + 1 ∉ arg_page_no :: (pages_upto image_page 3).*1).
  { split; intros Hin; repeat (apply elem_of_cons in Hin as [Hin|Hin]; [by vm_compute in Hin|]);
      by apply elem_of_nil in Hin. }
  pose proof (gv_free _ _ _ _ _ _ _ _ _ G) as Hf. rewrite pages_upto_length in Hf.
  rcall (apply (give_page_spec platform sd rom type rnd translation pid I
    Htype Hrnd Hpid Htrans Hstable s0 F0 s F _ _ G Hcurr); [apply Hnew|done|apply arg_page_ok|lia]).
  intros base s1 (F1 & y & Hy & G1 & At1).
  assert (Hy4 : (0 + length (le_split 4 argc) ≤ length y)%nat).
  { rewrite length_le_split, Hy. unfold npage. change PAGE_SIZE with 4096. lia. }
  rcall (apply (fill_page_spec platform sd pid I Hpid s0 F0 s1 F1 _ _ y base 0 base
    (le_split 4 argc) G1 At1 Hcurr); [apply Hnew|lia|done..]).
  intros _ s2 (F2 & G2 & At2). change (Z.to_nat 0) with 0%nat in G2.
  rcall (apply (memcpy_args_spec _ _ base argc argv _ s2 F2 G2 At2); [apply Hnew|done|by rewrite overwrite_length]).
  intros _ s3 (F3 & y3 & G3 & At3 & Hy3 & Hargs3 & Hargc3).
  rcall (apply (argv_loop_spec _ _ base (Z.to_nat argc) 0 y3 s3 F3 G3 At3); [apply Hnew|lia]).
  intros _ s4 (F4 & G4 & At4). pose proof (gv_free _ _ _ _ _ _ _ _ _ G4) as Hf4.
  cbn [length] in Hf4. rewrite pages_upto_length in Hf4.
  rcall (apply (give_page_spec platform sd rom type rnd translation pid I
    Htype Hrnd Hpid Htrans Hstable s0 F0 s4 F4 _ _ G4 Hcurr); [apply Hnew|done|apply arg_page_ok|lia]).
  intros base5 s5 (F5 & z & Hz & G5 & At5). apply returns_ret. exists F5, (argv_page (Z.to_nat argc) 0 y3), z.
  split; [exact G5|].
  destruct (argv_page_spec (Z.to_nat argc) 0 y3) as (L & P & O);
    [rewrite Hy3; unfold npage; change PAGE_SIZE with 4096; lia|]. split.
  - rewrite O by lia. rewrite Hargc3. change 4%nat with (length (le_split 4 argc)) at 2.
    by apply bytes_at_same.
  - intros j Hj. apply P. lia.
  - by rewrite O by lia.
Qed.

(** The whole of [load_app]. *)
Lemma load_app_spec argc argv vaddr memsz :
  given s0 F0 [] → args_ok argc argv →
  returns (load_app platform sd rom type rnd translation reader pid argc argv
             (ProgramHeader (b0 * BLOCK_SIZE) vaddr filesz memsz)) s0 (λ _ s', ∃ F' y z,
    given s' F' ((arg_page_no + 1, z) :: (arg_page_no, y) :: pages_upto image_page 3) ∧
    args_page argc (default [] argv) y).
Proof using Htype Hrnd Hpid Htrans Hstable Hb0 Hsize Hreads Hfile Hcurr Hroom.
  intros G Hargs. unfold load_app. cbn [p_filesz p_offset]. rewrite Z.div_mul by done.
  assert (Hrounds : (nblk - 0 < rounds filesz)%nat).
  { clear -Hsize. unfold ElfCorrect.nblk, rounds. change BLOCK_SIZE with 512.
    Z.to_euclidean_division_equations. lia. }
  rewrite <-(Z.mul_0_r BLOCK_SIZE). rewrite <-(Z.add_0_r b0) at 1.
  rcall (apply (code_loop_spec (rounds filesz) 0 code_page 0 s0 F0); [by split|lia|done]).
  intros [code base] s1 (F1 & HL). cbn [fst snd] in HL.
  rcall (by apply (clear_spec code base s1 F1)). intros _ s2 (-> & F2 & G2).
  assert (Hcode : (ncode ≤ 3)%nat).
  { clear -Hsize. unfold ncode. change PAGE_SIZE with 4096. change APPS_SIZE with 12288 in *.
    Z.to_euclidean_division_equations. lia. }
  rcall (apply (bss_loop_spec (Z.to_nat (APPS_SIZE / PAGE_SIZE + 1)) ncode s2 F2 G2);
    [lia|change (Z.to_nat (APPS_SIZE / PAGE_SIZE + 1)) with 4%nat; lia]).
  intros _ s3 (F3 & G3). exact (args_spec argc argv s3 F3 G3 Hargs).
Qed.
End load_app.

(** ** Executables on the disk *)

(** A reader that only accesses the disk: it returns block [n] of the file, and at
    most the state of the disk changes. *)
Definition plain_reads {D} (sd : sd_driver D) `{!SdCard sd DISK_BLOCKS} (I : D → Prop)
    (reader : Z → M (mmu D) block) (file : list byte) : Prop :=
  ∀ s n, I (pdisk s) → 0 ≤ n → (n + 1) * BLOCK_SIZE ≤ Z.of_nat (length file) →
    returns (reader n) s (λ blk s', blk = slice file n ∧ I (pdisk s') ∧
      s' = Mmu (ftable s) (curr_vm_pid s) (cache_slots s) (mem s) (pdisk s') (nrand s) ∧
      ∀ c, sd_holds (pdisk s) c → sd_holds (pdisk s') c).

Lemma paged_read {D} platform (sd : sd_driver D) `{!SdCard sd DISK_BLOCKS} s F d :
  paged platform sd s F → (∀ c, sd_holds (pdisk s) c → sd_holds d c) →
  paged platform sd (Mmu (ftable s) (curr_vm_pid s) (cache_slots s) (mem s) d (nrand s)) F.
Proof.
  intros [P1 P2 P3] Hd. split; simpl; [done..|]. destruct platform; [done|].
  destruct P3 as (c & [C1 C2 C3]). exists c. split; simpl; [by apply Hd|done..].
Qed.

Lemma plain_reads_reads {D} platform (sd : sd_driver D) `{!SdCard sd DISK_BLOCKS} I reader file :
  plain_reads sd I reader file → reads platform sd I reader file.
Proof.
  intros Hr s F n W HI H0 Hn. eapply returns_mono; [by apply Hr|cbv beta].
  intros blk s' (-> & HI' & E & Hc). rewrite E in *. cbn [pdisk] in *. split; [done|].
  exists F. split_and!; [|done|done|done| | | |done|done].
  - split; simpl; [|apply W|apply W]. apply paged_read; [apply W|done].
  - intros r m x Hr' Hx. exact Hx.
  - intros f k Hk. exact Hk.
  - intros Hre. exact Hre.
Qed.

Section exec.
Context {D : Type} (sd : sd_driver D) (rom : Z → byte) (type : disk_type).
Context `{!SdCard sd DISK_BLOCKS}.
Context (start : Z) (file : list byte).

(** The blocks of [file] are on the card from block [start] on. *)
Definition on_card (d : D) : Prop :=
  ∃ c, sd_holds d c ∧ ∀ n, 0 ≤ n → (n + 1) * BLOCK_SIZE ≤ Z.of_nat (length file) →
    c !!! (start + n) = slice file n.

Hypothesis Hstart : GRASS_EXEC_START ≤ start.
Hypothesis Hend : start + Z.of_nat (length file) / BLOCK_SIZE ≤ DISK_BLOCKS.

(** The paging area ends where the executables begin. *)
Lemma on_card_stable d f x :
  type = SD_CARD → on_card d → 0 ≤ f < NFRAMES → length x = npage →
  returns (earth_disk_write sd type (f * NBLOCKS_PER_PAGE) NBLOCKS_PER_PAGE x) d
    (λ _ d', on_card d').
Proof using Hstart.
  intros -> (c & Hs & Hc) Hf Hx. destruct (page_blocks f Hf) as [B1 B2].
  destruct (sdwrite_loop_spec sd 8 d c (f * NBLOCKS_PER_PAGE) 0 x)
    as (d' & c' & E & Hs' & Hc'); [done|lia|done|rewrite Z.add_0_r; exact B2|by rewrite Hx|].
  exists 0, d'. split; [unfold earth_disk_write; by mrun E|]. exists c'. split; [done|].
  intros n H0 Hn. rewrite Hc', decide_False; [by apply Hc|].
  change NBLOCKS_PER_PAGE with 8. change GRASS_EXEC_START with 2048 in Hstart.
  unfold NFRAMES in Hf. lia.
Qed.

Lemma exec_read_spec :
  type = SD_CARD → plain_reads sd on_card (exec_read sd rom type start) file.
Proof using Hstart Hend.
  intros -> s n (c & Hs & Hc) H0 Hn.
  assert (Hr : 0 ≤ start + n < DISK_BLOCKS).
  { change GRASS_EXEC_START with 2048 in *. change DISK_BLOCKS with 8192 in *.
    change BLOCK_SIZE with 512 in *. Z.to_euclidean_division_equations. lia. }
  destruct (sd_read (pdisk s) c (start + n) Hs Hr) as (d' & E & Hs').
  unfold exec_read. apply returns_bind, returns_on_disk. exists (0, slice file n), d'. split.
  { unfold earth_disk_read, sdread. change (Z.to_nat 1) with 1%nat. cbn [sdread_loop].
    rewrite Z.add_0_r. rewrite <-(Hc n H0 Hn), <-(app_nil_r (c !!! (start + n))).
    unfold mbind, M_bind. by rewrite E. }
  apply returns_ret. split; [done|]. split; [by exists c|]. split; [done|].
  intros c' Hs''. destruct (sd_read (pdisk s) c' (start + n) Hs'' Hr) as (d2 & E2 & Hs2).
  rewrite E in E2. by injection E2 as _ ->.
Qed.

(** The executable in the flash memory. *)
Definition in_rom : Prop := ∀ n, 0 ≤ n → (n + 1) * BLOCK_SIZE ≤ Z.of_nat (length file) →
  rom_bytes rom (DISK_ROM_BASE + (start + n) * BLOCK_SIZE) BLOCK_SIZE = slice file n.

Lemma exec_read_rom (I : D → Prop) :
  type = FLASH_ROM → in_rom → plain_reads sd I (exec_read sd rom type start) file.
Proof using Type.
  clear Hstart Hend. intros -> Hrom s n HI H0 Hn. unfold exec_read. apply returns_bind, returns_on_disk.
  exists (0, slice file n), (pdisk s). split; [by rewrite <-(Hrom n H0 Hn)|].
  apply returns_ret. by split_and!.
Qed.
End exec.

(** ** ELF files *)

Definition u32_at (b : block) (o : Z) : Z := le_combine (bytes_at b (Z.to_nat o) 4).

(** The first block of [file] has the program headers [hs]. *)
Record elf_file (file : list byte) (phoff : Z) (hs : list elf32_program_header) : Prop := {
  ef_length : BLOCK_SIZE ≤ Z.of_nat (length file);
  ef_phoff : u32_at (slice file 0) 28 = phoff;
  ef_phnum : le_combine (bytes_at (slice file 0) 44 2) = Z.of_nat (length hs);
  ef_fits : phoff + 32 * Z.of_nat (length hs) ≤ BLOCK_SIZE;
  ef_header i h : hs !! i = Some h →
    let o := phoff + 32 * Z.of_nat i in
    h = ProgramHeader (u32_at (slice file 0) (o + 4)) (u32_at (slice file 0) (o + 8))
          (u32_at (slice file 0) (o + 16)) (u32_at (slice file 0) (o + 20));
}.

Lemma field_eq {S} (buf : list byte) o n (s : S) :
  0 ≤ o → o + Z.of_nat n ≤ Z.of_nat (length buf) →
  field buf o n s = Ret (le_combine (bytes_at buf (Z.to_nat o) n)) s.
Proof. intros H1 H2. unfold field. by rewrite (proj2 (Z.leb_le _ _)), (proj2 (Z.leb_le _ _)) by lia. Qed.

Section elf.
Context {D : Type} (platform : platform_id).
Context (sd : sd_driver D) (rom : Z → byte) (type : disk_type) (rnd : nat → Z).
Context (translation : translation_id) (reader : Z → M (mmu D) block).
Context (file : list byte) (phoff : Z) (hs : list elf32_program_header).
Hypothesis Helf : elf_file file phoff hs.
Implicit Types s : mmu D.
Local Abbreviation buf := (slice file 0).
Local Abbreviation loop := (pheader_loop platform sd rom type rnd translation reader).
Local Abbreviation load := (load_header platform sd rom type rnd translation reader).

Lemma buf_length : Z.of_nat (length buf) = BLOCK_SIZE.
Proof using Helf.
  pose proof (ef_length _ _ _ Helf). rewrite <-nbytes_Z. f_equal. apply slice_wf; lia.
Qed.

Lemma get_pheader_eq i h s :
  hs !! i = Some h → get_pheader buf phoff (Z.of_nat i) s = Ret h s.
Proof using Helf.
  intros Hi. pose proof (lookup_lt_Some _ _ _ Hi) as Hlt. pose proof buf_length as Hl.
  assert (Hp : 0 ≤ phoff) by (rewrite <-(ef_phoff _ _ _ Helf); apply le_combine_bound).
  destruct Helf as [_ _ _ Hfit Hh]. specialize (Hh i h Hi). simpl in Hh. rewrite Hh.
  unfold get_pheader, u32_at.
  unfold mbind, M_bind, mret, M_ret. rewrite !field_eq by lia. done.
Qed.

(** Headers of empty segments are passed over. *)
Lemma skip_headers pid argc argv n : ∀ i s,
  (∀ k h, (i ≤ k < i + n)%nat → hs !! k = Some h → p_memsz h = 0) →
  (i + n ≤ length hs)%nat → loop pid argc argv buf phoff n (Z.of_nat i) s = Ret tt s.
Proof using Helf.
  induction n as [|n IH]; intros i s Hz Hn; cbn [pheader_loop]; [done|].
  destruct (lookup_lt_is_Some_2 hs i) as [h Hh]; [lia|].
  mrun (get_pheader_eq i h s Hh). unfold load_header.
  rewrite (Hz i h) by (done || lia). simpl (_ =? _). cbv iota. mstep.
  replace (Z.of_nat i + 1) with (Z.of_nat (S i)) by lia. apply IH; [|lia].
  intros k h' Hk. apply Hz. lia.
Qed.

(** One header is loaded. *)
Lemma elf_headers pid argc argv j h s Q :
  hs !! j = Some h → (∀ k h', k ≠ j → hs !! k = Some h' → p_memsz h' = 0) →
  returns (load pid argc argv h) s Q →
  ∀ n i, (i ≤ j < i + n)%nat → (i + n ≤ length hs)%nat →
  returns (loop pid argc argv buf phoff n (Z.of_nat i)) s Q.
Proof using Helf.
  intros Hj Hz HQ n. induction n as [|n IH]; intros i Hi Hn; [lia|]. cbn [pheader_loop].
  destruct (decide (i = j)) as [->|Hne].
  - unfold returns. mrun (get_pheader_eq j h s Hj). destruct HQ as ([] & s1 & E & HQ).
    rewrite (bind_ret_eq _ _ _ _ _ E). exists tt, s1. split; [|done].
    replace (Z.of_nat j + 1) with (Z.of_nat (S j)) by lia. apply skip_headers; [|lia].
    intros k h' Hk. apply Hz. lia.
  - destruct (lookup_lt_is_Some_2 hs i) as [h' Hh']; [lia|]. unfold returns.
    mrun (get_pheader_eq i h' s Hh'). unfold load_header at 1.
    rewrite (Hz i h' Hne Hh'). simpl (_ =? _). cbv iota. mstep.
    replace (Z.of_nat i + 1) with (Z.of_nat (S i)) by lia. apply IH; lia.
Qed.
End elf.
