(* ===== verification/ElfThms.v ===== *)
(** * Theorems about the ELF loader

    [elf_load] on the file of an application and on the file of the kernel, from
    the lemmas of ElfCorrect.v, with small ELF files as witnesses. *)

From coqutil Require Import Byte Word.LittleEndianList.
From S2P Require Import Prelude Layout Blocks Ramdisk FsDisk FsCorrect Paging PagingOps.
From S2P Require Import Mmu MmuOps MmuCorrect Elf ElfCorrect.

(** What a reader has to keep for the loader, see [reads]: a fact [I] about the
    disk that page eviction does not destroy. *)
Definition stable {D} (sd : sd_driver D) (type : disk_type) (I : D → Prop) : Prop :=
  ∀ d f x, I d → 0 ≤ f < NFRAMES → length x = npage →
    returns (earth_disk_write sd type (f * NBLOCKS_PER_PAGE) NBLOCKS_PER_PAGE x) d (λ _ d', I d').

(** The only segment of an ELF file that is not empty. *)
Definition only_segment (hs : list elf32_program_header) (h : elf32_program_header) : Prop :=
  ∃ j, hs !! j = Some h ∧ p_memsz h ≠ 0 ∧ ∀ k h', k ≠ j → hs !! k = Some h' → p_memsz h' = 0.

Lemma elf_load_header {D} (platform : platform_id) (sd : sd_driver D) rom type rnd translation
    reader file phoff hs pid argc argv h (s s1 : mmu D) Q :
  elf_file file phoff hs → only_segment hs h →
  reader 0 s = Ret (slice file 0) s1 →
  returns (load_header platform sd rom type rnd translation reader pid argc argv h) s1 Q →
  returns (elf_load platform sd rom type rnd translation reader pid argc argv) s Q.
Proof.
  intros He (j & Hj & _ & Hz) Hr HQ. unfold elf_load, returns.
  rewrite (bind_ret_eq _ _ _ _ _ Hr). pose proof (buf_length _ _ _ He) as Hl.
  unfold e_phoff, e_phnum. rewrite (bind_ret_eq _ _ _ _ _ (field_eq _ 28 4 s1 ltac:(lia) ltac:(rewrite Hl; done))).
  rewrite (bind_ret_eq _ _ _ _ _ (field_eq _ 44 2 s1 ltac:(lia) ltac:(rewrite Hl; done))).
  change (le_combine (bytes_at (slice file 0) (Z.to_nat 28) 4)) with (u32_at (slice file 0) 28).
  change (Z.to_nat 44) with 44%nat.
  rewrite (ef_phoff _ _ _ He), (ef_phnum _ _ _ He), Nat2Z.id.
  apply lookup_lt_Some in Hj as Hlt.
  eapply (elf_headers platform sd rom type rnd translation reader file phoff hs He pid argc argv j h s1 Q
    Hj Hz HQ (length hs) 0); lia.
Qed.

(** The pages of an application that was loaded: three with the bytes of the
    segment followed by zeros, one with the arguments, one for the stack; the pages
    of other processes are as they were. *)
Definition app_pages {D} (pid argc : Z) (argv : option (list byte)) (file : list byte) (b0 filesz : Z)
    (s : mmu D) (F : Z → page) (s' : mmu D) (F' : Z → page) : Prop :=
  (∀ i, (i < 3)%nat → owned s' F' pid (Z.shiftr APPS_ENTRY 12 + Z.of_nat i)
                        (image_page file b0 filesz i)) ∧
  (∃ y z, owned s' F' pid (Z.shiftr APPS_ARG 12) y ∧ args_page argc (default [] argv) y ∧
          owned s' F' pid (Z.shiftr APPS_ARG 12 + 1) z) ∧
  (∀ f n, maps (ftable s') f pid n → n ∈ [0x8005; 0x8006; 0x8007; 0x80000; 0x80001]) ∧
  ∀ r n x, r ≠ 0 → r ≠ pid → owned s F r n x → owned s' F' r n x.

Lemma elf_load_app_spec {D} (platform : platform_id) (sd : sd_driver D) (rom : Z → byte)
    (type : disk_type) (rnd : nat → Z) `{!SdCard sd DISK_BLOCKS} (translation : translation_id)
    (pid : Z) (I : D → Prop) (reader : Z → M (mmu D) block) (file : list byte) (phoff : Z)
    (hs : list elf32_program_header) (b0 filesz memsz argc : Z) (argv : option (list byte))
    (s : mmu D) (F : Z → page) :
  (platform = ARTY → type = SD_CARD) → (∀ n, 0 ≤ rnd n) →
  pid ≠ 0 → pid ≠ curr_vm_pid s → (translation = PAGE_TABLE → pid < 32) →
  (platform = ARTY → stable sd type I) → reads platform sd I reader file →
  mmu_wf platform sd s F → I (pdisk s) → (∀ f n, ¬ maps (ftable s) f pid n) →
  (5 ≤ nfree (ftable s))%nat →
  elf_file file phoff hs →
  only_segment hs (ProgramHeader (b0 * BLOCK_SIZE) APPS_ENTRY filesz memsz) →
  0 ≤ b0 → 0 ≤ filesz ≤ APPS_SIZE →
  (b0 + Z.of_nat (nblk filesz)) * BLOCK_SIZE ≤ Z.of_nat (length file) → args_ok argc argv →
  returns (elf_load platform sd rom type rnd translation reader pid argc argv) s (λ _ s', ∃ F',
    mmu_wf platform sd s' F' ∧ curr_vm_pid s' = curr_vm_pid s ∧
    app_pages pid argc argv file b0 filesz s F s' F' ∧
    I (pdisk s') ∧ (ready platform s → ready platform s') ∧ others pid s F s' F' ∧
    (nfree (ftable s') + 5 = nfree (ftable s))%nat).
Proof.
  intros Htype Hrnd Hpid Hcurr Htrans Hst Hreads W HI Hno Hroom He Hseg Hb0 Hsize Hfile Hargs.
  destruct (Hreads s F 0 W HI ltac:(lia)) as (blk & s1 & E1 & -> & F1 & W1 & I1 & T1 & C1 & O1 & _ & R1 & M1 & E1').
  { pose proof (ef_length _ _ _ He). lia. }
  eapply (elf_load_header _ _ _ _ _ _ _ _ _ _ _ _ _ _ _ s1); [exact He|exact Hseg|exact E1|].
  destruct Hseg as (_ & _ & Hmem & _). unfold load_header. cbn [p_memsz p_vaddr] in *.
  rewrite (proj2 (Z.eqb_neq _ _)) by done. simpl (_ =? GRASS_ENTRY). rewrite Z.eqb_refl. cbv iota.
  eapply returns_mono; [apply (load_app_spec platform sd rom type rnd translation pid reader I Htype
    Hrnd Hpid Htrans Hst file b0 filesz Hreads Hb0 Hsize Hfile s1 F1)|cbv beta].
  - by rewrite C1.
  - by rewrite T1.
  - split; try done; [intros n x Hx; by apply elem_of_nil in Hx|intros f n; rewrite T1; by intros ?%Hno|].
    split; try done. intros f n m. rewrite T1. by intros ?%Hno.
  - done.
  - intros _ s' (F' & y & z & G & Hy). destruct G as [W' C' O' N' K' Fr' D' R' [X1 X2 X3 X4 X5]]. exists F'.
    split; [done|]. split; [congruence|]. split; [|split; [done|split; [by auto|split; [|by rewrite <-T1]]]]; [split; [|split; [|split]]|].
    + intros i Hi. apply O'. right. right.
      destruct i as [|[|[|]]]; [right; right; left|right; left|left|lia].
    + exists y, z. split; [apply O'; right; left|]. split; [done|]. apply O'. left.
    + intros f n Hm. apply N' in Hm. revert Hm. clear. intros Hm.
      repeat (apply elem_of_cons in Hm as [->|Hm]; [vm_compute; set_solver|]).
      by apply elem_of_nil in Hm.
    + intros r n x Hr Hrp Hx. by apply K', O1.
    + rewrite T1 in X2, X3, X4, X5. split; [intros n Hn; by rewrite X1, M1|done| |done|done].
      intros f m Hf Hm Hu. by rewrite (X3 f m Hf Hm Hu), E1'.
Qed.

(** C34: Loading an application.  For an ELF file with one segment, at
    [APPS_ENTRY] and of at most [APPS_SIZE] bytes, and a process that has no
    pages yet, [elf_load] returns and the process has exactly five pages: three
    with the bytes of the segment followed by zeros, one in which the argument
    count, the pointers and the arguments are where the start code reads them,
    and one for the stack.  No page of any other process changes.  This holds on
    both platforms for a reader that returns the blocks of the file and leaves
    the pages of processes and every slot of the frame cache as they are
    ([reads]), as one that only reads the disk does ([exec_read], with which the
    servers are loaded); on the Arty board the loader's own pages may be moved to
    the card between its calls.  A reader that lets other processes run is
    covered on QEMU only. *)
Theorem elf_load_app {D} (platform : platform_id) (sd : sd_driver D) (rom : Z → byte)
    (type : disk_type) (rnd : nat → Z) `{!SdCard sd DISK_BLOCKS} (translation : translation_id)
    (pid : Z) (I : D → Prop) (reader : Z → M (mmu D) block) (file : list byte) (phoff : Z)
    (hs : list elf32_program_header) (b0 filesz memsz argc : Z) (argv : option (list byte))
    (s : mmu D) (F : Z → page) :
  (platform = ARTY → type = SD_CARD) → (∀ n, 0 ≤ rnd n) →
  pid ≠ 0 → pid ≠ curr_vm_pid s → (translation = PAGE_TABLE → pid < 32) →
  (platform = ARTY → stable sd type I) → reads platform sd I reader file →
  mmu_wf platform sd s F → I (pdisk s) → (∀ f n, ¬ maps (ftable s) f pid n) →
  (5 ≤ nfree (ftable s))%nat →
  elf_file file phoff hs →
  only_segment hs (ProgramHeader (b0 * BLOCK_SIZE) APPS_ENTRY filesz memsz) →
  0 ≤ b0 → 0 ≤ filesz ≤ APPS_SIZE →
  (b0 + Z.of_nat (nblk filesz)) * BLOCK_SIZE ≤ Z.of_nat (length file) → args_ok argc argv →
  returns (elf_load platform sd rom type rnd translation reader pid argc argv) s (λ _ s', ∃ F',
    mmu_wf platform sd s' F' ∧ curr_vm_pid s' = curr_vm_pid s ∧
    app_pages pid argc argv file b0 filesz s F s' F').
Proof.
  intros. eapply returns_mono; [by eapply elf_load_app_spec|cbv beta].
  intros _ s' (F' & W' & C' & A' & _). by exists F'.
Qed.

(** A file with a header block and one block of data. *)
Definition demo_elf (vaddr filesz : Z) : list byte :=
  foldl (λ b '(o, bs), overwrite b o bs) null_block
    [(28%nat, le_split 4 52); (44%nat, le_split 2 1); (56%nat, le_split 4 512);
     (60%nat, le_split 4 vaddr); (68%nat, le_split 4 filesz); (72%nat, le_split 4 filesz)]
  ++ demo_block.

Definition demo_headers (vaddr filesz : Z) : list elf32_program_header :=
  [ProgramHeader (1 * BLOCK_SIZE) vaddr filesz filesz].

Lemma demo_elf_ok vaddr filesz :
  (vaddr, filesz) = (APPS_ENTRY, 300) ∨ (vaddr, filesz) = (GRASS_ENTRY, 300) →
  elf_file (demo_elf vaddr filesz) 52 (demo_headers vaddr filesz) ∧
  only_segment (demo_headers vaddr filesz) (ProgramHeader (1 * BLOCK_SIZE) vaddr filesz filesz) ∧
  length (demo_elf vaddr filesz) = 1024%nat.
Proof.
  intros H. split; [|split].
  - destruct H as [[= -> ->]|[= -> ->]]; (split; [by vm_compute|by vm_compute..|]);
      intros [|i] h Hh; simplify_eq/=; by vm_compute.
  - exists 0%nat. split; [done|]. destruct H as [[= -> ->]|[= -> ->]]; (split; [done|]);
      intros [|k] h' Hk Hh'; simplify_eq/=.
  - by destruct H as [[= -> ->]|[= -> ->]].
Qed.

(** The file on the card, where the kernel's executables are. *)
Definition demo_exec_card (file : list byte) : gmap Z block :=
  disk_of DISK_BLOCKS (λ b,
    if (GRASS_EXEC_START <=? b) && ((b - GRASS_EXEC_START + 1) * BLOCK_SIZE <=? Z.of_nat (length file))
    then slice file (b - GRASS_EXEC_START) else null_block).

Lemma demo_on_card file :
  Z.of_nat (length file) ≤ GRASS_EXEC_SIZE →
  on_card mem_sd GRASS_EXEC_START file (demo_exec_card file).
Proof.
  intros Hl. exists (demo_exec_card file). split; [split; [done|]|].
  - intros b Hb. unfold demo_exec_card. rewrite disk_of_lookup by done.
    destruct (Z.leb_spec GRASS_EXEC_START b), (Z.leb_spec ((b - GRASS_EXEC_START + 1) * BLOCK_SIZE)
      (Z.of_nat (length file))); simpl; try done. by apply slice_wf; [lia|].
  - intros n H0 Hn. unfold demo_exec_card. rewrite disk_of_lookup.
    + rewrite (proj2 (Z.leb_le _ _)), (proj2 (Z.leb_le _ _)) by (rewrite ?Z.add_simpl_l; lia).
      f_equal. lia.
    + change DISK_BLOCKS with 8192. change GRASS_EXEC_START with 2048.
      change BLOCK_SIZE with 512 in *. change GRASS_EXEC_SIZE with 1048576 in *. lia.
Qed.

(** At boot no frame is in use. *)
Definition boot_mmu (file : list byte) : mmu (gmap Z block) :=
  Mmu (replicate (Z.to_nat NFRAMES) no_mapping) (-1) (replicate nslot (-1)) (λ _, zero_page)
    (demo_exec_card file) 0.

Lemma boot_maps file f q n : ¬ maps (ftable (boot_mmu file)) f q n.
Proof.
  intros (m & _ & Hl & Hu & _). cbn [ftable boot_mmu] in Hl.
  apply lookup_replicate in Hl as [-> _]. done.
Qed.

Lemma boot_mmu_wf file : mmu_wf QEMU mem_sd (boot_mmu file) (λ _, zero_page).
Proof.
  split; [split|split|done].
  - split; [apply length_replicate| |].
    + intros i f Hf. apply lookup_replicate in Hf as [-> _]. by left.
    + intros i j f Hi Hj Hf. apply lookup_replicate in Hi as [-> _]. done.
  - intros n. apply length_replicate.
  - intros f Hf. done.
  - apply length_replicate.
  - intros i q n Hm. by apply boot_maps in Hm.
  - intros i j q n Hm. by apply boot_maps in Hm.
  - intros i m Hm _. by apply lookup_replicate in Hm as [-> _].
Qed.

Lemma demo_exec_page file f : 0 ≤ f < NFRAMES → card_page (demo_exec_card file) f = zero_page.
Proof.
  intros Hf. destruct (page_blocks f Hf) as [B1 B2]. change NBLOCKS_PER_PAGE with 8 in *.
  apply card_page_written; [apply length_replicate|]. change NBLOCKS_PER_PAGE with 8.
  intros b Hb. unfold demo_exec_card. rewrite disk_of_lookup by lia.
  rewrite (proj2 (Z.leb_gt GRASS_EXEC_START _))
    by (change GRASS_EXEC_START with 2048; unfold NFRAMES in Hf; lia). cbn [andb].
  unfold slice, zero_page, fill, null_block. rewrite drop_replicate, take_replicate. f_equal.
  unfold npage, nbytes. change PAGE_SIZE with 4096. change BLOCK_SIZE with 512. lia.
Qed.

Lemma boot_mmu_arty file :
  Z.of_nat (length file) ≤ GRASS_EXEC_SIZE → mmu_wf ARTY mem_sd (boot_mmu file) (λ _, zero_page).
Proof.
  intros Hl. destruct (boot_mmu_wf file) as [[Sl Me _] Ta Fr]. split; [split|done|done]; [done|done|].
  destruct (demo_on_card file Hl) as (c & Hc & _). exists (demo_exec_card file).
  split; [destruct Hc as [<- Hc]; by split| |].
  - intros i f Hf H0. apply lookup_replicate in Hf as [-> _]. lia.
  - intros f Hf _. by rewrite demo_exec_page.
Qed.

(** The process gets its page. *)
Definition demo_loaded (platform : platform_id) : Prop := ∃ s' F',
  elf_load platform mem_sd (λ _, Byte.x00) SD_CARD Z.of_nat SOFT_TLB
    (exec_read mem_sd (λ _, Byte.x00) SD_CARD GRASS_EXEC_START) 1 0 None
    (boot_mmu (demo_elf APPS_ENTRY 300)) = Ret tt s' ∧
  owned s' F' 1 0x8005 (replicate 300 Byte.x41 ++ replicate (npage - 300) Byte.x00).

(** On both platforms. *)
Lemma elf_load_app_witness : demo_loaded QEMU ∧ demo_loaded ARTY.
Proof.
  cut (∀ platform, demo_loaded platform); [by split|]. intros platform. destruct (demo_elf_ok APPS_ENTRY 300 ltac:(by left)) as (He & Hs & Hl).
  destruct (elf_load_app platform mem_sd (λ _, Byte.x00) SD_CARD Z.of_nat SOFT_TLB 1
    (on_card mem_sd GRASS_EXEC_START (demo_elf APPS_ENTRY 300))
    (exec_read mem_sd (λ _, Byte.x00) SD_CARD GRASS_EXEC_START) (demo_elf APPS_ENTRY 300) 52
    (demo_headers APPS_ENTRY 300) 1 300 300 0 None (boot_mmu (demo_elf APPS_ENTRY 300))
    (λ _, zero_page)) as ([] & s' & E & F' & _ & _ & Hc & _).
  - done.
  - lia.
  - done.
  - done.
  - done.
  - intros _ d f x. by apply on_card_stable.
  - apply plain_reads_reads, exec_read_spec; [done|by rewrite Hl|done].
  - destruct platform; [apply boot_mmu_wf|apply boot_mmu_arty; by rewrite Hl].
  - apply demo_on_card. by rewrite Hl.
  - intros f n. apply boot_maps.
  - apply Nat.leb_le. vm_compute. reflexivity.
  - exact He.
  - exact Hs.
  - lia.
  - done.
  - by rewrite Hl.
  - done.
  - exists s', F'. split; [exact E|]. specialize (Hc 0%nat ltac:(lia)).
    replace (replicate 300 Byte.x41 ++ replicate (npage - 300) Byte.x00)
      with (image_page (demo_elf APPS_ENTRY 300) 1 300 0) by (vm_compute; reflexivity).
    exact Hc.
Defined.

(** ** The kernel's image *)

Section grass.
Context {D : Type}.
Implicit Types s : mmu D.

Definition byte_at s (a : Z) : option byte :=
  mem s (Z.shiftr a 12) !! Z.to_nat (a mod PAGE_SIZE).

(** The same state but for memory, which still has whole pages. *)
Definition same_but_mem s s' : Prop :=
  ftable s' = ftable s ∧ curr_vm_pid s' = curr_vm_pid s ∧ cache_slots s' = cache_slots s ∧
  pdisk s' = pdisk s ∧ ∀ n, length (mem s' n) = npage.

Lemma page_of a b :
  Z.shiftr b 12 = Z.shiftr a 12 ↔ a - a mod PAGE_SIZE ≤ b < a - a mod PAGE_SIZE + PAGE_SIZE.
Proof.
  rewrite !Z.shiftr_div_pow2 by lia. change (2 ^ 12) with 4096. change PAGE_SIZE with 4096.
  Z.to_euclidean_division_equations. lia.
Qed.

Lemma set_page_byte s a bs b :
  (∀ n, length (mem s n) = npage) → a mod PAGE_SIZE + Z.of_nat (length bs) ≤ PAGE_SIZE →
  byte_at (set_page (Z.shiftr a 12)
    (overwrite (mem s (Z.shiftr a 12)) (Z.to_nat (a mod PAGE_SIZE)) bs) s) b =
  if decide (a ≤ b < a + Z.of_nat (length bs)) then bs !! Z.to_nat (b - a) else byte_at s b.
Proof.
  intros Hl Hle. unfold byte_at. simpl. pose proof (page_of a b) as Hp.
  pose proof (Z.mod_pos_bound a PAGE_SIZE ltac:(done)) as Ha.
  destruct (Z.eqb_spec (Z.shiftr b 12) (Z.shiftr a 12)) as [E|E].
  - assert (Hb : b mod PAGE_SIZE = b - (a - a mod PAGE_SIZE)).
    { apply Hp in E. revert E. change PAGE_SIZE with 4096. clear. Z.to_euclidean_division_equations. lia. }
    rewrite overwrite_lookup, E, Hb by (rewrite Hl; unfold npage; lia).
    repeat case_decide; try lia; [|done]. f_equal. lia.
  - rewrite decide_False; [done|]. intros Hb. apply E, Hp. lia.
Qed.

Lemma put_bytes_spec k : ∀ a bs s,
  (∀ n, length (mem s n) = npage) →
  a mod PAGE_SIZE + Z.of_nat (length bs) ≤ PAGE_SIZE * Z.of_nat k →
  same_but_mem s (put_bytes k a bs s) ∧
  ∀ b, byte_at (put_bytes k a bs s) b =
    if decide (a ≤ b < a + Z.of_nat (length bs)) then bs !! Z.to_nat (b - a) else byte_at s b.
Proof.
  induction k as [|k IH]; intros a bs s Hl Hle.
  { assert (length bs = 0%nat) by (pose proof (Z.mod_pos_bound a PAGE_SIZE ltac:(done)); lia).
    simpl. split; [by split_and!|]. intros b. by rewrite decide_False by lia. }
  destruct bs as [|x bs]; cbn [put_bytes].
  { split; [by split_and!|]. intros b. by rewrite decide_False by (simpl; lia). }
  set (l := x :: bs) in *. pose proof (Z.mod_pos_bound a PAGE_SIZE ltac:(done)) as Ha.
  set (room := PAGE_SIZE - a mod PAGE_SIZE) in *.
  assert (Ht : a mod PAGE_SIZE + Z.of_nat (length (take (Z.to_nat room) l)) ≤ PAGE_SIZE)
    by (rewrite length_take; lia).
  pose proof (λ b, set_page_byte s a (take (Z.to_nat room) l) b Hl Ht) as Hb.
  set (s1 := set_page _ _ s) in *.
  assert (Hl1 : ∀ n, length (mem s1 n) = npage).
  { intros n. simpl. destruct (n =? _); [|done]. rewrite overwrite_length; [done|].
    rewrite Hl. unfold npage. lia. }
  assert (Hm : (a + room) mod PAGE_SIZE = 0).
  { unfold room. change PAGE_SIZE with 4096. clear. Z.to_euclidean_division_equations. lia. }
  destruct (IH (a + room) (drop (Z.to_nat room) l) s1 Hl1) as [(E1 & E2 & E3 & E4 & E5) Hd].
  { rewrite Hm, length_drop. lia. }
  split; [by split_and!|]. intros b. rewrite Hd, Hb. rewrite length_drop, length_take.
  destruct (decide (a ≤ b < a + Z.of_nat (length l))) as [Hin|Hout].
  - destruct (decide (b < a + room)).
    + rewrite decide_False, decide_True by lia. by rewrite lookup_take_lt by lia.
    + rewrite decide_True by lia. rewrite lookup_drop. f_equal. lia.
  - by rewrite !decide_False by lia.
Qed.

(** From address [GRASS_ENTRY] on memory has the bytes [g], elsewhere it is as
    in [s0]. *)
Definition wrote s0 s (g : list byte) : Prop :=
  (ftable s = ftable s0 ∧ curr_vm_pid s = curr_vm_pid s0 ∧ cache_slots s = cache_slots s0) ∧
  (∀ n, length (mem s n) = npage) ∧
  ∀ b, byte_at s b = if decide (GRASS_ENTRY ≤ b < GRASS_ENTRY + Z.of_nat (length g))
                     then g !! Z.to_nat (b - GRASS_ENTRY) else byte_at s0 b.

Lemma store_wrote s0 s g o bs :
  wrote s0 s g → 0 ≤ o ≤ Z.of_nat (length g) → Z.of_nat (length g) ≤ o + Z.of_nat (length bs) →
  returns (store_bytes (GRASS_ENTRY + o) bs) s (λ _ s',
    wrote s0 s' (take (Z.to_nat o) g ++ bs) ∧ pdisk s' = pdisk s).
Proof.
  intros ((T1 & T2 & T3) & Hl & Hg) Ho Hle. apply returns_modify.
  destruct (put_bytes_spec (Z.to_nat (Z.of_nat (length bs) / PAGE_SIZE + 2)) (GRASS_ENTRY + o) bs s Hl)
    as [(E1 & E2 & E3 & E4 & E5) Hb].
  { pose proof (Z.mod_pos_bound (GRASS_ENTRY + o) PAGE_SIZE ltac:(done)).
    change PAGE_SIZE with 4096 in *. Z.to_euclidean_division_equations. lia. }
  split; [|done]. split; [split_and!; congruence|]. split; [done|].
  intros b. rewrite Hb, Hg, length_app, length_take.
  destruct (decide (GRASS_ENTRY + o ≤ b < GRASS_ENTRY + o + Z.of_nat (length bs))).
  - rewrite decide_True by lia. rewrite lookup_app_r by (rewrite length_take; lia).
    rewrite length_take. f_equal. lia.
  - destruct (decide (GRASS_ENTRY ≤ b < GRASS_ENTRY + o)).
    + rewrite !decide_True by lia. rewrite lookup_app_l by (rewrite length_take; lia).
      by rewrite lookup_take_lt by lia.
    + by rewrite !decide_False by lia.
Qed.
End grass.

Section load_grass.
Context {D : Type} (sd : sd_driver D) `{!SdCard sd DISK_BLOCKS}.
Context (I : D → Prop) (reader : Z → M (mmu D) block) (file : list byte).
Hypothesis Hread : plain_reads sd I reader file.
Context (b0 filesz : Z).
Hypothesis Hb0 : 0 ≤ b0.
Hypothesis Hsize : 0 ≤ filesz ≤ GRASS_SIZE.
Hypothesis Hfile : (b0 + Z.of_nat (nblk filesz)) * BLOCK_SIZE ≤ Z.of_nat (length file).

(** The disk still reads the same. *)
Definition same_disk (s s' : mmu D) : Prop :=
  I (pdisk s') ∧ ∀ c, sd_holds (pdisk s) c → sd_holds (pdisk s') c.

Lemma grass_loop_spec n : ∀ i (s0 s : mmu D),
  wrote s0 s (take (i * nbytes) (seg file b0)) → same_disk s0 s →
  (i ≤ nblk filesz)%nat → (nblk filesz - i < n)%nat →
  returns (grass_loop reader n filesz (BLOCK_SIZE * Z.of_nat i) (b0 + Z.of_nat i)) s (λ _ s',
    wrote s0 s' (take (nblk filesz * nbytes) (seg file b0)) ∧ same_disk s0 s').
Proof using Hread Hb0 Hsize Hfile.
  induction n as [|n IH]; intros i s0 s Hw Hh Hi Hn; [lia|]. cbn [grass_loop].
  assert (Hiff : BLOCK_SIZE * Z.of_nat i < filesz ↔ (i < nblk filesz)%nat).
  { clear -Hsize. unfold nblk. change BLOCK_SIZE with 512. Z.to_euclidean_division_equations. lia. }
  destruct (Z.ltb_spec (BLOCK_SIZE * Z.of_nat i) filesz) as [Hlt|Hge].
  2:{ apply returns_ret. assert (i = nblk filesz) as <- by lia. done. }
  assert (Hlt' : (i < nblk filesz)%nat) by (by apply Hiff). change BLOCK_SIZE with 512 in *.
  rcall (apply (Hread s (b0 + Z.of_nat i)); [apply Hh|lia|change BLOCK_SIZE with 512; lia]).
  intros blk s1 (-> & HI1 & E1 & Hc1).
  assert (Hw1 : wrote s0 s1 (take (i * nbytes) (seg file b0))) by (by rewrite E1).
  assert (Hseg : length (take (i * nbytes) (seg file b0)) = (i * nbytes)%nat).
  { rewrite length_take. unfold seg. rewrite length_drop. change nbytes with 512%nat.
    change BLOCK_SIZE with 512. lia. }
  assert (Hblk : length (slice file (b0 + Z.of_nat i)) = nbytes).
  { apply slice_wf; [lia|]. change BLOCK_SIZE with 512. lia. }
  rcall (apply (store_wrote s0 s1 _ (512 * Z.of_nat i) _ Hw1); rewrite Hseg, ?Hblk;
    change nbytes with 512%nat; lia).
  intros _ s2 [Hw2 E2].
  replace (512 * Z.of_nat i + 512) with (512 * Z.of_nat (S i)) by lia.
  replace (b0 + Z.of_nat i + 1) with (b0 + Z.of_nat (S i)) by lia.
  apply (IH (S i) s0 s2); [|split; rewrite E2; [done|intros c Hc; by apply Hc1, Hh]|lia|lia].
  rewrite take_ge in Hw2 by (rewrite Hseg; change nbytes with 512%nat; lia).
  replace (take (S i * nbytes) (seg file b0)) with
    (take (i * nbytes) (seg file b0) ++ slice file (b0 + Z.of_nat i)); [exact Hw2|].
  replace (S i * nbytes)%nat with (i * nbytes + nbytes)%nat by lia. rewrite <-take_take_drop.
  f_equal. unfold slice, seg. rewrite drop_drop. do 2 f_equal.
  change nbytes with 512%nat. change BLOCK_SIZE with 512. lia.
Qed.

(** The image of the kernel: the bytes of the segment, then zeros. *)
Definition grass_image : list byte :=
  take (Z.to_nat filesz) (seg file b0) ++ replicate (Z.to_nat (GRASS_SIZE - filesz)) Byte.x00.

Lemma load_grass_spec (s : mmu D) vaddr memsz :
  (∀ n, length (mem s n) = npage) → I (pdisk s) →
  returns (load_grass reader (ProgramHeader (b0 * BLOCK_SIZE) vaddr filesz memsz)) s (λ _ s',
    wrote s s' grass_image ∧ same_disk s s').
Proof using Hread Hb0 Hsize Hfile.
  intros Hl Hh. unfold load_grass. cbn [p_filesz p_offset]. rewrite Z.div_mul by done.
  rewrite <-(Z.mul_0_r BLOCK_SIZE). rewrite <-(Z.add_0_r b0) at 1.
  assert (Hn : (nblk filesz - 0 < rounds filesz)%nat ∧ filesz ≤ Z.of_nat (nblk filesz * nbytes) ∧
    Z.of_nat (nblk filesz * nbytes) ≤ GRASS_SIZE).
  { clear -Hsize. unfold nblk, rounds. change nbytes with 512%nat. change BLOCK_SIZE with 512.
    change GRASS_SIZE with 10240 in *. Z.to_euclidean_division_equations. lia. }
  rcall (apply (grass_loop_spec (rounds filesz) 0 s s); [|by split|lia|lia]).
  { split; [done|]. split; [done|]. intros b. by rewrite decide_False by (simpl; lia). }
  intros _ s1 [Hw1 Hh1]. rewrite (proj2 (Z.ltb_ge _ _)) by lia.
  assert (Hseg : length (take (nblk filesz * nbytes) (seg file b0)) = (nblk filesz * nbytes)%nat).
  { rewrite length_take. unfold seg. rewrite length_drop. change nbytes with 512%nat.
    change BLOCK_SIZE with 512 in *. lia. }
  eapply returns_mono; [apply (store_wrote s s1 _ filesz _ Hw1)|cbv beta].
  - rewrite Hseg. lia.
  - rewrite Hseg, length_replicate. lia.
  - intros _ s2 [Hw2 E2]. rewrite take_take, Nat.min_l in Hw2 by lia. split; [exact Hw2|].
    unfold same_disk. by rewrite E2.
Qed.

Lemma grass_image_length : Z.of_nat (length grass_image) = GRASS_SIZE.
Proof using Hb0 Hsize Hfile.
  unfold grass_image. rewrite length_app, length_take, length_replicate. unfold seg.
  rewrite length_drop. unfold nblk in Hfile. change BLOCK_SIZE with 512 in *.
  revert Hfile. clear -Hsize Hb0. Z.to_euclidean_division_equations. lia.
Qed.

Lemma elf_load_grass_spec platform rom type rnd translation phoff hs memsz (s : mmu D) :
  I (pdisk s) → (∀ n, length (mem s n) = npage) → elf_file file phoff hs →
  only_segment hs (ProgramHeader (b0 * BLOCK_SIZE) GRASS_ENTRY filesz memsz) →
  returns (elf_load platform sd rom type rnd translation reader 0 0 None) s
    (λ _ s', wrote s s' grass_image ∧ same_disk s s').
Proof using Hread Hb0 Hsize Hfile.
  intros HI Hl He Hseg.
  destruct (Hread s 0 HI ltac:(lia)) as (blk & s1 & E1 & -> & HI1 & Es & Hc1).
  { pose proof (ef_length _ _ _ He). lia. }
  eapply (elf_load_header _ _ _ _ _ _ _ _ _ _ _ _ _ _ _ s1); [exact He|exact Hseg|exact E1|].
  destruct Hseg as (_ & _ & Hmem & _). unfold load_header. cbn [p_memsz p_vaddr] in *.
  rewrite (proj2 (Z.eqb_neq _ _)) by done. rewrite Z.eqb_refl. cbv iota.
  eapply returns_mono; [apply load_grass_spec; [by rewrite Es|done]|cbv beta].
  intros _ s' [Hw [HI' Hc']]. split; [by rewrite Es in Hw|]. split; [done|].
  intros c Hc. by apply Hc', Hc1.
Qed.
End load_grass.

(** Loading the kernel at boot.  For an ELF file on the card with one segment,
    at [GRASS_ENTRY] and of at most [GRASS_SIZE] bytes, [elf_load] returns and
    memory from [GRASS_ENTRY] on, where the processor then jumps, holds the bytes
    of the segment followed by zeros up to [GRASS_SIZE]; every other byte of
    memory is as before. *)
Theorem elf_load_grass {D} (platform : platform_id) (sd : sd_driver D) (rom : Z → byte)
    (rnd : nat → Z) `{!SdCard sd DISK_BLOCKS} (translation : translation_id)
    (start : Z) (file : list byte) (phoff : Z) (hs : list elf32_program_header)
    (b0 filesz memsz : Z) (s : mmu D) :
  GRASS_EXEC_START ≤ start → start + Z.of_nat (length file) / BLOCK_SIZE ≤ DISK_BLOCKS →
  on_card sd start file (pdisk s) → (∀ n, length (mem s n) = npage) →
  elf_file file phoff hs →
  only_segment hs (ProgramHeader (b0 * BLOCK_SIZE) GRASS_ENTRY filesz memsz) →
  0 ≤ b0 → 0 ≤ filesz ≤ GRASS_SIZE →
  (b0 + Z.of_nat (nblk filesz)) * BLOCK_SIZE ≤ Z.of_nat (length file) →
  returns (elf_load platform sd rom SD_CARD rnd translation (exec_read sd rom SD_CARD start) 0 0 None) s
    (λ _ s', ∀ a, byte_at s' a =
      if decide (GRASS_ENTRY ≤ a < GRASS_ENTRY + GRASS_SIZE)
      then grass_image file b0 filesz !! Z.to_nat (a - GRASS_ENTRY) else byte_at s a).
Proof.
  intros Hstart Hend Hon Hl He Hseg Hb0 Hsize Hfile.
  eapply returns_mono; [eapply (elf_load_grass_spec sd (on_card sd start file)); try done;
    by apply exec_read_spec|cbv beta].
  intros _ s' ((_ & _ & Hw) & _) a. rewrite Hw. by rewrite grass_image_length.
Qed.

Lemma elf_load_grass_witness : ∃ s',
  elf_load QEMU mem_sd (λ _, Byte.x00) SD_CARD Z.of_nat SOFT_TLB
    (exec_read mem_sd (λ _, Byte.x00) SD_CARD GRASS_EXEC_START) 0 0 None
    (boot_mmu (demo_elf GRASS_ENTRY 300)) = Ret tt s' ∧
  byte_at s' (GRASS_ENTRY + 299) = Some Byte.x41 ∧ byte_at s' (GRASS_ENTRY + 300) = Some Byte.x00.
Proof.
  destruct (demo_elf_ok GRASS_ENTRY 300 ltac:(by right)) as (He & Hs & Hl).
  destruct (elf_load_grass QEMU mem_sd (λ _, Byte.x00) Z.of_nat SOFT_TLB GRASS_EXEC_START
    (demo_elf GRASS_ENTRY 300) 52 (demo_headers GRASS_ENTRY 300) 1 300 300
    (boot_mmu (demo_elf GRASS_ENTRY 300))) as ([] & s' & E & Hb).
  - done.
  - by rewrite Hl.
  - apply demo_on_card. by rewrite Hl.
  - intros n. apply length_replicate.
  - exact He.
  - exact Hs.
  - lia.
  - done.
  - by rewrite Hl.
  - exists s'. split; [exact E|]. change GRASS_SIZE with 0x2800 in Hb.
    split; (rewrite Hb, decide_True by lia); rewrite Z.add_simpl_l; by vm_compute.
Defined.
