(* ===== verification/SysProcCorrect.v ===== *)
(** * The loader inside the process server

    [elf_load] of an application runs in the process server, and every block of
    the program is fetched from the file server by messages.  [simulates u m]:
    the user code [u], in a network where the file server waits for requests,
    gets to the result that [m] has on memory and disk alone.  The loader with
    [app_read] simulates the loader with a reader of the disk, so what ElfThms.v
    says of the latter holds of the former. *)

From stdpp Require Import relations.
From coqutil Require Import Byte Word.LittleEndianList.
From S2P Require Import Prelude Layout Blocks Store Ramdisk FsDisk FileSystem Earth Process Dir.
From S2P Require Import Kernel KernelInv User Servers Net ServersCorrect Paging Mmu Elf SysProc.

(** The state after a read does not depend on what was in the buffer. *)
Class ReadsAlike {S} (st : inode_store S) := reads_alike ino b buf buf' s r s' :
  read st ino b buf s = Ret r s' → ∃ r', read st ino b buf' s = Ret r' s'.

(** Code around a program, which steps with it. *)
Record around {D A} (C : prog D A → prog D (unit * syscall)) : Prop := {
  ar_invoke : context C;
  ar_act m d p d' : m d = Ret p d' → ∃ m', C (Act m) = Act m' ∧ m' d = Ret (C p) d';
}.

Lemma around_bind {D A B} (C : prog D B → prog D (unit * syscall)) (f : A → prog D B) :
  around C → around (λ p, C (pbind p f)).
Proof.
  intros [H1 H2]. split.
  - intros sc k. cbn [prog_bind]. by rewrite H1.
  - intros m d p d' E. cbn [prog_bind].
    apply (H2 _ d (pbind p f) d'). by rewrite E.
Qed.

Lemma around_id {D} : around (D := D) (λ p, p).
Proof. split; [by intros sc k|]. intros m d p d' E. by exists m. Qed.

Section sim.
Context {D : Type} (junk : list byte) (fs : inode_store D) (inv : D → Prop) (F : files).
Context `{!FileStore fs inv F, !ReadsAlike fs}.
Hypothesis Hjunk : (nbytes ≤ length junk)%nat.
Local Abbreviation wfs := (world_fs fs).

Definition with_disk (d : D) (v : mmu D) : mmu D :=
  Mmu (ftable v) (curr_vm_pid v) (cache_slots v) (mem v) d (nrand v).

(** The file server's store in the world. *)
Definition winv (w : world D) : Prop := inv (pdisk (vm w)).

#[export] Instance world_file_store (w0 : world D) :
  FileStore wfs (λ w, winv w ∧ ∃ d, w = set_vm (with_disk d (vm w0)) w0) F.
Proof using FileStore0.
  split.
  - intros w ino off buf [Hw (d & ->)] Hi Ho.
    destruct (fst_read d ino off buf Hw Hi Ho) as (r & d' & E & -> & Hd').
    eexists _, _. split; [cbn; unfold on_disk, on_vm, Paging.on_disk; cbn; rewrite E; reflexivity|].
    split; [done|]. split; [done|]. by exists d'.
  - intros w [Hw _]. by eapply fst_wf.
Qed.

(** ** Simulation *)

(** The process server runs [p], the file server waits and may serve [n] requests. *)
Definition spot (p : prog (world D) (unit * syscall)) (n : nat) (fsc : syscall)
    (T : gmap Z (prog (world D) (unit * syscall))) : gmap Z (prog (world D) (unit * syscall)) :=
  two GPID_PROCESS GPID_FILE p (file_loop wfs n fsc) T.

Definition simulates {A} (u : U (world D) A) (m : M (mmu D) A) : Prop :=
  ∀ v a v', m v = Ret a v' → inv (pdisk v) → inv (pdisk v') ∧
  ∃ k, ∀ C n sc fsc T mb w,
    around C → quiet T GPID_PROCESS GPID_FILE → in_use mb = 0 → msg_len_ok sc → msg_len_ok fsc → vm w = v →
    ∃ sc' fsc' mb',
      rtc forced (Net (spot (C (u sc)) (k + n) fsc T) mb w)
                 (Net (spot (C (Done (a, sc'))) n fsc' T) mb' (set_vm v' w)) ∧
      in_use mb' = 0 ∧ msg_len_ok sc' ∧ msg_len_ok fsc'.

Lemma sim_ret {A} (a : A) : simulates (mret a) (mret a).
Proof using Type.
  clear Hjunk. intros v a' v' [= <- <-] Hv. split; [done|]. exists 0%nat. intros C n sc fsc T mb w HC Hq Hm H1 H2 <-.
  exists sc, fsc, mb. split; [|done]. destruct w. constructor.
Qed.

Lemma sim_bind {A B} (u : U (world D) A) m (f : A → U (world D) B) g :
  simulates u m → (∀ a, simulates (f a) (g a)) → simulates (u ≫= f) (m ≫= g).
Proof using Type.
  clear Hjunk. intros Hu Hf v b v' E Hv. apply bind_ret_inv in E as (a & v1 & E1 & E2).
  destruct (Hu v a v1 E1 Hv) as (Hv1 & k1 & H1). destruct (Hf a v1 b v' E2 Hv1) as (Hv2 & k2 & H2).
  split; [done|]. exists (k1 + k2)%nat. intros C n sc fsc T mb w HC Hq Hm Hs Hfs Hw.
  rewrite user_bind, <-Nat.add_assoc.
  destruct (H1 (λ p, C (pbind p (λ r, f r.1 r.2))) (k2 + n)%nat sc fsc T mb w)
    as (sc1 & fsc1 & mb1 & L1 & Hm1 & Hs1 & Hf1); [by apply around_bind|done..|].
  destruct (H2 C n sc1 fsc1 T mb1 (set_vm v1 w)) as (sc2 & fsc2 & mb2 & L2 & Hm2 & Hs2 & Hf2); [done..|].
  exists sc2, fsc2, mb2. split; [|done]. eapply leads_trans; [exact L1|exact L2].
Qed.

(** A step on memory, which leaves the disk alone. *)
Definition keeps_disk {A} (m : M (mmu D) A) : Prop := ∀ v a v', m v = Ret a v' → pdisk v' = pdisk v.

Lemma sim_lift {A} (m : M (mmu D) A) : keeps_disk m → simulates (lift m) m.
Proof using Type.
  clear Hjunk. intros Hk v a v' E Hv. split; [by rewrite (Hk v a v' E)|]. exists 0%nat.
  intros C n sc fsc T mb w HC Hq Hm H1 H2 <-. exists sc, fsc, mb. split; [|done].
  unfold lift, lift_vm, act.
  destruct (ar_act _ HC (λ w, match on_vm m w with
    | Ret a w => Ret (Done (a, sc)) w | Fatal why w => Fatal why w | Undef why => Undef why | Spin => Spin
    end) w (Done (a, sc)) (set_vm v' w)) as (m' & Em & Er).
  { unfold on_vm. by rewrite E. }
  rewrite Em. apply runs; [done|done|apply file_loop_idle|exact Er].
Qed.

(** A block of a file, from the disk. *)
Definition file_reader (ino off : Z) : M (mmu D) block :=
  '(rc, blk) ← Paging.on_disk (read fs (u32 ino) (u32 off) null_block);
  if rc =? 0 then mret blk else undef "file_reader".

Lemma file_reader_inv ino off v blk v' :
  file_reader ino off v = Ret blk v' → inv (pdisk v) →
  ∃ f d, F !! Z.to_nat (u32 ino) = Some f ∧ f !! Z.to_nat (u32 off) = Some blk ∧
    read fs (u32 ino) (u32 off) null_block (pdisk v) = Ret (0, blk) d ∧ v' = with_disk d v ∧ inv d.
Proof using FileStore0.
  clear Hjunk. intros E Hv. unfold file_reader in E. apply bind_ret_inv in E as ([rc b] & v1 & E1 & E2).
  destruct (fst_read (pdisk v) (u32 ino) (u32 off) null_block Hv (u32_range _) (u32_range _))
    as (r & d & E & -> & Hd). unfold Paging.on_disk in E1. rewrite E in E1.
  injection E1 as Hr <-. rewrite Hr in E. unfold spec_read in Hr.
  destruct (F !! Z.to_nat (u32 ino)) as [f|]; [|injection Hr as <- <-; discriminate E2].
  destruct (f !! Z.to_nat (u32 off)) as [b1|] eqn:Eb; [|injection Hr as <- <-; discriminate E2].
  injection Hr as <- <-. injection E2 as -> <-. by exists f, d.
Qed.

Lemma sim_read ino off : simulates (app_read junk ino off) (file_reader ino off).
Proof using Hjunk FileStore0 ReadsAlike0.
  intros v blk v' E Hv. destruct (file_reader_inv ino off v blk v' E Hv) as (f & d & Hf & Hb & Er & -> & Hd).
  split; [done|]. exists 1%nat. intros C n sc fsc T mb w HC Hq Hm Hs Hfs <-.
  unfold app_read. rewrite user_bind.
  destruct (file_read_leads junk wfs (λ w', winv w' ∧ ∃ d, w' = set_vm (with_disk d (vm w)) w) F Hjunk
    (λ p, C (pbind p (λ r, (let '(_, blk) := r.1 return U (world D) block in mret blk) r.2))) GPID_PROCESS n sc fsc ino off T mb w)
    as (sc' & fsc' & mb' & w' & r & L & (buf & Hr & Ew) & _ & Hm' & Hs' & Hfs'); try done.
  { by apply ar_invoke, around_bind. }
  { split; [done|]. exists (pdisk (vm w)). by destruct w as [? ? []]. }
  exists sc', fsc', mb'. split; [|done].
  assert (r = (0, blk)) as ->. { rewrite Hr. unfold spec_read. by rewrite Hf, Hb. }
  destruct (reads_alike _ _ _ buf _ _ _ Er) as (r' & Er').
  assert (w' = set_vm (with_disk d (vm w)) w) as ->; [|exact L].
  revert Ew. cbn. unfold on_disk, on_vm, Paging.on_disk. rewrite Er'. by intros [= _ <-].
Qed.
End sim.

(** ** The loader *)

(** What leaves the disk alone. *)
Section keeps.
Context {D : Type}.

Lemma kd_ret {A} (a : A) : keeps_disk (D := D) (mret a).
Proof. by intros v a' v' [= _ <-]. Qed.
Lemma kd_bind {A B} (m : M (mmu D) A) (f : A → M (mmu D) B) :
  keeps_disk m → (∀ a, keeps_disk (f a)) → keeps_disk (m ≫= f).
Proof.
  intros Hm Hf v b v' E. apply bind_ret_inv in E as (a & v1 & E1 & E2).
  rewrite (Hf _ _ _ _ E2). by eapply Hm.
Qed.
Lemma kd_gets {A} (f : mmu D → A) : keeps_disk (gets f).
Proof. by intros v a v' [= _ <-]. Qed.
Lemma kd_modify (f : mmu D → mmu D) : (∀ v, pdisk (f v) = pdisk v) → keeps_disk (modify f).
Proof. by intros Hf v a v' [= _ <-]. Qed.
Lemma kd_undef {A} w : keeps_disk (D := D) (A := A) (undef w).
Proof. by intros v a v' [=]. Qed.
Lemma kd_fatal {A} w : keeps_disk (D := D) (A := A) (fatal w).
Proof. by intros v a v' [=]. Qed.
Lemma kd_spin {A} : keeps_disk (D := D) (A := A) spin.
Proof. by intros v a v' [=]. Qed.
Lemma kd_arr_get {A} (l : list A) i : keeps_disk (D := D) (arr_get l i).
Proof. unfold arr_get. destruct (_ <? _); [apply kd_undef|]. destruct (l !! _); [apply kd_ret|apply kd_undef]. Qed.
Lemma kd_arr_set {A} (l : list A) i x : keeps_disk (D := D) (arr_set l i x).
Proof. unfold arr_set. destruct (_ && _); [apply kd_ret|apply kd_undef]. Qed.
End keeps.

Create HintDb sim.
#[export] Hint Resolve kd_ret kd_bind kd_gets kd_undef kd_fatal kd_spin kd_arr_get kd_arr_set : sim.

(** Goes through binds and branches of a program. *)
Ltac keeps :=
  repeat first
    [ progress eauto with sim
    | apply kd_bind; [|intros ?]
    | apply kd_modify; intros ?; reflexivity
    | match goal with
      | |- keeps_disk (if ?b then _ else _) => destruct b
      | |- keeps_disk (match ?x with _ => _ end) => destruct x
      | |- keeps_disk (let '(_, _) := ?x in _) => destruct x
      end ].

Section qemu.
Context {D : Type} (sd : sd_driver D) (rom : Z → byte) (type : disk_type) (rnd : nat → Z).
Context (translation : translation_id).

Lemma put_bytes_disk k : ∀ a bs (v : mmu D), pdisk (put_bytes k a bs v) = pdisk v.
Proof. induction k as [|k IH]; intros a [|b bs] v; [done..|]. cbn [put_bytes]. by rewrite IH. Qed.

Lemma kd_store a bs : keeps_disk (D := D) (store_bytes a bs).
Proof. apply kd_modify. intros v. apply put_bytes_disk. Qed.
Lemma kd_zero a n : keeps_disk (D := D) (zero_bytes a n).
Proof. apply kd_store. Qed.

Lemma kd_alloc : keeps_disk (mmu_alloc QEMU sd rom type rnd).
Proof. unfold mmu_alloc, paging_read, set_entry. keeps. Qed.

Lemma kd_give_page pid n : keeps_disk (give_page QEMU sd rom type rnd translation pid n).
Proof.
  unfold give_page, mmu_map, page_table_map, soft_tlb_map, set_entry.
  apply kd_bind; [apply kd_alloc|]. intros [f a]. keeps.
Qed.
Lemma kd_bss pid n : ∀ code, keeps_disk (bss_loop QEMU sd rom type rnd translation pid n code).
Proof.
  induction n as [|n IH]; intros code; cbn [bss_loop]; [apply kd_spin|].
  destruct (_ <? _); [|apply kd_ret]. apply kd_bind; [apply kd_give_page|]. intros base.
  apply kd_bind; [apply kd_zero|]. intros _. apply IH.
Qed.
Lemma kd_argv n : ∀ base i, keeps_disk (D := D) (argv_loop n base i).
Proof.
  induction n as [|n IH]; intros base i; cbn [argv_loop]; [apply kd_ret|].
  apply kd_bind; [apply kd_store|]. intros _. apply IH.
Qed.
Lemma kd_field buf o n : keeps_disk (D := D) (field buf o n).
Proof. unfold field. keeps. Qed.
Lemma kd_pheader buf phoff i : keeps_disk (D := D) (get_pheader buf phoff i).
Proof. unfold get_pheader. repeat (apply kd_bind; [apply kd_field|intros ?]). apply kd_ret. Qed.

Lemma kd_switch pid : keeps_disk (soft_tlb_switch QEMU sd rom type rnd pid).
Proof.
  assert (Hl : ∀ a, keeps_disk (D := D) (load_page a)) by (intros a; unfold load_page; keeps).
  assert (Hs : ∀ a x, keeps_disk (D := D) (store_page a x)) by (intros a x; unfold store_page; keeps).
  assert (H1 : ∀ n i, keeps_disk (unmap_loop QEMU sd type rnd n i)).
  { induction n as [|n IH]; intros i; cbn [unmap_loop]; unfold paging_write; keeps. }
  assert (H2 : ∀ n i, keeps_disk (map_loop QEMU sd rom type rnd pid n i)).
  { induction n as [|n IH]; intros i; cbn [map_loop]; unfold paging_read; keeps. }
  unfold soft_tlb_switch. keeps.
Qed.
End qemu.
#[export] Hint Resolve kd_store kd_zero kd_give_page kd_bss kd_argv kd_field kd_pheader : sim.
#[export] Hint Unfold e_phoff e_phnum : sim.

(** A relation between user code and code on memory that goes through programs. *)
Record through {D} (R : ∀ A, U (world D) A → M (mmu D) A → Prop) : Prop := {
  th_ret A (a : A) : R A (mret a) (mret a);
  th_bind A B u m f g : R A u m → (∀ a, R B (f a) (g a)) → R B (u ≫= f) (m ≫= g);
  th_lift A (m : M (mmu D) A) : keeps_disk m → R A (lift m) m;
}.

Section loader.
Context {D : Type} (R : ∀ A, U (world D) A → M (mmu D) A → Prop) (HR : through R).
Context (sd : sd_driver D) (rom : Z → byte) (type : disk_type) (rnd : nat → Z).
Context (translation : translation_id) (ru : Z → U (world D) block) (rm : Z → M (mmu D) block).
Hypothesis Hread : ∀ n, R block (ru n) (rm n).

(** Goes through two programs of the same shape. *)
Ltac rel :=
  repeat first
    [ apply (th_ret _ HR)
    | apply Hread
    | apply (th_lift _ HR); solve [autounfold with sim; eauto with sim]
    | apply (th_bind _ HR); [|intros ?]
    | match goal with
      | |- R _ (if ?b then _ else _) _ => destruct b
      | |- R _ (let '(_, _) := ?x in _) _ => destruct x
      | |- R _ (match ?x with _ => _ end) _ => destruct x
      end
    | progress eauto ].

Lemma grass_loop_rel n : ∀ filesz off b,
  R _ (grass_loop ru n filesz off b) (grass_loop rm n filesz off b).
Proof using HR Hread. induction n as [|n IH]; intros filesz off b; cbn [grass_loop]; rel. Qed.

Lemma code_loop_rel pid n : ∀ filesz off b code base,
  R _ (code_loop QEMU sd rom type rnd translation ru pid n filesz off b code base)
    (code_loop QEMU sd rom type rnd translation rm pid n filesz off b code base).
Proof using HR Hread. induction n as [|n IH]; intros filesz off b code base; cbn [code_loop]; rel. Qed.

Lemma load_grass_rel ph : R _ (load_grass ru ph) (load_grass rm ph).
Proof using HR Hread.
  unfold load_grass. apply (th_bind _ HR); [apply grass_loop_rel|intros _]. rel.
Qed.

Lemma load_app_rel pid argc argv ph :
  R _ (load_app QEMU sd rom type rnd translation ru pid argc argv ph)
    (load_app QEMU sd rom type rnd translation rm pid argc argv ph).
Proof using HR Hread.
  unfold load_app. apply (th_bind _ HR); [apply code_loop_rel|intros [code base]]. rel.
Qed.

Lemma pheader_loop_rel pid argc argv buf phoff n : ∀ i,
  R _ (pheader_loop QEMU sd rom type rnd translation ru pid argc argv buf phoff n i)
    (pheader_loop QEMU sd rom type rnd translation rm pid argc argv buf phoff n i).
Proof using HR Hread.
  induction n as [|n IH]; intros i; cbn [pheader_loop]; [apply (th_ret _ HR)|].
  apply (th_bind _ HR); [apply (th_lift _ HR); eauto with sim|intros ph].
  apply (th_bind _ HR); [|intros _; apply IH].
  unfold load_header. destruct (_ =? 0); [apply (th_ret _ HR)|].
  destruct (_ =? _); [apply load_grass_rel|]. destruct (_ =? _); [apply load_app_rel|rel].
Qed.

Lemma elf_load_rel pid argc argv :
  R _ (elf_load QEMU sd rom type rnd translation ru pid argc argv)
    (elf_load QEMU sd rom type rnd translation rm pid argc argv).
Proof using HR Hread.
  unfold elf_load. apply (th_bind _ HR); [apply Hread|intros buf].
  repeat (apply (th_bind _ HR); [apply (th_lift _ HR); autounfold with sim; eauto with sim|intros ?]).
  apply pheader_loop_rel.
Qed.
End loader.

(** The loader that reads from the file server. *)
Lemma elf_load_sim {D} (junk : list byte) (fs : inode_store D) (inv : D → Prop) (F : files)
    `{!FileStore fs inv F, !ReadsAlike fs} sd rom type rnd translation ino (Hjunk : (nbytes ≤ length junk)%nat)
    pid argc argv :
  simulates fs inv (elf_load QEMU sd rom type rnd translation (app_read junk ino) pid argc argv)
    (elf_load QEMU sd rom type rnd translation (file_reader fs ino) pid argc argv).
Proof.
  apply (elf_load_rel (λ A, simulates fs inv)); [|intros n; by eapply sim_read].
  split; [intros; apply sim_ret|intros; by apply sim_bind|intros; by apply sim_lift].
Qed.
