(* ===== verification/SpawnCorrect.v ===== *)
(** * Starting an application

    A request of the shell to the process server, through all the servers: the
    lookups in the directories, the loader with its reads of the file, the reply. *)

From stdpp Require Import relations.
From coqutil Require Import Byte Word.LittleEndianList.
From S2P Require Import Prelude Layout Blocks Store Ramdisk FsDisk FileSystem Earth Process Dir.
From S2P Require Import Kernel KernelInv User Servers Net ServersCorrect Paging PagingOps Mmu MmuOps.
From S2P Require Import Elf ElfCorrect ElfThms SysProc SysProcCorrect.

(** The bytes of a file. *)
Lemma concat_length (f : list block) : Forall wf_block f → length (concat f) = (length f * nbytes)%nat.
Proof. induction 1 as [|b f Hb _ IH]; [done|]. cbn [concat length]. rewrite length_app, Hb, IH. lia. Qed.

Lemma slice_concat_nat (f : list block) i :
  Forall wf_block f → (i < length f)%nat → f !! i = Some (slice (concat f) (Z.of_nat i)).
Proof.
  intros Hf. revert i. induction Hf as [|b f Hb Hf IH]; intros i Hi; cbn [length] in Hi; [lia|].
  unfold slice. cbn [concat]. destruct i as [|i]; cbn [lookup list_lookup].
  - change (Z.to_nat (Z.of_nat 0 * BLOCK_SIZE)) with 0%nat. rewrite drop_0, take_app_length' by done. done.
  - rewrite IH by lia. unfold slice. do 2 f_equal.
    replace (Z.to_nat (Z.of_nat (S i) * BLOCK_SIZE)) with (length b + Z.to_nat (Z.of_nat i * BLOCK_SIZE))%nat.
    + by rewrite drop_app_add.
    + rewrite Hb. unfold nbytes. change BLOCK_SIZE with 512. lia.
Qed.

Lemma slice_concat (f : list block) n :
  Forall wf_block f → 0 ≤ n → (n + 1) * BLOCK_SIZE ≤ Z.of_nat (length (concat f)) →
  f !! Z.to_nat n = Some (slice (concat f) n) ∧ n < Z.of_nat (length f).
Proof.
  intros Hf H0 Hn. rewrite concat_length in Hn by done. unfold nbytes in Hn.
  change BLOCK_SIZE with 512 in Hn. assert (Hl : n < Z.of_nat (length f)) by lia. split; [|done].
  rewrite slice_concat_nat by (done || lia). by rewrite Z2Nat.id.
Qed.

Section reader.
Context {D : Type} (fs : inode_store D) (inv : D → Prop) (F : files) `{!FileStore fs inv F}.
Context (sd : sd_driver D) `{!SdCard sd DISK_BLOCKS}.

(** A file of the file system, read block by block. *)
Lemma file_reader_reads ino f :
  is_u32 ino → F !! Z.to_nat ino = Some f → Z.of_nat (length f) ≤ 2 ^ 32 →
  reads QEMU sd inv (file_reader fs ino) (concat f).
Proof.
  intros Hi Hf Hl s G n W Hs H0 Hn.
  assert (Hwf : Forall wf_block f) by (eapply (Forall_lookup_1 _ F); [by eapply fst_wf|done]).
  destruct (slice_concat f n Hwf H0 Hn) as [Hb Hlt].
  assert (Hn32 : is_u32 n) by (unfold is_u32; lia).
  destruct (fst_read (pdisk s) ino n null_block Hs Hi Hn32) as (r & d & E & -> & Hd).
  unfold spec_read in E. rewrite Hf, Hb in E. unfold file_reader. rewrite !u32_small by done.
  eexists _, (with_disk d s). split.
  { unfold mbind, M_bind, Paging.on_disk. rewrite E. reflexivity. }
  split; [done|]. exists G. split_and!; try done.
  split; [|apply W|apply W]. destruct (mw_paged _ _ _ _ W) as [P1 P2 P3]. by split.
Qed.
End reader.

(** A directory of the file system, and a name that can be looked up in it: it fits
    the message, and it is not longer than the text of the directory, for else the
    search leaves its buffer.  A number can be looked up, but see [lookup_ino]. *)
Record directory (F : files) (ino : Z) (es : list (list byte * Z)) : Prop := {
  dr_ino : 0 ≤ ino < 2 ^ 31;
  dr_file : F !! Z.to_nat ino = Some [dir_block es];
  dr_entries : Forall entry_ok es;
  dr_size : (length (render es) < nbytes)%nat;
}.
Record findable (es : list (list byte * Z)) (name : list byte) : Prop := {
  fd_word : word name;
  fd_length : (length name ≤ length (render es))%nat;
  fd_short : (length name < 32)%nat;
}.

Section spawn.
Context {D : Type} (junk : list byte) (fs : inode_store D) (inv : D → Prop) (F : files).
Context `{!FileStore fs inv F, !ReadsAlike fs}.
Hypothesis Hjunk : (nbytes ≤ length junk)%nat.
Local Abbreviation wfs := (world_fs fs).
Implicit Types w : world D.
Implicit Types T : gmap Z (prog (world D) (unit * syscall)).

(** The process server runs [p]; the directory and the file server wait. *)
Definition servers p (nd : nat) dsc (nf : nat) fsc T : gmap Z (prog (world D) (unit * syscall)) :=
  two GPID_PROCESS GPID_DIR p (dir_loop junk nd dsc) (<[GPID_FILE:=file_loop wfs nf fsc]> T).
Definition others_wait T : Prop :=
  ∀ q t, q ≠ GPID_PROCESS → q ≠ GPID_DIR → q ≠ GPID_FILE → T !! q = Some t → idle t.

Lemma servers_spot p nd dsc nf fsc T :
  servers p nd dsc nf fsc T = spot fs p nf fsc (<[GPID_DIR:=dir_loop junk nd dsc]> T).
Proof using Type. unfold servers, spot, two. by rewrite (insert_insert_ne _ GPID_DIR GPID_FILE). Qed.

Lemma others_quiet nd dsc T :
  others_wait T → quiet (<[GPID_DIR:=dir_loop junk nd dsc]> T) GPID_PROCESS GPID_FILE.
Proof using Type.
  intros H. apply quiet_insert; [|apply dir_loop_idle]. intros q t H1 H2 H3. by apply H.
Qed.

(** What holds between the steps of the process server. *)
Record ready sc dsc fsc (mb : kernel_msg) T : Prop := {
  rd_sc : msg_len_ok sc;
  rd_dsc : msg_len_ok dsc;
  rd_fsc : msg_len_ok fsc;
  rd_box : in_use mb = 0;
  rd_others : others_wait T;
}.

(** The world after a read of the disk. *)
Lemma world_read ino off buf w r w' r0 d :
  read wfs ino off buf w = Ret r w' → read fs ino off null_block (pdisk (vm w)) = Ret r0 d →
  w' = set_vm (with_disk d (vm w)) w.
Proof using ReadsAlike0.
  intros E E0. destruct (reads_alike _ _ _ buf _ _ _ E0) as (r1 & E1). revert E.
  cbn. unfold on_disk, on_vm, Paging.on_disk. rewrite E1. by intros [= _ <-].
Qed.

(** A lookup. *)
Lemma lookup_step C ino name es nd nf sc dsc fsc T mb w r0 d :
  around C → ready sc dsc fsc mb T → winv inv w → directory F ino es → findable es name →
  read fs ino 0 null_block (pdisk (vm w)) = Ret r0 d →
  ∃ sc' dsc' fsc' mb',
    rtc forced (Net (servers (C (dir_lookup junk ino name sc)) (S nd) dsc (S nf) fsc T) mb w)
      (Net (servers (C (Done (lookup_ino es name, sc'))) nd dsc' nf fsc' T) mb'
         (set_vm (with_disk d (vm w)) w)) ∧
    ready sc' dsc' fsc' mb' T.
Proof using Hjunk FileStore0 ReadsAlike0.
  intros HC [R1 R2 R3 R4 R5] Hw [I1 I2 I3 I4] [N1 N3 N4] E.
  destruct (dir_lookup_leads junk wfs (λ w', winv inv w' ∧ ∃ d, w' = set_vm (with_disk d (vm w)) w) F Hjunk
    C GPID_PROCESS nd nf sc dsc fsc ino name es T mb w)
    as (sc' & dsc' & fsc' & mb' & w' & L & (buf & r & Ew) & _ & Hm & H1 & H2 & H3); try done.
  { apply HC. }
  { split; [done|]. exists (pdisk (vm w)). by destruct w as [? ? []]. }
  { unfold is_u32. lia. }
  { lia. }
  rewrite (world_read _ _ _ _ _ _ _ _ Ew E) in L. by exists sc', dsc', fsc', mb'.
Qed.

(** A step on the world alone. *)
Lemma act_step {A} C (m : M (world D) A) a nd nf sc dsc fsc T mb w w' :
  around C → ready sc dsc fsc mb T → m w = Ret a w' →
  rtc forced (Net (servers (C (act m sc)) nd dsc nf fsc T) mb w)
    (Net (servers (C (Done (a, sc))) nd dsc nf fsc T) mb w').
Proof using Type.
  clear Hjunk. intros HC [R1 R2 R3 R4 R5] E. rewrite !servers_spot.
  destruct (ar_act _ HC (λ w, match m w with
    | Ret a w => Ret (Done (a, sc)) w | Fatal why w => Fatal why w | Undef why => Undef why | Spin => Spin
    end) w (Done (a, sc)) w') as (m' & Em & Er).
  { by rewrite E. }
  unfold act. rewrite Em. apply runs; [by apply others_quiet|done|apply file_loop_idle|exact Er].
Qed.

(** [goes u w kd kf a w']: user code [u] of the process server gets from [w] to
    the result [a] in [w'], with [kd] requests to the directory server and [kf] to
    the file server. *)
Definition goes {A} (u : U (world D) A) w (kd kf : nat) (a : A) w' : Prop :=
  ∀ C nd nf sc dsc fsc T mb, around C → ready sc dsc fsc mb T →
  ∃ sc' dsc' fsc' mb',
    rtc forced (Net (servers (C (u sc)) (kd + nd) dsc (kf + nf) fsc T) mb w)
      (Net (servers (C (Done (a, sc'))) nd dsc' nf fsc' T) mb' w') ∧
    ready sc' dsc' fsc' mb' T.

Lemma goes_ret {A} (a : A) w : goes (mret a) w 0 0 a w.
Proof using Type. intros C nd nf sc dsc fsc T mb HC HR. by exists sc, dsc, fsc, mb. Qed.

Lemma goes_bind {A B} (u : U (world D) A) (f : A → U (world D) B) w kd kf a w1 kd' kf' b w2 :
  goes u w kd kf a w1 → goes (f a) w1 kd' kf' b w2 →
  goes (u ≫= f) w (kd + kd') (kf + kf') b w2.
Proof using Type.
  clear Hjunk. intros H1 H2 C nd nf sc dsc fsc T mb HC HR. rewrite <-!Nat.add_assoc.
  destruct (H1 (λ p, C (pbind p (λ r, f r.1 r.2))) (kd' + nd)%nat (kf' + nf)%nat sc dsc fsc T mb)
    as (sc1 & dsc1 & fsc1 & mb1 & L1 & R1); [by apply around_bind|done|].
  destruct (H2 C nd nf sc1 dsc1 fsc1 T mb1 HC R1) as (sc2 & dsc2 & fsc2 & mb2 & L2 & R2).
  exists sc2, dsc2, fsc2, mb2. split; [|done]. eapply leads_trans; [exact L1|exact L2].
Qed.

Lemma goes_act {A} (m : M (world D) A) w a w' : m w = Ret a w' → goes (act m) w 0 0 a w'.
Proof using Type.
  intros E C nd nf sc dsc fsc T mb HC HR. exists sc, dsc, fsc, mb. split; [|done]. by eapply act_step.
Qed.

Lemma goes_lookup ino name es w r0 d :
  winv inv w → directory F ino es → findable es name →
  read fs ino 0 null_block (pdisk (vm w)) = Ret r0 d →
  goes (dir_lookup junk ino name) w 1 1 (lookup_ino es name) (set_vm (with_disk d (vm w)) w).
Proof using Hjunk FileStore0 ReadsAlike0.
  intros Hw Hd Hn E C nd nf sc dsc fsc T mb HC HR. by eapply lookup_step.
Qed.

Lemma goes_sim {A} (u : U (world D) A) m w a v' :
  simulates fs inv u m → m (vm w) = Ret a v' → winv inv w → ∃ kf, goes u w 0 kf a (set_vm v' w).
Proof using Type.
  clear Hjunk. intros Hs E Hw. destruct (Hs (vm w) a v' E Hw) as (_ & k & H). exists k.
  intros C nd nf sc dsc fsc T mb HC HR.
  destruct (H C nf sc fsc (<[GPID_DIR:=dir_loop junk nd dsc]> T) mb w) as (sc' & fsc' & mb' & L & Hm & Hs' & Hf');
    [done|apply others_quiet, HR|apply HR..|done|].
  exists sc', dsc, fsc', mb'. rewrite !servers_spot. split; [exact L|]. destruct HR. by split.
Qed.

Lemma goes_cstring (buf : list byte) o w n :
  find_nul (drop o buf) = Some n → goes (cstring buf o) w 0 0 (take n (drop o buf)) w.
Proof using Type. intros E. unfold cstring. rewrite E. apply goes_ret. Qed.

Lemma goes_last_arg (buf : list byte) w :
  1 ≤ req_argc buf ≤ CMD_NARGS →
  goes (last_arg buf) w 0 0 (req_argv buf !!! Z.to_nat ((req_argc buf - 1) * CMD_ARG_LEN)) w.
Proof using Type.
  clear Hjunk. intros Hr. unfold last_arg. rewrite (proj2 (Z.leb_le _ _)), (proj2 (Z.ltb_lt _ _)) by lia. apply goes_ret.
Qed.

(** ** A request *)

Context (sd : sd_driver D) `{!SdCard sd DISK_BLOCKS} (rom : Z → byte) (type : disk_type) (rnd : nat → Z).
Context (translation : translation_id).

Lemma wf_with_disk d (v : mmu D) G : mmu_wf QEMU sd v G → mmu_wf QEMU sd (with_disk d v) G.
Proof using Type. clear Hjunk. intros [[P1 P2 P3] W2 W3]. by split. Qed.

(** The request asks for program [name]; there is a directory [bin/]. *)
Record asks_for (buf name : list byte) (es0 es1 : list (list byte * Z)) : Prop := {
  af_root : directory F 0 es0;
  af_bin : findable es0 (chars "bin/");
  af_dir : directory F (lookup_ino es0 (chars "bin/")) es1;
  af_name : findable es1 name;
  af_nul : find_nul (drop 8 buf) = Some (length name);
  af_arg : take (length name) (drop 8 buf) = name;
}.

(** The lookups. *)
Lemma spawn_lookups {B} name es0 es1 w :
  winv inv w → directory F 0 es0 → directory F (lookup_ino es0 (chars "bin/")) es1 →
  ∃ d, inv d ∧ ∀ buf (g : Z → U (world D) B) kd kf b w',
    asks_for buf name es0 es1 →
    goes (g (lookup_ino es1 name)) (set_vm (with_disk d (vm w)) w) kd kf b w' →
    goes (bin_ino ← dir_lookup junk 0 (chars "bin/"); name ← cstring buf 8;
          app_ino ← dir_lookup junk bin_ino name; g app_ino) w (2 + kd) (2 + kf) b w'.
Proof using Hjunk FileStore0 ReadsAlike0.
  intros Hw A1 A3. set (bin := lookup_ino es0 (chars "bin/")) in *.
  assert (H0 : is_u32 0) by done.
  assert (Hb : is_u32 bin) by (pose proof (dr_ino _ _ _ A3); unfold is_u32; lia).
  destruct (fst_read (pdisk (vm w)) 0 0 null_block Hw H0 H0) as (r1 & d1 & E1 & _ & Hd1).
  destruct (fst_read d1 bin 0 null_block Hd1 Hb H0) as (r2 & d2 & E2 & _ & Hd2).
  exists d2. split; [done|]. intros buf g kd kf b w' [_ A2 _ A4 A5 A6] Hg.
  apply (goes_bind _ _ _ 1 1 bin (set_vm (with_disk d1 (vm w)) w)); [by eapply goes_lookup|].
  apply (goes_bind _ _ _ 0 0 name (set_vm (with_disk d1 (vm w)) w)).
  { pose proof (goes_cstring buf 8 (set_vm (with_disk d1 (vm w)) w) _ A5) as Hc. by rewrite A6 in Hc. }
  eapply (goes_bind _ _ _ 1 1); [by eapply goes_lookup|exact Hg].
Qed.

(** A program that is not there. *)
Lemma app_spawn_unknown buf name es0 es1 app_pid w :
  winv inv w → asks_for buf name es0 es1 → lookup_ino es1 name < 0 →
  ∃ d, goes (app_spawn QEMU sd rom type rnd translation junk buf app_pid) w 2 2 (-1, app_pid)
         (set_vm (with_disk d (vm w)) w).
Proof using Hjunk FileStore0 ReadsAlike0.
  intros Hw Ha Hi.
  destruct (spawn_lookups (B := Z * Z) name es0 es1 w Hw (af_root _ _ _ _ Ha) (af_dir _ _ _ _ Ha)) as (d & Hd & Hg).
  exists d. unfold app_spawn. apply (Hg buf _ 0%nat 0%nat _ _ Ha). rewrite (proj2 (Z.ltb_lt _ _)) by done.
  apply goes_ret.
Qed.

(** The program [f] for which there is room, for the process that is the next. *)
Record can_load (f : list block) (b0 filesz : Z) (pid : Z) (ps : table) w G : Prop := {
  cl_size : Z.of_nat (length f) ≤ 2 ^ 32;
  cl_elf : ∃ phoff hs memsz, elf_file (concat f) phoff hs ∧
    only_segment hs (ProgramHeader (b0 * BLOCK_SIZE) APPS_ENTRY filesz memsz);
  cl_b0 : 0 ≤ b0;
  cl_filesz : 0 ≤ filesz ≤ APPS_SIZE;
  cl_end : (b0 + Z.of_nat (nblk filesz)) * BLOCK_SIZE ≤ Z.of_nat (length (concat f));
  cl_alloc : proc_alloc (procs w) (nprocs w) = Some (pid, ps);
  cl_pid : 0 < pid;
  cl_curr : pid ≠ curr_vm_pid (vm w);
  cl_table : translation = PAGE_TABLE → pid < 32;
  cl_wf : mmu_wf QEMU sd (vm w) G;
  cl_new fr n : ¬ maps (ftable (vm w)) fr pid n;
  cl_free : (5 ≤ nfree (ftable (vm w)))%nat;
}.

Lemma req_argv_length (buf : list byte) :
  length buf = Z.to_nat SYSCALL_MSG_LEN → Z.of_nat (length (req_argv buf)) = CMD_NARGS * CMD_ARG_LEN.
Proof using Type.
  clear Hjunk. intros Hl. unfold req_argv, bytes_at. rewrite length_take, length_drop, Hl.
  change (Z.to_nat SYSCALL_MSG_LEN) with (2 * 512)%nat. change (CMD_NARGS * CMD_ARG_LEN) with 512. lia.
Qed.

(** A request for program [name] with the arguments [argv], in the foreground. *)
Definition asks_args (buf name : list byte) (es0 es1 : list (list byte * Z)) (argc : Z) (argv : list byte) : Prop :=
  asks_for buf name es0 es1 ∧ req_argc buf = argc ∧ req_argv buf = argv.
Definition foreground (argc : Z) (argv : list byte) : Prop :=
  1 ≤ argc ≤ CMD_NARGS ∧ Z.of_nat (length argv) = CMD_NARGS * CMD_ARG_LEN ∧
  argv !!! Z.to_nat ((argc - 1) * CMD_ARG_LEN) ≠ amp.

Lemma app_spawn_loads name es0 es1 f b0 filesz pid ps argc argv w G :
  winv inv w → directory F 0 es0 → directory F (lookup_ino es0 (chars "bin/")) es1 → 0 ≤ lookup_ino es1 name →
  F !! Z.to_nat (lookup_ino es1 name) = Some f → (∀ n, 0 ≤ rnd n) →
  can_load f b0 filesz pid ps w G → foreground argc argv →
  ∃ kf v' G',
    (∀ buf app_pid, asks_args buf name es0 es1 argc argv →
      goes (app_spawn QEMU sd rom type rnd translation junk buf app_pid) w 2 kf (0, pid)
        (World (proc_set_ready pid ps) pid v')) ∧
    mmu_wf QEMU sd v' G' ∧ curr_vm_pid v' = curr_vm_pid (vm w) ∧ inv (pdisk v') ∧
    app_pages pid argc (Some argv) (concat f) b0 filesz (vm w) G v' G'.
Proof using Hjunk FileStore0 ReadsAlike0 SdCard0.
  intros Hw Hd0 Hd1 Hi Hf Hrnd [L1 (phoff & hs & memsz & L2 & L3) L4 L5 L6 L7 L8 L9 L10 L11 L12 L13] (Hr & Hl & Hc).
  destruct (spawn_lookups (B := Z * Z) name es0 es1 w Hw Hd0 Hd1) as (d & Hd & Hg).
  set (ino := lookup_ino es1 name) in *.
  assert (Hino : is_u32 ino).
  { split; [done|]. pose proof (lookup_ino_range es1 name (dr_entries _ _ _ Hd1)) as Hs.
    unfold is_s32 in Hs. lia. }
  set (w1 := World ps pid (with_disk d (vm w))).
  destruct (elf_load_app_spec QEMU sd rom type rnd translation pid inv (file_reader fs ino) (concat f) phoff hs
    b0 filesz memsz argc (Some argv) (vm w1) G) as ([] & v' & E & G' & W' & Hc' & Hp & _);
    [done|done|lia|done|done|done|by apply (file_reader_reads fs inv F sd)|by apply wf_with_disk|done..| |].
  { split; [lia|done]. }
  destruct (elf_load_sim junk fs inv F sd rom type rnd translation ino Hjunk pid argc
    (Some argv) (vm w1) tt v' E Hd) as [Hd' _].
  destruct (goes_sim _ _ w1 tt v' (elf_load_sim junk fs inv F sd rom type rnd translation ino Hjunk pid
    argc (Some argv)) E Hd) as (kf & Hgo).
  exists (2 + kf)%nat, v', G'. split; [|by split_and!]. intros buf app_pid (Ha & E1 & E2).
  unfold app_spawn. apply (Hg buf _ 0%nat kf _ _ Ha). rewrite (proj2 (Z.ltb_ge _ _)) by done.
  apply (goes_bind _ _ _ 0 0 pid w1).
  { apply goes_act. unfold grass_proc_alloc. rewrite gets_bind. cbn [procs nprocs set_vm id].
    unfold id. rewrite L7. reflexivity. }
  eapply (goes_bind _ _ _ 0 0); [apply goes_last_arg; by rewrite E1|]. cbv zeta.
  rewrite E1, E2, decide_False by done. replace kf with (kf + (0 + 0))%nat by lia.
  eapply (goes_bind _ _ _ 0 kf); [exact Hgo|].
  eapply (goes_bind _ _ _ 0 0 tt); [by apply goes_act|]. apply goes_ret.
Qed.

(** ** The reply *)

Context (writes : string → list Z → list (Z * Z)).
Local Abbreviation loop := (proc_loop QEMU sd rom type rnd translation junk writes).

(** The reply overlays the request's type and nothing else. *)
Lemma reply_fields (buf : list byte) v :
  (4 ≤ length buf)%nat →
  let buf' := overwrite buf 0 (le_split 4 v) in
  req_argc buf' = req_argc buf ∧ req_argv buf' = req_argv buf ∧ take 4 buf' = le_split 4 v ∧
  length buf' = length buf.
Proof using Type.
  clear Hjunk. intros Hl. cbv zeta. rewrite overwrite_start, length_le_split.
  assert (Hb : ∀ o n, (4 ≤ o)%nat → bytes_at (le_split 4 v ++ drop 4 buf) o n = bytes_at buf o n).
  { intros o n Ho. unfold bytes_at. rewrite drop_app_ge by (rewrite length_le_split; lia).
    rewrite length_le_split, drop_drop. do 2 f_equal. lia. }
  split_and!.
  - unfold req_argc, int_at, uint_at. by rewrite Hb by lia.
  - unfold req_argv. by rewrite Hb by lia.
  - apply take_app_length'. by rewrite length_le_split.
  - rewrite length_app, length_le_split, length_drop. lia.
Qed.

(** The code that runs when [app_spawn] is done, in the foreground. *)
Definition spawn_goes_on n (buf : list byte) (p : prog (world D) ((Z * Z) * syscall)) :
    prog (world D) (unit * syscall) :=
  pbind (pbind p (λ r, (let '(rc, app_pid) := r.1 return U (world D) (bool * Z) in
    let buf := overwrite buf 0 (le_split 4 (if rc <? 0 then CMD_ERROR else CMD_OK)) in
    c ← last_arg buf;
    let shell_waiting := negb (bool_decide (c = amp)) in
    _ ← (if negb shell_waiting && (0 <? app_pid)
         then print writes "process %d running in the background" [app_pid] else mret tt);
    _ ← reply_shell buf;
    mret (shell_waiting, app_pid)) r.2)) (λ r, (let '(sw, ap) := r.1 in loop n sw ap) r.2).

Lemma spawn_goes_on_around n buf : around (spawn_goes_on n buf).
Proof using Type. unfold spawn_goes_on. apply (around_bind (λ p, prog_bind _ p)), (around_bind (λ p, p)), around_id. Qed.

Lemma loop_spawn n sw ap sc sc1 buf :
  loop (S n) sw ap sc = Invoke (recv_sc sc) (λ sc,
    pbind (proc_handle QEMU sd rom type rnd translation junk writes (sender (msg sc))
             (take (Z.to_nat SYSCALL_MSG_LEN) (content (msg sc))) sw ap sc)
      (λ r, (let '(sw, ap) := r.1 in loop n sw ap) r.2)) ∧
  (int_at buf 0 = PROC_SPAWN →
   pbind (proc_handle QEMU sd rom type rnd translation junk writes GPID_SHELL buf sw ap sc1)
     (λ r, (let '(sw, ap) := r.1 in loop n sw ap) r.2) =
   spawn_goes_on n buf (app_spawn QEMU sd rom type rnd translation junk buf ap sc1)).
Proof using Type.
  split; [cbn [proc_loop]; rewrite recv_then; reflexivity|]. intros E. unfold proc_handle. rewrite E. reflexivity.
Qed.

Lemma spawn_reply n buf rc pid sc :
  length buf = Z.to_nat SYSCALL_MSG_LEN → 1 ≤ req_argc buf ≤ CMD_NARGS →
  req_argv buf !!! Z.to_nat ((req_argc buf - 1) * CMD_ARG_LEN) ≠ amp →
  spawn_goes_on n buf (Done ((rc, pid), sc)) =
  Invoke (send_sc GPID_SHELL (le_split 4 (if rc <? 0 then CMD_ERROR else CMD_OK)) sc) (λ sc, loop n true pid sc).
Proof using Type.
  clear Hjunk. intros Hl Hr Hc. unfold spawn_goes_on. cbn [prog_bind fst snd]. cbv zeta.
  set (v := if rc <? 0 then CMD_ERROR else CMD_OK).
  destruct (reply_fields buf v) as (E1 & E2 & E3 & E4).
  { rewrite Hl. apply Nat.leb_le. done. }
  set (buf' := overwrite buf 0 (le_split 4 v)) in *.
  unfold last_arg.
  rewrite E1, E2, (proj2 (Z.leb_le _ _)), (proj2 (Z.ltb_lt (req_argc buf - 1) CMD_NARGS)) by lia.
  cbn [andb]. rewrite user_bind. unfold mret, U_ret. cbn [prog_bind fst snd].
  rewrite bool_decide_eq_false_2 by done. cbn [negb andb]. unfold reply_shell.
  unfold mbind, U_bind, mret, U_ret. cbn [prog_bind fst snd].
  rewrite sys_send_eq; [|done|rewrite E4, Hl; done]. change (Z.to_nat 4) with 4%nat. rewrite E3. reflexivity.
Qed.

(** ** The shell *)

(** The shell sends a request and waits for the reply. *)
Definition shell_asks (req : list byte) (K : option (Z * list byte) → U (world D) unit) : U (world D) unit :=
  _ ← sys_send GPID_PROCESS req (Z.of_nat proc_request_size); '(_, r) ← sys_recv 4; K r.

Lemma shell_asks_eq req K sc :
  length req = proc_request_size →
  shell_asks req K sc = Invoke (send_sc GPID_PROCESS req sc) (λ sc, Invoke (recv_sc sc) (λ sc,
    K (Some (sender (msg sc), take 4 (content (msg sc)))) sc)).
Proof using Type.
  clear Hjunk. intros Hl. unfold shell_asks. rewrite user_bind, sys_send_all; [reflexivity|by rewrite Hl|done].
Qed.

Lemma servers_shell p nd dsc nf fsc t T :
  servers p nd dsc nf fsc (<[GPID_SHELL:=t]> T) =
  two GPID_SHELL GPID_PROCESS t p (<[GPID_DIR:=dir_loop junk nd dsc]> (<[GPID_FILE:=file_loop wfs nf fsc]> T)).
Proof using Type.
  unfold servers, two. rewrite (insert_insert_ne _ GPID_FILE GPID_SHELL) by done.
  rewrite (insert_insert_ne _ GPID_DIR GPID_SHELL) by done.
  by rewrite (insert_insert_ne _ GPID_PROCESS GPID_SHELL) by done.
Qed.

Lemma shell_quiet nd dsc nf fsc T :
  (∀ q t, q ≠ GPID_PROCESS → q ≠ GPID_DIR → q ≠ GPID_FILE → q ≠ GPID_SHELL → T !! q = Some t → idle t) →
  quiet (<[GPID_DIR:=dir_loop junk nd dsc]> (<[GPID_FILE:=file_loop wfs nf fsc]> T)) GPID_SHELL GPID_PROCESS.
Proof using Type.
  intros HT. apply quiet_insert; [|apply dir_loop_idle]. intros q t H1 H2 H3 Ht.
  destruct (decide (q = GPID_FILE)) as [->|H4].
  - rewrite lookup_insert_eq in Ht. apply (inj Some) in Ht as <-. apply file_loop_idle.
  - rewrite lookup_insert_ne in Ht by done. by eapply HT.
Qed.

Lemma loop_idle n sw ap sc : idle (loop n sw ap sc).
Proof using Type. destruct n; [|by rewrite (proj1 (loop_spawn _ _ _ _ sc []))]. intros d t' d' E. discriminate E. Qed.

Definition apps_wait T : Prop :=
  ∀ q t, q ≠ GPID_PROCESS → q ≠ GPID_DIR → q ≠ GPID_FILE → q ≠ GPID_SHELL → T !! q = Some t → idle t.

(** A request of the shell, when it is known what [app_spawn] does. *)
Lemma exchange n nd nf kd kf sw ap ssc psc dsc fsc T m w rc pid w' req K
    (buf := req ++ drop proc_request_size (content (msg ssc))) :
  length req = proc_request_size → apps_wait T → in_use m = 0 →
  msg_len_ok ssc → msg_len_ok dsc → msg_len_ok fsc →
  int_at buf 0 = PROC_SPAWN → 1 ≤ req_argc buf ≤ CMD_NARGS →
  req_argv buf !!! Z.to_nat ((req_argc buf - 1) * CMD_ARG_LEN) ≠ amp →
  goes (app_spawn QEMU sd rom type rnd translation junk buf ap) w kd kf (rc, pid) w' →
  ∃ ssc' psc' dsc' fsc' m',
    rtc forced
      (Net (servers (loop (S n) sw ap psc) (kd + nd) dsc (kf + nf) fsc
              (<[GPID_SHELL:=shell_asks req K ssc]> T)) m w)
      (Net (servers (loop n true pid psc') nd dsc' nf fsc'
              (<[GPID_SHELL:=K (Some (GPID_PROCESS,
                   le_split 4 (if rc <? 0 then CMD_ERROR else CMD_OK))) ssc']> T)) m' w') ∧
    in_use m' = 0.
Proof using Type.
  clear Hjunk. intros Hreq HT Hm Hs Hd Hf Htype Hargc Hamp Hgo.
  assert (Hbuf : length buf = Z.to_nat SYSCALL_MSG_LEN).
  { unfold buf. rewrite length_app, length_drop, Hreq, Hs. done. }
  rewrite shell_asks_eq, servers_shell by done.
  rewrite (proj1 (loop_spawn n sw ap psc psc [])).
  match goal with |- context [two GPID_SHELL GPID_PROCESS (Invoke ?sa ?ka) (Invoke ?sb ?kb) ?T0] =>
    pose proof (transfer GPID_SHELL GPID_PROCESS sa ka sb kb T0 m w) as L1 end.
  specialize (L1 ltac:(done) ltac:(by apply shell_quiet) Hm eq_refl eq_refl eq_refl eq_refl). cbv beta in L1.
  set (shell := Invoke (recv_sc (served _)) _) in L1.
  assert (Hc : content (msg (send_sc GPID_PROCESS req ssc)) = buf).
  { unfold send_sc. cbn [msg content]. by rewrite Hreq. }
  rewrite Hc in L1. cbn [received msg content sender] in L1. rewrite take_ge in L1 by (by rewrite Hbuf).
  set (psc1 := received GPID_SHELL buf (recv_sc psc)) in L1.
  rewrite (proj2 (loop_spawn n sw ap psc psc1 buf) Htype), <-!servers_shell in L1.
  destruct (Hgo (spawn_goes_on n buf) nd nf psc1 dsc fsc (<[GPID_SHELL:=shell]> T)
    (KernelMsg 0 GPID_SHELL GPID_PROCESS buf)) as (psc2 & dsc2 & fsc2 & m2 & L2 & [R1 R2 R3 R4 R5]);
    [apply spawn_goes_on_around|split; try done|].
  { intros q t H1 H2 H3 Ht. destruct (decide (q = GPID_SHELL)) as [->|H4].
    - rewrite lookup_insert_eq in Ht. by apply (inj Some) in Ht as <-.
    - rewrite lookup_insert_ne in Ht by done. by eapply HT. }
  rewrite spawn_reply, !servers_shell in L2 by done. rewrite (two_swap _ _ _ (Invoke _ _)) in L2 by done.
  match type of L2 with context [two GPID_PROCESS GPID_SHELL (Invoke ?sa ?ka) shell ?T0] =>
    pose proof (transfer GPID_PROCESS GPID_SHELL sa ka (recv_sc (served (send_sc GPID_PROCESS req ssc)))
      (λ sc, K (Some (sender (msg sc), take 4 (content (msg sc)))) sc) T0 m2 w') as L3 end.
  specialize (L3 ltac:(done) ltac:(apply quiet_swap; by apply shell_quiet) R4 eq_refl eq_refl eq_refl
    ltac:(apply loop_idle)). cbv beta in L3.
  rewrite (two_swap GPID_PROCESS GPID_SHELL), <-!servers_shell in L2 by done.
  rewrite !(two_swap GPID_PROCESS GPID_SHELL), <-!servers_shell in L3 by done. rewrite <-servers_shell. eexists _, _, _, _, _. split.
  - eapply leads_trans; [exact L1|]. eapply leads_trans; [exact L2|exact L3].
  - done.
Qed.
End spawn.
