(* ===== verification/SpawnThms.v ===== *)
(** * Theorems about the process server

    The shell's requests to start applications, from the lemmas of SpawnCorrect.v,
    on a small file system of two directories and one program. *)

From stdpp Require Import relations.
From coqutil Require Import Byte Word.LittleEndianList.
From S2P Require Import Prelude Layout Blocks Store Ramdisk FsDisk FsCorrect FileSystem Earth Process Dir.
From S2P Require Import Kernel KernelInv User Servers Net ServersCorrect Paging PagingOps Mmu MmuOps.
From S2P Require Import MmuCorrect Elf ElfCorrect ElfThms SysProc SysProcCorrect SpawnCorrect.

(** Starting an application, through all the servers (on QEMU): the shell gets the
    reply CMD_OK, and a new process is ready to run, with its pages. *)
Lemma spawn_served {D} (junk : list byte) (fs : inode_store D) (inv : D → Prop) (F : files)
    `{!FileStore fs inv F, !ReadsAlike fs} (sd : sd_driver D) `{!SdCard sd DISK_BLOCKS}
    (rom : Z → byte) (type : disk_type) (rnd : nat → Z) (translation : translation_id)
    (writes : string → list Z → list (Z * Z)) (name : list byte) (es0 es1 : list (list byte * Z))
    (f : list block) (b0 filesz pid argc : Z) (argv : list byte) (ps : table) (G : Z → page) (w : world D) :
  let loop := proc_loop QEMU sd rom type rnd translation junk writes in
  (nbytes ≤ length junk)%nat → (∀ n, 0 ≤ rnd n) → inv (pdisk (vm w)) →
  directory F 0 es0 → directory F (lookup_ino es0 (chars "bin/")) es1 → 0 ≤ lookup_ino es1 name →
  F !! Z.to_nat (lookup_ino es1 name) = Some f → can_load sd translation f b0 filesz pid ps w G →
  foreground argc argv →
  ∃ kf v' G', mmu_wf QEMU sd v' G' ∧ inv (pdisk v') ∧
    app_pages pid argc (Some argv) (concat f) b0 filesz (vm w) G v' G' ∧
    ∀ req K app_pid shell_waiting ssc psc dsc fsc (T : gmap Z (prog (world D) (unit * syscall))) m n nd nf,
    let buf := req ++ drop proc_request_size (content (msg ssc)) in
    length req = proc_request_size → apps_wait T → in_use m = 0 →
    msg_len_ok ssc → msg_len_ok dsc → msg_len_ok fsc →
    int_at buf 0 = PROC_SPAWN → asks_args F buf name es0 es1 argc argv →
    ∃ ssc' psc' dsc' fsc' m',
      rtc forced
        (Net (servers junk fs (loop (S n) shell_waiting app_pid psc) (2 + nd) dsc (kf + nf) fsc
                (<[GPID_SHELL:=shell_asks req K ssc]> T)) m w)
        (Net (servers junk fs (loop n true pid psc') nd dsc' nf fsc'
                (<[GPID_SHELL:=K (Some (GPID_PROCESS, le_split 4 CMD_OK)) ssc']> T)) m'
                (World (proc_set_ready pid ps) pid v')) ∧
      in_use m' = 0.
Proof.
  intros loop Hj Hrnd Hw D0 D1 Hi HF Hl Hfg.
  destruct (app_spawn_loads junk fs inv F Hj sd rom type rnd translation name es0 es1 f b0 filesz pid ps
    argc argv w G) as (kf & v' & G' & Hgo & W' & _ & Hv' & Hp); try done.
  exists kf, v', G'. split; [done|]. split; [done|]. split; [done|].
  intros req K app_pid shell_waiting ssc psc dsc fsc T m n nd nf buf Hreq HT Hm Hs Hd Hf Htype Ha.
  destruct Hfg as (Hargc & _ & Hamp). pose proof Ha as (_ & E1 & E2).
  apply (exchange junk fs sd rom type rnd translation writes n nd nf 2 kf shell_waiting app_pid ssc psc
    dsc fsc T m w 0 pid (World (proc_set_ready pid ps) pid v') req K); try done.
  - fold buf. by rewrite E1.
  - fold buf. by rewrite E1, E2.
  - by apply Hgo.
Qed.

(** ** A small file system *)

(** Files that are only read. *)
Definition ro_files {D} (F : files) : inode_store D :=
  InodeStore (λ _, mret 0) (λ _ _, mret (-1)) (λ ino b buf, mret (spec_read F ino b buf)) (λ _ _ _, mret (-1)).

#[export] Instance ro_files_alike {D} F : ReadsAlike (S := D) (ro_files F).
Proof. intros ino b buf buf' s r s' [= _ <-]. by eexists. Qed.

Definition demo_root : list (list byte * Z) := [(chars "bin/", 1)].
Definition demo_bin : list (list byte * Z) := [(chars "prog", 2)].
Definition demo_program : list block :=
  [take nbytes (demo_elf APPS_ENTRY 300); drop nbytes (demo_elf APPS_ENTRY 300)].
Definition demo_files : files := [[dir_block demo_root]; [dir_block demo_bin]; demo_program].

#[export] Instance demo_file_store {D} :
  FileStore (D := D) (ro_files demo_files) (λ _, True) demo_files.
Proof.
  split.
  - intros d ino off buf _ _ _. by apply returns_ret.
  - intros d _. repeat constructor; by vm_compute.
Qed.

(** The command [prog], and the servers before it. *)
Definition demo_req (cmd : string) : list byte :=
  le_split 4 PROC_SPAWN ++ le_split 4 1 ++ chars cmd ++
  replicate (512 - length (chars cmd)) Byte.x00.
Definition idle_sc : syscall :=
  Syscall SYS_UNUSED (SysMsg 0 0 (replicate (Z.to_nat SYSCALL_MSG_LEN) Byte.x00)) 0.
Definition demo_table (n : nat) : table :=
  ((λ i, Process (Z.of_nat i) PROC_REQUESTING false 0 0) <$> seq 1 n) ++
  replicate (nprocess - n) (Process 0 PROC_UNUSED false 0 0).
Definition demo_world : world (gmap Z block) := World (demo_table 4) 4 (boot_mmu (demo_elf APPS_ENTRY 300)).

Lemma demo_directory : directory demo_files 0 demo_root ∧ directory demo_files 1 demo_bin.
Proof.
  split; (split; [lia|reflexivity|apply (bool_decide_unpack _); vm_compute; exact Logic.I|
    apply Nat.ltb_lt; vm_compute; reflexivity]).
Qed.

Definition findableb (es : list (list byte * Z)) (name : list byte) : bool :=
  bool_decide (word name) && (length name <=? length (render es))%nat && (length name <? 32)%nat.
Lemma findableb_sound es name : findableb es name = true → findable es name.
Proof.
  unfold findableb. rewrite !andb_true_iff, bool_decide_eq_true, Nat.leb_le, Nat.ltb_lt.
  intros [[H1 H2] H3]. by split.
Qed.

Definition demo_buf (cmd : string) : list byte :=
  demo_req cmd ++ drop proc_request_size (content (msg idle_sc)).

Lemma demo_asks_for cmd :
  findableb demo_bin (chars cmd) = true →
  find_nul (drop 8 (demo_buf cmd)) = Some (length (chars cmd)) →
  take (length (chars cmd)) (drop 8 (demo_buf cmd)) = chars cmd →
  asks_for demo_files (demo_buf cmd) (chars cmd) demo_root demo_bin.
Proof.
  intros H1 H2 H3. destruct demo_directory as [D1 D2].
  split; [exact D1|apply findableb_sound; vm_compute; reflexivity|exact D2|
    by apply findableb_sound|exact H2|exact H3].
Qed.

Lemma demo_can_load : can_load mem_sd SOFT_TLB demo_program 1 300 5
  (<[4%nat:=Process 5 PROC_LOADING true 0 0]> (demo_table 4)) demo_world (λ _, zero_page).
Proof.
  destruct (demo_elf_ok APPS_ENTRY 300 ltac:(by left)) as (He & Hs & Hl).
  assert (Hc : concat demo_program = demo_elf APPS_ENTRY 300).
  { unfold demo_program. cbn [concat]. rewrite app_nil_r. apply take_drop. }
  split.
  - done.
  - exists 52, (demo_headers APPS_ENTRY 300), 300. by rewrite Hc.
  - lia.
  - done.
  - by rewrite Hc, Hl.
  - reflexivity.
  - lia.
  - done.
  - done.
  - apply boot_mmu_wf.
  - intros fr n. apply boot_maps.
  - apply Nat.leb_le. vm_compute. reflexivity.
Qed.

(** C22: A program that does not exist (on QEMU).  The request of the shell, not for
    the background, for a name that the search in the directory [bin/] does not
    find: no entry has the name, and it is not the inode number of an entry, as
    those are found, too ([lookup_ino]); it has less than 32 characters and is not
    longer than the text of the directory.  The servers wait and nobody else is at
    work.  Then whatever the scheduler does the shell gets CMD_ERROR, the process
    table and the memory are as they were and nothing is started; but the process
    server goes on with [shell_waiting] set and the pid of the last process it has
    started, as if the shell waited for that one. *)
Theorem spawn_unknown {D} (junk : list byte) (fs : inode_store D) (inv : D → Prop) (F : files)
    `{!FileStore fs inv F, !ReadsAlike fs} (sd : sd_driver D) `{!SdCard sd DISK_BLOCKS}
    (rom : Z → byte) (type : disk_type) (rnd : nat → Z) (translation : translation_id)
    (writes : string → list Z → list (Z * Z)) (req name : list byte) (es0 es1 : list (list byte * Z))
    (app_pid : Z) (shell_waiting : bool) (K : option (Z * list byte) → U (world D) unit)
    (ssc psc dsc fsc : syscall) (T : gmap Z (prog (world D) (unit * syscall))) (m : kernel_msg)
    (w : world D) (n nd nf : nat) :
  let buf := req ++ drop proc_request_size (content (msg ssc)) in
  let loop := proc_loop QEMU sd rom type rnd translation junk writes in
  (nbytes ≤ length junk)%nat → inv (pdisk (vm w)) →
  length req = proc_request_size → apps_wait T → in_use m = 0 →
  msg_len_ok ssc → msg_len_ok dsc → msg_len_ok fsc →
  int_at buf 0 = PROC_SPAWN → 1 ≤ req_argc buf ≤ CMD_NARGS →
  req_argv buf !!! Z.to_nat ((req_argc buf - 1) * CMD_ARG_LEN) ≠ amp →
  asks_for F buf name es0 es1 → lookup_ino es1 name < 0 →
  ∃ ssc' psc' dsc' fsc' m' d',
    let start := Net (servers junk fs (loop (S n) shell_waiting app_pid psc) (2 + nd) dsc (2 + nf) fsc
                   (<[GPID_SHELL:=shell_asks req K ssc]> T)) m w in
    let goal := Net (servers junk fs (loop n true app_pid psc') nd dsc' nf fsc'
                   (<[GPID_SHELL:=K (Some (GPID_PROCESS, le_split 4 CMD_ERROR)) ssc']> T)) m'
                   (World (procs w) (nprocs w) (with_disk d' (vm w))) in
    (∀ n2, rtc step start n2 → rtc step n2 goal ∨ rtc step goal n2) ∧ in_use m' = 0.
Proof.
  intros buf loop Hj Hw Hreq HT Hm Hs Hd Hf Htype Hargc Hamp Ha Hi.
  destruct (app_spawn_unknown junk fs inv F Hj sd rom type rnd translation buf name es0 es1 app_pid w)
    as (d & Hgo); try done.
  destruct (exchange junk fs sd rom type rnd translation writes n nd nf 2 2 shell_waiting app_pid ssc psc
    dsc fsc T m w (-1) app_pid (set_vm (with_disk d (vm w)) w) req K)
    as (ssc' & psc' & dsc' & fsc' & m' & L & Hm'); try done.
  exists ssc', psc', dsc', fsc', m', d. split; [|done]. intros n2 Hr. by eapply forced_run.
Qed.

(** The command [nope]. *)
Lemma spawn_unknown_witness : ∃ ssc' psc' dsc' fsc' m' d',
  let junk := replicate 600 Byte.x00 in
  let loop := proc_loop QEMU mem_sd (λ _, Byte.x00) SD_CARD Z.of_nat SOFT_TLB junk (λ _ _, []) in
  let start := Net (servers junk (ro_files demo_files) (loop 1%nat false 0 idle_sc) 3 idle_sc 3 idle_sc
                 (<[GPID_SHELL:=shell_asks (demo_req "nope") (λ _, halt "done") idle_sc]> ∅))
                 (KernelMsg 0 0 0 []) demo_world in
  let goal := Net (servers junk (ro_files demo_files) (loop 0%nat true 0 psc') 1 dsc' 1 fsc'
                 (<[GPID_SHELL:=halt "done" ssc']> ∅)) m'
                 (World (demo_table 4) 4 (with_disk d' (vm demo_world))) in
  (∀ n2, rtc step start n2 → rtc step n2 goal ∨ rtc step goal n2) ∧ in_use m' = 0.
Proof.
  destruct (spawn_unknown (replicate 600 Byte.x00) (ro_files demo_files) (λ _, True) demo_files mem_sd
    (λ _, Byte.x00) SD_CARD Z.of_nat SOFT_TLB (λ _ _, []) (demo_req "nope") (chars "nope") demo_root demo_bin
    0 false (λ _, halt "done") idle_sc idle_sc idle_sc idle_sc ∅ (KernelMsg 0 0 0 []) demo_world 0 1 1)
    as (ssc' & psc' & dsc' & fsc' & m' & d' & R).
  - apply Nat.leb_le. vm_compute. reflexivity.
  - exact Logic.I.
  - reflexivity.
  - intros q t _ _ _ _ Ht. by rewrite lookup_empty in Ht.
  - reflexivity.
  - reflexivity.
  - reflexivity.
  - reflexivity.
  - by vm_compute.
  - by vm_compute.
  - by vm_compute.
  - apply demo_asks_for; by vm_compute.
  - by vm_compute.
  - exists ssc', psc', dsc', fsc', m', d'. exact R.
Defined.
