(* ===== verification/MkfsCorrect.v ===== *)
(** * Correctness of the image builder

    The file system that [mkfs] builds has the files it was given, and the image
    has its parts where the constants of disk.h say: so a card with the image
    boots (the ELF loader finds the kernel's executables) and has the files. *)

From coqutil Require Import Byte.
From S2P Require Import Prelude Layout Blocks Store Treedisk TreediskFs TreediskCreate Ramdisk.
From S2P Require Import FsDisk FileSystem FsCorrect Dir Mkfs SdCorrect ElfCorrect.

(** ** Writing files *)

(** The number of blocks of a file of [size] bytes, and its blocks in a buffer. *)
Definition nblocks (size : nat) : nat := ((size + 511) / 512)%nat.
Definition blocks_of (buf : list byte) (b n : nat) : list block :=
  slice buf <$> seqZ (Z.of_nat b) (Z.of_nat n).

Section files.
Context (host : string → list byte) (uninit : block).
Local Abbreviation ramdisk := (ramdisk_init FS_DISK_SIZE).
Local Abbreviation treedisk := (treedisk_init uninit ramdisk 0).
#[local] Instance fs_ram : BlockStore ramdisk 0 4096 :=
  ramdisk_store FS_DISK_SIZE ltac:(done) ltac:(done).
Local Abbreviation state := (fs_state ramdisk 0 4096).

(** Writing the block after the end of a file. *)
Lemma append_write s fs room ino f blk :
  state s fs room → fs !! Z.to_nat ino = Some f → is_u32 ino →
  Z.of_nat (length f) < 2 ^ 32 - 1 → (10 ≤ room)%nat → wf_block blk →
  returns (write treedisk ino (Z.of_nat (length f)) blk) s (λ _ s', ∃ room',
    state s' (<[Z.to_nat ino:=f ++ [blk]]> fs) room' ∧ (room ≤ room' + 10)%nat).
Proof.
  intros Hs Hf Hino Hl Hroom Hblk.
  destruct (write_refines ramdisk 0 4096 uninit s fs room ino (Z.of_nat (length f)) blk)
    as [(s' & room' & E & Hs' & Hr)|[Hlt _]]; [done..|lia|done| |lia].
  unfold spec_write in *. rewrite Hf in *. cbn [fst snd] in *. exists 0, s'. split; [done|].
  exists room'. split; [|done]. unfold file_set in Hs'. rewrite Nat2Z.id in Hs'.
  replace (S (length f) - length f)%nat with 1%nat in Hs' by lia. cbn [replicate] in Hs'.
  rewrite insert_app_r_alt in Hs' by lia. by rewrite Nat.sub_diag in Hs'.
Qed.

Lemma blocks_loop_spec ino size buf n : ∀ b s fs room f,
  state s fs room → fs !! Z.to_nat ino = Some f → length f = b → is_u32 ino →
  (size ≤ length buf)%nat → Z.of_nat (length buf) = exec_size →
  (b ≤ nblocks size)%nat → (10 * (nblocks size - b) ≤ room)%nat → (nblocks size - b < n)%nat →
  returns (blocks_loop uninit n ino (Z.of_nat size) (Z.of_nat b) buf) s (λ _ s', ∃ room',
    state s' (<[Z.to_nat ino:=f ++ blocks_of buf b (nblocks size - b)]> fs) room' ∧
    (room ≤ room' + 10 * (nblocks size - b))%nat).
Proof.
  induction n as [|n IH]; intros b s fs room f Hs Hf Hb Hino Hsz Hbuf Hle Hroom Hn; [lia|].
  cbn [blocks_loop]. change exec_size with 131072 in *.
  assert (Hiff : Z.of_nat b * BLOCK_SIZE < Z.of_nat size ↔ (b < nblocks size)%nat).
  { clear. unfold nblocks. change BLOCK_SIZE with 512.
    pose proof (Nat.div_mod_eq (size + 511) 512). pose proof (Nat.mod_upper_bound (size + 511) 512).
    lia. }
  assert (Hmax : (nblocks size ≤ 256)%nat).
  { unfold nblocks. apply Nat.lt_succ_r, Nat.Div0.div_lt_upper_bound. lia. }
  destruct (Z.ltb_spec (Z.of_nat b * BLOCK_SIZE) (Z.of_nat size)) as [Hlt|Hge].
  2:{ apply returns_ret. exists room. split; [|lia].
      assert (nblocks size = b) as -> by lia. rewrite Nat.sub_diag. unfold blocks_of. simpl.
      by rewrite app_nil_r, list_insert_id. }
  assert (Hlt' : (b < nblocks size)%nat) by (by apply Hiff).
  rewrite <-Hb. rcall (apply (append_write s fs room ino f (buf_block buf (Z.of_nat (length f))));
    [done..|lia|lia|]).
  { apply slice_wf; [lia|]. change BLOCK_SIZE with 512. lia. }
  intros _ s1 (room1 & Hs1 & Hr1). replace (Z.of_nat (length f) + 1) with (Z.of_nat (S b)) by lia.
  eapply returns_mono; [apply (IH (S b) s1 _ room1 (f ++ [buf_block buf (Z.of_nat (length f))]) Hs1)|cbv beta].
  - apply list_lookup_insert_eq. by eapply lookup_lt_Some.
  - rewrite length_app. simpl. lia.
  - done.
  - done.
  - done.
  - lia.
  - lia.
  - lia.
  - intros _ s2 (room2 & Hs2 & Hr2). exists room2. split; [|lia].
    rewrite list_insert_insert_eq, <-(assoc_L app) in Hs2. rewrite Hb in *.
    replace (blocks_of buf b (nblocks size - b)) with
      ([buf_block buf (Z.of_nat b)] ++ blocks_of buf (S b) (nblocks size - S b)); [exact Hs2|].
    unfold blocks_of. rewrite (seqZ_cons (Z.of_nat b)) by lia. rewrite fmap_cons. simpl. do 3 f_equal; lia.
Qed.

(** What a file of the image holds: the text, padded to a block, or the bytes of
    the host's file, in as many blocks as they need. *)
Definition file_holds (c : string) (f : file) : Prop :=
  match host_file c with
  | None => f = [strncpy_block c]
  | Some name => length f = nblocks (length (host name)) ∧
                 take (length (host name)) (mjoin f) = host name
  end.
Definition file_cost (c : string) : nat :=
  match host_file c with None => 1 | Some name => nblocks (length (host name)) end.
Definition file_fits (c : string) : Prop :=
  match host_file c with None => True | Some name => Z.of_nat (length (host name)) ≤ exec_size end.

Lemma fill_buf_length buf bs :
  (length bs ≤ length buf)%nat → length (fill_buf buf bs) = length buf.
Proof. intros H. unfold fill_buf. rewrite length_app, length_drop. lia. Qed.

Lemma strncpy_block_wf c : wf_block (strncpy_block c).
Proof. unfold wf_block, strncpy_block. rewrite length_take, length_app, length_replicate. lia. Qed.

Lemma blocks_of_join buf n : mjoin (blocks_of buf 0 n) = take (n * nbytes) buf.
Proof.
  rewrite <-slices_take. unfold blocks_of.
  induction (seqZ _ _) as [|b bs IH]; [done|]. rewrite fmap_cons, bind_cons, <-IH. done.
Qed.

Lemma nblocks_le size : (size ≤ nblocks size * nbytes)%nat.
Proof.
  unfold nblocks. change nbytes with 512%nat.
  pose proof (Nat.div_mod_eq (size + 511) 512). pose proof (Nat.mod_upper_bound (size + 511) 512).
  lia.
Qed.

Lemma mkfs_file_spec c buf s fs room ino :
  state s fs room → fs !! Z.to_nat ino = Some [] → is_u32 ino → file_fits c →
  Z.of_nat (length buf) = exec_size → (10 * file_cost c ≤ room)%nat →
  returns (mkfs_file host uninit ino c buf) s (λ buf' s', length buf' = length buf ∧ ∃ room' f,
    state s' (<[Z.to_nat ino:=f]> fs) room' ∧ file_holds c f ∧
    (room ≤ room' + 10 * file_cost c)%nat).
Proof.
  intros Hs Hf Hino Hfit Hbuf Hroom. unfold mkfs_file, file_holds, file_cost, file_fits in *.
  destruct (host_file c) as [name|].
  - rewrite (proj2 (Nat.ltb_ge _ _)) by lia.
    assert (Hfill : length (fill_buf buf (host name)) = length buf) by (apply fill_buf_length; lia).
    rcall (apply (blocks_loop_spec ino (length (host name)) (fill_buf buf (host name)) _ 0 s fs room []);
      [done..|lia|by rewrite Hfill|lia|lia|]).
    { unfold nblocks. change BLOCK_SIZE with 512.
      pose proof (Nat.div_mod_eq (length (host name) + 511) 512).
      pose proof (Nat.mod_upper_bound (length (host name) + 511) 512).
      Z.to_euclidean_division_equations. lia. }
    intros _ s1 (room1 & Hs1 & Hr1). apply returns_ret. split; [done|].
    rewrite Nat.sub_0_r in *. exists room1, (blocks_of (fill_buf buf (host name)) 0 (nblocks (length (host name)))).
    split; [exact Hs1|]. split; [|done]. split.
    + unfold blocks_of. rewrite length_fmap, length_seqZ. lia.
    + rewrite blocks_of_join, take_take, Nat.min_l by (apply nblocks_le).
      unfold fill_buf. by rewrite take_app_length.
  - assert (Hfill : length (fill_buf buf (strncpy_block c)) = length buf).
    { apply fill_buf_length. rewrite strncpy_block_wf. change exec_size with 131072 in *.
      unfold nbytes. change BLOCK_SIZE with 512. lia. }
    assert (Hblk : buf_block (fill_buf buf (strncpy_block c)) 0 = strncpy_block c).
    { unfold buf_block, slice, fill_buf. rewrite Z.mul_0_l, drop_0.
      by rewrite take_app_length' by (symmetry; apply strncpy_block_wf). }
    rewrite Hblk.
    rcall (apply (append_write s fs room ino [] (strncpy_block c));
      [done..|simpl; lia|lia|apply strncpy_block_wf]).
    intros _ s1 (room1 & Hs1 & Hr1). apply returns_ret. split; [done|].
    exists room1, [strncpy_block c]. split; [exact Hs1|]. split; [done|lia].
Qed.

Definition cost (cs : list string) : nat := sum_list (file_cost <$> cs).

(** [k] files are written; those that follow are empty. *)
Lemma mkfs_loop_spec cs : ∀ k buf s fs room,
  state s fs room → (∀ j, (j < length cs)%nat → fs !! (k + j)%nat = Some []) →
  Forall file_fits cs → Z.of_nat (length buf) = exec_size → (10 * cost cs ≤ room)%nat →
  Z.of_nat (k + length cs) ≤ 128 →
  returns (mkfs_loop host uninit cs (Z.of_nat k) buf) s (λ _ s', ∃ fs' room', state s' fs' room' ∧
    (∀ j, (j < k)%nat → fs' !! j = fs !! j) ∧
    ∀ j c, cs !! j = Some c → ∃ f, fs' !! (k + j)%nat = Some f ∧ file_holds c f).
Proof.
  induction cs as [|c cs IH]; intros k buf s fs room Hs Hempty Hfit Hbuf Hroom Hk;
    cbn [mkfs_loop].
  { apply returns_ret. exists fs, room. by split_and!. }
  apply Forall_cons in Hfit as [Hc Hcs]. change (cost (c :: cs)) with (file_cost c + cost cs)%nat in Hroom.
  cbn [length] in *.
  rcall (apply (mkfs_file_spec c buf s fs room (Z.of_nat k));
    [done| |unfold is_u32; lia|done|done|lia]).
  { rewrite Nat2Z.id. rewrite <-(Nat.add_0_r k). apply Hempty. lia. }
  rewrite Nat2Z.id. intros buf1 s1 (Hb1 & room1 & f & Hs1 & Hf & Hr1).
  replace (Z.of_nat k + 1) with (Z.of_nat (S k)) by lia.
  assert (Hk0 : (k < length fs)%nat).
  { eapply lookup_lt_Some. rewrite <-(Nat.add_0_r k). apply Hempty. lia. }
  eapply returns_mono; [apply (IH (S k) buf1 s1 _ room1 Hs1)|cbv beta].
  - intros j Hj. rewrite list_lookup_insert_ne by lia.
    replace (S k + j)%nat with (k + S j)%nat by lia. apply Hempty. lia.
  - done.
  - by rewrite Hb1.
  - lia.
  - lia.
  - intros _ s2 (fs2 & room2 & Hs2 & Hold & Hnew). exists fs2, room2. split; [done|]. split.
    + intros j Hj. by rewrite Hold, list_lookup_insert_ne by lia.
    + intros [|j] c' Hj.
      * injection Hj as <-. exists f. split; [|done]. rewrite Nat.add_0_r, Hold by lia.
        by apply list_lookup_insert_eq.
      * replace (k + S j)%nat with (S k + j)%nat by lia. by apply Hnew.
Qed.

(** [mkfs] on the global array [fs], which is null. *)
Lemma mkfs_spec buf :
  wf_block uninit → Forall file_fits contents → Z.of_nat (length buf) = exec_size →
  (10 * cost contents ≤ 4093)%nat →
  returns (mkfs host uninit buf) (demo_ram 4096) (λ _ img, ∃ fs room, state img fs room ∧
    ∀ ino c, contents !! ino = Some c → ∃ f, fs !! ino = Some f ∧ file_holds c f).
Proof.
  intros Hu Hfit Hbuf Hroom.
  destruct (demo_ram_holds 4096 ltac:(lia)) as (d & Hd & H0).
  destruct (create_state (HB := fs_ram) ramdisk 0 4096 uninit NINODES (demo_ram 4096) d)
    as (s & E & Hs); [exact Hd|done..|].
  unfold mkfs. apply returns_bind. exists 0, s. split; [exact E|].
  change (0 <? 0) with false. cbv iota.
  eapply returns_mono; [apply (mkfs_loop_spec contents 0 buf s _ _ Hs)|cbv beta].
  - intros j Hj. apply lookup_replicate_2. change (length contents) with 16%nat in Hj. vm_compute. lia.
  - done.
  - done.
  - done.
  - done.
  - intros _ s2 (fs2 & room2 & Hs2 & _ & Hnew). exists fs2, room2. by split.
Qed.
End files.

(** ** The layout of the image *)

Lemma slice_app_l x y b :
  0 ≤ b → (b + 1) * BLOCK_SIZE ≤ Z.of_nat (length x) → slice (x ++ y) b = slice x b.
Proof.
  intros H0 Hb. unfold slice. change BLOCK_SIZE with 512 in *. change nbytes with 512%nat.
  rewrite drop_app_le by lia. rewrite take_app_le; [done|]. rewrite length_drop. lia.
Qed.

Lemma slice_app_r x y k b :
  0 ≤ b → Z.of_nat (length x) = k * BLOCK_SIZE → slice (x ++ y) (k + b) = slice y b.
Proof.
  intros H0 Hk. unfold slice. change BLOCK_SIZE with 512 in *.
  rewrite drop_app_ge by lia. do 2 f_equal. lia.
Qed.

Lemma exec_segment_ok data :
  0 < Z.of_nat (length data) ≤ exec_size →
  ∃ seg, exec_segment data = Some seg ∧ Z.of_nat (length seg) = exec_size ∧
    seg = data ++ replicate (length seg - length data) nul.
Proof.
  intros [H0 H1]. unfold exec_segment.
  rewrite (proj2 (Z.ltb_lt _ _)), (proj2 (Z.leb_le _ _)) by lia. simpl.
  eexists. split; [done|]. rewrite length_app, length_replicate. split; [lia|].
  do 2 f_equal. lia.
Qed.

(** The segments one after the other. *)
Lemma exec_segments_spec host names :
  Forall (λ f, 0 < Z.of_nat (length (host f)) ≤ exec_size) names →
  ∃ segs, exec_segments host names = Some segs ∧
    Z.of_nat (length segs) = Z.of_nat (length names) * exec_size ∧
    ∀ i f, names !! i = Some f → ∃ seg, exec_segment (host f) = Some seg ∧
      ∀ rest n, 0 ≤ n → (n + 1) * BLOCK_SIZE ≤ Z.of_nat (length seg) →
        slice (segs ++ rest) (GRASS_EXEC_SEGMENT * Z.of_nat i + n) = slice seg n.
Proof.
  induction names as [|f names IH]; intros H.
  { by exists []. }
  apply Forall_cons in H as [Hf Hn]. destruct (IH Hn) as (segs & E & Hl & Hs).
  destruct (exec_segment_ok _ Hf) as (seg & E1 & Hl1 & _).
  exists (seg ++ segs). cbn [exec_segments]. rewrite E1, E. simpl mbind.
  split; [done|]. change exec_size with 131072 in *. change GRASS_EXEC_SEGMENT with 256 in *.
  split; [rewrite length_app; cbn [length]; lia|]. intros [|i] g Hg.
  - injection Hg as <-. exists seg. split; [done|]. intros rest n H0 Hb.
    rewrite Z.mul_0_r, Z.add_0_l, <-(assoc_L app). by apply slice_app_l.
  - destruct (Hs i g Hg) as (seg' & E' & Hs'). exists seg'. split; [done|]. intros rest n H0 Hb.
    rewrite <-(assoc_L app). replace (256 * Z.of_nat (S i) + n) with (256 + (256 * Z.of_nat i + n)) by lia.
    rewrite slice_app_r by (change BLOCK_SIZE with 512; lia). by apply Hs'.
Qed.

(** Where the loader looks for the executables of [kernel_processes]. *)
Definition exec_starts : list Z :=
  [GRASS_EXEC_START; SYS_PROC_EXEC_START; SYS_FILE_EXEC_START; SYS_DIR_EXEC_START;
   SYS_SHELL_EXEC_START].

Lemma disk_image_spec host img :
  Forall (λ f, 0 < Z.of_nat (length (host f)) ≤ exec_size) kernel_processes →
  Z.of_nat (length img) = FS_DISK_SIZE →
  ∃ x, disk_image host img = Some x ∧ Z.of_nat (length x) = DISK_BLOCKS * BLOCK_SIZE ∧
    (∀ i f, kernel_processes !! i = Some f → ∃ seg start, exec_segment (host f) = Some seg ∧
       exec_starts !! i = Some start ∧
       ∀ n, 0 ≤ n → (n + 1) * BLOCK_SIZE ≤ Z.of_nat (length seg) → slice x (start + n) = slice seg n) ∧
    ∀ b, 0 ≤ b → slice x (GRASS_FS_START + b) = slice img b.
Proof.
  intros Hk Hi. destruct (exec_segments_spec host kernel_processes Hk) as (segs & E & Hl & Hs).
  assert (Hr : ∀ n, 0 ≤ n → ∃ z, z = replicate (Z.to_nat n) nul ∧ Z.of_nat (length z) = n).
  { intros n Hn. eexists. split; [reflexivity|]. rewrite length_replicate. lia. }
  destruct (Hr PAGING_DEV_SIZE ltac:(by vm_compute)) as (pre & Epre & Hpre).
  destruct (Hr ((GRASS_NEXEC - Z.of_nat (length kernel_processes)) * exec_size) ltac:(by vm_compute))
    as (mid & Emid & Hmid).
  exists (pre ++ segs ++ mid ++ img). unfold disk_image. rewrite E, <-Epre, <-Emid. clear Hr Epre Emid.
  change PAGING_DEV_SIZE with 1048576 in *. change FS_DISK_SIZE with 2097152 in *.
  change ((GRASS_NEXEC - Z.of_nat (length kernel_processes)) * exec_size) with 393216 in *.
  change (Z.of_nat (length kernel_processes) * exec_size) with 655360 in *.
  split; [reflexivity|]. split; [|split].
  - rewrite !length_app. change (DISK_BLOCKS * BLOCK_SIZE) with 4194304. lia.
  - intros i f Hf. destruct (Hs i f Hf) as (seg & Eg & Hg).
    exists seg, (2048 + GRASS_EXEC_SEGMENT * Z.of_nat i). split; [done|]. split.
    + do 5 (destruct i as [|i]; [reflexivity|]). discriminate Hf.
    + intros n H0 Hn. rewrite <-(Z.add_assoc 2048), slice_app_r.
      * by apply Hg.
      * change GRASS_EXEC_SEGMENT with 256. lia.
      * change BLOCK_SIZE with 512. lia.
  - intros b Hb. rewrite !(assoc_L app). apply slice_app_r; [done|].
    rewrite !length_app. change GRASS_FS_START with 4096. change BLOCK_SIZE with 512. lia.
Qed.

(** The image on a card. *)
Lemma disk_image_spec' {D} (sd : sd_driver D) `{!SdCard sd DISK_BLOCKS}
    (host : string → list byte) (uninit : block) (buf : list byte) :
  wf_block uninit → Z.of_nat (length buf) = exec_size →
  Forall (λ f, 0 < Z.of_nat (length (host f)) ≤ exec_size) kernel_processes →
  Forall (file_fits host) contents → (10 * cost host contents ≤ 4093)%nat →
  ∃ img x, mkfs host uninit buf (demo_ram 4096) = Ret tt img ∧ disk_image host img = Some x ∧
    Z.of_nat (length x) = DISK_BLOCKS * BLOCK_SIZE ∧
    ∀ (d : D) m, sd_holds d m → (∀ b, 0 ≤ b < DISK_BLOCKS → m !!! b = slice x b) →
      (∀ i f, kernel_processes !! i = Some f → ∃ seg start, exec_segment (host f) = Some seg ∧
         exec_starts !! i = Some start ∧ on_card sd start seg d) ∧
      ∃ fs room, card_files m fs room ∧
        ∀ ino c, contents !! ino = Some c → ∃ f, fs !! ino = Some f ∧ file_holds host c f.
Proof.
  intros Hu Hb Hk Hf Hc.
  destruct (mkfs_spec host uninit buf Hu Hf Hb Hc) as ([] & img & E & fs & room & Hs & Hfiles).
  destruct Hs as (d & free & [Hl Hd] & Hinv & Hfs & Hroom).
  destruct (disk_image_spec host img Hk Hl) as (x & Ex & Hx & Hexec & Hpart).
  exists img, x. split_and!; [done..|]. intros dd m Hm Hmx. split.
  - intros i f Hi. destruct (Hexec i f Hi) as (seg & start & Eg & Es & Hseg).
    exists seg, start. split; [done|]. split; [done|]. exists m. split; [done|]. intros n H0 Hn.
    destruct (exec_segment_ok (host f)) as (seg' & Eg' & Hlg & _).
    { by eapply Forall_lookup_1 in Hk. }
    rewrite Eg' in Eg. injection Eg as <-. rewrite Hmx; [by apply Hseg|].
    assert (Hst : Forall (λ start, 2048 ≤ start ≤ 3072) exec_starts) by (by repeat constructor).
    pose proof (Forall_lookup_1 _ _ _ _ Hst Es) as Hst'. cbv beta in Hst'.
    change DISK_BLOCKS with 8192. change exec_size with 131072 in *. change BLOCK_SIZE with 512 in *. lia.
  - exists fs, room. split; [|done]. exists d, free. split_and!; [|done..].
    intros b Hb'. change (0 ≤ b < FS_DISK_SIZE / BLOCK_SIZE) in Hb'. rewrite Hd by done. rewrite Hmx.
    + symmetry. apply Hpart. lia.
    + change (FS_DISK_SIZE / BLOCK_SIZE) with 4096 in Hb'. change DISK_BLOCKS with 8192.
      change GRASS_FS_START with 4096. lia.
Qed.

(** C35: The image boots.  If the executables of the kernel fit their segments and
    the user programs fit the file system, [mkfs] and [main] build an image of
    exactly [DISK_BLOCKS] blocks (4 MB).  On a card with that image, each executable,
    padded with null bytes, is where the constants of disk.h say, as the ELF
    loader requires ([on_card]), and the file system's part holds a tree file
    system whose inode [ino] has the contents the table gives it: the text in one
    block, or the bytes of the host's file. *)
Theorem disk_image_correct {D} (sd : sd_driver D) `{!SdCard sd DISK_BLOCKS}
    (host : string → list byte) (uninit : block) (buf : list byte) :
  wf_block uninit → Z.of_nat (length buf) = exec_size →
  Forall (λ f, 0 < Z.of_nat (length (host f)) ≤ exec_size) kernel_processes →
  Forall (file_fits host) contents → (10 * cost host contents ≤ 4093)%nat →
  ∃ img x, mkfs host uninit buf (demo_ram 4096) = Ret tt img ∧ disk_image host img = Some x ∧
    Z.of_nat (length x) = DISK_BLOCKS * BLOCK_SIZE ∧
    ∀ (d : D) m, sd_holds d m → (∀ b, 0 ≤ b < DISK_BLOCKS → m !!! b = slice x b) →
      (∀ i f, kernel_processes !! i = Some f → ∃ seg start, exec_segment (host f) = Some seg ∧
         exec_starts !! i = Some start ∧ on_card sd start seg d) ∧
      ∃ fs room, card_files m fs room ∧
        ∀ ino c, contents !! ino = Some c → ∃ f, fs !! ino = Some f ∧ file_holds host c f.
Proof. by apply disk_image_spec'. Qed.

(** All files of the host have 300 bytes. *)
Definition demo_host (name : string) : list byte := replicate 300 Byte.x41.

Lemma disk_image_correct_witness : ∃ img x,
  mkfs demo_host null_block (replicate (Z.to_nat exec_size) Byte.x00) (demo_ram 4096) = Ret tt img ∧
  disk_image demo_host img = Some x ∧ Z.of_nat (length x) = 4194304 ∧
  let m := disk_of DISK_BLOCKS (slice x) in
  ∃ fs room f, card_files m fs room ∧ fs !! 7%nat = Some f ∧ take 300 (mjoin f) = replicate 300 Byte.x41.
Proof.
  destruct (disk_image_correct mem_sd demo_host null_block (replicate (Z.to_nat exec_size) Byte.x00))
    as (img & x & E & Ex & Hx & Hm).
  - reflexivity.
  - rewrite length_replicate, Z2Nat.id; [reflexivity|by vm_compute].
  - repeat constructor; by vm_compute.
  - repeat constructor; by vm_compute.
  - apply Nat.leb_le. vm_compute. reflexivity.
  - exists img, x. split; [exact E|]. split; [exact Ex|]. split; [exact Hx|]. intros m.
    destruct (Hm m m) as (_ & fs & room & Hc & Hf).
    + split; [reflexivity|]. intros b Hb. unfold m. rewrite disk_of_lookup by exact Hb.
      apply slice_wf; [lia|]. rewrite Hx. change BLOCK_SIZE with 512. change DISK_BLOCKS with 8192 in *. lia.
    + intros b Hb. by apply disk_of_lookup.
    + destruct (Hf 7%nat _ eq_refl) as (f & Ef & _ & Ht). exists fs, room, f.
      split; [exact Hc|]. split; [exact Ef|exact Ht].
Defined.
