(* ===== verification/Mkrom.v ===== *)
(** * The boot ROM

    tools/mkrom.c: the image of the ROM of the Arty board, from the processor's
    configuration, the earth layer and the disk image.  [read] of the host may
    return fewer bytes than it is asked for: how many, at each call, is a
    parameter.  The theorem follows a block from the disk image to the memory from
    which earth/dev_disk.c reads it. *)

From coqutil Require Import Byte.
From S2P Require Import Prelude Layout Blocks Ramdisk FsDisk FsCorrect Dir.

Definition SIZE_4MB : Z := 4 * 1024 * 1024.

Section mkrom.
(** The [i]th call of [read] returns at most [rd i] bytes. *)
Context (rd : nat → Z).

(** [for (int nread = 0; nread < st.st_size; ) nread += read(0, dst + nread, ...)]:
    [dst] is an array of 4 MB, and [i] counts the calls. *)
Fixpoint load_loop (fuel : nat) (data dst : list byte) (nread : Z) (i : nat) : M unit (list byte * nat) :=
  if nread <? Z.of_nat (length data) then
    match fuel with
    | O => spin
    | S fuel =>
        let n := Z.min (rd i) (Z.of_nat (length data) - nread) in
        if SIZE_4MB <? nread + n then undef "read"
        else
          load_loop fuel data
            (overwrite dst (Z.to_nat nread) (take (Z.to_nat n) (drop (Z.to_nat nread) data)))
            (nread + n) (S i)
    end
  else mret (dst, i).

(** The array, and the size of the file. *)
Definition load_file (data dst : list byte) (i : nat) : M unit (Z * list byte * nat) :=
  '(dst, i) ← load_loop (length data) data dst 0 i;
  mret (Z.of_nat (length data), dst, i).

(** What is written to bootROM.bin. *)
Definition mem_zero : list byte := replicate (Z.to_nat SIZE_4MB) nul.
Definition mkrom (fe310 earth disk : list byte) : M unit (list byte) :=
  '(fe310_size, mem_fe310, i) ← load_file fe310 mem_zero 0;
  '(earth_size, mem_earth, i) ← load_file earth mem_zero i;
  '(disk_size, mem_disk, i) ← load_file disk mem_zero i;
  if (fe310_size <=? SIZE_4MB) && (earth_size <=? SIZE_4MB) && (disk_size =? SIZE_4MB)
  then mret (mem_fe310 ++ mem_earth ++ mem_disk)
  else fatal "assert".
End mkrom.

(** ** Loading a file *)

Section load.
Context (rd : nat → Z) (Hrd : ∀ i, 1 ≤ rd i).

(** A file of [l1 ++ l2] of which [l1] has been read. *)
Lemma load_loop_spec fuel : ∀ (l1 l2 rest : list byte) i s,
  (length l2 ≤ fuel)%nat → (length l2 ≤ length rest)%nat →
  Z.of_nat (length l1 + length rest) = SIZE_4MB →
  ∃ j, load_loop rd fuel (l1 ++ l2) (l1 ++ rest) (Z.of_nat (length l1)) i s =
    Ret (l1 ++ l2 ++ drop (length l2) rest, j) s.
Proof using Hrd.
  induction fuel as [|fuel IH]; intros l1 l2 rest i s Hf Hl Hs; cbn [load_loop]; rewrite length_app.
  { destruct l2; cbn [length] in *; [|lia]. rewrite Nat.add_0_r, Z.ltb_irrefl. by exists i. }
  destruct (Z.ltb_spec (Z.of_nat (length l1)) (Z.of_nat (length l1 + length l2))) as [Hlt|Hge].
  2:{ destruct l2; cbn [length] in *; [|lia]. by exists i. }
  set (n := Z.to_nat (Z.min (rd i) (Z.of_nat (length l1 + length l2) - Z.of_nat (length l1)))).
  assert (Hn : (1 ≤ n ≤ length l2)%nat) by (specialize (Hrd i); lia).
  assert (En : Z.min (rd i) (Z.of_nat (length l1 + length l2) - Z.of_nat (length l1)) = Z.of_nat n)
    by (specialize (Hrd i); lia).
  rewrite En, !Nat2Z.id. clearbody n. clear En. rewrite (proj2 (Z.ltb_ge _ _)) by lia.
  rewrite drop_app_length.
  assert (E : overwrite (l1 ++ rest) (length l1) (take n l2) = (l1 ++ take n l2) ++ drop n rest).
  { unfold overwrite. rewrite take_app_length, length_take, Nat.min_l, drop_app_add by lia.
    by rewrite (assoc_L app). }
  rewrite E.
  destruct (IH (l1 ++ take n l2) (drop n l2) (drop n rest) (S i) s) as (j & Ej).
  - rewrite length_drop. lia.
  - rewrite !length_drop. lia.
  - rewrite length_app, length_take, length_drop. lia.
  - exists j. rewrite length_app, length_take, Nat.min_l in Ej by lia.
    rewrite <-!(assoc_L app), take_drop in Ej. rewrite <-!(assoc_L app).
    replace (Z.of_nat (length l1) + Z.of_nat n) with (Z.of_nat (length l1 + n)) by lia. rewrite Ej.
    rewrite (assoc_L app (take n l2)), take_drop, drop_drop, length_drop. by replace (n + (length l2 - n))%nat with (length l2) by lia.
Qed.

Lemma load_file_spec (data : list byte) i s :
  Z.of_nat (length data) ≤ SIZE_4MB →
  ∃ j, load_file rd data mem_zero i s =
    Ret (Z.of_nat (length data), data ++ replicate (Z.to_nat SIZE_4MB - length data) nul, j) s.
Proof using Hrd.
  intros Hd. unfold load_file.
  assert (Hz : Z.of_nat (length mem_zero) = SIZE_4MB).
  { unfold mem_zero. rewrite length_replicate. apply Z2Nat.id. done. }
  assert (Hdr : drop (length data) mem_zero = replicate (Z.to_nat SIZE_4MB - length data) nul)
    by apply drop_replicate.
  rewrite <-Hdr. clear Hdr. generalize dependent mem_zero. intros z Hz.
  destruct (load_loop_spec (length data) [] data z i s) as (j & E); [lia|lia|exact Hz|].
  exists j. unfold mbind, M_bind. cbn [app length] in E. change (Z.of_nat 0) with 0 in E. by rewrite E.
Qed.
End load.

(** A part of a list between two others. *)
Lemma rom_bytes_slice (rom : Z → byte) (base : Z) (l1 l2 l3 : list byte) (a n : Z) :
  (∀ i x, (l1 ++ l2 ++ l3) !! i = Some x → rom (base + Z.of_nat i) = x) →
  0 ≤ a → 0 ≤ n → a + n ≤ Z.of_nat (length l2) →
  rom_bytes rom (base + Z.of_nat (length l1) + a) n = take (Z.to_nat n) (drop (Z.to_nat a) l2).
Proof.
  intros Hr Ha Hn Hl. unfold rom_bytes. apply list_eq. intros i.
  destruct (decide (i < Z.to_nat n)%nat) as [Hi|Hi].
  - rewrite list_lookup_fmap, lookup_seqZ_lt by lia. cbn [fmap option_fmap option_map].
    rewrite lookup_take_lt, lookup_drop by lia.
    destruct (lookup_lt_is_Some_2 l2 (Z.to_nat a + i)) as [x Hx]; [lia|]. rewrite Hx. f_equal.
    rewrite <-(Hr (length l1 + (Z.to_nat a + i))%nat x); [f_equal; lia|].
    rewrite lookup_app_r by lia. replace (length l1 + (Z.to_nat a + i) - length l1)%nat with (Z.to_nat a + i)%nat by lia.
    rewrite lookup_app_l by lia. done.
  - rewrite lookup_take_ge by lia. apply lookup_ge_None. rewrite length_fmap, length_seqZ. lia.
Qed.

(** Where the ROM of the board is in memory. *)
Definition ROM_BASE : Z := 0x20000000.

(** C36: The disk in the boot ROM.  If the processor's configuration and the earth
    layer have at most 4 MB each and the disk image exactly 4 MB, mkrom writes an
    image of 12 MB, however the reads of the files are split.  On a board whose ROM
    holds that image, at 0x20000000, [disk_read] of any blocks from the
    on-board ROM gives the bytes of these blocks of the disk image, and the earth
    layer is at 0x20400000, where its linker script puts it. *)
Theorem rom_disk_read {D} (rd : nat → Z) (fe310 earth disk : list byte) (sd : sd_driver D) :
  (∀ i, 1 ≤ rd i) → Z.of_nat (length fe310) ≤ SIZE_4MB → Z.of_nat (length earth) ≤ SIZE_4MB →
  Z.of_nat (length disk) = SIZE_4MB →
  ∃ image, mkrom rd fe310 earth disk tt = Ret image tt ∧ Z.of_nat (length image) = 3 * SIZE_4MB ∧
    ∀ rom : Z → byte, (∀ i x, image !! i = Some x → rom (ROM_BASE + Z.of_nat i) = x) →
      rom_bytes rom 0x20400000 (Z.of_nat (length earth)) = earth ∧
      ∀ b n d, 0 ≤ b → 0 ≤ n → (b + n) * BLOCK_SIZE ≤ SIZE_4MB →
        earth_disk_read sd rom FLASH_ROM b n d =
          Ret (0, take (Z.to_nat (n * BLOCK_SIZE)) (drop (Z.to_nat (b * BLOCK_SIZE)) disk)) d.
Proof.
  intros Hrd H1 H2 H3. unfold mkrom.
  destruct (load_file_spec rd Hrd fe310 0 tt H1) as (i1 & E1). mrun E1.
  destruct (load_file_spec rd Hrd earth i1 tt H2) as (i2 & E2). mrun E2.
  destruct (load_file_spec rd Hrd disk i2 tt ltac:(lia)) as (i3 & E3). mrun E3.
  rewrite (proj2 (Z.leb_le _ _)), (proj2 (Z.leb_le (Z.of_nat (length earth)) _)), (proj2 (Z.eqb_eq _ _)) by done.
  cbn [andb]. replace (Z.to_nat SIZE_4MB - length disk)%nat with 0%nat by lia. cbn [replicate]. rewrite app_nil_r.
  set (p1 := fe310 ++ _). set (z2 := replicate (_ - length earth) nul).
  assert (L1 : Z.of_nat (length p1) = SIZE_4MB) by (unfold p1; rewrite length_app, length_replicate; lia).
  assert (L2 : Z.of_nat (length (earth ++ z2)) = SIZE_4MB)
    by (unfold z2; rewrite length_app, length_replicate; lia).
  clearbody p1 z2. exists (p1 ++ (earth ++ z2) ++ disk). split; [done|].
  split; [rewrite !length_app in *; lia|]. intros rom Hrom. split.
  - rewrite <-!(assoc_L app) in Hrom. pose proof (rom_bytes_slice rom ROM_BASE p1 earth (z2 ++ disk) 0
      (Z.of_nat (length earth)) Hrom ltac:(lia) ltac:(lia) ltac:(lia)) as E. rewrite L1 in E.
    change (ROM_BASE + SIZE_4MB + 0) with 0x20400000 in E. rewrite E, Nat2Z.id. cbn [Z.to_nat].
    by rewrite drop_0, firstn_all.
  - intros b n d Hb Hn Hle. unfold earth_disk_read. unfold mret, M_ret. do 2 f_equal.
    rewrite (assoc_L app) in Hrom. rewrite <-(app_nil_r disk), (assoc_L app), <-(assoc_L app (p1 ++ _)) in Hrom.
    pose proof (rom_bytes_slice rom ROM_BASE (p1 ++ earth ++ z2) disk [] (b * BLOCK_SIZE) (n * BLOCK_SIZE)
      Hrom) as E. change BLOCK_SIZE with 512 in *.
    rewrite length_app, Nat2Z.inj_add, L1, L2 in E. apply E; lia.
Qed.

(** A disk image of blanks, read in pieces of at most 512 bytes; block 5 of the
    ROM's disk. *)
Lemma rom_disk_read_witness : ∃ rom : Z → byte,
  earth_disk_read mem_sd rom FLASH_ROM 5 1 ∅ = Ret (0, replicate 512 sp) ∅.
Proof.
  set (n := Z.to_nat SIZE_4MB). assert (Hn : Z.of_nat n = SIZE_4MB) by (apply Z2Nat.id; done). clearbody n.
  destruct (rom_disk_read (λ _, 512) [Byte.x01] [Byte.x02; Byte.x03] (replicate n sp) mem_sd)
    as (image & _ & _ & H).
  - lia.
  - done.
  - done.
  - rewrite length_replicate. exact Hn.
  - exists (λ a, image !!! Z.to_nat (a - ROM_BASE)). destruct (H (λ a, image !!! Z.to_nat (a - ROM_BASE))) as [_ Hr].
    + intros i x Hi. rewrite Z.add_simpl_l, Nat2Z.id. by apply list_lookup_total_correct.
    + rewrite Hr; [|done..]. rewrite drop_replicate, take_replicate.
      rewrite Nat.min_l; [reflexivity|]. change (Z.to_nat (1 * BLOCK_SIZE)) with 512%nat.
      change (Z.to_nat (5 * BLOCK_SIZE)) with 2560%nat. unfold SIZE_4MB in Hn. lia.
Defined.
