(* ===== verification/NetThms.v ===== *)
(** * Clients and servers

    The theorems about the servers: a client alone gets the right answer whatever
    the scheduler does; two clients at a time can stop the system, because the
    kernel has one message buffer and a receiver takes messages from any
    process. *)

From stdpp Require Import relations.
From S2P Require Import Prelude Layout Blocks Store Treedisk FileSystem Ramdisk FsCorrect Earth Dir.
From S2P Require Import Kernel KernelInv Mkfs MkfsCorrect User Servers Net ServersCorrect.

(** C18: A lookup through the servers.  Process [c] calls [dir_lookup] for a name in
    a directory, with the directory and the file server waiting for requests, no
    message on its way and no other process at work.  Then whatever the scheduler
    does, the system gets to the state in which [c] goes on with what the search
    in the text of the directory finds, the servers wait for requests again and
    the files are as they were: every run from the start is on the way there or
    goes through it.  For a name that is not a number this is the inode number of the
    first entry of that name, or -1 if there is none ([lookup_ino],
    [lookup_ino_name]).  A number is also found where it is the inode number of an
    entry, and the result is the number that follows in the text, usually 0
    ([dir_lookup_number]).  The name has less than 32 characters and is not longer
    than the text of the directory. *)
Theorem dir_lookup_served {D} (bs : inode_store D) (bino N : Z) (uninit : block)
    `{!BlockStore bs bino N} (junk : list byte) (F : files) (c ino : Z) (name : list byte)
    (es : list (list byte * Z)) (K : Z → U D unit) (sc dsc fsc : syscall) (n nf : nat)
    (T : gmap Z (prog D (unit * syscall))) (m : kernel_msg) (d : D) :
  let fs := treedisk_init uninit bs bino in
  let start := Net (<[c:=(x ← dir_lookup junk ino name; K x) sc]> (<[GPID_DIR:=dir_loop junk (S n) dsc]>
                 (<[GPID_FILE:=file_loop fs (S nf) fsc]> T))) m d in
  (nbytes ≤ length junk)%nat → c ≠ GPID_DIR → c ≠ GPID_FILE →
  (∀ q t, q ≠ c → q ≠ GPID_DIR → q ≠ GPID_FILE → T !! q = Some t → idle t) →
  in_use m = 0 → stores bs bino N F d → msg_len_ok sc → msg_len_ok dsc → msg_len_ok fsc →
  0 ≤ ino < 2 ^ 31 → F !! Z.to_nat ino = Some [dir_block es] →
  Forall entry_ok es → (length (render es) < nbytes)%nat → word name →
  (length name ≤ length (render es))%nat → (length name < 32)%nat →
  ∃ sc' dsc' fsc' m' d',
    let goal := Net (<[c:=K (lookup_ino es name) sc']> (<[GPID_DIR:=dir_loop junk n dsc']>
                  (<[GPID_FILE:=file_loop fs nf fsc']> T))) m' d' in
    (∀ n2, rtc step start n2 → rtc step n2 goal ∨ rtc step goal n2) ∧
    stores bs bino N F d' ∧ in_use m' = 0.
Proof.
  intros fs start Hj Hcd Hcf HT Hm Hd Hsc Hdsc Hfsc Hi HF Hes Hren Hw Hle H32.
  destruct (dir_lookup_leads junk fs (stores bs bino N F) F Hj (λ p, pbind p (λ r, K r.1 r.2)) c n nf sc dsc
    fsc ino name es T m d) as (sc' & dsc' & fsc' & m' & d' & L & _ & Hd' & Hm' & _); try done.
  { unfold is_u32. lia. }
  { lia. }
  exists sc', dsc', fsc', m', d'. split; [|done]. intros n2 Hr. by eapply forced_run.
Qed.

(** A process's system call area, before its first call. *)
Definition fresh_sc : syscall :=
  Syscall SYS_UNUSED (SysMsg 0 0 (replicate (Z.to_nat SYSCALL_MSG_LEN) Byte.x00)) 0.

Lemma root_block : strncpy_block (nth 0 contents String.EmptyString) = dir_block root_entries.
Proof. by vm_compute. Qed.

(** The lookup of [bin/] in the root directory of the image that mkfs builds, with
    300 bytes in each program; the process then halts. *)
Lemma dir_lookup_served_witness : ∃ img dsc' fsc' m' d',
  let fs := treedisk_init null_block (ramdisk_init FS_DISK_SIZE) 0 in
  let junk := replicate 600 Byte.x00 in
  let start := Net (<[5:=(x ← dir_lookup junk 0 (Dir.chars "bin/"); halt "done") fresh_sc]>
    (<[GPID_DIR:=dir_loop junk 3 fresh_sc]> (<[GPID_FILE:=file_loop fs 3 fresh_sc]> ∅)))
    (KernelMsg 0 0 0 []) img in
  let goal := Net (<[5:=Halt "done"]> (<[GPID_DIR:=dir_loop junk 2 dsc']>
    (<[GPID_FILE:=file_loop fs 2 fsc']> ∅))) m' d' in
  lookup_ino root_entries (Dir.chars "bin/") = 6 ∧ in_use m' = 0 ∧
  ∀ n2, rtc step start n2 → rtc step n2 goal ∨ rtc step goal n2.
Proof.
  destruct (mkfs_spec demo_host null_block (replicate (Z.to_nat exec_size) Byte.x00))
    as (_ & img & _ & F & room & Hs & Hf).
  - reflexivity.
  - repeat constructor; by vm_compute.
  - rewrite length_replicate, Z2Nat.id; [reflexivity|by vm_compute].
  - apply Nat.leb_le. vm_compute. reflexivity.
  - destruct (Hf 0%nat _ eq_refl) as (f & Ef & Hhold). 
    assert (f = [dir_block root_entries]) as ->.
    { rewrite <-root_block. exact Hhold. }
    destruct (dir_lookup_served (BlockStore0 := fs_ram) (ramdisk_init FS_DISK_SIZE) 0 4096 null_block (replicate 600 Byte.x00) F 5 0
      (Dir.chars "bin/") root_entries (λ _, halt "done") fresh_sc fresh_sc fresh_sc 2 2 ∅ (KernelMsg 0 0 0 []) img)
      as (sc' & dsc' & fsc' & m' & d' & R & _ & Hm').
    + apply Nat.leb_le. vm_compute. reflexivity.
    + discriminate.
    + discriminate.
    + intros q t _ _ _ Ht. by rewrite lookup_empty in Ht.
    + reflexivity.
    + by exists room.
    + reflexivity.
    + reflexivity.
    + reflexivity.
    + lia.
    + exact Ef.
    + apply (bool_decide_unpack _). vm_compute. exact Logic.I.
    + apply Nat.ltb_lt. by vm_compute.
    + apply (bool_decide_unpack _). vm_compute. exact Logic.I.
    + apply Nat.leb_le. by vm_compute.
    + apply Nat.ltb_lt. by vm_compute.
    + exists img, dsc', fsc', m', d'. split; [reflexivity|]. split; [exact Hm'|exact R].
Defined.

(** ** Two clients at a time *)

(** Files that are all null blocks, and two processes that call the servers. *)
Definition null_files : inode_store unit :=
  InodeStore (λ _, mret 0) (λ _ _, mret (-1)) (λ _ _ _, mret (0, null_block)) (λ _ _ _, mret 0).
Definition demo_junk : list byte := replicate 600 Byte.x00.

Definition clients (p : U unit unit) : net unit :=
  Net (<[5:=p fresh_sc]> (<[6:=p fresh_sc]> (<[GPID_DIR:=dir_loop demo_junk 3 fresh_sc]>
    (<[GPID_FILE:=file_loop null_files 3 fresh_sc]> ∅)))) (KernelMsg 0 0 0 []) tt.

Definition looker : U unit unit := _ ← dir_lookup demo_junk 0 (Dir.chars "bin/"); halt "done".

(** The run of the theorem below: the first client's request goes to the server,
    which reads the file, and then the second client sends. *)
Section deadlock.
Context {D : Type} (junk : list byte) (fs : inode_store D) (inv : D → Prop) (F : files).
Context `{!FileStore fs inv F}.
Hypothesis Hjunk : (nbytes ≤ length junk)%nat.

Lemma file_client_jams Cp Cq p q ip op iq oq scp scq fsc nf
    (T : gmap Z (prog D (unit * syscall))) m d :
  context Cp → context Cq → p ≠ q → p ≠ GPID_FILE → q ≠ GPID_FILE →
  in_use m = 0 → inv d → msg_len_ok scp →
  ∃ n,
    rtc step (Net (<[p:=Cp (file_read junk ip op scp)]> (<[q:=Cq (file_read junk iq oq scq)]>
                (<[GPID_FILE:=file_loop fs (S nf) fsc]> T))) m d) n ∧
    jammed n GPID_FILE ∧ ksender (mailbox n) = q ∧
    waits_to_recv (tasks n !! p) = true ∧ waits_to_recv (tasks n !! q) = true.
Proof using Hjunk FileStore0.
  intros HCp HCq Hpq Hpf Hqf Hm Hd Hscp. rewrite !file_read_eq, HCp, HCq, file_loop_eq by done.
  set (sc1 := send_sc GPID_FILE (file_request ip op junk) scp). set (c1 := content (msg sc1)).
  set (scq1 := send_sc GPID_FILE (file_request iq oq junk) scq).
  set (fsc1 := received p c1 (recv_sc fsc)).
  assert (Hl1 : length c1 = Z.to_nat SYSCALL_MSG_LEN).
  { apply send_sc_ok; [|done]. rewrite file_request_length by done. apply Nat.leb_le. done. }
  destruct (file_serve_reads junk fs inv F Hjunk nf fsc1 d ip op
    (drop (length (file_request ip op junk)) (content (msg scp))))
    with (r := spec_read F (u32 ip) (u32 op) (bytes_at c1 4 nbytes))
    as (act1 & Eact & t & d' & Ed & _ & _ & _ & ->); [done..|].
  eexists. split; [|split].
  { eapply rtc_l; [apply (step_send _ p sc1); [apply lookup_insert_eq|done..]|]. cbn [tasks shared].
    rewrite insert_insert_eq.
    eapply rtc_l; [apply (step_recv _ GPID_FILE (recv_sc fsc) (file_serve fs nf) p c1); [|done..]|].
    { cbn [tasks]. rewrite 2!lookup_insert_ne by done. apply lookup_insert_eq. }
    cbn [tasks shared]. change (file_serve fs nf _) with (file_serve fs nf fsc1). rewrite Eact.
    eapply rtc_l; [exists GPID_FILE; eapply step_act; [apply lookup_insert_eq|exact Ed]|].
    cbn [tasks mailbox]. rewrite insert_insert_eq.
    eapply rtc_once, (step_send _ q scq1); [|done..]. cbn [tasks].
    rewrite 2!lookup_insert_ne by done. apply lookup_insert_eq. }
  - split; [done|]. split; [done|]. cbn [tasks]. rewrite lookup_insert_ne by done.
    by rewrite lookup_insert_eq.
  - split; [done|]. cbn [tasks]. split.
    + rewrite 2!lookup_insert_ne by done. rewrite lookup_insert_eq. by rewrite HCp.
    + rewrite lookup_insert_eq. by rewrite HCq.
Qed.
End deadlock.

(** C40: Two clients of the file server can stop the system for ever.  Whatever the
    files, and whatever the other processes are, when two processes call
    [file_read] while the server waits and no message is on its way, the system
    can get to a state in which the second client's request is in the kernel's
    message buffer and the server wants to send its reply to the first one.  The
    buffer is in use, so the reply cannot be sent, and only the server may take
    the message out: in every later state the message is there, and the clients,
    the server and all others that want to send or receive a message are where
    they were. *)
Theorem file_server_deadlock {D} (bs : inode_store D) (bino N : Z) (uninit : block)
    `{!BlockStore bs bino N} (junk : list byte) (F : files) (p q ip op iq oq : Z)
    (Kp Kq : Z * block → U D unit) (scp scq fsc : syscall) (nf : nat)
    (T : gmap Z (prog D (unit * syscall))) (m : kernel_msg) (d : D) :
  let fs := treedisk_init uninit bs bino in
  let start := Net (<[p:=(x ← file_read junk ip op; Kp x) scp]> (<[q:=(x ← file_read junk iq oq; Kq x) scq]>
                 (<[GPID_FILE:=file_loop fs (S nf) fsc]> T))) m d in
  (nbytes ≤ length junk)%nat → p ≠ q → p ≠ GPID_FILE → q ≠ GPID_FILE →
  in_use m = 0 → stores bs bino N F d → msg_len_ok scp →
  ∃ n, rtc step start n ∧
    in_use (mailbox n) = 1 ∧ ksender (mailbox n) = q ∧ kreceiver (mailbox n) = GPID_FILE ∧
    waits_to_send (tasks n !! GPID_FILE) = true ∧
    waits_to_recv (tasks n !! p) = true ∧ waits_to_recv (tasks n !! q) = true ∧
    ∀ n', rtc step n n' → mailbox n' = mailbox n ∧ ∀ r, wants_msg n r → tasks n' !! r = tasks n !! r.
Proof.
  intros fs start Hj Hpq Hpf Hqf Hm Hd Hsc.
  destruct (file_client_jams junk fs (stores bs bino N F) F Hj (λ t, pbind t (λ r, Kp r.1 r.2))
    (λ t, pbind t (λ r, Kq r.1 r.2)) p q ip op iq oq scp scq fsc nf T m d)
    as (n & Hr & Hjam & Hs & Hp & Hq); [done..|]. pose proof Hjam as (H1 & H2 & H3).
  exists n. split_and!; try done. intros n' Hn'.
  by apply (stale_for_ever n n' GPID_FILE (jammed_stale _ _ Hjam)).
Qed.

(** Two processes that read the root directory of the image that mkfs builds. *)
Lemma file_server_deadlock_witness : ∃ img n,
  let reader := x ← file_read demo_junk 0 0; halt "done" in
  let fs := treedisk_init null_block (ramdisk_init FS_DISK_SIZE) 0 in
  rtc step (Net (<[5:=reader fresh_sc]> (<[6:=reader fresh_sc]> (<[GPID_FILE:=file_loop fs 3 fresh_sc]> ∅)))
              (KernelMsg 0 0 0 []) img) n ∧
  waits_to_send (tasks n !! GPID_FILE) = true ∧
  ∀ n', rtc step n n' → tasks n' !! GPID_FILE = tasks n !! GPID_FILE.
Proof.
  destruct (mkfs_spec demo_host null_block (replicate (Z.to_nat exec_size) Byte.x00))
    as (_ & img & _ & F & room & Hs & _).
  - reflexivity.
  - repeat constructor; by vm_compute.
  - rewrite length_replicate, Z2Nat.id; [reflexivity|by vm_compute].
  - apply Nat.leb_le. vm_compute. reflexivity.
  - exists img.
    destruct (file_server_deadlock (BlockStore0 := fs_ram) (ramdisk_init FS_DISK_SIZE) 0 4096 null_block
      demo_junk F 5 6 0 0 0 0 (λ _, halt "done") (λ _, halt "done") fresh_sc fresh_sc fresh_sc 2 ∅
      (KernelMsg 0 0 0 []) img) as (n & R & _ & _ & _ & Hw & _ & _ & Hn').
    + apply Nat.leb_le. vm_compute. reflexivity.
    + discriminate.
    + discriminate.
    + discriminate.
    + reflexivity.
    + by exists room.
    + reflexivity.
    + exists n. split; [exact R|]. split; [exact Hw|]. intros n' Hr.
      apply (proj2 (Hn' n' Hr)), waits_wants. by left.
Defined.

(** A request that reaches the directory server while it waits for the file
    server kills it: [file_read] takes the message for the reply, sees another
    sender and stops with FATAL. *)
Example dir_server_fatal : ∃ n,
  rtc step (clients looker) n ∧
  tasks n !! GPID_DIR = Some (Halt "file_read: an error occurred").
Proof.
  destruct (exec_reaches [5; GPID_DIR; GPID_DIR; GPID_FILE; 6; GPID_DIR] (clients looker)
    (λ n, match tasks n !! GPID_DIR with
          | Some (Halt w) => String.eqb w "file_read: an error occurred"
          | _ => false
          end)) as (n & Hr & Ht); [by vm_compute|].
  exists n. split; [done|]. destruct (tasks n !! GPID_DIR) as [[| | |w]|]; try done.
  apply String.eqb_eq in Ht as ->. done.
Qed.
