(* ===== verification/Apps.v ===== *)
(** * The user applications

    apps/user/*.c as user code.  [argv] holds the arguments without their null
    bytes.  The applications share [grass->workdir_ino] and [grass->workdir] with
    the shell ([environ]); the rest of the shared state is the files of the file
    server.  crash1 is in Libc.v. *)

From coqutil Require Import Byte.
From S2P Require Import Prelude Layout Blocks Store Earth Dir Paging Mmu User Servers SysProc.

Record environ := Environ {
  workdir_ino : Z;
  workdir : list byte;       (* 128 bytes *)
}.
Record session (D : Type) := Session {
  env : environ;
  disk : D;
}.
Arguments Session {D} _ _.
Arguments env {D} _.
Arguments disk {D} _.

Abbreviation slash := Byte.x2f.

(** ** Functions of string.h on arrays *)

Section strings.
Context {S : Type}.

Definition strcpy (dst s : list byte) : M S (list byte) :=
  if (length s <? length dst)%nat then mret (overwrite dst 0 (s ++ [nul])) else undef "strcpy".
Definition strcat (dst s : list byte) : M S (list byte) :=
  match find_nul dst with
  | Some n =>
      if (n + length s <? length dst)%nat then mret (overwrite dst n (s ++ [nul])) else undef "strcat"
  | None => undef "strcat"
  end.
Definition strncat (dst s : list byte) (n : Z) : M S (list byte) := strcat dst (take (Z.to_nat n) s).
End strings.

Section apps.
Context {D : Type} (junk : list byte) (writes : string → list Z → list (Z * Z)).
Local Abbreviation SU := (U (session D)).
Local Abbreviation prints line s := (print writes line (byte.unsigned <$> s)).

Definition get_env {A} (f : environ → A) : SU A := act (gets (λ s, f (env s))).
Definition set_env (f : environ → environ) : SU unit := act (modify (λ s, Session (f (env s)) (disk s))).
Definition set_ino (ino : Z) (e : environ) : environ := Environ ino (workdir e).
Definition set_workdir (p : list byte) (e : environ) : environ := Environ (workdir_ino e) p.

(** [argv[i]] *)
Definition arg (argv : list (list byte)) (i : nat) : SU (list byte) :=
  match argv !! i with Some s => mret s | None => act (undef "argv") end.

(** apps/app.s: [main], then [exit] with its result. *)
Definition run_app (main : SU Z) : SU unit := status ← main; exit junk status.

(** ** echo.c, pwd.c, clock.c, ult.c *)

Fixpoint echo_loop (argv : list (list byte)) (n i : nat) : SU unit :=
  match n with
  | O => mret tt
  | S n => s ← arg argv i; _ ← prints "%s " s; echo_loop argv n (S i)
  end.
Definition echo (argc : Z) (argv : list (list byte)) : SU Z :=
  _ ← echo_loop argv (Z.to_nat (argc - 1)) 1;
  _ ← print writes "\r\n" [];
  mret 0.

Definition pwd : SU Z :=
  buf ← get_env workdir;
  s ← cstring buf 0;
  _ ← prints "%s\r\n" s;
  mret 0.

(** The loop that only counts to 5000000 is left out. *)
Fixpoint clock_loop (n : nat) (i cnt : Z) : SU unit :=
  match n with
  | O => mret tt
  | S n => _ ← print writes "clock: tick#%d / #%d\r\n" [i + 1; cnt]; clock_loop n (i + 1) cnt
  end.
Definition clock (argc : Z) (argv : list (list byte)) : SU Z :=
  cnt ← (if argc =? 1 then mret 1000 else s ← arg argv 1; mret (atoi s));
  _ ← clock_loop (Z.to_nat cnt) 0 cnt;
  mret 0.

Definition ult : SU Z :=
  _ ← print writes "User-level threading is not implemented." []; mret 0.

(** ** cat.c *)

(** [buf] is printed up to its null byte; [strlen(buf) - 1] is unsigned. *)
Definition cat_print (buf : block) : SU Z :=
  s ← cstring buf 0;
  _ ← prints "%s" s;
  c ← act (arr_get buf (u32 (Z.of_nat (length s) - 1)));
  _ ← (if decide (c = Byte.x0a) then mret tt else print writes "\r\n" []);
  mret 0.
Definition cat (argc : Z) (argv : list (list byte)) : SU Z :=
  if argc =? 1 then _ ← print writes "usage: cat [FILE]" []; mret (-1)
  else
    dir_ino ← get_env workdir_ino;
    name ← arg argv 1;
    file_ino ← dir_lookup junk dir_ino name;
    if file_ino <? 0 then _ ← prints "cat: file %s not found" name; mret (-1)
    else
      '(_, buf) ← file_read junk file_ino 0;
      cat_print buf.

(** ** ls.c *)

(** [for (int i = 1; i < strlen(buf); i++)] *)
Fixpoint ls_loop (n : nat) (buf : block) (i : Z) : M (session D) block :=
  match n with
  | O => spin
  | S n =>
      len ← strlen buf;
      if i <? len then
        a ← arr_get buf (i - 1);
        c ← arr_get buf i;
        buf ← (if bool_decide (a = sp) && digit c then arr_set buf i sp else mret buf);
        ls_loop n buf (i + 1)
      else mret buf
  end.
Definition ls (argc : Z) : SU Z :=
  if 1 <? argc then _ ← print writes "ls: ls with args not implemented" []; mret (-1)
  else
    ino ← get_env workdir_ino;
    '(_, buf) ← file_read junk ino 0;
    buf ← act (ls_loop (length buf + 2) buf 1);
    s ← cstring buf 0;
    _ ← prints "%s\r\n" s;
    mret 0.

(** ** cd.c *)

(** [while (grass->workdir[len] != '/') grass->workdir[len--] = 0;] *)
Fixpoint up_loop (n : nat) (buf : list byte) (len : Z) : M (session D) (list byte * Z) :=
  c ← arr_get buf len;
  if decide (c = slash) then mret (buf, len)
  else
    match n with
    | O => spin
    | S n => buf ← arr_set buf len nul; up_loop n buf (len - 1)
    end.
Definition path_up (buf : list byte) (len : Z) : M (session D) (list byte) :=
  '(buf, len) ← up_loop (Z.to_nat len + 1) buf len;
  if negb (len =? 0) then arr_set buf len nul else mret buf.
(** [dir] is [argv[1]] with the slash. *)
Definition path_down (buf dir : list byte) (len : Z) : M (session D) (list byte) :=
  buf ← (if 1 <? len then strcat buf [slash] else mret buf);
  strncat buf dir (Z.of_nat (length dir) - 1).

Definition cd_home : SU Z :=
  home_ino ← dir_lookup junk 0 (chars "home/");
  ino ← dir_lookup junk home_ino (chars "yunhao/");
  _ ← set_env (set_ino ino);
  buf ← get_env workdir;
  buf ← act (strcpy buf (chars "/home/yunhao"));
  _ ← set_env (set_workdir buf);
  mret 0.
(** [argv[1]] is in an array of [CMD_ARG_LEN] bytes. *)
Definition cd (argc : Z) (argv : list (list byte)) : SU Z :=
  if argc =? 1 then cd_home
  else
    name ← arg argv 1;
    dir ← (if Z.of_nat (length name) + 1 <? CMD_ARG_LEN then mret (name ++ [slash])
           else act (undef "strcat"));
    ino ← get_env workdir_ino;
    dir_ino ← dir_lookup junk ino dir;
    if dir_ino =? -1 then _ ← prints "cd: directory %s not found" dir; mret (-1)
    else
      _ ← set_env (set_ino dir_ino);
      if decide (dir = chars "./") then mret 0
      else
        buf ← get_env workdir;
        len ← act (strlen buf);
        buf ← act (if decide (dir = chars "../") then path_up buf len else path_down buf dir len);
        _ ← set_env (set_workdir buf);
        mret 0.
End apps.

(** ** crash2.c *)

(** [memset((void * )FRAME_CACHE_START, 0, FRAME_CACHE_END - FRAME_CACHE_START)]:
    28 pages. *)
Definition wipe {D} (s : mmu D) : mmu D :=
  Mmu (ftable s) (curr_vm_pid s) (cache_slots s)
    (λ n, if (Z.shiftr FRAME_CACHE_START 12 <=? n) && (n <? Z.shiftr FRAME_CACHE_END 12)
          then replicate (Z.to_nat PAGE_SIZE) nul else mem s n) (pdisk s) (nrand s).
Definition crash2 {D} (writes : string → list Z → list (Z * Z)) : U (world D) Z :=
  _ ← act (on_vm (modify wipe));
  _ ← print writes "Crash2 succeeds in corrupting the memory of other processes" [];
  mret 0.
