(* ===== verification/AppsCorrect.v ===== *)
(** * The user applications, correct

    What [ls], [cat] and [cd] do through the servers.  [does P u kd kf Q]: user code
    [u] of process [c], in a network where the directory and the file server wait
    for requests, gets from a state with [P] to a result with [Q], whatever the
    scheduler does, with [kd] and [kf] requests to the servers. *)

From stdpp Require Import relations.
From coqutil Require Import Byte.
From S2P Require Import Prelude Layout Blocks Store FileSystem Earth Dir Kernel KernelInv User Servers Net.
From S2P Require Import ServersCorrect Paging Mmu SysProc SysProcCorrect SpawnCorrect Apps.

(** ** Clients of the servers *)

Section client.
Context {D : Type} (junk : list byte) (fs : inode_store D) (c : Z).
Hypothesis Hjunk : (nbytes ≤ length junk)%nat.
Hypothesis Hdir : c ≠ GPID_DIR.
Hypothesis Hfile : c ≠ GPID_FILE.
Implicit Types T : gmap Z (prog D (unit * syscall)).

Definition place p (nd : nat) dsc (nf : nat) fsc T : gmap Z (prog D (unit * syscall)) :=
  two c GPID_DIR p (dir_loop junk nd dsc) (<[GPID_FILE:=file_loop fs nf fsc]> T).

Definition nobody_else T : Prop :=
  ∀ q t, q ≠ c → q ≠ GPID_DIR → q ≠ GPID_FILE → T !! q = Some t → idle t.

Record calm sc dsc fsc (mb : kernel_msg) T : Prop := {
  ca_sc : msg_len_ok sc;
  ca_dsc : msg_len_ok dsc;
  ca_fsc : msg_len_ok fsc;
  ca_box : in_use mb = 0;
  ca_others : nobody_else T;
}.

Definition does {A} (P : D → Prop) (u : U D A) (kd kf : nat) (Q : A → D → Prop) : Prop :=
  ∀ C nd nf sc dsc fsc T mb d, around C → calm sc dsc fsc mb T → P d →
  ∃ sc' dsc' fsc' mb' a d',
    rtc forced (Net (place (C (u sc)) (kd + nd) dsc (kf + nf) fsc T) mb d)
      (Net (place (C (Done (a, sc'))) nd dsc' nf fsc' T) mb' d') ∧
    calm sc' dsc' fsc' mb' T ∧ Q a d'.

Lemma does_ret {A} (a : A) (P : D → Prop) (Q : A → D → Prop) :
  (∀ d, P d → Q a d) → does P (mret a) 0 0 Q.
Proof using Type.
  clear Hjunk Hdir Hfile. intros H C nd nf sc dsc fsc T mb d HC Hc Hd. exists sc, dsc, fsc, mb, a, d.
  split; [constructor|]. split; [done|]. by apply H.
Qed.

Lemma does_bind {A B} P (u : U D A) (f : A → U D B) kd kf kd' kf' Q R :
  does P u kd kf Q → (∀ a, does (Q a) (f a) kd' kf' R) →
  does P (u ≫= f) (kd + kd') (kf + kf') R.
Proof using Type.
  clear Hjunk Hdir Hfile. intros H1 H2 C nd nf sc dsc fsc T mb d HC Hc Hd. rewrite <-!Nat.add_assoc.
  destruct (H1 (λ p, C (pbind p (λ r, f r.1 r.2))) (kd' + nd)%nat (kf' + nf)%nat sc dsc fsc T mb d)
    as (sc1 & dsc1 & fsc1 & mb1 & a & d1 & L1 & R1 & Q1); [by apply around_bind|done..|].
  destruct (H2 a C nd nf sc1 dsc1 fsc1 T mb1 d1 HC R1 Q1)
    as (sc2 & dsc2 & fsc2 & mb2 & b & d2 & L2 & R2 & Q2).
  exists sc2, dsc2, fsc2, mb2, b, d2. split; [|done]. eapply leads_trans; [exact L1|exact L2].
Qed.

(** Code on the shared state alone. *)
Lemma does_act {A} (P : D → Prop) (m : M D A) Q :
  (∀ d, P d → returns m d Q) → does P (act m) 0 0 Q.
Proof using Type.
  clear Hjunk Hdir Hfile. intros H C nd nf sc dsc fsc T mb d HC [R1 R2 R3 R4 R5] Hd.
  destruct (H d Hd) as (a & d' & E & HQ). exists sc, dsc, fsc, mb, a, d'. split; [|by split].
  destruct (ar_act _ HC (λ w, match m w with
    | Ret a w => Ret (Done (a, sc)) w | Fatal why w => Fatal why w | Undef why => Undef why | Spin => Spin
    end) d (Done (a, sc)) d') as (m' & Em & Er).
  { by rewrite E. }
  unfold act, place. rewrite Em. apply runs; [|done|apply dir_loop_idle|exact Er].
  apply quiet_insert; [|apply file_loop_idle]. intros q t H1 H2 H3. by apply R5.
Qed.

Lemma does_mono {A} P P' (u : U D A) kd kf (Q Q' : A → D → Prop) :
  does P u kd kf Q → (∀ d, P' d → P d) → (∀ a d, Q a d → Q' a d) → does P' u kd kf Q'.
Proof using Type.
  clear Hjunk Hdir Hfile. intros H H1 H2 C nd nf sc dsc fsc T mb d HC Hc Hd.
  destruct (H C nd nf sc dsc fsc T mb d HC Hc (H1 _ Hd)) as (sc' & dsc' & fsc' & mb' & a & d' & L & R & HQ).
  exists sc', dsc', fsc', mb', a, d'. split; [done|]. split; [done|]. by apply H2.
Qed.

(** ** Calls to the servers *)

Context (inv : D → Prop) (F : files) `{!FileStore fs inv F}.

Lemma does_file_read ino off :
  does inv (file_read junk ino off) 0 1 (λ r d, inv d ∧ ∃ buf, r = spec_read F (u32 ino) (u32 off) buf).
Proof using All.
  intros C nd nf sc dsc fsc T mb d HC [R1 R2 R3 R4 R5] Hd.
  assert (Hq : quiet (<[GPID_DIR:=dir_loop junk nd dsc]> T) c GPID_FILE).
  { apply quiet_insert; [|apply dir_loop_idle]. intros q t H1 H2 H3. by apply R5. }
  destruct (file_read_leads junk fs inv F Hjunk C c nf sc fsc ino off _ mb d (ar_invoke _ HC) Hfile Hq R4 Hd R1 R3)
    as (sc' & fsc' & mb' & d' & r & L & (buf & Hr & _) & Hd' & Hm & H1 & H2).
  exists sc', dsc, fsc', mb', r, d'. split; [|split; [by split|split; [done|by exists buf]]].
  unfold place, two in *. cbn [Nat.add].
  by rewrite !(insert_insert_ne _ GPID_DIR GPID_FILE).
Qed.

Lemma does_lookup ino name es :
  directory F ino es → findable es name →
  does inv (dir_lookup junk ino name) 1 1 (λ r d, r = lookup_ino es name ∧ inv d).
Proof using All.
  intros [I1 I2 I3 I4] [N1 N3 N4] C nd nf sc dsc fsc T mb d HC [R1 R2 R3 R4 R5] Hd.
  destruct (dir_lookup_leads junk fs inv F Hjunk C c nd nf sc dsc fsc ino name es T mb d)
    as (sc' & dsc' & fsc' & mb' & d' & L & _ & Hd' & Hm & H1 & H2 & H3); try done.
  { apply HC. }
  { unfold is_u32. lia. }
  { lia. }
  exists sc', dsc', fsc', mb', (lookup_ino es name), d'. split; [exact L|]. split; [by split|done].
Qed.

(** ** Up to what goes on *)

(** The code [u] gets to be the code [u'], which has not run yet. *)
Definition becomes {A} (P : D → Prop) (u : U D A) (kd kf : nat) (R : U D A → D → Prop) : Prop :=
  ∀ C nd nf sc dsc fsc T mb d, around C → calm sc dsc fsc mb T → P d →
  ∃ sc' dsc' fsc' mb' u' d',
    rtc forced (Net (place (C (u sc)) (kd + nd) dsc (kf + nf) fsc T) mb d)
      (Net (place (C (u' sc')) nd dsc' nf fsc' T) mb' d') ∧
    calm sc' dsc' fsc' mb' T ∧ R u' d'.

Lemma becomes_here {A} P (u : U D A) : becomes P u 0 0 (λ u' d, u' = u ∧ P d).
Proof using Type.
  clear. intros C nd nf sc dsc fsc T mb d HC Hc Hd. exists sc, dsc, fsc, mb, u, d.
  split; [constructor|]. split; [done|]. by split.
Qed.

Lemma becomes_bind {A B} P (u : U D A) (f : A → U D B) kd kf kd' kf' Q R :
  does P u kd kf Q → (∀ a, becomes (Q a) (f a) kd' kf' R) →
  becomes P (u ≫= f) (kd + kd') (kf + kf') R.
Proof using Type.
  clear. intros H1 H2 C nd nf sc dsc fsc T mb d HC Hc Hd. rewrite <-!Nat.add_assoc.
  destruct (H1 (λ p, C (pbind p (λ r, f r.1 r.2))) (kd' + nd)%nat (kf' + nf)%nat sc dsc fsc T mb d)
    as (sc1 & dsc1 & fsc1 & mb1 & a & d1 & L1 & R1 & Q1); [by apply around_bind|done..|].
  destruct (H2 a C nd nf sc1 dsc1 fsc1 T mb1 d1 HC R1 Q1)
    as (sc2 & dsc2 & fsc2 & mb2 & b & d2 & L2 & R2 & Q2).
  exists sc2, dsc2, fsc2, mb2, b, d2. split; [|done]. eapply leads_trans; [exact L1|exact L2].
Qed.

(** Process [c] runs [u] and then [K]: every run gets to where [u'] and then [K]
    are left to do. *)
Lemma becomes_leads {A} P (u : U D A) kd kf R (K : A → U D unit) nd nf sc dsc fsc T mb d :
  becomes P u kd kf R → calm sc dsc fsc mb T → P d →
  ∃ sc' dsc' fsc' mb' u' d', R u' d' ∧ calm sc' dsc' fsc' mb' T ∧
    ∀ n2, rtc step (Net (place ((u ≫= K) sc) (kd + nd) dsc (kf + nf) fsc T) mb d) n2 →
      let goal := Net (place ((u' ≫= K) sc') nd dsc' nf fsc' T) mb' d' in rtc step n2 goal ∨ rtc step goal n2.
Proof using Type.
  clear. intros H Hc Hd.
  destruct (H (λ p, pbind p (λ r, K r.1 r.2)) nd nf sc dsc fsc T mb d) as
    (sc' & dsc' & fsc' & mb' & u' & d' & L & R' & HQ); [|done..|].
  { apply (around_bind (λ p, p)), around_id. }
  exists sc', dsc', fsc', mb', u', d'. split; [done|]. split; [done|]. intros n2 Hr. by eapply forced_run.
Qed.
End client.

(** ** Sessions *)

(** The file server's store in a session. *)
Definition on_files {D A} (m : M D A) : M (session D) A := λ s,
  match m (disk s) with
  | Ret a d => Ret a (Session (env s) d)
  | Fatal w d => Fatal w (Session (env s) d)
  | Undef w => Undef w
  | Spin => Spin
  end.
Definition session_fs {D} (fs : inode_store D) : inode_store (session D) :=
  InodeStore (λ ino, on_files (getsize fs ino)) (λ ino n, on_files (setsize fs ino n))
    (λ ino b buf, on_files (read fs ino b buf)) (λ ino b blk, on_files (write fs ino b blk)).

(** The files, and the environment that calls to the servers leave alone. *)
Definition within {D} (inv : D → Prop) (e : environ) (s : session D) : Prop := inv (disk s) ∧ env s = e.

#[export] Instance session_file_store {D} (fs : inode_store D) inv F e `{!FileStore fs inv F} :
  FileStore (session_fs fs) (within inv e) F.
Proof.
  split.
  - intros [e' d] ino off buf [Hd He] Hi Ho. cbn [disk env] in *. subst e'.
    destruct (fst_read d ino off buf Hd Hi Ho) as (r & d' & E & -> & Hd').
    eexists _, (Session e d'). split; [|by split]. cbn. unfold on_files. cbn [disk]. by rewrite E.
  - intros s [Hd _]. by eapply fst_wf.
Qed.

(** ** ls *)

(** The digits after a space are spaces, so a number after a space disappears. *)
Fixpoint blank (after : bool) (l : list byte) : list byte :=
  match l with
  | [] => []
  | c :: l => if after && digit c then sp :: blank true l else c :: blank (bool_decide (c = sp)) l
  end.

Lemma blank_length l : ∀ b, length (blank b l) = length l.
Proof. induction l as [|c l IH]; intros b; [done|]. cbn [blank]. destruct (b && digit c); cbn; by rewrite IH. Qed.

Lemma blank_nul l : ∀ b, nul ∉ l → nul ∉ blank b l.
Proof.
  induction l as [|c l IH]; intros b Hl; [done|]. apply not_elem_of_cons in Hl as [Hc Hl]. cbn [blank].
  destruct (b && digit c); apply not_elem_of_cons; (split; [done|by apply IH]).
Qed.

(** The loop, with [pre] done up to a last character [a]. *)
Lemma ls_loop_spec {D} n : ∀ (pre l pad : list byte) a (s : session D),
  (length l < n)%nat → nul ∉ pre → a ≠ nul → nul ∉ l →
  ls_loop n (pre ++ a :: l ++ nul :: pad) (Z.of_nat (length pre) + 1) s =
    Ret (pre ++ a :: blank (bool_decide (a = sp)) l ++ nul :: pad) s.
Proof.
  induction n as [|n IH]; intros pre l pad a s Hn Hpre Ha Hl; [lia|]. cbn [ls_loop].
  assert (Hlen : strlen (pre ++ a :: l ++ nul :: pad) s = Ret (Z.of_nat (length pre + S (length l))) s).
  { unfold strlen. change (a :: l ++ nul :: pad) with ((a :: l) ++ nul :: pad). rewrite (assoc_L app).
    rewrite find_nul_text; [by rewrite length_app|].
    rewrite not_elem_of_app, not_elem_of_cons. by split_and!. }
  mrun Hlen. destruct l as [|c l].
  { rewrite (proj2 (Z.ltb_ge _ _)) by (cbn [length]; lia). reflexivity. }
  apply not_elem_of_cons in Hl as [Hc Hl]. cbn [length] in *. rewrite (proj2 (Z.ltb_lt _ _)) by lia.
  assert (E1 : arr_get (pre ++ a :: (c :: l) ++ nul :: pad) (Z.of_nat (length pre) + 1 - 1) s = Ret a s).
  { rewrite arr_get_eq by (rewrite length_app; cbn; lia). rewrite Z.add_simpl_r, Nat2Z.id.
    by rewrite lookup_total_app_r, Nat.sub_diag by lia. }
  assert (E2 : arr_get (pre ++ a :: (c :: l) ++ nul :: pad) (Z.of_nat (length pre) + 1) s = Ret c s).
  { rewrite arr_get_eq by (rewrite length_app; cbn; lia).
    rewrite lookup_total_app_r by lia. by replace (Z.to_nat (Z.of_nat (length pre) + 1) - length pre)%nat with 1%nat by lia. }
  mrun E1. mrun E2.
  set (c' := if bool_decide (a = sp) && digit c then sp else c).
  assert (E3 : (if bool_decide (a = sp) && digit c
      then arr_set (pre ++ a :: (c :: l) ++ nul :: pad) (Z.of_nat (length pre) + 1) sp
      else mret (pre ++ a :: (c :: l) ++ nul :: pad)) s = Ret ((pre ++ [a]) ++ c' :: l ++ nul :: pad) s).
  { unfold c'. rewrite <-!(assoc_L app). cbn [app]. destruct (bool_decide (a = sp) && digit c); [|done].
    rewrite arr_set_eq by (rewrite length_app; cbn; lia).
    replace (Z.to_nat (Z.of_nat (length pre) + 1)) with (length pre + 1)%nat by lia.
    by rewrite insert_app_r. }
  mrun E3. replace (Z.of_nat (length pre) + 1 + 1) with (Z.of_nat (length (pre ++ [a])) + 1)
    by (rewrite length_app; cbn [length]; lia).
  rewrite IH; [|lia| | |done].
  - rewrite <-!(assoc_L app). cbn [app blank]. unfold c'. destruct (bool_decide (a = sp) && digit c); done.
  - rewrite not_elem_of_app. split; [done|]. apply not_elem_of_cons. split; [done|apply not_elem_of_nil].
  - unfold c'. by destruct (bool_decide (a = sp) && digit c).
Qed.

Lemma ls_loop_text {D} (t pad : list byte) (s : session D) :
  nul ∉ t → ls_loop (length (t ++ nul :: pad) + 2) (t ++ nul :: pad) 1 s = Ret (blank false t ++ nul :: pad) s.
Proof.
  intros Ht. destruct t as [|a l].
  { replace (length ([] ++ nul :: pad) + 2)%nat with (S (length pad + 2)) by (cbn [app length]; lia).
    cbn [ls_loop app blank]. reflexivity. }
  apply not_elem_of_cons in Ht as [Ha Hl].
  pose proof (ls_loop_spec (length ((a :: l) ++ nul :: pad) + 2) [] l pad a s) as E. cbn [app length] in E |- *.
  change (Z.of_nat 0 + 1) with 1 in E. rewrite E; [done|rewrite length_app; cbn [length]; lia|apply not_elem_of_nil|done..].
Qed.

(** A name that [ls] shows in full. *)
Definition shown (name : list byte) : Prop := ∃ c w, name = c :: w ∧ digit c = false.
(** The names, with spaces where the inode numbers are. *)
Definition names_text (es : list (list byte * Z)) : list byte := es ≫= λ e, e.1 ++ replicate 5 sp.

Lemma blank_word w rest : sp ∉ w → blank false (w ++ sp :: rest) = w ++ sp :: blank true rest.
Proof.
  induction w as [|c w IH]; intros Hw; [done|]. apply not_elem_of_cons in Hw as [Hc Hw]. cbn [app blank andb].
  rewrite bool_decide_eq_false_2 by done. by rewrite IH.
Qed.

Lemma blank_number w rest : is_number w = true →
  blank true (w ++ sp :: rest) = replicate (length w) sp ++ sp :: blank true rest.
Proof.
  induction w as [|c w IH]; intros Hw; [done|]. unfold is_number in *. cbn [forallb] in Hw.
  apply andb_true_iff in Hw as [Hc Hw]. cbn [app blank length replicate]. rewrite Hc. cbn [andb].
  by rewrite IH.
Qed.

Lemma blank_spaces n rest : blank true (replicate n sp ++ rest) = replicate n sp ++ blank true rest.
Proof. induction n as [|n IH]; [done|]. cbn [replicate app blank]. by rewrite <-IH. Qed.

Lemma blank_entry e rest b :
  entry_ok e → shown e.1 → blank b (render_entry e ++ rest) = e.1 ++ replicate 5 sp ++ blank true rest.
Proof.
  destruct e as [name n]. intros [(_ & Hsp & _) Hn] (c & w & Hcw & Hc). cbn [fst snd] in *. subst name.
  destruct (dec_spec n Hn) as (Hd & _ & Hne & Hl). apply not_elem_of_cons in Hsp as [Hcs Hw].
  assert (E4 : dec4 n = sp :: replicate (3 - length (dec n)) sp ++ dec n).
  { unfold dec4. by replace (4 - length (dec n))%nat with (S (3 - length (dec n))) by lia. }
  assert (H1 : length (dec n) ≠ 0%nat) by (by destruct (dec n)).
  unfold render_entry. cbn [fst snd]. rewrite E4, <-!(assoc_L app). cbn [app blank]. rewrite Hc, andb_false_r.
  rewrite bool_decide_eq_false_2 by done. rewrite <-!(assoc_L app). rewrite blank_word by done. cbn [app].
  rewrite blank_spaces, blank_number by done. do 2 f_equal. rewrite (assoc_L app (replicate _ _)).
  rewrite <-replicate_add. replace (3 - length (dec n) + length (dec n))%nat with 3%nat by lia. done.
Qed.

Lemma blank_render es : ∀ b,
  Forall entry_ok es → Forall (λ x, shown x.1) es → blank b (render es) = names_text es.
Proof.
  induction es as [|e es IH]; intros b Hok Hs; [done|]. apply Forall_cons in Hok as [H1 H2].
  apply Forall_cons in Hs as [H3 H4]. unfold render, names_text in *. rewrite !bind_cons, blank_entry by done.
  rewrite IH by done. by rewrite (assoc_L app).
Qed.

Section apps.
Context {D : Type} (junk : list byte) (fs : inode_store D) (inv : D → Prop) (F : files).
Context `{!FileStore fs inv F} (writes : string → list Z → list (Z * Z)) (c : Z).
Hypothesis Hjunk : (nbytes ≤ length junk)%nat.
Hypothesis Hdir : c ≠ GPID_DIR.
Hypothesis Hfile : c ≠ GPID_FILE.
Local Abbreviation sfs := (session_fs fs).
Local Abbreviation does := (does junk sfs c).
Local Abbreviation becomes := (becomes junk sfs c).
Implicit Types e : environ.

Lemma does_get_env {A} (f : environ → A) e :
  does (within inv e) (get_env f) 0 0 (λ a s, a = f e ∧ within inv e s).
Proof using Type. apply does_act. intros s [Hs <-]. by apply returns_gets. Qed.

Lemma does_set_env (f : environ → environ) e :
  does (within inv e) (set_env f) 0 0 (λ _ s, within inv (f e) s).
Proof using Type. apply does_act. intros s [Hs <-]. by apply returns_modify. Qed.

(** The first block of a file. *)
Lemma does_block e ino f b :
  0 ≤ ino < 2 ^ 31 → F !! Z.to_nat ino = Some f → f !! 0%nat = Some b →
  does (within inv e) (file_read junk ino 0) 0 1 (λ r s, r = (0, b) ∧ within inv e s).
Proof using Hjunk Hdir Hfile FileStore0.
  intros Hi Hf Hb. eapply does_mono; [by eapply (does_file_read _ _ _ Hjunk Hdir Hfile (within inv e) F)|done|].
  intros r s [Hs (buf & ->)]. split; [|done]. rewrite !u32_small by (unfold is_u32; lia).
  unfold spec_read. rewrite Hf. change (Z.to_nat 0) with 0%nat. by rewrite Hb.
Qed.

(** Pure steps: the pieces of the code around calls. *)
Lemma becomes_ret_bind {A B} (P : session D → Prop) (a : A) (f : A → U (session D) B) kd kf R :
  becomes P (f a) kd kf R → becomes P (mret a ≫= f) kd kf R.
Proof using Type. clear Hjunk. intros H. exact H. Qed.

(** ** ls *)

Definition shows (line : string) (s : list byte) : U (session D) Z :=
  _ ← print writes line (byte.unsigned <$> s); mret 0.

Lemma cstring_text (t pad : list byte) : nul ∉ t → cstring (D := session D) (t ++ nul :: pad) 0 = mret t.
Proof using Type. clear Hjunk. intros Ht. unfold cstring. by rewrite drop_0, find_nul_text, take_app_length. Qed.

Lemma ls_becomes e es :
  directory F (workdir_ino e) es → Forall (λ x, shown x.1) es →
  becomes (within inv e) (ls junk writes 1) 0 1
    (λ u s, u = shows "%s\r\n" (names_text es) ∧ within inv e s).
Proof using All.
  intros [I1 I2 I3 I4] Hs. unfold ls. change (1 <? 1) with false. cbv iota.
  assert (Ht : nul ∉ render es) by (by apply render_no_nul).
  apply (becomes_bind _ _ _ _ _ _ 0 0 0 1 (λ a s, a = workdir_ino e ∧ within inv e s)); [apply does_get_env|].
  intros a. eapply becomes_bind with (kd := 0%nat) (kf := 1%nat) (kd' := 0%nat) (kf' := 0%nat)
    (Q := λ r s, r = (0, dir_block es) ∧ within inv e s).
  { intros C nd nf sc dsc fsc T mb d HC Hc [-> Hd]. by eapply does_block. }
  intros [rc buf]. eapply becomes_bind with (kd := 0%nat) (kf := 0%nat) (kd' := 0%nat) (kf' := 0%nat)
    (Q := λ b s, (∃ pad, b = names_text es ++ nul :: pad) ∧ within inv e s).
  { apply does_act. intros s [[= -> ->] Hd]. unfold dir_block.
    replace (nbytes - length (render es))%nat with (S (nbytes - length (render es) - 1)) by lia.
    cbn [replicate]. eexists _, s. split; [by apply ls_loop_text|]. split; [|done]. rewrite blank_render by done.
    by eexists. }
  intros b C nd nf sc dsc fsc T mb d HC Hc [(pad & ->) Hd].
  rewrite cstring_text by (rewrite <-(blank_render es false) by done; by apply blank_nul).
  by apply (becomes_ret_bind (within inv e) _ _ 0 0 _ (becomes_here _ _ _ _ _)).
Qed.
End apps.

(** ** Paths *)

(** The working directory as the names on the way from the root. *)
Definition path_bytes (p : list (list byte)) : list byte :=
  match p with [] => [slash] | _ => p ≫= λ n, slash :: n end.
Definition ok_name (n : list byte) : Prop := n ≠ [] ∧ nul ∉ n ∧ slash ∉ n.
Definition holds_path (buf : list byte) (p : list (list byte)) : Prop :=
  Forall ok_name p ∧ length buf = 128%nat ∧ ∃ pad, buf = path_bytes p ++ nul :: pad.

Lemma path_bytes_snoc p n : path_bytes (p ++ [n]) = (p ≫= λ n, slash :: n) ++ slash :: n.
Proof.
  destruct p as [|m p]; cbn [app path_bytes]; [by rewrite bind_cons, app_nil_r|].
  rewrite !bind_cons, bind_app, bind_cons. cbn [mbind list_bind]. rewrite app_nil_r. cbn [app].
  by rewrite <-(assoc_L app).
Qed.

Lemma path_bytes_bind p : p ≠ [] → path_bytes p = p ≫= λ n, slash :: n.
Proof. by destruct p. Qed.

Lemma path_no_nul p : Forall ok_name p → nul ∉ path_bytes p.
Proof.
  intros Hp. destruct p as [|n p]; [apply not_elem_of_cons; split; [done|apply not_elem_of_nil]|].
  rewrite path_bytes_bind by done. intros Hin. apply list_elem_of_bind in Hin as (m & Hm & Hin).
  rewrite Forall_forall in Hp. destruct (Hp m Hin) as (_ & Hn & _).
  apply elem_of_cons in Hm as [Hm|Hm]; done.
Qed.

Lemma path_length p : Forall ok_name p → (1 <? Z.of_nat (length (path_bytes p))) = bool_decide (p ≠ []).
Proof.
  intros Hp. destruct p as [|n p]; [done|]. rewrite bool_decide_eq_true_2 by done. apply Z.ltb_lt.
  apply Forall_cons in Hp as [(Hn & _) _]. rewrite path_bytes_bind, bind_cons by done.
  destruct n; [done|]. cbn [app length]. lia.
Qed.

Section paths.
Context {D : Type}.
Implicit Types s : session D.

Lemma strcat_eq (t pad x : list byte) s :
  nul ∉ t → (length x ≤ length pad)%nat →
  strcat (t ++ nul :: pad) x s = Ret (t ++ x ++ nul :: drop (length x) pad) s.
Proof.
  intros Ht Hx. unfold strcat. rewrite find_nul_text by done. rewrite length_app. cbn [length].
  rewrite (proj2 (Nat.ltb_lt _ _)) by lia. unfold mret, M_ret. f_equal. unfold overwrite.
  rewrite take_app_length, length_app, drop_app_add. cbn [length].
  rewrite Nat.add_1_r. cbn [drop]. by rewrite <-(assoc_L app).
Qed.

Lemma path_down_spec buf p n s :
  holds_path buf p → ok_name n → (length (path_bytes (p ++ [n])) < 128)%nat →
  returns (path_down buf (n ++ [slash]) (Z.of_nat (length (path_bytes p)))) s (λ buf' s', s' = s ∧
    holds_path buf' (p ++ [n])).
Proof.
  intros (Hp & Hl & pad & ->) Hn Hlen. rewrite path_bytes_snoc, length_app in Hlen. cbn [length] in Hlen.
  rewrite length_app in Hl. cbn [length] in Hl. unfold path_down, strncat.
  replace (take (Z.to_nat (Z.of_nat (length (n ++ [slash])) - 1)) (n ++ [slash])) with n
    by (rewrite length_app; cbn [length]; rewrite take_app_length' by lia; done).
  pose proof (path_no_nul p Hp) as Hnn. rewrite path_length by done.
  assert (Hok : Forall ok_name (p ++ [n])) by (apply Forall_app; split; [done|by apply Forall_singleton]).
  destruct p as [|m p].
  - rewrite bool_decide_eq_false_2 by (intros H; by apply H). cbn [path_bytes app length] in *.
    eexists _, s. split; [unfold mbind, M_bind, mret, M_ret; apply (strcat_eq [slash]); [done|lia]|].
    split; [done|]. split; [done|]. cbn [path_bytes]. rewrite bind_cons. cbn [mbind list_bind]. rewrite app_nil_r.
    split; [|by eexists]. rewrite !length_app. cbn [length]. rewrite length_drop. lia.
  - rewrite bool_decide_eq_true_2 by done. rewrite path_bytes_bind in * by done.
    set (t := (m :: p) ≫= _) in *.
    assert (Ec : strcat (t ++ nul :: pad) [slash] s = Ret ((t ++ [slash]) ++ nul :: drop 1 pad) s).
    { rewrite strcat_eq by (done || cbn [length]; lia). by rewrite <-(assoc_L app). }
    eexists _, s. split; [rewrite (bind_ret_eq _ _ _ _ _ Ec); apply strcat_eq|].
    + rewrite not_elem_of_app. split; [done|]. apply not_elem_of_cons. split; [done|apply not_elem_of_nil].
    + rewrite length_drop. lia.
    + split; [done|]. split; [done|]. rewrite path_bytes_snoc. fold t. split.
      * rewrite !length_app. cbn [length]. rewrite !length_drop. lia.
      * eexists. rewrite <-!(assoc_L app). reflexivity.
Qed.

(** From the null byte back to the last slash. *)
Lemma up_loop_spec n : ∀ (t w pad : list byte) s,
  slash ∉ w → (length w < n)%nat →
  up_loop n (t ++ slash :: w ++ pad) (Z.of_nat (length t + length w)) s =
    Ret (t ++ slash :: replicate (length w) nul ++ pad, Z.of_nat (length t)) s.
Proof.
  induction n as [|n IH]; intros t w pad s Hw Hn; [lia|]. cbn [up_loop].
  destruct (decide (w = [])) as [->|Hne].
  - cbn [length app replicate]. rewrite Nat.add_0_r.
    assert (E : arr_get (t ++ slash :: pad) (Z.of_nat (length t)) s = Ret slash s).
    { rewrite arr_get_eq by (rewrite length_app; cbn [length]; lia).
      by rewrite Nat2Z.id, lookup_total_app_r, Nat.sub_diag by lia. }
    mrun E. done.
  - destruct (exists_last Hne) as (w' & c & ->). rewrite length_app in Hn |- *. cbn [length] in Hn |- *.
    rewrite not_elem_of_app, not_elem_of_cons in Hw. destruct Hw as (Hw & Hc & _).
    assert (El : t ++ slash :: (w' ++ [c]) ++ pad = (t ++ slash :: w') ++ c :: pad).
    { rewrite <-!(assoc_L app). done. }
    assert (Hi : Z.of_nat (length t + (length w' + 1)) = Z.of_nat (length (t ++ slash :: w'))).
    { rewrite length_app. cbn [length]. lia. }
    rewrite El, Hi.
    assert (E : arr_get ((t ++ slash :: w') ++ c :: pad) (Z.of_nat (length (t ++ slash :: w'))) s = Ret c s).
    { rewrite arr_get_eq by (rewrite (length_app (t ++ _)); cbn [length]; lia).
      by rewrite Nat2Z.id, lookup_total_app_r, Nat.sub_diag by lia. }
    mrun E. rewrite decide_False by done.
    assert (E2 : arr_set ((t ++ slash :: w') ++ c :: pad) (Z.of_nat (length (t ++ slash :: w'))) nul s =
      Ret ((t ++ slash :: w') ++ nul :: pad) s).
    { rewrite arr_set_eq by (rewrite (length_app (t ++ _)); cbn [length]; lia). rewrite Nat2Z.id.
      rewrite <-(Nat.add_0_r (length (t ++ _))). by rewrite insert_app_r. }
    mrun E2. specialize (IH t w' (nul :: pad) s Hw ltac:(lia)).
    rewrite <-(assoc_L app t). cbn [app].
    replace (Z.of_nat (length (t ++ slash :: w')) - 1) with (Z.of_nat (length t + length w'))
      by (rewrite length_app; cbn [length]; lia).
    rewrite IH. do 3 f_equal. rewrite Nat.add_1_r, replicate_S_end, <-(assoc_L app). done.
Qed.

Lemma path_up_spec buf p s :
  holds_path buf p →
  returns (path_up buf (Z.of_nat (length (path_bytes p)))) s (λ buf' s', s' = s ∧ holds_path buf' (removelast p)).
Proof.
  intros (Hp & Hl & pad & ->). rewrite length_app in Hl. cbn [length] in Hl.
  assert (Hq : Forall ok_name (removelast p)).
  { destruct (decide (p = [])) as [->|Hne]; [done|]. destruct (exists_last Hne) as (q & n & ->).
    rewrite removelast_last. by apply Forall_app in Hp as [? _]. }
  assert (Hsplit : ∃ t w, path_bytes p = t ++ slash :: w ∧ slash ∉ w ∧
    (t = [] ∧ removelast p = [] ∨ t ≠ [] ∧ path_bytes (removelast p) = t)).
  { destruct (decide (p = [])) as [->|Hne]; [exists [], []; split; [done|]; split; [apply not_elem_of_nil|by left]|].
    destruct (exists_last Hne) as (q & n & ->). rewrite path_bytes_snoc, removelast_last.
    exists (q ≫= λ n, slash :: n), n. split; [done|]. apply Forall_app in Hp as [_ Hn].
    apply Forall_singleton in Hn as (_ & _ & Hn). split; [done|]. destruct q as [|m q]; [by left|right].
    split; [by rewrite bind_cons|]. by apply path_bytes_bind. }
  destruct Hsplit as (t & w & E & Hw & Ht). rewrite E in Hl |- *. rewrite length_app in Hl |- *. cbn [length] in Hl |- *.
  unfold path_up.
  pose proof (up_loop_spec (Z.to_nat (Z.of_nat (length t + S (length w))) + 1) t (w ++ [nul]) pad s) as Eu.
  rewrite length_app in Eu. cbn [length] in Eu. rewrite Nat.add_1_r, <-!(assoc_L app) in Eu. cbn [app] in Eu.
  rewrite <-!(assoc_L app). cbn [app].
  eapply returns_bind. eexists _, s. split.
  { apply Eu; [|lia]. rewrite not_elem_of_app. split; [done|]. apply not_elem_of_cons. split; [done|apply not_elem_of_nil]. }
  cbv beta iota. destruct Ht as [[-> Hr]|[Ht Hr]]; rewrite ?Hr in *.
  - cbn [length app]. apply returns_ret. split; [done|]. split; [done|]. split; [|by eexists].
    cbn [length app]. rewrite length_app, length_replicate. cbn [length app] in Hl. lia.
  - destruct (Z.eqb_spec (Z.of_nat (length t)) 0) as [E0|_]; [by destruct t|]. cbn [negb].
    eexists _, s. split; [apply arr_set_eq; rewrite length_app; cbn [length]; lia|]. split; [done|].
    split; [done|]. rewrite Nat2Z.id. rewrite <-(Nat.add_0_r (length t)), insert_app_r. cbn [insert list_insert].
    split; [rewrite length_app; cbn [length]; rewrite length_app, length_replicate; lia|].
    rewrite Hr. by eexists.
Qed.
End paths.
