(* ===== verification/AppsThms.v ===== *)
(** * What the applications do

    [ls] shows the names of the working directory, [cat] the text of a file, and
    [cd] keeps the working directory and its path together. *)

From stdpp Require Import relations.
From coqutil Require Import Byte.
From S2P Require Import Prelude Layout Blocks Store FileSystem Earth Dir Kernel KernelInv User Servers Net.
From S2P Require Import ServersCorrect SysProcCorrect SpawnCorrect SpawnThms Mkfs Apps AppsCorrect.

(** ** The tree of directories *)

Definition dirs_t : Type := gmap Z (list (list byte * Z)).

(** The directory that a path leads to, from the root (inode 0). *)
Definition enter (dirs : dirs_t) (ino : Z) (n : list byte) : option Z :=
  es ← dirs !! ino;
  let i := entry_ino es (n ++ [slash]) in
  if i =? -1 then None else Some i.
Definition resolve (dirs : dirs_t) (p : list (list byte)) : option Z :=
  foldl (λ o n, ino ← o; enter dirs ino n) (Some 0) p.

Definition plain (n : list byte) : Prop := ok_name n ∧ n ≠ chars "." ∧ n ≠ chars "..".

#[export] Instance ok_name_dec n : Decision (ok_name n).
Proof. unfold ok_name. apply _. Defined.
#[export] Instance plain_dec n : Decision (plain n).
Proof. unfold plain. apply _. Defined.

(** The directories of the file system, with their entries for themselves and for
    the directory above. *)
Record tree (F : files) (dirs : dirs_t) : Prop := {
  tr_dir ino es : dirs !! ino = Some es → directory F ino es;
  tr_self ino es : dirs !! ino = Some es → entry_ino es (chars "./") = ino;
  tr_root es : dirs !! 0 = Some es → entry_ino es (chars "../") = 0;
  tr_up i es n j es' : dirs !! i = Some es → plain n → entry_ino es (n ++ [slash]) = j → j ≠ -1 →
    dirs !! j = Some es' → entry_ino es' (chars "../") = i;
}.

(** [grass->workdir] is the path [p], and [grass->workdir_ino] its inode. *)
Record at_path (dirs : dirs_t) (e : environ) (p : list (list byte)) : Prop := {
  ap_text : holds_path (workdir e) p;
  ap_plain : Forall plain p;
  ap_ino : resolve dirs p = Some (workdir_ino e);
}.

(** Where [cd name] goes. *)
Definition go (p : list (list byte)) (name : list byte) : list (list byte) :=
  if decide (name = chars ".") then p
  else if decide (name = chars "..") then removelast p else p ++ [name].

Lemma resolve_snoc dirs p n : resolve dirs (p ++ [n]) = (ino ← resolve dirs p; enter dirs ino n).
Proof. unfold resolve. by rewrite foldl_app. Qed.

Lemma go_plain p name : Forall plain p → ok_name name → Forall plain (go p name).
Proof.
  intros Hp Hn. unfold go. case_decide; [done|]. case_decide.
  - destruct (decide (p = [])) as [->|Hne]; [done|]. destruct (exists_last Hne) as (q & n & ->).
    rewrite removelast_last. by apply Forall_app in Hp as [? _].
  - apply Forall_app. split; [done|]. by apply Forall_singleton.
Qed.

Lemma go_resolves F dirs p name ino es :
  tree F dirs → Forall plain p → resolve dirs p = Some ino → dirs !! ino = Some es →
  entry_ino es (name ++ [slash]) ≠ -1 →
  resolve dirs (go p name) = Some (entry_ino es (name ++ [slash])).
Proof.
  intros [H1 H2 H3 H4] Hp Hr Hd Hi. unfold go. case_decide as E1; [|case_decide as E2].
  - subst name. rewrite Hr. f_equal. symmetry. by apply (H2 ino).
  - subst name. destruct (decide (p = [])) as [->|Hne].
    + injection Hr as <-. change (resolve dirs (removelast [])) with (Some 0). f_equal. symmetry. by apply (H3 es).
    + destruct (exists_last Hne) as (q & n & ->). rewrite removelast_last. rewrite resolve_snoc in Hr.
      apply Forall_app in Hp as [_ Hn]. apply Forall_cons in Hn as [Hn _].
      destruct (resolve dirs q) as [i|]; [|done]. cbn [mbind option_bind] in Hr. unfold enter in Hr.
      destruct (dirs !! i) as [es0|] eqn:E0; [|done]. cbn [mbind option_bind] in Hr.
      destruct (Z.eqb_spec (entry_ino es0 (n ++ [slash])) (-1)) as [|Hj]; [done|]. injection Hr as Hr.
      f_equal. symmetry. apply (H4 i es0 n ino es); [done..| |done]. congruence.
  - rewrite resolve_snoc, Hr. cbn [mbind option_bind]. unfold enter. rewrite Hd. cbn [mbind option_bind].
    by rewrite (proj2 (Z.eqb_neq _ _)).
Qed.

Section apps.
Context {D : Type} (junk : list byte) (fs : inode_store D) (inv : D → Prop) (F : files).
Context `{!FileStore fs inv F} (writes : string → list Z → list (Z * Z)) (c : Z).
Hypothesis Hjunk : (nbytes ≤ length junk)%nat.
Hypothesis Hdir : c ≠ GPID_DIR.
Hypothesis Hfile : c ≠ GPID_FILE.
Local Abbreviation sfs := (session_fs fs).
Local Abbreviation becomes := (becomes junk sfs c).

(** ** cd *)

(** The code that is left when the lookup was made. *)
Definition cd_left (found : bool) (dir : list byte) : U (session D) Z :=
  if found then mret 0
  else _ ← print writes "cd: directory %s not found" (byte.unsigned <$> dir); mret (-1).

(** The change of the path. *)
Lemma cd_path e p name ino (dir := name ++ [slash]) :
  holds_path (workdir e) p → ok_name name → (length (path_bytes (p ++ [name])) < 128)%nat →
  does junk sfs c (within inv (set_ino ino e))
    (if decide (dir = chars "./") then mret 0
     else
       buf ← get_env workdir;
       len ← act (strlen buf);
       buf ← act (if decide (dir = chars "../") then path_up buf len else path_down buf dir len);
       _ ← set_env (set_workdir buf);
       mret 0) 0 0
    (λ r s, r = 0 ∧ ∃ buf, within inv (Environ ino buf) s ∧ holds_path buf (go p name)).
Proof.
  intros Hb Hn Hlen. unfold dir.
  assert (Hs : ∀ x, name ++ [slash] = x ++ [slash] ↔ name = x).
  { intros x. split; [by intros [? _]%app_inj_tail|by intros ->]. }
  unfold go. change (chars "./") with (chars "." ++ [slash]). change (chars "../") with (chars ".." ++ [slash]).
  destruct (decide (name ++ [slash] = chars "." ++ [slash])) as [E1|E1]; rewrite Hs in E1.
  { rewrite decide_True by done. apply does_ret. intros s Hs'. split; [done|]. exists (workdir e). by split. }
  rewrite (decide_False (P := name = chars ".")) by done.
  eapply (does_bind _ _ _ _ _ _ 0 0 0 0); [apply does_get_env|]. intros buf.
  eapply (does_bind _ _ _ _ _ _ 0 0 0 0) with (Q := λ len s,
    (buf = workdir e ∧ len = Z.of_nat (length (path_bytes p))) ∧ within inv (set_ino ino e) s).
  { apply does_act. intros s [-> Hs']. cbn [set_ino workdir]. destruct Hb as (Hp & _ & pad & ->).
    eexists _, s. split; [|done]. unfold strlen. by rewrite find_nul_text by (by apply path_no_nul). }
  intros len. eapply (does_bind _ _ _ _ _ _ 0 0 0 0) with (Q := λ buf s,
    holds_path buf (if decide (name = chars "..") then removelast p else p ++ [name]) ∧
    within inv (set_ino ino e) s).
  { apply does_act. intros s [[-> ->] Hs'].
    destruct (decide (name ++ [slash] = chars ".." ++ [slash])) as [E2|E2]; rewrite Hs in E2.
    - rewrite decide_True by done. eapply returns_mono; [by apply path_up_spec|]. by intros buf' s' [-> H].
    - rewrite decide_False by done. eapply returns_mono; [by apply path_down_spec|]. by intros buf' s' [-> H]. }
  intros buf'. eapply (does_bind _ _ _ _ _ _ 0 0 0 0) with (Q := λ _ s,
    within inv (Environ ino buf') s ∧ holds_path buf' (if decide (name = chars "..") then removelast p else p ++ [name])).
  { intros C nd nf sc dsc fsc T mb s HC Hc [H1 H2].
    destruct (does_set_env junk fs inv c (set_workdir buf') (set_ino ino e) C nd nf sc dsc fsc T mb s HC Hc H2)
      as (sc' & dsc' & fsc' & mb' & a & s' & L & R & Q). exists sc', dsc', fsc', mb', a, s'. by split_and!. }
  intros _. apply does_ret. intros s [H1 H2]. split; [done|]. by exists buf'.
Qed.

Lemma slash_not_number name : is_number (name ++ [slash]) = false.
Proof using Type. unfold is_number. rewrite forallb_app. by rewrite andb_false_r. Qed.

Lemma cd_becomes dirs e p name cmd es (dir := name ++ [slash]) (i := entry_ino es dir) :
  tree F dirs → at_path dirs e p → dirs !! workdir_ino e = Some es → findable es dir → ok_name name →
  (length (path_bytes (p ++ [name])) < 128)%nat →
  becomes (within inv e) (cd junk writes 2 [cmd; name]) 1 1 (λ u s,
    inv (disk s) ∧ u = cd_left (negb (i =? -1)) dir ∧
    if i =? -1 then env s = e else at_path dirs (env s) (go p name)).
Proof using All.
  intros Ht [A1 A2 A3] Hes Hf Hn Hlen. unfold cd. change (2 =? 1) with false. cbv iota.
  pose proof (fd_short _ _ Hf) as Hsh. unfold dir in Hsh. rewrite length_app in Hsh. cbn [length] in Hsh.
  apply becomes_ret_bind. rewrite (proj2 (Z.ltb_lt _ _)) by (change CMD_ARG_LEN with 32; lia).
  apply becomes_ret_bind. fold dir.
  eapply (becomes_bind _ _ _ _ _ _ 0 0 1 1); [apply (does_get_env junk fs inv c)|]. intros ino.
  eapply (becomes_bind _ _ _ _ _ _ 1 1 0 0) with (Q := λ r s, r = i ∧ within inv e s).
  { intros C nd nf sc dsc fsc T mb s HC Hc [-> Hs].
    unfold i. rewrite <-(lookup_ino_name es dir) by (apply slash_not_number || apply (tr_dir _ _ Ht _ _ Hes)).
    by apply (does_lookup junk sfs c Hjunk Hdir Hfile (within inv e) F _ dir es (tr_dir _ _ Ht _ _ Hes) Hf). }
  intros r C nd nf sc dsc fsc T mb s HC Hc [-> Hs]. unfold i in *.
  destruct (Z.eqb_spec (entry_ino es dir) (-1)) as [Ei|Ei]; cbn [negb].
  - exists sc, dsc, fsc, mb, (cd_left false dir), s. split; [constructor|]. split; [done|]. destruct Hs. by split_and!.
  - pose proof (does_set_env junk fs inv c (set_ino (entry_ino es dir)) e) as H1.
    pose proof (does_bind junk sfs c _ _ (λ _, _) 0 0 0 0 _ _ H1 (λ _, cd_path e p name (entry_ino es dir) A1 Hn Hlen)) as H2.
    destruct (H2 C nd nf sc dsc fsc T mb s HC Hc Hs) as (sc' & dsc' & fsc' & mb' & a & s' & L & R & -> & buf & [Hd He] & Hp).
    exists sc', dsc', fsc', mb', (cd_left true dir), s'. split; [exact L|]. split; [done|]. split; [done|]. split; [done|].
    rewrite He. split; [exact Hp| |by apply (go_resolves F dirs p name (workdir_ino e) es)].
    by apply go_plain.
Qed.

(** ** cat *)

(** The text is shown, with the end of the line if it lacks one. *)
Definition cat_shows (t : list byte) (last : byte) : U (session D) Z :=
  _ ← print writes "%s" (byte.unsigned <$> t);
  c ← act (mret last);
  _ ← (if decide (c = Byte.x0a) then mret tt else print writes "\r\n" []);
  mret 0.
Definition cat_left (found : bool) (name t : list byte) (last : byte) : U (session D) Z :=
  if found then cat_shows t last
  else _ ← print writes "cat: file %s not found" (byte.unsigned <$> name); mret (-1).

Lemma cat_print_eq (t pad : list byte) last :
  nul ∉ t ++ [last] → (length (t ++ [last]) < nbytes)%nat →
  cat_print writes ((t ++ [last]) ++ nul :: pad) = cat_shows (t ++ [last]) last.
Proof using Type.
  clear Hjunk. intros Ht Hl. unfold cat_print, cat_shows. rewrite cstring_text by done.
  assert (E : arr_get (S := session D) ((t ++ [last]) ++ nul :: pad) (u32 (Z.of_nat (length (t ++ [last])) - 1)) = mret last).
  { rewrite length_app in *. cbn [length] in *. unfold nbytes in Hl. change BLOCK_SIZE with 512 in Hl.
    rewrite u32_small by (unfold is_u32; lia). unfold arr_get. rewrite (proj2 (Z.ltb_ge _ _)) by lia.
    replace (Z.to_nat (Z.of_nat (length t + 1) - 1)) with (length t) by lia.
    rewrite <-(assoc_L app), lookup_app_r, Nat.sub_diag by lia. reflexivity. }
  match goal with |- mbind ?f (mret ?x) = _ => change (mbind f (mret x)) with (f x) end. cbv beta.
  rewrite E. reflexivity.
Qed.

Lemma cat_becomes e es name cmd f (t : list byte) last pad (i := lookup_ino es name) :
  directory F (workdir_ino e) es → findable es name →
  (0 ≤ i → F !! Z.to_nat i = Some f ∧ f !! 0%nat = Some ((t ++ [last]) ++ nul :: pad)) →
  nul ∉ t ++ [last] → (length (t ++ [last]) < nbytes)%nat →
  becomes (within inv e) (cat junk writes 2 [cmd; name]) 1 (if i <? 0 then 1%nat else 2%nat)
    (λ u s, u = cat_left (negb (i <? 0)) name (t ++ [last]) last ∧ within inv e s).
Proof using All.
  intros Hd Hn Hi Ht Hl. unfold cat. change (2 =? 1) with false. cbv iota.
  eapply (becomes_bind _ _ _ _ _ _ 0 0 1 _); [apply (does_get_env junk fs inv c)|]. intros ino.
  apply becomes_ret_bind.
  assert (Hk : (if i <? 0 then 1%nat else 2%nat) = (1 + if (i <? 0)%Z then 0 else 1)%nat) by (by destruct (i <? 0)).
  rewrite Hk. eapply (becomes_bind _ _ _ _ _ _ 1 1 0 _) with (Q := λ r s, r = i ∧ within inv e s).
  { intros C nd nf sc dsc fsc T mb s HC Hc [-> Hs].
    by apply (does_lookup junk sfs c Hjunk Hdir Hfile (within inv e) F _ name es Hd Hn). }
  intros r C nd nf sc dsc fsc T mb s HC Hc [-> Hs].
  pose proof (lookup_ino_range es name (dr_entries _ _ _ Hd)) as Hr. fold i in Hr.
  destruct (Z.ltb_spec i 0) as [Hneg|Hpos]; cbn [negb].
  - exists sc, dsc, fsc, mb, (cat_left false name (t ++ [last]) last), s. split; [constructor|]. by split_and!.
  - destruct (Hi Hpos) as [Hf Hb].
    pose proof (does_block junk fs inv F c Hjunk Hdir Hfile e i f _ ltac:(unfold is_s32 in Hr; lia) Hf Hb) as H1.
    eapply (becomes_bind junk sfs c _ _ (λ r, let '(_, buf) := r in cat_print writes buf) 0 1 0 0 _
      (λ u s, u = cat_left true name (t ++ [last]) last ∧ within inv e s) H1); [|done..].
    intros [rc buf] C' nd' nf' sc' dsc' fsc' T' mb' s' HC' Hc' [[= -> ->] Hs']. rewrite cat_print_eq by done.
    exists sc', dsc', fsc', mb', (cat_left true name (t ++ [last]) last), s'. split; [constructor|]. by split.
Qed.
End apps.

(** C20: [ls] shows the names.  Process [c] runs [ls] with the servers waiting and
    nobody else at work.  Whatever the scheduler does, it gets to print the
    directory with spaces in place of the inode numbers: each name of the
    directory in full, in order, followed by five spaces.  No name may start with a
    digit; the working directory and the files stay as they were. *)
Theorem ls_shows {D} (junk : list byte) (fs : inode_store D) (inv : D → Prop) (F : files)
    `{!FileStore fs inv F} (writes : string → list Z → list (Z * Z)) (c : Z) (e : environ)
    (es : list (list byte * Z)) (K : Z → U (session D) unit) (nd nf : nat) (sc dsc fsc : syscall)
    (T : gmap Z (prog (session D) (unit * syscall))) (mb : kernel_msg) (d : D) :
  (nbytes ≤ length junk)%nat → c ≠ GPID_DIR → c ≠ GPID_FILE → calm c sc dsc fsc mb T → inv d →
  directory F (workdir_ino e) es → Forall (λ x, shown x.1) es →
  ∃ sc' dsc' fsc' mb' d', inv d' ∧ calm c sc' dsc' fsc' mb' T ∧
    let start := Net (place junk (session_fs fs) c ((ls junk writes 1 ≫= K) sc) nd dsc (S nf) fsc T) mb
                   (Session e d) in
    let goal := Net (place junk (session_fs fs) c ((shows writes "%s\r\n" (names_text es) ≫= K) sc')
                   nd dsc' nf fsc' T) mb' (Session e d') in
    ∀ n2, rtc step start n2 → rtc step n2 goal ∨ rtc step goal n2.
Proof.
  intros Hj H1 H2 Hc Hd Hes Hs.
  destruct (becomes_leads junk (session_fs fs) c _ _ 0 1 _ K nd nf sc dsc fsc T mb (Session e d)
    (ls_becomes junk fs inv F writes c Hj H1 H2 e es Hes Hs) Hc)
    as (sc' & dsc' & fsc' & mb' & u & [e' d'] & [-> [Hd' He]] & Hc' & L); [done|].
  cbn [env disk] in *. subst e'. exists sc', dsc', fsc', mb', d'. split; [done|]. split; [done|]. exact L.
Qed.

(** C21: [cat] shows the text of a file.  For a name of the working directory whose
    file starts with a text (of at least one character, shorter than a block),
    process [c] gets to print exactly that text, and a line end if the text does
    not have one; for a name that the search does not find, because it is neither
    that of an entry nor the inode number of one, it gets to print that it is not
    found.  A name that is an inode number is found, and the file shown is that
    of the inode the search gives ([lookup_ino]), not one of that name.  The name
    has less than 32 characters and is not longer than the text of the
    directory. *)
Theorem cat_shows_file {D} (junk : list byte) (fs : inode_store D) (inv : D → Prop) (F : files)
    `{!FileStore fs inv F} (writes : string → list Z → list (Z * Z)) (c : Z) (e : environ)
    (es : list (list byte * Z)) (cmd name t pad : list byte) (last : byte) (f : file)
    (K : Z → U (session D) unit) (nd nf : nat) (sc dsc fsc : syscall)
    (T : gmap Z (prog (session D) (unit * syscall))) (mb : kernel_msg) (d : D) :
  let ino := lookup_ino es name in
  let kf := if ino <? 0 then 1%nat else 2%nat in
  (nbytes ≤ length junk)%nat → c ≠ GPID_DIR → c ≠ GPID_FILE → calm c sc dsc fsc mb T → inv d →
  directory F (workdir_ino e) es → findable es name →
  (0 ≤ ino → F !! Z.to_nat ino = Some f ∧ f !! 0%nat = Some ((t ++ [last]) ++ nul :: pad)) →
  nul ∉ t ++ [last] → (length (t ++ [last]) < nbytes)%nat →
  ∃ sc' dsc' fsc' mb' d', inv d' ∧ calm c sc' dsc' fsc' mb' T ∧
    let start := Net (place junk (session_fs fs) c ((cat junk writes 2 [cmd; name] ≫= K) sc)
                   (S nd) dsc (kf + nf) fsc T) mb (Session e d) in
    let goal := Net (place junk (session_fs fs) c
                   ((cat_left writes (negb (ino <? 0)) name (t ++ [last]) last ≫= K) sc')
                   nd dsc' nf fsc' T) mb' (Session e d') in
    ∀ n2, rtc step start n2 → rtc step n2 goal ∨ rtc step goal n2.
Proof.
  intros ino kf Hj H1 H2 Hc Hd Hes Hn Hf Ht Hl.
  destruct (becomes_leads junk (session_fs fs) c _ _ 1 kf _ K nd nf sc dsc fsc T mb (Session e d)
    (cat_becomes junk fs inv F writes c Hj H1 H2 e es name cmd f t last pad Hes Hn Hf Ht Hl) Hc)
    as (sc' & dsc' & fsc' & mb' & u & [e' d'] & [-> [Hd' He]] & Hc' & L); [done|].
  cbn [env disk] in *. subst e'. exists sc', dsc', fsc', mb', d'. split; [done|]. split; [done|]. exact L.
Qed.

(** C19: The path names the working directory.  In a tree of directories let the path
    in [grass->workdir] lead to the inode in [grass->workdir_ino].  Process [c]
    runs [cd name].  If the directory has no entry [name/], it gets to print that
    it is not found, with the environment unchanged.  Otherwise it returns 0
    with the path and the inode of the directory [name], of the directory above
    for [..], of the same directory for [.] - and again the path leads to the
    inode - provided the new path fits the 128 bytes of [workdir]. *)
Theorem cd_moves {D} (junk : list byte) (fs : inode_store D) (inv : D → Prop) (F : files)
    `{!FileStore fs inv F} (writes : string → list Z → list (Z * Z)) (c : Z) (dirs : dirs_t) (e : environ)
    (p : list (list byte)) (es : list (list byte * Z)) (cmd name : list byte)
    (K : Z → U (session D) unit) (nd nf : nat) (sc dsc fsc : syscall)
    (T : gmap Z (prog (session D) (unit * syscall))) (mb : kernel_msg) (d : D) :
  let dir := name ++ [slash] in
  let found := negb (entry_ino es dir =? -1) in
  (nbytes ≤ length junk)%nat → c ≠ GPID_DIR → c ≠ GPID_FILE → calm c sc dsc fsc mb T → inv d →
  tree F dirs → at_path dirs e p → dirs !! workdir_ino e = Some es → findable es dir → ok_name name →
  (length (path_bytes (p ++ [name])) < 128)%nat →
  ∃ sc' dsc' fsc' mb' e' d', inv d' ∧ calm c sc' dsc' fsc' mb' T ∧
    (if found then at_path dirs e' (go p name) else e' = e) ∧
    let start := Net (place junk (session_fs fs) c ((cd junk writes 2 [cmd; name] ≫= K) sc)
                   (S nd) dsc (S nf) fsc T) mb (Session e d) in
    let goal := Net (place junk (session_fs fs) c ((cd_left writes found dir ≫= K) sc')
                   nd dsc' nf fsc' T) mb' (Session e' d') in
    ∀ n2, rtc step start n2 → rtc step n2 goal ∨ rtc step goal n2.
Proof.
  intros dir found Hj H1 H2 Hc Hd Ht Hp Hes Hf Hn Hl.
  destruct (becomes_leads junk (session_fs fs) c _ _ 1 1 _ K nd nf sc dsc fsc T mb (Session e d)
    (cd_becomes junk fs inv F writes c Hj H1 H2 dirs e p name cmd es Ht Hp Hes Hf Hn Hl) Hc)
    as (sc' & dsc' & fsc' & mb' & u & [e' d'] & (Hd' & -> & He) & Hc' & L); [done|].
  cbn [env disk] in *. exists sc', dsc', fsc', mb', e', d'. split; [done|]. split; [done|].
  split; [|exact L]. unfold found, dir. by destruct (entry_ino es (name ++ [slash]) =? -1).
Qed.

(** ** The directories of the image *)

(** The text files that mkfs writes, and the entries of the directories among
    them. *)
Definition text_files : files := (λ s, [strncpy_block s]) <$> take 7 contents.
Definition image_dirs : dirs_t :=
  list_to_map
    [(0, root_entries);
     (1, [(chars "./", 1); (chars "../", 0); (chars "yunhao/", 2); (chars "rvr/", 3); (chars "lorenzo/", 4)]);
     (2, [(chars "./", 2); (chars "../", 1); (chars "README", 5)]);
     (3, [(chars "./", 3); (chars "../", 1)]);
     (4, [(chars "./", 4); (chars "../", 1)])].

Lemma ro_file_store {D} F : Forall (Forall wf_block) F → FileStore (D := D) (ro_files F) (λ _, True) F.
Proof. intros H. split; [|done]. intros d ino off buf _ _ _. by apply returns_ret. Qed.
#[export] Instance text_file_store : FileStore (D := unit) (ro_files text_files) (λ _, True) text_files.
Proof. apply ro_file_store. apply (bool_decide_unpack _). vm_compute. exact Logic.I. Qed.

(** A check of the tree, entry by entry. *)
Definition dir_check (F : files) (dirs : dirs_t) (x : Z * list (list byte * Z)) : bool :=
  let '(ino, es) := x in
  (0 <=? ino) && (ino <? 2 ^ 31) && bool_decide (F !! Z.to_nat ino = Some [dir_block es]) &&
  bool_decide (Forall entry_ok es) && (length (render es) <? nbytes)%nat &&
  (entry_ino es (chars "./") =? ino) && (if ino =? 0 then entry_ino es (chars "../") =? 0 else true) &&
  forallb (λ y, bool_decide (y.1 = chars "./") || bool_decide (y.1 = chars "../") ||
    match dirs !! y.2 with Some es' => entry_ino es' (chars "../") =? ino | None => true end) es.

Lemma entry_ino_in es name j : entry_ino es name = j → j ≠ -1 → (name, j) ∈ es.
Proof.
  induction es as [|[n i] es IH]; cbn [entry_ino fst snd]; [by intros <-|]. case_decide as E.
  - intros <- _. subst. left.
  - intros H1 H2. right. by apply IH.
Qed.

Lemma tree_checked F dirs : forallb (dir_check F dirs) (map_to_list dirs) = true → tree F dirs.
Proof.
  rewrite forallb_forall. intros H.
  assert (H' : ∀ ino es, dirs !! ino = Some es → dir_check F dirs (ino, es) = true).
  { intros ino es Hd. apply H, list_elem_of_In. by apply elem_of_map_to_list. }
  clear H. unfold dir_check in H'.
  assert (H : ∀ ino es, dirs !! ino = Some es →
    directory F ino es ∧ entry_ino es (chars "./") = ino ∧ (ino = 0 → entry_ino es (chars "../") = 0) ∧
    ∀ y es', y ∈ es → y.1 ≠ chars "./" → y.1 ≠ chars "../" → dirs !! y.2 = Some es' → entry_ino es' (chars "../") = ino).
  { intros ino es Hd. pose proof (H' _ _ Hd) as H.
    rewrite !andb_true_iff, !bool_decide_eq_true, Nat.ltb_lt, Z.leb_le, Z.ltb_lt, Z.eqb_eq in H.
    destruct H as [[[[[[[C1 C2] C3] C4] C5] C6] C7] C8]. rewrite forallb_forall in C8.
    split; [by split|]. split; [done|]. split; [intros ->; by apply Z.eqb_eq|].
    intros y es' Hy N1 N2 Hd'. apply list_elem_of_In in Hy. specialize (C8 y Hy). rewrite Hd' in C8.
    rewrite !orb_true_iff, !bool_decide_eq_true, Z.eqb_eq in C8. naive_solver. }
  split.
  - intros ino es Hd. apply (H _ _ Hd).
  - intros ino es Hd. apply (H _ _ Hd).
  - intros es Hd. by apply (H _ _ Hd).
  - intros i es n j es' Hd (_ & N1 & N2) Hj Hne Hd'. destruct (H _ _ Hd) as (_ & _ & _ & Hup).
    apply (Hup (n ++ [slash], j)); [by apply entry_ino_in| | |done]; cbn [fst].
    + change (chars "./") with (chars "." ++ [slash]). by intros [? _]%app_inj_tail.
    + change (chars "../") with (chars ".." ++ [slash]). by intros [? _]%app_inj_tail.
Qed.

Lemma image_tree : tree text_files image_dirs.
Proof. apply tree_checked. vm_compute. reflexivity. Qed.

(** [ls], [cat README] and [cd ..] in the directory /home/yunhao. *)
Definition demo_env : environ :=
  Environ 2 (chars "/home/yunhao" ++ replicate 116 nul).
Definition demo_path : list (list byte) := [chars "home"; chars "yunhao"].

Lemma demo_at_path : at_path image_dirs demo_env demo_path.
Proof.
  split; [split; [|split; [reflexivity|by eexists]]|..].
  - apply (bool_decide_unpack _). vm_compute. exact Logic.I.
  - apply (bool_decide_unpack _). vm_compute. exact Logic.I.
  - by vm_compute.
Qed.
Lemma demo_calm c : calm (D := session unit) c idle_sc idle_sc idle_sc (KernelMsg 0 0 0 []) ∅.
Proof. split; [reflexivity..|]. intros q t _ _ _ Ht. by rewrite lookup_empty in Ht. Qed.

Lemma ls_shows_witness : ∃ sc' dsc' fsc' mb',
  let junk := replicate 600 Byte.x00 in
  let sfs := session_fs (ro_files text_files) in
  let start := Net (place junk sfs 5 ((_ ← ls junk (λ _ _, []) 1; halt "done") idle_sc) 1 idle_sc 1 idle_sc ∅)
                 (KernelMsg 0 0 0 []) (Session demo_env tt) in
  let goal := Net (place junk sfs 5
                 ((_ ← shows (λ _ _, []) "%s\r\n" (chars "./     ../     README     "); halt "done") sc')
                 1 dsc' 0 fsc' ∅) mb' (Session demo_env tt) in
  ∀ n2, rtc step start n2 → rtc step n2 goal ∨ rtc step goal n2.
Proof.
  destruct (ls_shows (replicate 600 Byte.x00) (ro_files text_files) (λ _, True) text_files (λ _ _, []) 5 demo_env
    [(chars "./", 2); (chars "../", 1); (chars "README", 5)] (λ _, halt "done") 1 0 idle_sc idle_sc idle_sc ∅
    (KernelMsg 0 0 0 []) tt) as (sc' & dsc' & fsc' & mb' & [] & _ & _ & H).
  - apply Nat.leb_le. vm_compute. reflexivity.
  - discriminate.
  - discriminate.
  - apply demo_calm.
  - exact Logic.I.
  - by apply (tr_dir _ _ image_tree).
  - repeat constructor; by eexists _, _.
  - exists sc', dsc', fsc', mb'. exact H.
Defined.

Lemma cat_shows_file_witness : ∃ sc' dsc' fsc' mb' t,
  let junk := replicate 600 Byte.x00 in
  let sfs := session_fs (ro_files text_files) in
  let start := Net (place junk sfs 5 ((_ ← cat junk (λ _ _, []) 2 [chars "cat"; chars "README"]; halt "done") idle_sc)
                 1 idle_sc 2 idle_sc ∅) (KernelMsg 0 0 0 []) (Session demo_env tt) in
  let goal := Net (place junk sfs 5 ((_ ← cat_shows (λ _ _, []) t Byte.x2e; halt "done") sc')
                 0 dsc' 0 fsc' ∅) mb' (Session demo_env tt) in
  t = chars (nth 5 contents String.EmptyString) ∧ ∀ n2, rtc step start n2 → rtc step n2 goal ∨ rtc step goal n2.
Proof.
  set (t := chars (nth 5 contents String.EmptyString)). set (t0 := take (length t - 1) t).
  assert (Et : t0 ++ [Byte.x2e] = t) by (by vm_compute).
  destruct (cat_shows_file (replicate 600 Byte.x00) (ro_files text_files) (λ _, True) text_files (λ _ _, []) 5 demo_env
    [(chars "./", 2); (chars "../", 1); (chars "README", 5)] (chars "cat") (chars "README") t0
    (replicate (511 - length t) nul) Byte.x2e [strncpy_block (nth 5 contents String.EmptyString)]
    (λ _, halt "done") 0 0 idle_sc idle_sc idle_sc ∅
    (KernelMsg 0 0 0 []) tt) as (sc' & dsc' & fsc' & mb' & [] & _ & _ & H).
  - apply Nat.leb_le. vm_compute. reflexivity.
  - discriminate.
  - discriminate.
  - apply demo_calm.
  - exact Logic.I.
  - by apply (tr_dir _ _ image_tree).
  - apply findableb_sound. by vm_compute.
  - intros _. split; [reflexivity|by vm_compute].
  - apply (bool_decide_unpack _). vm_compute. exact Logic.I.
  - apply Nat.ltb_lt. by vm_compute.
  - exists sc', dsc', fsc', mb', t. split; [reflexivity|]. cbv zeta in H |- *. rewrite Et in H. exact H.
Defined.

Lemma cd_moves_witness : ∃ sc' dsc' fsc' mb' e',
  let junk := replicate 600 Byte.x00 in
  let sfs := session_fs (ro_files text_files) in
  let start := Net (place junk sfs 5 ((_ ← cd junk (λ _ _, []) 2 [chars "cd"; chars ".."]; halt "done") idle_sc)
                 1 idle_sc 1 idle_sc ∅) (KernelMsg 0 0 0 []) (Session demo_env tt) in
  let goal := Net (place junk sfs 5 ((_ ← mret 0; halt "done") sc') 0 dsc' 0 fsc' ∅) mb' (Session e' tt) in
  at_path image_dirs e' [chars "home"] ∧ ∀ n2, rtc step start n2 → rtc step n2 goal ∨ rtc step goal n2.
Proof.
  destruct (cd_moves (replicate 600 Byte.x00) (ro_files text_files) (λ _, True) text_files (λ _ _, []) 5 image_dirs
    demo_env demo_path [(chars "./", 2); (chars "../", 1); (chars "README", 5)] (chars "cd") (chars "..")
    (λ _, halt "done") 0 0 idle_sc idle_sc idle_sc ∅
    (KernelMsg 0 0 0 []) tt) as (sc' & dsc' & fsc' & mb' & e' & [] & _ & _ & Hp & H).
  - apply Nat.leb_le. vm_compute. reflexivity.
  - discriminate.
  - discriminate.
  - apply demo_calm.
  - exact Logic.I.
  - exact image_tree.
  - exact demo_at_path.
  - by vm_compute.
  - apply findableb_sound. by vm_compute.
  - apply (bool_decide_unpack _). vm_compute. exact Logic.I.
  - apply Nat.ltb_lt. by vm_compute.
  - exists sc', dsc', fsc', mb', e'. split; [exact Hp|exact H].
Defined.
