(* ===== verification/Timer.v ===== *)
(** * The timer

    earth/cpu_timer.c.  [mtime] is a 64-bit counter that runs while the program
    reads its two halves; [mtime_at n] is its value at the [n]-th access of a
    register of the timer.  The state counts the accesses and keeps the values
    that [mtimecmp] has had, newest first: a timer interrupt is pending whenever
    [mtime] is not below it, also between two writes.  The theorems: a time that
    [mtime_get] returns is the value of the counter at one instant during the
    call, reading it again happens at most once, and [mtimecmp_set] never lets
    an early value through. *)

From S2P Require Import Prelude Layout Blocks Paging.

Record timer := Timer {
  accesses : nat;
  mtimecmp : Z;
  history : list Z;      (* earlier values of [mtimecmp] *)
}.

Section timer.
Context (mtime_at : nat → Z).

Definition tick (t : timer) : timer := Timer (S (accesses t)) (mtimecmp t) (history t).

Definition read_high : M timer Z := λ t, Ret (Z.shiftr (mtime_at (accesses t)) 32) (tick t).
Definition read_low : M timer Z := λ t, Ret (u32 (mtime_at (accesses t))) (tick t).

Definition write_cmp (v : Z) : M timer unit := λ t,
  Ret tt (Timer (S (accesses t)) v (mtimecmp t :: history t)).
Definition write_high (v : Z) : M timer unit := λ t,
  write_cmp (Z.lor (Z.shiftl (u32 v) 32) (u32 (mtimecmp t))) t.
Definition write_low (v : Z) : M timer unit := λ t,
  write_cmp (Z.lor (Z.shiftl (Z.shiftr (mtimecmp t) 32) 32) (u32 v)) t.

(** The [do ... while] loop, at most [tries] times. *)
Fixpoint mtime_get (tries : nat) : M timer Z :=
  match tries with
  | O => spin
  | S tries =>
      high ← read_high;
      low ← read_low;
      high' ← read_high;
      if high' =? high then mret (Z.lor (Z.shiftl high 32) low) else mtime_get tries
  end.

Definition mtimecmp_set (time : Z) : M timer Z :=
  _ ← write_high 0xFFFFFFFF;
  _ ← write_low (u32 time);
  _ ← write_high (u32 (Z.shiftr time 32));
  mret 0.

Definition quantum (platform : platform_id) : Z :=
  match platform with ARTY => 5000 | QEMU => 500000 end.

Definition timer_reset (platform : platform_id) (tries : nat) : M timer Z :=
  t ← mtime_get tries;
  mtimecmp_set ((t + quantum platform) mod 2 ^ 64).

Definition timer_init : M timer Z := mtimecmp_set 0x0FFFFFFFFFFFFFFF.
End timer.

(** ** Halves of a 64-bit number *)

Lemma halves z : 0 ≤ z → Z.lor (Z.shiftl (Z.shiftr z 32) 32) (u32 z) = z.
Proof.
  intros Hz. unfold u32. rewrite <-Z.land_ones, <-Z.ldiff_ones_r by lia.
  apply Z.bits_inj'. intros n Hn. rewrite Z.lor_spec, Z.ldiff_spec, Z.land_spec.
  destruct (Z.testbit z n), (Z.testbit (Z.ones 32) n); done.
Qed.

Lemma lor_halves h l : 0 ≤ l < 2 ^ 32 → Z.lor (Z.shiftl h 32) l = h * 2 ^ 32 + l.
Proof.
  intros Hl. rewrite Z.shiftl_mul_pow2 by lia. by apply lor_low.
Qed.

Lemma shiftr32 z : Z.shiftr z 32 = z / 2 ^ 32.
Proof. by rewrite Z.shiftr_div_pow2. Qed.

(** If the high half is the same before and after, it belongs to the low half
    read in between. *)
Lemma consistent a b c :
  0 ≤ a ≤ b → b ≤ c → c / 2 ^ 32 = a / 2 ^ 32 → Z.lor (Z.shiftl (Z.shiftr a 32) 32) (u32 b) = b.
Proof.
  intros Hab Hbc Heq. rewrite shiftr32.
  pose proof (Z.div_le_mono a b (2 ^ 32) ltac:(lia) ltac:(lia)).
  pose proof (Z.div_le_mono b c (2 ^ 32) ltac:(lia) ltac:(lia)).
  replace (a / 2 ^ 32) with (Z.shiftr b 32) by (rewrite shiftr32; lia). apply halves. lia.
Qed.

(** The values of [mtimecmp] in turn. *)
Lemma mtimecmp_set_spec time t :
  0 ≤ time < 2 ^ 64 →
  returns (mtimecmp_set time) t (λ r t', r = 0 ∧ mtimecmp t' = time ∧
    accesses t' = (3 + accesses t)%nat ∧
    ∃ v1 v2, history t' = v2 :: v1 :: mtimecmp t :: history t ∧
      0xFFFFFFFF * 2 ^ 32 ≤ v1 ∧ 0xFFFFFFFF * 2 ^ 32 ≤ v2).
Proof.
  intros Ht. eexists _, _. split; [reflexivity|]. split; [done|]. cbn [mtimecmp accesses history].
  assert (Hu : ∀ z, 0 ≤ u32 z < 2 ^ 32) by (intros z; by apply Z.mod_pos_bound).
  assert (E1 : Z.lor (Z.shiftl (u32 0xFFFFFFFF) 32) (u32 (mtimecmp t)) =
    0xFFFFFFFF * 2 ^ 32 + u32 (mtimecmp t)) by (by rewrite lor_halves).
  rewrite E1. rewrite (shiftr32 (0xFFFFFFFF * 2 ^ 32 + u32 (mtimecmp t))).
  rewrite Z.div_add_l, Z.div_small, Z.add_0_r by (done || lia).
  rewrite !(lor_halves 0xFFFFFFFF) by done.
  split; [|split; [done|]].
  - assert (Hlow : u32 (0xFFFFFFFF * 2 ^ 32 + u32 (u32 time)) = u32 time).
    { unfold u32 at 1. rewrite Z.add_comm, Z_mod_plus_full, Z.mod_small by done.
      unfold u32. by rewrite Z.mod_mod. }
    rewrite Hlow. replace (u32 (u32 (Z.shiftr time 32))) with (Z.shiftr time 32); [apply halves; lia|].
    assert (is_u32 (Z.shiftr time 32)).
    { rewrite shiftr32. split; [apply Z.div_pos; lia|]. apply Z.div_lt_upper_bound; lia. }
    by rewrite !u32_small by (try rewrite u32_small; done).
  - eexists _, _. split; [reflexivity|]. pose proof (Hu (mtimecmp t)). pose proof (Hu (u32 time)). lia.
Qed.

Section correct.
Context (mtime_at : nat → Z).

(** The counter does not run backwards, and is below its 64-bit limit. *)
Definition counter : Prop :=
  ∀ i j, (i ≤ j)%nat → 0 ≤ mtime_at i ≤ mtime_at j ∧ mtime_at j < 2 ^ 64.

(** One round of the loop. *)
Lemma mtime_get_S n t :
  let a := accesses t in
  mtime_get mtime_at (S n) t =
  if mtime_at (S (S a)) / 2 ^ 32 =? mtime_at a / 2 ^ 32
  then Ret (Z.lor (Z.shiftl (Z.shiftr (mtime_at a) 32) 32) (u32 (mtime_at (S a))))
         (tick (tick (tick t)))
  else mtime_get mtime_at n (tick (tick (tick t))).
Proof.
  intros a. rewrite <-!(shiftr32 (mtime_at _)). cbn [mtime_get].
  unfold mbind, M_bind, read_high, read_low. cbn [accesses tick]. by destruct (_ =? _).
Qed.

Lemma mtime_get_spec tries t :
  counter →
  mtime_at (5 + accesses t)%nat - mtime_at (accesses t) < 2 ^ 32 →
  returns (mtime_get mtime_at (S (S tries))) t (λ v t', ∃ n,
    (accesses t ≤ n < accesses t')%nat ∧ (accesses t' ≤ 6 + accesses t)%nat ∧ v = mtime_at n ∧
    mtimecmp t' = mtimecmp t ∧ history t' = history t).
Proof.
  intros Hc Hslow. unfold returns. rewrite mtime_get_S. set (a := accesses t) in *.
  destruct (Z.eqb_spec (mtime_at (S (S a)) / 2 ^ 32) (mtime_at a / 2 ^ 32)) as [E|E].
  { eexists _, _. split; [reflexivity|]. exists (S a). cbn [accesses tick]. fold a.
    split_and!; [lia..| |done|done]. eapply consistent; [| |exact E]; apply Hc; lia. }
  rewrite mtime_get_S. cbn [accesses tick]. fold a.
  assert (E' : mtime_at (S (S (S (S (S a))))) / 2 ^ 32 = mtime_at (S (S (S a))) / 2 ^ 32).
  { simpl plus in Hslow. set (h := mtime_at a) in *. set (z := mtime_at (S (S (S (S (S a)))))) in *.
    assert (O1 : h ≤ mtime_at (S (S a))) by (apply Hc; lia).
    assert (O2 : mtime_at (S (S a)) ≤ mtime_at (S (S (S a)))) by (apply Hc; lia).
    assert (O3 : mtime_at (S (S (S a))) ≤ z) by (apply Hc; lia).
    pose proof (Z.div_le_mono _ _ (2 ^ 32) ltac:(lia) O1).
    pose proof (Z.div_le_mono _ _ (2 ^ 32) ltac:(lia) O2).
    pose proof (Z.div_le_mono _ _ (2 ^ 32) ltac:(lia) O3).
    pose proof (Z.div_mod h (2 ^ 32)). pose proof (Z.mod_pos_bound h (2 ^ 32)).
    pose proof (Z.div_mod z (2 ^ 32)). pose proof (Z.mod_pos_bound z (2 ^ 32)). lia. }
  rewrite E', Z.eqb_refl. eexists _, _. split; [reflexivity|].
  exists (S (S (S (S a)))). cbn [accesses tick]. fold a.
  split_and!; [lia..| |done|done]. eapply consistent; [| |exact E']; apply Hc; lia.
Qed.

(** C29: Reading the clock.  The two halves of the 64-bit counter are read one
    after the other while it runs; [mtime_get] nevertheless returns the value
    the counter had at one of its accesses, and if six accesses take less than
    2^32 ticks it reads at most twice. *)
Theorem mtime_get_atomic (tries : nat) (t : timer) :
  counter → (2 ≤ tries)%nat →
  mtime_at (5 + accesses t)%nat - mtime_at (accesses t) < 2 ^ 32 →
  returns (mtime_get mtime_at tries) t (λ v t', ∃ n,
    (accesses t ≤ n < accesses t')%nat ∧ (accesses t' ≤ 6 + accesses t)%nat ∧ v = mtime_at n).
Proof.
  intros Hc Ht Hslow. destruct tries as [|[|tries]]; [lia..|].
  eapply returns_mono; [by apply mtime_get_spec|cbv beta]. intros v t' (n & ? & ? & ? & _).
  by exists n.
Qed.

(** C30: [timer_reset] sets the next timer interrupt one quantum after an instant
    of the call.  While it changes the two halves of [mtimecmp], both values in
    between are at least 0xFFFFFFFF00000000, so no interrupt is raised early. *)
Theorem timer_reset_no_early (platform : platform_id) (tries : nat) (t : timer) :
  counter → (2 ≤ tries)%nat →
  mtime_at (5 + accesses t)%nat - mtime_at (accesses t) < 2 ^ 32 →
  returns (timer_reset mtime_at platform tries) t (λ r t', ∃ n v1 v2, r = 0 ∧
    (accesses t ≤ n < accesses t')%nat ∧
    mtimecmp t' = (mtime_at n + quantum platform) mod 2 ^ 64 ∧
    history t' = v2 :: v1 :: mtimecmp t :: history t ∧
    0xFFFFFFFF * 2 ^ 32 ≤ v1 ∧ 0xFFFFFFFF * 2 ^ 32 ≤ v2).
Proof.
  intros Hc Ht Hslow. destruct tries as [|[|tries]]; [lia..|]. unfold timer_reset.
  apply returns_bind. eapply returns_mono; [by apply mtime_get_spec|cbv beta].
  intros v t1 (n & Hn & _ & -> & Hm & Hh).
  eapply returns_mono; [apply mtimecmp_set_spec; by apply Z.mod_pos_bound|cbv beta].
  intros r t2 (-> & E2 & A2 & v1 & v2 & H2 & V1 & V2). exists n, v1, v2. rewrite <-Hm, <-Hh.
  split_and!; try done; lia.
Qed.
End correct.

(** A counter that runs by seven ticks per access, for a while, near the wrap of
    its low half. *)
Definition demo_mtime (n : nat) : Z := 0xFFFFFFFC + 7 * Z.min (Z.of_nat n) 1000.

Lemma demo_mtime_counter : counter demo_mtime.
Proof. intros i j Hij. unfold demo_mtime. lia. Qed.

Lemma mtime_get_atomic_witness : ∃ t',
  mtime_get demo_mtime 2 (Timer 0 0 []) = Ret 0x100000018 t' ∧
  accesses t' = 6%nat.
Proof.
  destruct (mtime_get_atomic demo_mtime 2 (Timer 0 0 []))
    as (v & t' & E & _).
  - apply demo_mtime_counter.
  - lia.
  - done.
  - vm_compute in E. injection E as <- <-. by eexists.
Defined.

Lemma timer_reset_no_early_witness : ∃ t',
  timer_reset demo_mtime ARTY 2 (Timer 0 0 []) = Ret 0 t' ∧
  mtimecmp t' = 0x100000018 + 5000.
Proof.
  destruct (timer_reset_no_early demo_mtime ARTY 2 (Timer 0 0 []))
    as (v & t' & E & _).
  - apply demo_mtime_counter.
  - lia.
  - done.
  - vm_compute in E. injection E as <- <-. by eexists.
Defined.
