(* ===== verification/Boot.v ===== *)
(** * Boot

    earth/earth.c, grass/grass.c, [disk_init] of earth/dev_disk.c, [intr_init] of
    earth/cpu_intr.c and the messages of earth/dev_tty.c: the processor leaves the
    reset state, the drivers are initialised one after the other on the state of
    the whole board, the kernel is loaded and entered, and it starts the process
    server.

    [Stdio] is the part of the C library between [printf] and [_write]: it keeps
    printed text back and hands it to [_write] in pieces.  The addresses of
    functions are arguments.  Tables of function pointers ([struct earth] and
    [struct grass]) are not part of the state; that the functions in them are the
    ones of the model is how the model calls them. *)

From S2P Require Import Prelude Layout Blocks Ring Uart Tty Intr FsDisk Sd Paging Mmu PageTable.
From S2P Require Import Elf Earth Process Kernel Machine Timer.

Class Stdio (B : Type) := {
  fputs : list Z → B → list (list Z) * B;
  fflush : B → list (list Z) * B;
}.

(** The board and the static variables of the earth layer. *)
Record board (H D B : Type) := Board {
  console : tty H;
  stdout : B;
  platform : platform_id;         (* earth->platform *)
  disk_kind : disk_type;          (* type *)
  card_type : sd_type;            (* SD_CARD_TYPE *)
  paging : pt_state D;
  clock : timer;
  mtvec : Z;
  mie : Z;
  mstatus : Z;
  mepc_reg : Z;
  intr_handler : Z;
  excp_handler : Z;
}.
Arguments Board {H D B} _ _ _ _ _ _ _ _ _ _ _ _ _.
Arguments console {H D B} _.
Arguments stdout {H D B} _.
Arguments platform {H D B} _.
Arguments disk_kind {H D B} _.
Arguments card_type {H D B} _.
Arguments paging {H D B} _.
Arguments clock {H D B} _.
Arguments mtvec {H D B} _.
Arguments mie {H D B} _.
Arguments mstatus {H D B} _.
Arguments mepc_reg {H D B} _.
Arguments intr_handler {H D B} _.
Arguments excp_handler {H D B} _.

Definition PLIC_ENABLE_BASE : Z := 0x0C002000.
Definition PLIC_PRIORITY_BASE : Z := 0x0C000000.
Definition PLIC_PENDING_BASE : Z := 0x0C001000.

(** Addresses of code. *)
Record symbols := Symbols {
  trap_entry_vm_at : Z;
  trap_entry_start_at : Z;
  intr_entry_at : Z;
  excp_entry_at : Z;
}.

(** What is the same during the whole boot: the waiting loops' bounds, the clock
    rate, the flash memory and the C library's [rand]. *)
Record setting := Setting {
  fuel : nat;                     (* the SPI controller and the card *)
  polls : nat;                    (* the UART *)
  rounds : nat;                   (* the user's answers *)
  misa : Z;
  cpu_clock_rate : Z;
  rom : Z → byte;
  rnd : nat → Z;
  sym : symbols;
}.

Section boot.
Context {H D B : Type} `{!Mmio H, !Mmio D, !Mmio8 D, !Stdio B} (C : setting).
Implicit Types b : board H D B.
Local Abbreviation MB := (M (board H D B)).
Local Abbreviation sd := (spi_sd (H := D) (fuel C)).

(** ** Parts of the board *)

Definition set_console (t : tty H) b : board H D B :=
  Board t (stdout b) (platform b) (disk_kind b) (card_type b) (paging b) (clock b) (mtvec b)
    (mie b) (mstatus b) (mepc_reg b) (intr_handler b) (excp_handler b).
Definition set_stdout (o : B) b : board H D B :=
  Board (console b) o (platform b) (disk_kind b) (card_type b) (paging b) (clock b) (mtvec b)
    (mie b) (mstatus b) (mepc_reg b) (intr_handler b) (excp_handler b).
Definition set_platform (p : platform_id) b : board H D B :=
  Board (console b) (stdout b) p (disk_kind b) (card_type b) (paging b) (clock b) (mtvec b)
    (mie b) (mstatus b) (mepc_reg b) (intr_handler b) (excp_handler b).
Definition set_disk_kind (t : disk_type) b : board H D B :=
  Board (console b) (stdout b) (platform b) t (card_type b) (paging b) (clock b) (mtvec b)
    (mie b) (mstatus b) (mepc_reg b) (intr_handler b) (excp_handler b).
Definition set_paging (p : pt_state D) b : board H D B :=
  Board (console b) (stdout b) (platform b) (disk_kind b) (card_type b) p (clock b) (mtvec b)
    (mie b) (mstatus b) (mepc_reg b) (intr_handler b) (excp_handler b).
Definition set_card (s : sd_state D) b : board H D B :=
  let v := vm (paging b) in
  Board (console b) (stdout b) (platform b) (disk_kind b) (SD_CARD_TYPE s)
    (set_vm (Mmu (ftable v) (curr_vm_pid v) (cache_slots v) (mem v) (hw s) (nrand v)) (paging b))
    (clock b) (mtvec b) (mie b) (mstatus b) (mepc_reg b) (intr_handler b) (excp_handler b).
Definition set_clock (t : timer) b : board H D B :=
  Board (console b) (stdout b) (platform b) (disk_kind b) (card_type b) (paging b) t (mtvec b)
    (mie b) (mstatus b) (mepc_reg b) (intr_handler b) (excp_handler b).
Definition set_csrs (tv ie st pc : Z) b : board H D B :=
  Board (console b) (stdout b) (platform b) (disk_kind b) (card_type b) (paging b) (clock b)
    tv ie st pc (intr_handler b) (excp_handler b).
Definition set_handlers (i e : Z) b : board H D B :=
  Board (console b) (stdout b) (platform b) (disk_kind b) (card_type b) (paging b) (clock b)
    (mtvec b) (mie b) (mstatus b) (mepc_reg b) i e.

(** Code that runs on a part of the board. *)
Definition focus {S A} (get : board H D B → S) (put : S → board H D B → board H D B) (m : M S A) :
    MB A := λ b,
  match m (get b) with
  | Ret a s => Ret a (put s b)
  | Fatal w s => Fatal w (put s b)
  | Undef w => Undef w
  | Spin => Spin
  end.
Definition on_console {A} (m : M (tty H) A) : MB A := focus console set_console m.
Definition on_paging {A} (m : M (pt_state D) A) : MB A := focus paging set_paging m.
Definition on_sd {A} (m : M (sd_state D) A) : MB A :=
  focus (λ b, SdState (pdisk (vm (paging b))) (card_type b)) set_card m.
Definition on_clock {A} (m : M timer A) : MB A := focus clock set_clock m.

(** ** Messages *)

(** [_write] for standard output.  In the user's mode it would call the kernel,
    which nobody does during boot. *)
Definition write_chunk (msg : list Z) : MB unit :=
  k ← gets (λ b, is_kernel (console b));
  if (k : bool) then
    _ ← on_console (tty_write_kernel (polls C) msg (Z.of_nat (length msg))); mret tt
  else undef "grass->sys_tty_write".

Fixpoint write_chunks (out : list (list Z)) : MB unit :=
  match out with
  | [] => mret tt
  | msg :: out => _ ← write_chunk msg; write_chunks out
  end.

(** [printf] and [fflush(stdout)] of the C library. *)
Definition libc_printf (text : list Z) : MB unit :=
  o ← gets stdout;
  let '(out, o') := fputs text o in
  _ ← modify (set_stdout o');
  write_chunks out.
Definition libc_fflush : MB unit :=
  o ← gets stdout;
  let '(out, o') := fflush o in
  _ ← modify (set_stdout o');
  write_chunks out.

(** The macro [LOG]; [text] is what the format and its arguments give. *)
Definition LOG (x y text : list Z) : MB unit :=
  _ ← libc_printf x; _ ← libc_printf text; libc_printf y.

Definition esc : list Z := [0x1B].
Definition crlf : list Z := [0x0D; 0x0A].
Definition normal : list Z := esc ++ chars "[1;0m" ++ crlf.

Definition tty_printf (text : list Z) : MB unit := _ ← LOG [] [] text; libc_fflush.
Definition tty_info (text : list Z) : MB unit := LOG (chars "[INFO] ") crlf text.
Definition tty_success (text : list Z) : MB unit :=
  LOG (esc ++ chars "[1;32m[SUCCESS] ") normal text.
Definition tty_critical (text : list Z) : MB unit :=
  LOG (esc ++ chars "[1;33m[CRITICAL] ") normal text.
Definition tty_fatal (text : list Z) : MB unit :=
  _ ← LOG (esc ++ chars "[1;31m[FATAL] ") normal text; fatal "tty_fatal".

(** ** Questions to the user *)

(** [for (buf[0] = 0; buf[0] != '0' && buf[0] != '1'; earth->tty_read_kernel(buf, 1));] *)
Fixpoint ask (n : nat) (c : Z) : M (tty H) Z :=
  if (c =? 0x30) || (c =? 0x31) then mret c
  else match n with
       | O => spin
       | S n =>
           buf ← tty_read_kernel (polls C) 1;
           c ← arr_get buf 0;
           ask n c
       end.

Definition disk_init : MB unit :=
  _ ← tty_critical (chars "Choose a disk:");
  _ ← tty_printf (chars "Enter 0: microSD card" ++ crlf ++ chars "Enter 1: on-board ROM" ++ crlf);
  c ← on_console (ask (rounds C) 0);
  let type := if c =? 0x30 then SD_CARD else FLASH_ROM in
  _ ← modify (set_disk_kind type);
  _ ← tty_info (chars (match type with SD_CARD => "microSD" | FLASH_ROM => "on-board ROM" end) ++
                chars " is chosen");
  match type with
  | SD_CARD => on_sd (sdinit (fuel C) (cpu_clock_rate C))
  | FLASH_ROM => mret tt
  end.

Definition mmu_init : MB unit :=
  _ ← on_paging mmu_start;
  p ← gets platform;
  match p with
  | ARTY => mret tt
  | QEMU =>
      _ ← tty_critical (chars "Choose a memory translation mechanism:");
      _ ← tty_printf (chars "Enter 0: page tables" ++ crlf ++ chars "Enter 1: software TLB" ++ crlf);
      c ← on_console (ask (rounds C) 0);
      _ ← tty_info (chars (if c =? 0x30 then "Page table" else "Software") ++
                    chars " translation is chosen");
      type ← gets disk_kind;
      on_paging (use_translation QEMU sd (rom C) type (rnd C) c)
  end.

(** ** Interrupts *)

Definition intr_register (handler : Z) : MB unit :=
  modify (λ b, set_handlers handler (excp_handler b) b).
Definition excp_register (handler : Z) : MB unit :=
  modify (λ b, set_handlers (intr_handler b) handler b).

Definition intr_init : MB unit :=
  t ← gets (λ b, translation (paging b));
  _ ← match t with
      | PAGE_TABLE =>
          _ ← modify (λ b, set_csrs (trap_entry_vm_at (sym C)) (mie b) (mstatus b) (mepc_reg b) b);
          tty_info (chars "Use direct mode and put the address of trap_entry_vm() to mtvec")
      | SOFT_TLB =>
          _ ← modify (λ b, set_csrs (trap_entry_start_at (sym C)) (mie b) (mstatus b) (mepc_reg b) b);
          tty_info (chars "Use direct mode and put the address of trap_entry() to mtvec")
      end;
  _ ← modify (λ b, set_csrs (mtvec b) (Z.lor (mie b) 0x888) (mstatus b) (mepc_reg b) b);
  _ ← modify (λ b, set_csrs (mtvec b) (mie b) (Z.lor (mstatus b) 0x80) (mepc_reg b) b);
  on_console (on_dev (
    _ ← REGW_or PLIC_ENABLE_BASE 0 (Z.shiftl 1 PLIC_UART0_ID);
    _ ← REGW_or PLIC_PRIORITY_BASE (4 * PLIC_UART0_ID) 1;
    REGW_set PLIC_PENDING_BASE 0 0)).

(** ** The earth layer *)

Definition MISA_SMODE : Z := Z.shiftl 1 18.
Definition platform_name (p : platform_id) : string :=
  match p with QEMU => "QEMU" | ARTY => "Arty" end.

Definition earth_init : MB unit :=
  let p := if Z.land (misa C) MISA_SMODE =? 0 then ARTY else QEMU in
  _ ← modify (set_platform p);
  _ ← on_console (tty_init (cpu_clock_rate C) (polls C));
  _ ← tty_critical (chars "--- Booting on " ++ chars (platform_name p) ++ chars " ---");
  _ ← disk_init;
  _ ← tty_success (chars "Finished initializing the tty and disk devices");
  _ ← mmu_init;
  _ ← on_clock timer_init;
  _ ← intr_init;
  tty_success (chars "Finished initializing the CPU MMU, timer and interrupts").

(** The static variables of the earth layer, when the program starts: its bss
    region is cleared and its data region is copied from the flash memory. *)
Definition load_statics b : board H D B :=
  let t := console b in
  let p := paging b in
  let v := vm p in
  let none := TtyBuff (replicate nslots 0) 0 0 0 in
  Board (Tty none none 0 false (dev t)) (stdout b) (platform b) SD_CARD SD_TYPE_UNKNOWN
    (PtState (Mmu (replicate (Z.to_nat NFRAMES) no_mapping) (-1)
                (replicate (Z.to_nat ARTY_CACHED_NFRAMES) 0) (mem v) (pdisk v) (nrand v))
       0 0 (replicate 32 0) (pmpaddr0 p) (pmpcfg0 p) (satp p) (translation p))
    (clock b) (mtvec b) (mie b) (mstatus b) (mepc_reg b) 0 0.

(** [elf_load] from the earth layer or from the kernel. *)
Definition load_exec (pid start : Z) : MB unit :=
  p ← gets platform;
  type ← gets disk_kind;
  t ← gets (λ b, translation (paging b));
  on_paging (on_vm (elf_load p sd (rom C) type (rnd C) t (exec_read sd (rom C) type start) pid 0 None)).

Definition M_MODE : Z := 3.
Definition S_MODE : Z := 1.

(** [main] of earth/earth.c; the address it jumps to. *)
Definition earth_main : MB Z :=
  _ ← modify load_statics;
  _ ← earth_init;
  _ ← load_exec 0 GRASS_EXEC_START;
  t ← gets (λ b, translation (paging b));
  let GRASS_MODE := match t with SOFT_TLB => M_MODE | PAGE_TABLE => S_MODE end in
  _ ← modify (λ b, set_csrs (mtvec b) (mie b)
        (Z.lor (Z.lor (Z.land (mstatus b) (Z.lnot (Z.shiftl 3 11))) (Z.shiftl GRASS_MODE 11))
           (Z.shiftl 1 18)) (mepc_reg b) b);
  mret GRASS_ENTRY.

(** ** The kernel *)

Local Abbreviation MK := (M (kernel (board H D B))).

(** The static variables of the kernel: they are in its image, which is loaded
    with zeros after the file's bytes. *)
Definition kernel_statics (k : kernel (board H D B)) : kernel (board H D B) :=
  Kernel (replicate nprocess (Process 0 PROC_UNUSED false 0 0)) 0 0
    (KernelMsg 0 0 0 (replicate (Z.to_nat SYSCALL_MSG_LEN) Byte.x00)) (earth k).

Definition alloc_pid : MK Z :=
  k ← gets id;
  match proc_alloc (proc_set k) (proc_nprocs k) with
  | Some (pid, ps) =>
      _ ← modify (λ k, Kernel ps (proc_curr_idx k) (proc_nprocs k + 1) (KERNEL_MSG_BUFF k) (earth k));
      mret pid
  | None => fatal "proc_alloc: reach the limit of processes"
  end.

(** [earth->mmu_switch], by the translation that was chosen. *)
Definition switch (pid : Z) : MB unit :=
  p ← gets platform;
  type ← gets disk_kind;
  t ← gets (λ b, translation (paging b));
  on_paging (on_vm (match t with
                    | SOFT_TLB => soft_tlb_switch p sd (rom C) type (rnd C) pid
                    | PAGE_TABLE => page_table_switch p sd (rom C) type (rnd C) pid
                    end)).

(** [main] of grass/grass.c; the argument it passes to the process server. *)
Definition grass_main : MK Z :=
  _ ← on_earth (tty_critical (chars "Enter the grass layer"));
  _ ← kernel_init;
  _ ← on_earth (intr_register (intr_entry_at (sym C)));
  _ ← on_earth (excp_register (excp_entry_at (sym C)));
  _ ← on_earth (tty_info (chars "Load kernel process #1: sys_proc"));
  _ ← on_earth (load_exec GPID_PROCESS SYS_PROC_EXEC_START);
  pid ← alloc_pid;
  _ ← modify (set_procs (proc_set_running pid));
  _ ← on_earth (switch GPID_PROCESS);
  _ ← on_earth (on_console tty_user_mode);
  _ ← on_earth (modify (λ b, set_csrs (mtvec b) (mie b) (mstatus b) APPS_ENTRY b));
  mret APPS_ARG.

(** From reset to the first process. *)
Definition boot : MK Z :=
  entry ← on_earth earth_main;
  if entry =? GRASS_ENTRY then _ ← modify kernel_statics; grass_main
  else undef "jump outside the kernel".
End boot.
