(* ===== verification/BootCorrect.v ===== *)
(** * The parts of the boot sequence

    Lemmas about Boot.v: what printing and the questions do to the console, what
    [intr_init] arms, and what the loader and the first switch do on a board whose
    frame table is fresh.  [StdioLaws] is the documented behaviour of a line
    buffered stream of the C library; [PlicRegs] that of the enable and priority
    registers of the interrupt controller (chapter 10 of the FE310-G002 manual). *)

From S2P Require Import Prelude Layout Blocks Ring Uart Tty TtyOps Intr TtyCorrect Store FsDisk.
From S2P Require Import Sd SdSpec SdCorrect Paging PagingOps Mmu MmuOps PageTable PtCorrect Elf ElfCorrect.
From S2P Require Import ElfThms Earth Process Kernel KernelInv Machine Timer Boot.

Class StdioLaws (B : Type) `{!Stdio B} := {
  pending : B → list Z;           (* printed and not yet written *)
  fputs_law s o : pending o ++ s = concat (fputs s o).1 ++ pending (fputs s o).2;
  fputs_line s o : last s = Some 0x0A → pending (fputs s o).2 = [];
  fflush_law o : concat (fflush o).1 = pending o ∧ pending (fflush o).2 = [];
}.

Definition plic_setup (a : Z) : Prop :=
  a ∈ [PLIC_ENABLE_BASE + 0; PLIC_PRIORITY_BASE + 4 * PLIC_UART0_ID; PLIC_PENDING_BASE + 0].

Class PlicRegs (H : Type) `{!Mmio H, !Uart H} := {
  plic_enabled : H → bool;        (* the interrupt of the UART *)
  plic_priority : H → Z;
  plic_enable_write h v :
    plic_enabled (reg_write (PLIC_ENABLE_BASE + 0) v h) = Z.testbit v PLIC_UART0_ID;
  plic_priority_write h v :
    plic_priority (reg_write (PLIC_PRIORITY_BASE + 4 * PLIC_UART0_ID) v h) = Z.land v 7;
  (** Other accesses do not change these registers, and accesses to them do not
      change the UART. *)
  plic_read a h v h' : reg_read a h = (v, h') →
    plic_enabled h' = plic_enabled h ∧ plic_priority h' = plic_priority h;
  plic_other_write a v h :
    (a ≠ PLIC_ENABLE_BASE + 0 → plic_enabled (reg_write a v h) = plic_enabled h) ∧
    (a ≠ PLIC_PRIORITY_BASE + 4 * PLIC_UART0_ID → plic_priority (reg_write a v h) = plic_priority h);
  plic_uart_read a h v h' : plic_setup a → reg_read a h = (v, h') →
    uart_same txlog rxlog uart_ie h h';
  plic_uart_write a v h : plic_setup a → uart_same txlog rxlog uart_ie h (reg_write a v h);
}.

Definition char (c : Z) : Prop := 0 ≤ c < 256.

(** ** The console *)

Section console.
Context {H : Type} `{!Mmio H, !Uart H, !PlicRegs H}.
Implicit Types t : tty H.

(** Everything but what was sent and received. *)
Record same_console t t' : Prop := {
  sc_read : tty_read_buf t' = tty_read_buf t;
  sc_write : tty_write_buf t' = tty_write_buf t;
  sc_mode : is_kernel t' = is_kernel t;
  sc_ie : uart_ie (dev t') = uart_ie (dev t);
  sc_enabled : plic_enabled (dev t') = plic_enabled (dev t);
  sc_priority : plic_priority (dev t') = plic_priority (dev t);
}.

#[export] Instance same_console_preorder : PreOrder same_console.
Proof. split; [done|]. intros t1 t2 t3 [] []. split; congruence. Qed.

(** The interrupt controller's registers during output. *)
Definition keeps_plic {S A} (get : S → H) (m : M S A) : Prop := ∀ s a s', m s = Ret a s' →
  plic_enabled (get s') = plic_enabled (get s) ∧ plic_priority (get s') = plic_priority (get s).

Lemma keeps_plic_bind {S A B} (get : S → H) (m : M S A) (f : A → M S B) :
  keeps_plic get m → (∀ a, keeps_plic get (f a)) → keeps_plic get (m ≫= f).
Proof.
  intros Hm Hf s b s' (a & s1 & E1 & E2)%bind_ret_inv.
  destruct (Hm _ _ _ E1), (Hf _ _ _ _ E2). split; congruence.
Qed.

Lemma keeps_plic_ret {S A} (get : S → H) (a : A) : keeps_plic get (mret a : M S A).
Proof. by intros s b s' [= _ <-]. Qed.

Lemma keeps_plic_dev {A} (m : M H A) : keeps_plic id m → keeps_plic dev (on_dev m).
Proof.
  intros Hm t a t' E. unfold on_dev in E. destruct (m (dev t)) eqn:Em; simplify_eq/=.
  by apply (Hm (dev t) a).
Qed.

Lemma keeps_plic_putc c : keeps_plic id (uart_putc c).
Proof.
  unfold uart_putc. apply keeps_plic_bind.
  { intros h v h' E. unfold REGW in E. destruct (reg_read _ h) as [v1 h1] eqn:Er. simplify_eq.
    by apply (plic_read _ _ _ _ Er). }
  intros v. cbv zeta. destruct (_ =? 0); [|apply keeps_plic_ret].
  apply keeps_plic_bind; [|intros _; apply keeps_plic_ret].
  intros h x h' [= _ <-]. split; by apply plic_other_write.
Qed.

Lemma keeps_plic_wait n c : keeps_plic dev (putc_wait n c).
Proof.
  induction n as [|n IH]; cbn [putc_wait]; [done|].
  apply keeps_plic_bind; [apply keeps_plic_dev, keeps_plic_putc|].
  intros rc. destruct (rc =? -1); [done|apply keeps_plic_ret].
Qed.

Lemma keeps_plic_loop polls n msg : ∀ i, keeps_plic dev (tty_write_kernel_loop polls n msg i).
Proof.
  induction n as [|n IH]; intros i; cbn [tty_write_kernel_loop]; [apply keeps_plic_ret|].
  apply keeps_plic_bind.
  { intros t c t' E. unfold arr_get in E. destruct (i <? 0); [done|].
    destruct (msg !! _); [|done]. by injection E as _ <-. }
  intros c. apply keeps_plic_bind; [apply keeps_plic_wait|]. by intros _.
Qed.

Lemma write_kernel_spec polls msg t :
  (tx_wait_max < polls)%nat → Forall char msg →
  returns (tty_write_kernel polls msg (Z.of_nat (length msg))) t (λ _ t',
    same_console t t' ∧ sent t' = sent t ++ msg ∧ received t' = received t).
Proof.
  intros Hp Hmsg. destruct (tty_write_kernel_spec polls msg t Hp Hmsg) as (h & E & L1 & L2 & L3).
  eexists _, _. split; [exact E|]. split; [|done].
  unfold tty_write_kernel in E. apply bind_ret_inv in E as (x & t1 & E1 & [= E2]).
  destruct (keeps_plic_loop _ _ _ _ _ _ _ E1) as [P1 P2]. subst t1. by split.
Qed.

(** ** The user's answers *)

(** The first character that arrives during [n] reads. *)
Fixpoint key (n : nat) (h : H) : option (Z * H) :=
  match n with
  | O => None
  | S n =>
      let '(v, h') := reg_read (UART0_BASE + UART0_RXDATA) h in
      if Z.testbit v 31 then key n h' else Some (Z.land v 0xFF, h')
  end.

(** The first [0] or [1] among [n] characters. *)
Fixpoint answer (polls n : nat) (h : H) : option (Z * H) :=
  match n with
  | O => None
  | S n =>
      match key polls h with
      | Some (c, h') => if (c =? 0x30) || (c =? 0x31) then Some (c, h') else answer polls n h'
      | None => None
      end
  end.

Lemma getc_wait_spec n : ∀ t c h, key n (dev t) = Some (c, h) →
  returns (getc_wait n) t (λ x t', x = c ∧ dev t' = h ∧ same_console t t' ∧ char c ∧
    sent t' = sent t).
Proof.
  induction n as [|n IH]; intros t c h Hk; [done|]. cbn [key getc_wait] in *.
  destruct (reg_read (UART0_BASE + UART0_RXDATA) (dev t)) as [v h1] eqn:Er.
  destruct (rxdata_read _ _ _ Er) as (R1 & R2 & _). destruct (plic_read _ _ _ _ Er) as [P1 P2].
  set (x := if Z.testbit v 31 then -1 else Z.land v 0xFF).
  assert (E : getc_static t = Ret x (set_c x (set_dev h1 t))).
  { unfold getc_static, uart_getc, REGW, on_dev, mbind, M_bind. rewrite Er, land_bit31.
    unfold x. by destruct (Z.testbit v 31). }
  assert (Hs : same_console t (set_c x (set_dev h1 t))) by (by split).
  apply returns_bind. eexists _, _. split; [exact E|]. unfold x in *.
  pose proof (land_0xFF_range v). destruct (Z.testbit v 31).
  - eapply returns_mono; [by apply IH|cbv beta]. intros y t' (-> & Hd & Hs' & Hc & Ht).
    split_and!; [done|done|by etrans|done|]. rewrite Ht. unfold sent. by simpl.
  - simplify_eq. rewrite (proj2 (Z.eqb_neq _ _)) by lia. apply returns_ret. by split_and!.
Qed.

Lemma ask_answer (C : setting) n : ∀ t c h x,
  (x =? 0x30) || (x =? 0x31) = false → answer (polls C) n (dev t) = Some (c, h) →
  returns (ask C n x) t (λ y t', y = c ∧ same_console t t' ∧ (c = 0x30 ∨ c = 0x31) ∧
    sent t' = sent t).
Proof.
  induction n as [|n IH]; intros t c h x Hx Ha; [done|]. cbn [answer] in Ha. cbn [ask]. rewrite Hx.
  destruct (key (polls C) (dev t)) as [[c1 h1]|] eqn:Ek; [|done].
  assert (Hr : returns (tty_read_kernel (polls C) 1) t (λ l t', l = [c1] ∧ dev t' = h1 ∧
    same_console t t' ∧ sent t' = sent t)).
  { cbn [tty_read_kernel]. apply returns_bind, returns_modify, returns_bind.
    eapply returns_mono; [by apply (getc_wait_spec (polls C) (set_c (-1) t))|cbv beta].
    intros y t' (-> & Hd & [S1 S2 S3 S4 S5 S6] & Hc & Ht).
    apply returns_bind, returns_ret, returns_ret. rewrite land_0xFF by done. by split_and!. }
  apply returns_bind. eapply returns_mono; [exact Hr|cbv beta].
  intros l t1 (-> & Hd & Hs & Ht). apply returns_bind. exists c1, t1. split; [done|].
  destruct ((c1 =? 0x30) || (c1 =? 0x31)) eqn:Ec.
  - simplify_eq. destruct n; cbn [ask]; rewrite Ec; apply returns_ret; split_and!; try done;
      apply orb_true_iff in Ec as [?%Z.eqb_eq|?%Z.eqb_eq]; auto.
  - eapply returns_mono; [apply (IH t1 c h c1 Ec); by rewrite Hd|cbv beta].
    intros y t' (-> & Hs' & Hc & Ht'). split_and!; [done|by etrans|done|congruence].
Qed.
End console.

(** ** Messages *)

Lemma crlf_char : Forall char crlf.
Proof. repeat constructor; unfold char; lia. Qed.

Lemma normal_char : Forall char normal.
Proof. repeat constructor; unfold char; lia. Qed.

Lemma esc_char s : Forall char (esc ++ chars s).
Proof. apply Forall_app. split; [repeat constructor; unfold char; lia|apply chars_range]. Qed.

Section messages.
Context {H D B : Type} `{!Mmio H, !Uart H, !PlicRegs H, !Mmio D, !Mmio8 D, !Stdio B, !StdioLaws B}.
Context (C : setting).
Hypothesis Hpolls : (tx_wait_max (H := H) < polls C)%nat.
Implicit Types b : board H D B.

(** The board without the console. *)
Definition view b :=
  (platform b, disk_kind b, paging b, clock b, (mtvec b, mie b, mstatus b, mepc_reg b),
   (intr_handler b, excp_handler b)).

(** Printing [text]: it is sent or kept back, and nothing else happens. *)
Record printed (text : list Z) b b' : Prop := {
  pr_view : view b' = view b;
  pr_console : same_console (console b) (console b');
  pr_text : sent (console b') ++ pending (stdout b') =
            sent (console b) ++ pending (stdout b) ++ text;
}.

Lemma returns_focus {S A} (get : board H D B → S) put (m : M S A) b Q :
  returns m (get b) (λ a s, Q a (put s b)) → returns (focus get put m) b Q.
Proof. intros (a & s & E & HQ). exists a, (put s b). unfold focus. by rewrite E. Qed.

Lemma write_chunks_spec out : ∀ b,
  is_kernel (console b) = true → Forall char (concat out) →
  returns (write_chunks C out) b (λ _ b', view b' = view b ∧ stdout b' = stdout b ∧
    same_console (console b) (console b') ∧ sent (console b') = sent (console b) ++ concat out).
Proof using Hpolls.
  induction out as [|msg out IH]; intros b Hk Hc; cbn [write_chunks concat] in *.
  { apply returns_ret. by rewrite app_nil_r. }
  apply Forall_app in Hc as [Hm Hc]. apply returns_bind. unfold write_chunk.
  apply returns_bind, returns_gets. rewrite Hk. apply returns_bind, returns_focus.
  eapply returns_mono; [by apply write_kernel_spec|cbv beta]. intros _ t (Hs & Ht & _).
  apply returns_ret. eapply returns_mono; [apply IH; [by rewrite <-Hk; apply Hs|done]|cbv beta].
  intros _ b' (V & O & S & L). split_and!; [done|done|by etrans|].
  rewrite L. cbn [console set_console]. by rewrite Ht, (assoc_L app).
Qed.

Lemma pending_char s o :
  Forall char (pending o) → Forall char s →
  Forall char (concat (fputs s o).1) ∧ Forall char (pending (fputs s o).2).
Proof. intros Ho Hs. apply Forall_app. rewrite <-fputs_law. by apply Forall_app. Qed.

Lemma libc_printf_spec text b :
  is_kernel (console b) = true → Forall char (pending (stdout b)) → Forall char text →
  returns (libc_printf C text) b (λ _ b', printed text b b' ∧ Forall char (pending (stdout b')) ∧
    (last text = Some 0x0A → pending (stdout b') = [])).
Proof using Hpolls.
  intros Hk Ho Ht. unfold libc_printf. apply returns_bind, returns_gets.
  destruct (pending_char text (stdout b) Ho Ht) as [H1 H2].
  pose proof (fputs_law text (stdout b)) as Hl. pose proof (fputs_line text (stdout b)) as Hn.
  destruct (fputs text (stdout b)) as [out o']. apply returns_bind, returns_modify.
  eapply returns_mono; [by apply write_chunks_spec|cbv beta]. cbn [fst snd] in *.
  intros _ b' (V & O & S & L). rewrite O. split; [|done]. split; [done|done|].
  rewrite L, O. cbn [console set_stdout stdout]. by rewrite <-(assoc_L app), <-Hl.
Qed.

Lemma printed_trans x y b b1 b2 : printed x b b1 → printed y b1 b2 → printed (x ++ y) b b2.
Proof.
  intros [V1 S1 T1] [V2 S2 T2]. split; [congruence|by etrans|].
  rewrite T2, (assoc_L app), T1. by rewrite <-!(assoc_L app).
Qed.

Lemma fflush_spec b :
  is_kernel (console b) = true → Forall char (pending (stdout b)) →
  returns (libc_fflush C) b (λ _ b', printed [] b b' ∧ pending (stdout b') = []).
Proof using Hpolls.
  intros Hk Ho. unfold libc_fflush. apply returns_bind, returns_gets.
  destruct (fflush_law (stdout b)) as [H1 H2]. destruct (fflush (stdout b)) as [out o'].
  apply returns_bind, returns_modify. cbn [fst snd] in *.
  eapply returns_mono; [apply write_chunks_spec; [done|by rewrite H1]|cbv beta].
  intros _ b' (V & O & S & L). rewrite O. split; [|done]. split; [done|done|].
  rewrite L, O, H1. cbn [stdout set_stdout console]. by rewrite H2, !app_nil_r.
Qed.

(** A whole line, or text that is flushed, is sent at once. *)
Definition idle b : Prop := is_kernel (console b) = true ∧ pending (stdout b) = [].

Record said (text : list Z) b b' : Prop := {
  sd_view : view b' = view b;
  sd_console : same_console (console b) (console b');
  sd_sent : sent (console b') = sent (console b) ++ text;
  sd_idle : idle b';
}.

Lemma printed_said x b b' :
  idle b → printed x b b' → pending (stdout b') = [] → said x b b'.
Proof.
  intros [K P] [V S T] P'. rewrite P, P', app_nil_r in T. split; [done|done|done|].
  split; [|done]. by rewrite (sc_mode _ _ S).
Qed.

Lemma LOG_printed x y text b :
  idle b → Forall char x → Forall char y → Forall char text →
  returns (LOG C x y text) b (λ _ b', printed (x ++ text ++ y) b b' ∧
    Forall char (pending (stdout b')) ∧ (last y = Some 0x0A → pending (stdout b') = [])).
Proof using Hpolls.
  intros [K P] Hx Hy Ht. unfold LOG. apply returns_bind.
  eapply returns_mono; [apply (libc_printf_spec x b K); [by rewrite P|done]|cbv beta].
  intros _ b1 (P1 & F1 & _). pose proof (sc_mode _ _ (pr_console _ _ _ P1)) as K1. rewrite K in K1.
  apply returns_bind. eapply returns_mono; [by apply (libc_printf_spec text b1 K1)|cbv beta].
  intros _ b2 (P2 & F2 & _). pose proof (sc_mode _ _ (pr_console _ _ _ P2)) as K2. rewrite K1 in K2.
  eapply returns_mono; [by apply (libc_printf_spec y b2 K2)|cbv beta].
  intros _ b3 (P3 & F3 & L3). split; [|done].
  eapply printed_trans; [done|]. by eapply printed_trans.
Qed.

Lemma LOG_spec x y text b :
  idle b → Forall char x → Forall char y → Forall char text → last y = Some 0x0A →
  returns (LOG C x y text) b (λ _ b', said (x ++ text ++ y) b b').
Proof using Hpolls.
  intros Hi Hx Hy Ht Hl. eapply returns_mono; [by apply LOG_printed|cbv beta].
  intros _ b' (P & _ & L). apply printed_said; auto.
Qed.

Lemma tty_critical_spec text b :
  idle b → Forall char text → returns (tty_critical C text) b (λ _ b',
    said ((esc ++ chars "[1;33m[CRITICAL] ") ++ text ++ normal) b b').
Proof using Hpolls. intros Hi Ht. by apply LOG_spec; [|apply esc_char|apply normal_char|..]. Qed.

Lemma tty_success_spec text b :
  idle b → Forall char text → returns (tty_success C text) b (λ _ b',
    said ((esc ++ chars "[1;32m[SUCCESS] ") ++ text ++ normal) b b').
Proof using Hpolls. intros Hi Ht. by apply LOG_spec; [|apply esc_char|apply normal_char|..]. Qed.

Lemma tty_info_spec text b :
  idle b → Forall char text → returns (tty_info C text) b (λ _ b',
    said (chars "[INFO] " ++ text ++ crlf) b b').
Proof using Hpolls. intros Hi Ht. by apply LOG_spec; [|apply chars_range|apply crlf_char|..]. Qed.

Lemma tty_printf_spec text b :
  idle b → Forall char text → returns (tty_printf C text) b (λ _ b', said text b b').
Proof using Hpolls.
  intros Hi Ht. apply returns_bind. eapply returns_mono; [by apply LOG_printed|cbv beta].
  intros _ b1 (P1 & F1 & _). eapply returns_mono; [apply fflush_spec; [|done]|cbv beta].
  { rewrite (sc_mode _ _ (pr_console _ _ _ P1)). apply Hi. }
  intros _ b2 [P2 E2]. apply printed_said; [done| |done].
  pose proof (printed_trans _ _ _ _ _ P1 P2) as P. by rewrite !app_nil_r in P.
Qed.

(** The message of [FATAL] is sent completely before the program stops. *)
Lemma tty_fatal_stops text b :
  idle b → Forall char text → ∃ b', tty_fatal C text b = Fatal "tty_fatal" b' ∧
    said ((esc ++ chars "[1;31m[FATAL] ") ++ text ++ normal) b b'.
Proof using Hpolls.
  intros Hi Ht.
  destruct (LOG_spec (esc ++ chars "[1;31m[FATAL] ") normal text b Hi) as ([] & b' & E & Hs);
    [apply esc_char|apply normal_char|done|done|]. exists b'. split; [|done].
  unfold tty_fatal. by rewrite (bind_ret_eq _ _ _ _ _ E).
Qed.
End messages.

(** ** The steps of [earth_init] *)

(** After [tty_init]: nothing buffered, and the receive interrupt is on. *)
Record talks {H} `{!Mmio H, !Uart H} (t : tty H) : Prop := {
  tk_inv : tty_inv t;
  tk_in : inq t = [];
  tk_out : outq t = [];
  tk_rx : rx_intr t = true;
}.

Lemma same_talks {H} `{!Mmio H, !Uart H} (t t' : tty H) :
  tty_read_buf t' = tty_read_buf t → tty_write_buf t' = tty_write_buf t →
  uart_ie (dev t') = uart_ie (dev t) → talks t → talks t'.
Proof.
  intros E1 E2 E3 [[W1 W2] T2 T3 T4]. unfold tty_wf, inq, outq, rx_intr, tx_intr in *.
  split; unfold tty_inv, tty_wf, inq, outq, rx_intr, tx_intr; rewrite ?E1, ?E2, ?E3; done.
Qed.

(** A disk state in place of the one of the paging device. *)
Definition with_disk {D} (d : D) (s : pt_state D) : pt_state D :=
  let v := vm s in
  PageTable.set_vm (Mmu (ftable v) (curr_vm_pid v) (cache_slots v) (mem v) d (nrand v)) s.

(** The MMU after [mmu_init]. *)
Record mmu_up {D} (p : platform_id) (s s' : pt_state D) : Prop := {
  mu_init : match translation s' with
            | SOFT_TLB => initialised SOFT_TLB untranslated s s'
            | PAGE_TABLE => p = QEMU ∧ initialised PAGE_TABLE identity_mapped s s'
            end;
  mu_spent : spent 16 (vm s) (vm s');
  mu_arty : p = ARTY → ftable (vm s') = ftable (vm s);
}.

Lemma returns_takes {D A} k (m : M (pt_state D) A) s Q :
  takes vm k m → clean (ftable (vm s)) → returns m s Q →
  returns m s (λ a s', Q a s' ∧ spent k (vm s) (vm s')).
Proof. intros Ht Hc (a & s' & E & HQ). exists a, s'. split; [done|]. split; [done|]. by eapply Ht. Qed.

(** ** The interrupt controller *)

Section plic.
Context {H : Type} `{!Mmio H, !Uart H, !PlicRegs H}.

(** What [intr_init] leaves alone. *)
Record same_tty (t t' : tty H) : Prop := {
  st_read : tty_read_buf t' = tty_read_buf t;
  st_write : tty_write_buf t' = tty_write_buf t;
  st_mode : is_kernel t' = is_kernel t;
  st_ie : uart_ie (dev t') = uart_ie (dev t);
}.
Record armed (h : H) : Prop := {
  ar_enabled : plic_enabled h = true;
  ar_priority : 0 < plic_priority h;
}.

Lemma plic_or base off mask (h : H) :
  plic_setup (base + off) →
  ∃ v h1, REGW_or base off mask h = Ret tt (reg_write (base + off) (u32 (Z.lor v mask)) h1) ∧
    uart_same txlog rxlog uart_ie h h1 ∧ plic_enabled h1 = plic_enabled h ∧
    plic_priority h1 = plic_priority h.
Proof.
  intros Ha. unfold REGW_or, REGW, REGW_set, mbind, M_bind.
  destruct (reg_read (base + off) h) as [v h1] eqn:E. exists v, h1. split; [done|].
  split; [by eapply plic_uart_read|by eapply plic_read].
Qed.

Lemma u32_or_bit v i : 0 ≤ i < 32 → Z.testbit (u32 (Z.lor v (Z.shiftl 1 i))) i = true.
Proof.
  intros Hi. unfold u32. rewrite Z.mod_pow2_bits_low, Z.lor_spec by lia.
  rewrite Z.shiftl_1_l, Z.pow2_bits_true by lia. apply orb_true_r.
Qed.

Lemma plic_init_spec (h : H) :
  returns (_ ← REGW_or PLIC_ENABLE_BASE 0 (Z.shiftl 1 PLIC_UART0_ID);
           _ ← REGW_or PLIC_PRIORITY_BASE (4 * PLIC_UART0_ID) 1;
           REGW_set PLIC_PENDING_BASE 0 0) h (λ _ h',
    armed h' ∧ uart_same txlog rxlog uart_ie h h').
Proof.
  destruct (plic_or PLIC_ENABLE_BASE 0 (Z.shiftl 1 PLIC_UART0_ID) h) as (v & h1 & E1 & [A1 A2 A3] & _);
    [by left|].
  apply returns_bind. eexists tt, _. split; [exact E1|]. set (h2 := reg_write _ _ h1).
  destruct (plic_uart_write (PLIC_ENABLE_BASE + 0) (u32 (Z.lor v (Z.shiftl 1 PLIC_UART0_ID))) h1)
    as [B1 B2 B3]; [by left|]. fold h2 in B1, B2, B3.
  assert (Hen : plic_enabled h2 = true).
  { unfold h2. rewrite plic_enable_write. by apply u32_or_bit. }
  destruct (plic_or PLIC_PRIORITY_BASE (4 * PLIC_UART0_ID) 1 h2) as (w & h3 & E3 & [C1 C2 C3] & P1 & _);
    [right; by left|].
  apply returns_bind. eexists tt, _. split; [exact E3|]. set (h4 := reg_write _ _ h3).
  destruct (plic_uart_write (PLIC_PRIORITY_BASE + 4 * PLIC_UART0_ID) (u32 (Z.lor w 1)) h3)
    as [D1 D2 D3]; [right; by left|]. fold h4 in D1, D2, D3.
  destruct (plic_other_write (PLIC_PRIORITY_BASE + 4 * PLIC_UART0_ID) (u32 (Z.lor w 1)) h3) as [O1 _].
  eexists tt, _. split; [reflexivity|].
  destruct (plic_other_write (PLIC_PENDING_BASE + 0) (u32 0) h4) as [O2 O3].
  destruct (plic_uart_write (PLIC_PENDING_BASE + 0) (u32 0) h4) as [F1 F2 F3]; [right; right; by left|].
  split; [split|split; congruence].
  - rewrite O2 by done. unfold h4. by rewrite O1, P1.
  - rewrite O3 by done. unfold h4. rewrite plic_priority_write.
    pose proof (u32_or_bit w 0 ltac:(lia)) as Hb. change (Z.shiftl 1 0) with 1 in Hb.
    apply Z.le_neq. split; [apply Z.land_nonneg; by right|]. intros E.
    apply (f_equal (λ z, Z.testbit z 0)) in E. rewrite Z.land_spec, Hb in E. done.
Qed.

End plic.

Section stages.
Context {H D B K : Type} `{!Mmio H, !Uart H, !PlicRegs H, !Stdio B, !StdioLaws B}.
Context `{!Mmio D, !Mmio8 D, !SpiSlave K, HP : !SpiPort D K, HC : !SdProto K SDv2_high DISK_BLOCKS}.
Context (C : setting).
Hypothesis Hpolls : (tx_wait_max (H := H) < polls C)%nat.
Hypothesis Hpatient : patient (H := D) (C := K) (fuel C).
Hypothesis Hanswer : ∀ h : H, ∃ c h', answer (polls C) (rounds C) h = Some (c, h').
Implicit Types b : board H D B.

Lemma view_paging b b' : view b = view b' → paging b = paging b'.
Proof using Type. intros E. exact (f_equal (λ v, v.1.1.1.2) E). Qed.

(** The disks that the user may choose. *)
Definition may_choose (type : disk_type) : Prop :=
  ∃ (h : H) c h', answer (polls C) (rounds C) h = Some (c, h') ∧
    type = if c =? 0x30 then SD_CARD else FLASH_ROM.

Lemma ask_spec b :
  idle b → returns (on_console (ask C (rounds C) 0)) b (λ c b',
    (∃ (h h' : H), answer (polls C) (rounds C) h = Some (c, h')) ∧ said [] b b').
Proof using Hanswer.
  intros [K1 P1]. apply returns_focus. destruct (Hanswer (dev (console b))) as (c & h & Ha).
  eapply returns_mono; [by apply (ask_answer C _ (console b) c h 0)|cbv beta].
  intros y t (-> & Hs & Hc & Ht). split; [by eexists _, _|].
  split; [done|exact Hs|by rewrite app_nil_r|].
  split; [|done]. rewrite <-K1. apply Hs.
Qed.

Lemma disk_init_spec b (m : gmap Z block) :
  idle b → (may_choose SD_CARD → ∃ c, quiet (pdisk (vm (paging b))) c ∧ powered c m) →
  returns (disk_init C) b (λ _ b', same_console (console b) (console b') ∧ idle b' ∧
    ∃ type d, view b' = (platform b, type, with_disk d (paging b), clock b,
        (mtvec b, mie b, mstatus b, mepc_reg b), (intr_handler b, excp_handler b)) ∧
      may_choose type ∧ (type = SD_CARD → rests d Transfer m)).
Proof using Hpolls Hpatient Hanswer HP HC.
  intros Hi Hcard. unfold disk_init. apply returns_bind.
  eapply returns_mono; [apply tty_critical_spec; [done|done|apply chars_range]|cbv beta].
  intros _ b1 [V1 S1 _ I1]. apply returns_bind.
  eapply returns_mono; [apply tty_printf_spec; [done|done|]|cbv beta].
  { rewrite !Forall_app. split_and!; (apply chars_range || apply crlf_char). }
  intros _ b2 [V2 S2 _ I2]. apply returns_bind.
  eapply returns_mono; [by apply ask_spec|cbv beta]. intros a b3 ((h & h' & Ha) & [V3 S3 _ I3]).
  assert (Hmay : may_choose (if a =? 0x30 then SD_CARD else FLASH_ROM)) by (by exists h, a, h').
  cbv zeta. revert Hmay. generalize (if a =? 0x30 then SD_CARD else FLASH_ROM). intros ty Hmay.
  apply returns_bind, returns_modify, returns_bind.
  eapply returns_mono; [apply tty_info_spec; [done|exact I3|]|cbv beta].
  { rewrite !Forall_app. split; apply chars_range. }
  intros _ b4 [V4 S4 _ I4]. assert (Hs : same_console (console b) (console b4)).
  { etrans; [exact S1|]. etrans; [exact S2|]. etrans; [exact S3|exact S4]. }
  assert (V : view b4 = (platform b, ty, paging b, clock b,
    (mtvec b, mie b, mstatus b, mepc_reg b), (intr_handler b, excp_handler b))).
  { rewrite V4. rewrite V2, V1 in V3. unfold view in *. simpl. congruence. }
  assert (Ep : paging b4 = paging b) by (unfold view in V; congruence).
  destruct ty.
  - apply returns_focus. destruct Hpatient as (H1 & H2 & H3 & H4), (Hcard Hmay) as (c & Hq & Hc).
    unfold returns.
    pattern (sdinit (fuel C) (cpu_clock_rate C) (SdState (pdisk (vm (paging b4))) (card_type b4))).
    apply (sdinit_spec (fuel C) H1 H2 H4 _ _ c m); [by rewrite Ep|done| |done].
    intros s _ _ Hr. exists tt, s. split; [done|]. split; [exact Hs|]. split; [exact I4|].
    exists SD_CARD, (hw s). split; [|by split]. unfold set_card, with_disk, view in *. simpl. congruence.
  - apply returns_ret. split; [done|]. split; [done|].
    exists FLASH_ROM, (pdisk (vm (paging b))). split; [|by split].
    assert (with_disk (pdisk (vm (paging b))) (paging b) = paging b) as ->; [|done].
    unfold with_disk. by destruct (paging b) as [[]].
Qed.

Lemma mmu_init_spec b :
  let s := paging b in
  idle b → clean (ftable (vm s)) → length (ftable (vm s)) = Z.to_nat NFRAMES →
  (16 ≤ nfree (ftable (vm s)))%nat → length (pid_to_pagetable_base s) = 32%nat → satp s = 0 →
  (∀ n, length (mem (vm s) n) = npage) →
  returns (mmu_init C) b (λ _ b', same_console (console b) (console b') ∧ idle b' ∧
    ∃ s', view b' = (platform b, disk_kind b, s', clock b,
        (mtvec b, mie b, mstatus b, mepc_reg b), (intr_handler b, excp_handler b)) ∧
      mmu_up (platform b) s s').
Proof using Hpolls Hanswer.
  intros s Hi Hc Hl Hf Hb Hs Hm. unfold mmu_init. apply returns_bind, returns_focus.
  destruct (mmu_start_spec s Hs Hm) as (s1 & E1 & H1). exists tt, s1. split; [exact E1|].
  pose proof H1 as [Hin _ Ev]. apply returns_bind, returns_gets. cbn [platform set_paging].
  assert (Hsp : ∀ k, spent k (vm s) (vm s1)) by (intros k; rewrite Ev; split; [exact Hc|done|done|done|simpl; lia]).
  destruct (platform b) eqn:Ep.
  2:{ apply returns_ret. split; [done|]. split; [exact Hi|]. exists s1.
      split; [unfold view; simpl; by rewrite Ep|].
      split; [by rewrite (in_translation _ _ _ _ Hin)|done|]. intros _. by rewrite Ev. }
  apply returns_bind. eapply returns_mono; [apply tty_critical_spec; [done|exact Hi|apply chars_range]|cbv beta].
  intros _ b1 [V1 S1 _ I1]. apply returns_bind.
  eapply returns_mono; [apply tty_printf_spec; [done|done|]|cbv beta].
  { rewrite !Forall_app. split_and!; (apply chars_range || apply crlf_char). }
  intros _ b2 [V2 S2 _ I2]. apply returns_bind.
  eapply returns_mono; [by apply ask_spec|cbv beta]. intros a b3 (_ & [V3 S3 _ I3]). apply returns_bind.
  eapply returns_mono; [apply tty_info_spec; [done|done|]|cbv beta].
  { rewrite !Forall_app. split; apply chars_range. }
  intros _ b4 [V4 S4 _ I4]. assert (Hsc : same_console (console b) (console b4)).
  { etrans; [exact S1|]. etrans; [exact S2|]. by etrans. }
  rewrite V3, V2, V1 in V4. assert (Ep4 : paging b4 = s1) by (unfold view in V4; simpl in V4; congruence).
  apply returns_bind, returns_gets, returns_focus. rewrite Ep4.
  eapply returns_mono; [apply returns_takes; [apply takes_translation| |by eapply use_translation_spec]|cbv beta].
  { by rewrite Ev. }
  intros _ s2 [Hq [Q1 Q2 Q3 Q4 Q5]]. split; [exact Hsc|]. split; [exact I4|]. exists s2. split.
  { unfold view in *. simpl in *. congruence. }
  split; [| |done].
  - destruct (a =? 0x30); rewrite (in_translation _ _ _ _ Hq); done.
  - rewrite Ev in Q2, Q3, Q4, Q5. by split.
Qed.

Lemma intr_init_spec b :
  idle b → returns (intr_init C) b (λ _ b', same_tty (console b) (console b') ∧ idle b' ∧
    armed (dev (console b')) ∧
    view b' = (platform b, disk_kind b, paging b, clock b,
      (match translation (paging b) with
       | PAGE_TABLE => trap_entry_vm_at (sym C) | SOFT_TLB => trap_entry_start_at (sym C) end,
       Z.lor (mie b) 0x888, Z.lor (mstatus b) 0x80, mepc_reg b),
      (intr_handler b, excp_handler b))).
Proof using Hpolls.
  intros Hi. unfold intr_init. apply returns_bind, returns_gets, returns_bind.
  set (tv := match translation (paging b) with
       | PAGE_TABLE => trap_entry_vm_at (sym C) | SOFT_TLB => trap_entry_start_at (sym C) end).
  set (b1 := set_csrs tv (mie b) (mstatus b) (mepc_reg b) b).
  assert (Hp : ∀ text, returns (tty_info C (chars text)) b1 (λ _ b', ∃ t, said t b1 b')).
  { intros text. eapply returns_mono; [apply tty_info_spec; [done|exact Hi|apply chars_range]|].
    cbv beta. eauto. }
  eapply (returns_mono _ _ (λ _ b', ∃ t, said t b1 b')).
  { unfold b1, tv in *. destruct (translation (paging b)); apply returns_bind, returns_modify, Hp. }
  intros _ b2 (t & [V2 S2 _ I2]). do 2 apply returns_bind, returns_modify.
  apply returns_focus. cbn [console set_csrs]. unfold on_dev.
  destruct (plic_init_spec (dev (console b2))) as ([] & h & E & Ha & [U1 U2 U3]).
  eexists tt, _. split; [by rewrite E|]. split; [|split; [exact I2|split; [exact Ha|]]].
  - destruct S2 as [X1 X2 X3 X4 _ _]. split; simpl; try done. by rewrite U3.
  - unfold view in *. simpl in *. congruence.
Qed.

Definition platform_of : platform_id := if Z.land (misa C) MISA_SMODE =? 0 then ARTY else QEMU.

(** The board after [earth_init]; [m] is what is on the card. *)
Record earth_up (m : gmap Z block) b b' (type : disk_type) (d : D) (s' : pt_state D) : Prop := {
  eu_talks : talks (console b');
  eu_idle : idle b';
  eu_armed : armed (dev (console b'));
  eu_clock : mtimecmp (clock b') = 0x0FFFFFFFFFFFFFFF;
  eu_view : view b' = (platform_of, type, s', clock b',
    (match translation s' with
     | PAGE_TABLE => trap_entry_vm_at (sym C) | SOFT_TLB => trap_entry_start_at (sym C) end,
     Z.lor (mie b) 0x888, Z.lor (mstatus b) 0x80, mepc_reg b), (intr_handler b, excp_handler b));
  eu_chosen : may_choose type;
  eu_card : type = SD_CARD → rests d Transfer m;
  eu_mmu : mmu_up platform_of (with_disk d (paging b)) s';
}.

Lemma earth_init_spec b (m : gmap Z block) :
  let s := paging b in
  (rx_ready (dev (console b)) < polls C)%nat → pending (stdout b) = [] →
  (may_choose SD_CARD → ∃ c, quiet (pdisk (vm s)) c ∧ powered c m) →
  clean (ftable (vm s)) → length (ftable (vm s)) = Z.to_nat NFRAMES →
  (16 ≤ nfree (ftable (vm s)))%nat → length (pid_to_pagetable_base s) = 32%nat → satp s = 0 →
  (∀ n, length (mem (vm s) n) = npage) →
  returns (earth_init C) b (λ _ b', ∃ type d s', earth_up m b b' type d s').
Proof using Hpolls Hpatient Hanswer HP HC.
  intros s Hrx Hpend Hcard Hcl Hl Hf Hb Hsat Hm. unfold earth_init. fold platform_of. cbv zeta.
  apply returns_bind, returns_modify, returns_bind, returns_focus. cbn [console set_platform].
  destruct (tty_init_spec (cpu_clock_rate C) (polls C) (console b) Hrx) as (t & E & T1 & T2 & T3 & _ & T4 & T5).
  exists tt, t. split; [exact E|]. set (b1 := set_console t _).
  assert (Ht : talks t) by (by split). assert (I1 : idle b1) by (by split).
  apply returns_bind. eapply returns_mono; [apply tty_critical_spec; [done|exact I1|]|cbv beta].
  { rewrite !Forall_app. split_and!; apply chars_range. }
  intros _ b2 [V2 S2 _ I2]. pose proof (view_paging _ _ V2 : paging b2 = s) as Ep2.
  apply returns_bind. eapply returns_mono; [apply (disk_init_spec b2 m I2); by rewrite Ep2|cbv beta].
  intros _ b3 (S3 & I3 & type & d & V3 & Hmay & Hd). rewrite Ep2 in V3. set (s3 := with_disk d s) in *.
  apply returns_bind. eapply returns_mono; [apply tty_success_spec; [done|exact I3|apply chars_range]|cbv beta].
  intros _ b4 [V4 S4 _ I4]. rewrite V3 in V4. pose proof (f_equal (λ v, v.1.1.1.2) V4 : paging b4 = s3) as Ep4.
  apply returns_bind. eapply returns_mono; [apply (mmu_init_spec b4 I4); by rewrite Ep4|cbv beta].
  intros _ b5 (S5 & I5 & s' & V5 & U5). apply returns_bind, returns_focus.
  eapply returns_mono; [by apply mtimecmp_set_spec|cbv beta]. intros _ tm (_ & Htm & _).
  apply returns_bind. eapply returns_mono; [apply intr_init_spec; exact I5|cbv beta].
  intros _ b7 (S7 & I7 & A7 & V7).
  eapply returns_mono; [apply tty_success_spec; [done|exact I7|apply chars_range]|cbv beta].
  intros _ b8 [V8 S8 _ I8]. rewrite V7 in V8. exists type, d, s'.
  assert (Vb2 : view b2 = view b1) by exact V2. unfold view in *. cbn in V7, V8, Vb2.
  assert (Ep : platform b4 = platform_of) by congruence.
  assert (Ep5 : paging b5 = s') by congruence. rewrite Ep5 in V8.
  split.
  - assert (same_tty t (console b8)) as [X1 X2 X3 X4]; [|by apply (same_talks t)].
    destruct S2 as [? ? ? ? _ _], S3 as [? ? ? ? _ _], S4 as [? ? ? ? _ _], S5 as [? ? ? ? _ _],
      S7 as [? ? ? ?], S8 as [? ? ? ? _ _]. cbn in *. split; congruence.
  - done.
  - destruct S8 as [_ _ _ _ P1 P2], A7 as [A1 A2]. split; [by rewrite P1|by rewrite P2].
  - assert (Ec : clock b8 = tm) by congruence. by rewrite Ec.
  - unfold view. congruence.
  - done.
  - done.
  - by rewrite Ep, Ep4 in U5.
Qed.
End stages.
