(* ===== verification/BootDemo.v ===== *)
(** * A board for the boot sequence

    Instances for the witness of BootThms.v: a UART with an interrupt controller, on
    whose line a user types [0] again and again, and a standard output that keeps
    the last line back until it is complete. *)

From S2P Require Import Prelude Layout Uart Intr Boot BootCorrect.

Record desk := Desk {
  dk_tx : list Z;
  dk_rx : list Z;
  dk_ie : Z;
  dk_enabled : bool;
  dk_priority : Z;
  dk_key : bool;                  (* a character has arrived *)
}.

Definition desk_read (a : Z) (h : desk) : Z * desk :=
  if a =? UART0_BASE + UART0_RXDATA then
    if dk_key h
    then (0x30, Desk (dk_tx h) (dk_rx h ++ [0x30]) (dk_ie h) (dk_enabled h) (dk_priority h) false)
    else (2 ^ 31, Desk (dk_tx h) (dk_rx h) (dk_ie h) (dk_enabled h) (dk_priority h) true)
  else if a =? UART0_BASE + UART0_IE then (dk_ie h, h)
  else (0, h).

Definition desk_write (a v : Z) (h : desk) : desk :=
  if a =? UART0_BASE + UART0_TXDATA
  then Desk (dk_tx h ++ [Z.land v 0xFF]) (dk_rx h) (dk_ie h) (dk_enabled h) (dk_priority h) (dk_key h)
  else if a =? UART0_BASE + UART0_IE
  then Desk (dk_tx h) (dk_rx h) (Z.land v 3) (dk_enabled h) (dk_priority h) (dk_key h)
  else if a =? PLIC_ENABLE_BASE + 0
  then Desk (dk_tx h) (dk_rx h) (dk_ie h) (Z.testbit v PLIC_UART0_ID) (dk_priority h) (dk_key h)
  else if a =? PLIC_PRIORITY_BASE + 4 * PLIC_UART0_ID
  then Desk (dk_tx h) (dk_rx h) (dk_ie h) (dk_enabled h) (Z.land v 7) (dk_key h)
  else h.

#[export] Instance desk_mmio : Mmio desk := {| reg_read := desk_read; reg_write := desk_write |}.

#[export] Program Instance desk_uart : Uart desk :=
  {| txlog := dk_tx; rxlog := dk_rx; uart_ie := dk_ie;
     rx_ready h := if dk_key h then 1%nat else 0%nat; tx_wait h := 0%nat; tx_wait_max := 0%nat |}.
Next Obligation. done. Qed.
Next Obligation. intros h v h' E. by injection E as <- <-. Qed.
Next Obligation.
  intros h v h' E. change (reg_read _ h) with
    (if dk_key h
     then (0x30, Desk (dk_tx h) (dk_rx h ++ [0x30]) (dk_ie h) (dk_enabled h) (dk_priority h) false)
     else (2 ^ 31, Desk (dk_tx h) (dk_rx h) (dk_ie h) (dk_enabled h) (dk_priority h) true)) in E.
  destruct (dk_key h) eqn:Ek; injection E as <- <-; simpl; rewrite ?Ek; split_and!; (done || lia).
Qed.
Next Obligation. intros h v h' E. by injection E as <- <-. Qed.
Next Obligation. done. Qed.
Next Obligation. intros h v h' E. by injection E as <- <-. Qed.
Next Obligation.
  intros a h v h' Ha E. repeat (apply elem_of_cons in Ha as [->|Ha]);
    [by injection E as <- <-..|by apply elem_of_nil in Ha].
Qed.
Next Obligation.
  intros a h v Ha. repeat (apply elem_of_cons in Ha as [->|Ha]);
    [done..|by apply elem_of_nil in Ha].
Qed.

#[export] Program Instance desk_plic : PlicRegs desk :=
  {| plic_enabled := dk_enabled; plic_priority := dk_priority |}.
Next Obligation. done. Qed.
Next Obligation. done. Qed.
Next Obligation.
  intros a h v h' E. unfold reg_read, desk_mmio, desk_read in E.
  destruct (a =? _); [destruct (dk_key h)|destruct (a =? _)]; by injection E as <- <-.
Qed.
Next Obligation.
  intros a v h. unfold reg_write, desk_mmio, desk_write. do 2 (destruct (a =? _); [done|]).
  destruct (Z.eqb_spec a (PLIC_ENABLE_BASE + 0)) as [|Ha]; [by split|].
  destruct (Z.eqb_spec a (PLIC_PRIORITY_BASE + 4 * PLIC_UART0_ID)); by split.
Qed.
Next Obligation.
  intros a h v h' Ha E. repeat (apply elem_of_cons in Ha as [->|Ha]);
    [by injection E as <- <-..|by apply elem_of_nil in Ha].
Qed.
Next Obligation.
  intros a v h Ha. repeat (apply elem_of_cons in Ha as [->|Ha]);
    [done..|by apply elem_of_nil in Ha].
Qed.

(** A line buffer: text is written when it ends in a newline. *)
#[export] Instance line_stdio : Stdio (list Z) := {|
  fputs s o := if decide (last s = Some 0x0A) then ([o ++ s], []) else ([], o ++ s);
  fflush o := ([o], []);
|}.
#[export] Program Instance line_laws : StdioLaws (list Z) := {| pending o := o |}.
Next Obligation.
  intros s o. unfold fputs, line_stdio. case_decide; simpl; by rewrite ?app_nil_r.
Qed.
Next Obligation. intros s o Hs. unfold fputs, line_stdio. by rewrite decide_True. Qed.
Next Obligation. intros o. simpl. by rewrite app_nil_r. Qed.

(** The user's answer always comes, within three reads, and is [0]. *)
Lemma desk_answers (h : desk) : ∃ h', answer 3 1 h = Some (0x30, h').
Proof. destruct h as [tx rx ie en pr [|]]; eexists; by vm_compute. Qed.
