(* ===== verification/BootThms.v ===== *)
(** * From reset to the first process

    The boot sequence of Boot.v as a whole.  The lemmas follow the frame table and
    memory through the loading of the kernel, the loading of the process server
    and the first context switch; [booted] describes the machine at the moment
    the process server starts. *)

From S2P Require Import Prelude Layout Blocks Store Ramdisk FsDisk Paging PagingOps Mmu MmuOps MmuCorrect.
From S2P Require Import Process Kernel KernelInv User Servers SysProc SysProcCorrect.
From S2P Require Import Ring Uart Tty TtyOps Intr TtyCorrect Sd SdSpec SdDemo SdCorrect PageTable PtCorrect.
From S2P Require Import FsCorrect Mkfs MkfsCorrect Elf ElfCorrect ElfThms Earth Machine Timer Boot BootCorrect BootDemo.

(** An executable for boot: an ELF file with one segment, at [vaddr] and of at most
    [size] bytes, whose blocks from [start] on are on the disk. *)
Record boot_file (vaddr size start : Z) (file : list byte) (b0 filesz : Z) : Prop := {
  bf_elf : ∃ phoff hs memsz, elf_file file phoff hs ∧
    only_segment hs (ProgramHeader (b0 * BLOCK_SIZE) vaddr filesz memsz);
  bf_b0 : 0 ≤ b0;
  bf_size : 0 ≤ filesz ≤ size;
  bf_fits : (b0 + Z.of_nat (nblk filesz)) * BLOCK_SIZE ≤ Z.of_nat (length file);
  bf_disk : GRASS_EXEC_START ≤ start ∧ start + Z.of_nat (length file) / BLOCK_SIZE ≤ DISK_BLOCKS;
}.

(** The file is on the disk of the given type: the card has the blocks [m]. *)
Definition stored (rom : Z → byte) (m : gmap Z block) (type : disk_type) (start : Z)
    (file : list byte) : Prop :=
  match type with
  | SD_CARD => ∀ n, 0 ≤ n → (n + 1) * BLOCK_SIZE ≤ Z.of_nat (length file) →
      m !!! (start + n) = slice file n
  | FLASH_ROM => in_rom rom start file
  end.

(** ** Fresh frame tables *)

Lemma clean_lookup t i e : clean t → t !! i = Some e → e = no_mapping ∨ e = FrameMapping 1 0 0.
Proof. intros Hc Hi. exact (Forall_lookup_1 _ _ _ _ Hc Hi). Qed.

Lemma clean_maps t i q n : clean t → maps t i q n → q = 0.
Proof.
  intros Hc (e & _ & Hi & _ & <- & _). by destruct (clean_lookup _ _ _ Hc Hi) as [->| ->].
Qed.

Lemma clean_ok t : clean t → length t = Z.to_nat NFRAMES → table_ok t.
Proof.
  intros Hc Hl. split; [done|..].
  - intros i q n Hm Hq. by apply (clean_maps _ _ _ _ Hc) in Hm.
  - intros i j q n Hm _ Hq. by apply (clean_maps _ _ _ _ Hc) in Hm.
  - intros i e Hi Hu. by destruct (clean_lookup _ _ _ Hc Hi) as [->| ->].
Qed.

Lemma fresh_slots : slots_wf (replicate (Z.to_nat ARTY_CACHED_NFRAMES) (-1)).
Proof.
  split; [by rewrite length_replicate|..].
  - intros i f Hi. apply lookup_replicate in Hi as [-> _]. by left.
  - intros i j f Hi Hj Hf. apply lookup_replicate in Hi as [-> _]. lia.
Qed.

(** ** Memory during boot *)

Section memory.
Context {D : Type} (p : platform_id) (sd : sd_driver D) (rom : Z → byte) (type : disk_type).
Context (rnd : nat → Z) `{HS : !SdCard sd DISK_BLOCKS}.
Hypothesis Htype : p = ARTY → type = SD_CARD.
Hypothesis Hrnd : ∀ n, 0 ≤ rnd n.
Implicit Types v : mmu D.

(** The MMU after [mmu_init] is well formed. *)
Lemma up_wf (s s' : pt_state D) (m : gmap Z block) :
  mmu_up p s s' → length (ftable (vm s)) = Z.to_nat NFRAMES → curr_vm_pid (vm s) = -1 →
  (∀ i e, ftable (vm s) !! i = Some e → use e = 0) → (p = ARTY → sd_holds (pdisk (vm s')) m) →
  ∃ F, mmu_wf p sd (vm s') F ∧ ready p (vm s').
Proof using Type.
  clear Htype Hrnd. intros [Hi [S1 S2 S3 S4 S5] Ha] Hl Hc Hu Hh.
  assert (Hin : cache_slots (vm s') = replicate (Z.to_nat ARTY_CACHED_NFRAMES) (-1) ∧
    ∀ n, length (mem (vm s') n) = npage).
  { destruct (translation s'); [destruct Hi as [_ Hi]|]; destruct Hi; done. }
  destruct Hin as [Hsl Hpg].
  exists (match p with QEMU => λ f, mem (vm s') (FRAME_PAGE + f) | ARTY => card_page m end).
  split; [split|].
  - split; [rewrite Hsl; apply fresh_slots|done|]. destruct p; [done|]. exists m.
    split; [by apply Hh| |done]. intros i f Hf. rewrite Hsl in Hf.
    apply lookup_replicate in Hf as [-> _]. lia.
  - apply clean_ok; [done|congruence].
  - rewrite S3, Hc. done.
  - destruct (decide (p = QEMU)) as [|Hq]; [by left|]. right. right. intros i q n (e & _ & Hi' & Hue & _).
    rewrite Ha in Hi' by (by destruct p). by apply Hu in Hi'.
Qed.

(** Pages outside the kernel's image. *)
Lemma wrote_page v v' g n :
  wrote v v' g → Z.of_nat (length g) = GRASS_SIZE → (∀ k, length (mem v k) = npage) →
  n < 0x8002 ∨ 0x8005 ≤ n → mem v' n = mem v n.
Proof using Type.
  clear Htype Hrnd. intros (_ & Hl' & Hb) Hg Hl Hn. apply list_eq. intros i.
  destruct (decide (i < npage)%nat) as [Hi|Hi].
  2:{ rewrite !lookup_ge_None_2; [done|rewrite Hl; lia|rewrite Hl'; lia]. }
  assert (Hi' : 0 ≤ Z.of_nat i < PAGE_SIZE) by (unfold npage in Hi; lia).
  specialize (Hb (n * PAGE_SIZE + Z.of_nat i)). rewrite Hg, decide_False in Hb.
  2:{ change GRASS_ENTRY with 0x08002800. change GRASS_SIZE with 0x2800.
      change PAGE_SIZE with 4096 in *. lia. }
  unfold byte_at in Hb. rewrite !Z.shiftr_div_pow2 in Hb by lia. change (2 ^ 12) with PAGE_SIZE in Hb.
  rewrite Z.div_add_l, Z.div_small, Z.add_0_r in Hb by done.
  replace ((n * PAGE_SIZE + Z.of_nat i) mod PAGE_SIZE) with (Z.of_nat i) in Hb.
  { by rewrite Nat2Z.id in Hb. }
  rewrite Z.add_comm, Z_mod_plus_full. symmetry. by apply Z.mod_small.
Qed.

(** Loading the kernel disturbs no frame. *)
Lemma wrote_wf v v' g F :
  wrote v v' g → Z.of_nat (length g) = GRASS_SIZE → (∀ c, sd_holds (pdisk v) c → sd_holds (pdisk v') c) →
  mmu_wf p sd v F → ready p v →
  mmu_wf p sd v' F ∧ ready p v' ∧ ∀ n, in_cache n → mem v' n = mem v n.
Proof using Type.
  clear Htype Hrnd. intros Hw Hg Hd [[P1 P2 P3] T C] R. pose proof Hw as ((E1 & E2 & E3) & Hl' & _).
  assert (Hm : ∀ n, 0x80004 ≤ n → mem v' n = mem v n).
  { intros n Hn. apply (wrote_page v v' g); [done..|]. right. lia. }
  split; [split; [split|..]|split].
  - by rewrite E3.
  - done.
  - destruct p.
    + intros f Hf. rewrite Hm, P3; [done|done|]. change FRAME_PAGE with 0x80004. lia.
    + destruct P3 as (c & [C1 C2 C3]). exists c.
      split; [by apply Hd| |by rewrite E3]. intros i f Hi Hf. rewrite E3 in Hi. rewrite Hm.
      { by apply C2. } change FRAME_PAGE with 0x80004. lia.
  - by rewrite E1.
  - by rewrite E2.
  - unfold ready. by rewrite E1, E3.
  - intros n [Hn _]. apply Hm. change FRAME_PAGE with 0x80004 in Hn. lia.
Qed.

(** What the loader needs of the disk. *)
Definition has_file (start : Z) (file : list byte) (d : D) : Prop :=
  match type with SD_CARD => on_card sd start file d | FLASH_ROM => True end.

Lemma has_file_reads vaddr size start file b0 filesz m v :
  boot_file vaddr size start file b0 filesz → stored rom m type start file →
  (type = SD_CARD → sd_holds (pdisk v) m) →
  plain_reads sd (has_file start file) (exec_read sd rom type start) file ∧
  has_file start file (pdisk v) ∧ (p = ARTY → stable sd type (has_file start file)).
Proof using Htype.
  clear Hrnd. intros [_ _ _ _ [H1 H2]] Hst Hm. unfold has_file, stored in *.
  destruct type eqn:Et.
  - split; [by apply exec_read_spec|]. split; [by exists m; auto|].
    intros _ d f x Hd Hf Hx. by apply on_card_stable.
  - split; [by apply exec_read_rom|]. split; [done|]. intros Hp. by specialize (Htype Hp).
Qed.

Context (translation : translation_id) (m : gmap Z block).
Local Abbreviation load start pid :=
  (elf_load p sd rom type rnd translation (exec_read sd rom type start) pid 0 None).

(** The kernel's bytes, see [grass_image]. *)
Definition kernel_at v (file : list byte) (b0 filesz : Z) : Prop :=
  ∀ a, GRASS_ENTRY ≤ a < GRASS_ENTRY + GRASS_SIZE →
    byte_at v a = grass_image file b0 filesz !! Z.to_nat (a - GRASS_ENTRY).

Lemma kernel_loaded v F file b0 filesz :
  mmu_wf p sd v F → ready p v → (type = SD_CARD → sd_holds (pdisk v) m) →
  boot_file GRASS_ENTRY GRASS_SIZE GRASS_EXEC_START file b0 filesz →
  stored rom m type GRASS_EXEC_START file →
  returns (load GRASS_EXEC_START 0) v (λ _ v', mmu_wf p sd v' F ∧ ready p v' ∧
    (type = SD_CARD → sd_holds (pdisk v') m) ∧ kernel_at v' file b0 filesz ∧
    ftable v' = ftable v ∧ curr_vm_pid v' = curr_vm_pid v ∧
    ∀ n, in_cache n → mem v' n = mem v n).
Proof using Htype.
  intros W R Hm Hf Hst. destruct (has_file_reads _ _ _ _ _ _ m v Hf Hst Hm) as (Hr & Hd & _).
  destruct Hf as [(phoff & hs & memsz & He & Hseg) Hb0 Hsz Hfit _].
  pose proof (grass_image_length file b0 filesz Hb0 Hsz Hfit) as Hg.
  eapply returns_mono; [apply (elf_load_grass_spec sd _ _ file Hr b0 filesz Hb0 Hsz Hfit
    p rom type rnd translation phoff hs memsz v Hd (pg_mem _ _ _ _ (mw_paged _ _ _ _ W)) He Hseg)|cbv beta].
  intros _ v' [Hw [_ Hc]]. destruct (wrote_wf v v' _ F Hw Hg Hc W R) as (W' & R' & M').
  destruct Hw as ((E1 & E2 & _) & _ & Hb). split_and!; try done; [by intros ?; apply Hc, Hm|].
  intros a Ha. by rewrite Hb, Hg, decide_True.
Qed.

Lemma plain_reads_also (I J : D → Prop) reader file :
  plain_reads sd I reader file → (∀ d d', (∀ c, sd_holds d c → sd_holds d' c) → J d → J d') →
  plain_reads sd (λ d, I d ∧ J d) reader file.
Proof using Type.
  clear Htype Hrnd. intros Hr HJ v n [HI Hj] H0 Hn. eapply returns_mono; [by apply Hr|cbv beta].
  intros blk v' (-> & HI' & E & Hc). split_and!; [done|done| |done|done]. by apply (HJ (pdisk v)).
Qed.

Lemma server_loaded v F file b0 filesz :
  mmu_wf p sd v F → ready p v → (type = SD_CARD → sd_holds (pdisk v) m) →
  boot_file APPS_ENTRY APPS_SIZE SYS_PROC_EXEC_START file b0 filesz →
  stored rom m type SYS_PROC_EXEC_START file →
  curr_vm_pid v = -1 → (∀ f n, ¬ maps (ftable v) f GPID_PROCESS n) → (5 ≤ nfree (ftable v))%nat →
  returns (load SYS_PROC_EXEC_START GPID_PROCESS) v (λ _ v', ∃ F', mmu_wf p sd v' F' ∧ ready p v' ∧
    curr_vm_pid v' = -1 ∧ app_pages GPID_PROCESS 0 None file b0 filesz v F v' F' ∧
    others GPID_PROCESS v F v' F' ∧ (nfree (ftable v') + 5 = nfree (ftable v))%nat ∧
    (p = QEMU → type = SD_CARD → sd_holds (pdisk v') m)).
Proof using Htype Hrnd.
  intros W R Hm Hf Hst Hc Hno Hfree. destruct (has_file_reads _ _ _ _ _ _ m v Hf Hst Hm) as (Hr & Hd & Hs).
  destruct Hf as [(phoff & hs & memsz & He & Hseg) Hb0 Hsz Hfit _].
  set (J := λ d : D, p = QEMU → type = SD_CARD → sd_holds d m).
  eapply returns_mono; [apply (elf_load_app_spec p sd rom type rnd translation GPID_PROCESS
    (λ d, has_file SYS_PROC_EXEC_START file d ∧ J d) _ file phoff hs b0 filesz memsz 0 None v F Htype Hrnd);
    try done|cbv beta].
  - by rewrite Hc.
  - intros Hp d f x [Hd1 _] Hf Hx. eapply returns_mono; [by apply (Hs Hp)|cbv beta].
    intros _ d' Hd'. split; [done|]. intros Hq. by rewrite Hp in Hq.
  - apply plain_reads_reads, plain_reads_also; [done|]. intros d d' Hd' Hj Hp Ht. by apply Hd', Hj.
  - split; [done|]. intros _. exact Hm.
  - intros _ v' (F' & W' & C' & A' & [_ J'] & R' & O' & N'). exists F'. split_and!; try done; [by apply R'|congruence].
Qed.

(** The process server's pages are in memory after the switch. *)
Definition server_at v (file : list byte) (b0 filesz : Z) : Prop :=
  (∀ i, (i < 3)%nat → mem v (Z.shiftr APPS_ENTRY 12 + Z.of_nat i) = image_page file b0 filesz i) ∧
  args_page 0 [] (mem v (Z.shiftr APPS_ARG 12)).

Lemma server_switched v0 F0 v F file b0 filesz :
  mmu_wf p sd v F → ready p v → curr_vm_pid v = -1 →
  app_pages GPID_PROCESS 0 None file b0 filesz v0 F0 v F →
  returns (soft_tlb_switch p sd rom type rnd GPID_PROCESS) v (λ _ v', ∃ F', mmu_wf p sd v' F' ∧
    ready p v' ∧ ftable v' = ftable v ∧ curr_vm_pid v' = GPID_PROCESS ∧ server_at v' file b0 filesz ∧
    (p = QEMU → pdisk v' = pdisk v) ∧ (∀ n, ¬ in_cache n → n < 0x8005 → mem v' n = mem v n) ∧
    ∀ g, 0 ≤ g < NFRAMES → (∀ n, ¬ maps (ftable v) g (-1) n) → F' g = F g).
Proof using Htype Hrnd.
  intros W R Hc (A1 & (y & z & A2 & Hy & _) & A3 & _).
  destruct (soft_tlb_switch_spec p sd rom type rnd Htype Hrnd GPID_PROCESS v F W R ltac:(done))
    as ([] & v' & E & F' & W' & R' & T' & C' & O' & M' & G'). exists tt, v'. split; [done|]. exists F'.
  assert (Hown : ∀ n x, owned v F GPID_PROCESS n x → mem v' n = x).
  { intros n x Hx. apply O' in Hx as (i & _ & ->); [|done]. by rewrite C', Z.eqb_refl. }
  split_and!; try done.
  - split; [intros i Hi; by apply Hown, A1|]. by rewrite (Hown _ _ A2).
  - intros Ep. rewrite Ep in E. by apply kd_switch in E.
  - intros n Hn Hlt. apply M'; [done|]. intros i Hi%A3. revert Hi Hlt. clear.
    rewrite !elem_of_cons, elem_of_nil. lia.
  - by rewrite Hc in G'.
Qed.
End memory.

(** ** The earth layer *)

Section boot.
Context {H D B K : Type} `{!Mmio H, !Uart H, !PlicRegs H, !Stdio B, !StdioLaws B}.
Context `{!Mmio D, !Mmio8 D, !SpiSlave K, HP : !SpiPort D K, HC : !SdProto K SDv2_high DISK_BLOCKS}.
Context (C : setting) `{HS : !SdCard (spi_sd (H := D) (fuel C)) DISK_BLOCKS}.
Local Abbreviation sd := (spi_sd (H := D) (fuel C)).
Local Abbreviation p := (platform_of C).
Local Abbreviation may_choose := (may_choose (H := H) C).
Implicit Types b : board H D B.

(** Enough polls and rounds, and a user who answers. *)
Record set_up : Prop := {
  su_polls : (tx_wait_max (H := H) < polls C)%nat;
  su_patient : patient (H := D) (C := K) (fuel C);
  su_answer (h : H) : ∃ c h', answer (polls C) (rounds C) h = Some (c, h');
  su_rnd n : 0 ≤ rnd C n;
  su_holds (d : D) m : rests d Transfer m → sd_holds d m;
}.

(** The board at reset.  On the Arty board the user has to choose the card. *)
Record at_reset b (m : gmap Z block) : Prop := {
  ar_rx : (rx_ready (dev (console b)) < polls C)%nat;
  ar_out : pending (stdout b) = [];
  ar_card : may_choose SD_CARD → ∃ c : K, quiet (pdisk (vm (paging b))) c ∧ powered c m;
  ar_satp : satp (paging b) = 0;
  ar_mem n : length (mem (vm (paging b)) n) = npage;
  ar_arty : p = ARTY → ¬ may_choose FLASH_ROM;
}.

(** The two executables, on every disk that may be chosen. *)
Record image (m : gmap Z block) (gf : list byte) (gb gs : Z) (pf : list byte) (pb ps : Z) : Prop := {
  im_grass : boot_file GRASS_ENTRY GRASS_SIZE GRASS_EXEC_START gf gb gs;
  im_proc : boot_file APPS_ENTRY APPS_SIZE SYS_PROC_EXEC_START pf pb ps;
  im_stored type : may_choose type →
    stored (rom C) m type GRASS_EXEC_START gf ∧ stored (rom C) m type SYS_PROC_EXEC_START pf;
}.

Definition trap_vector (t : translation_id) : Z :=
  match t with
  | PAGE_TABLE => trap_entry_vm_at (sym C) | SOFT_TLB => trap_entry_start_at (sym C)
  end.

(** [mstatus] when the kernel is entered. *)
Definition entry_status (t : translation_id) (st : Z) : Z :=
  Z.lor (Z.lor (Z.land (Z.lor st 0x80) (Z.lnot (Z.shiftl 3 11)))
    (Z.shiftl (match t with SOFT_TLB => M_MODE | PAGE_TABLE => S_MODE end) 11)) (Z.shiftl 1 18).

(** The board when the kernel is entered; [s1] is the MMU after [mmu_init]. *)
Record entered (m : gmap Z block) gf gb gs b b' (type : disk_type) (d : D) (s1 : pt_state D)
    (F : Z → page) : Prop := {
  en_talks : talks (console b');
  en_idle : idle b';
  en_armed : armed (dev (console b'));
  en_clock : mtimecmp (clock b') = 0x0FFFFFFFFFFFFFFF;
  en_chosen : may_choose type;
  en_view : view b' = (p, type, PageTable.set_vm (vm (paging b')) s1, clock b',
    (trap_vector (translation s1), Z.lor (mie b) 0x888, entry_status (translation s1) (mstatus b),
     mepc_reg b), (0, 0));
  en_up : mmu_up p (with_disk d (paging (load_statics b))) s1;
  en_wf : mmu_wf p sd (vm (paging b')) F;
  en_ready : ready p (vm (paging b'));
  en_card : type = SD_CARD → sd_holds (pdisk (vm (paging b'))) m;
  en_kernel : kernel_at (vm (paging b')) gf gb gs;
  en_table : ftable (vm (paging b')) = ftable (vm s1);
  en_curr : curr_vm_pid (vm (paging b')) = -1;
  en_cache n : in_cache n → mem (vm (paging b')) n = mem (vm s1) n;
}.

Lemma unused_table : clean (replicate (Z.to_nat NFRAMES) no_mapping) ∧
  (256 ≤ nfree (replicate (Z.to_nat NFRAMES) no_mapping))%nat.
Proof.
  split; [apply Forall_replicate; by left|]. apply Nat.leb_le. vm_compute. reflexivity.
Qed.

Lemma load_exec_spec pid start b (Q : unit → board H D B → Prop) :
  returns (elf_load (platform b) sd (rom C) (disk_kind b) (rnd C) (translation (paging b))
    (exec_read sd (rom C) (disk_kind b) start) pid 0 None) (vm (paging b))
    (λ _ v, Q tt (set_paging (PageTable.set_vm v (paging b)) b)) →
  returns (load_exec C pid start) b Q.
Proof.
  intros ([] & v & E & HQ). unfold load_exec. do 3 apply returns_bind, returns_gets.
  apply returns_focus, returns_on_vm. by exists tt, v.
Qed.

Lemma earth_main_spec b m gf gb gs pf pb ps :
  set_up → at_reset b m → image m gf gb gs pf pb ps →
  returns (earth_main C) b (λ e b', e = GRASS_ENTRY ∧
    ∃ type d s1 F, entered m gf gb gs b b' type d s1 F).
Proof.
  intros [Hp Hpat Hans Hrnd Hh] [R1 R2 R3 R4 R5 R6] [G1 G2 G3]. unfold earth_main.
  apply returns_bind, returns_modify. destruct unused_table as [Hcl Hfr].
  apply returns_bind. eapply returns_mono.
  { apply (earth_init_spec C Hp Hpat Hans (load_statics b) m R1 R2 R3 Hcl); [done| |done|exact R4|exact R5].
    change (16 ≤ nfree (replicate (Z.to_nat NFRAMES) no_mapping))%nat. lia. }
  cbv beta. intros _ b1 (type & d & s1 & [T1 T2 T3 T4 T5 T6 T7 T8]).
  destruct (G3 type T6) as [St1 St2].
  assert (Ep : paging b1 = s1) by exact (f_equal (λ v, v.1.1.1.2) T5).
  assert (Edisk : disk_kind b1 = type) by exact (f_equal (λ v, v.1.1.1.1.2) T5).
  assert (Eplat : platform b1 = p) by exact (f_equal (λ v, v.1.1.1.1.1) T5).
  assert (Htype : p = ARTY → type = SD_CARD).
  { intros E. destruct type; [done|]. by destruct (R6 E). }
  assert (Hcard : type = SD_CARD → sd_holds (pdisk (vm s1)) m).
  { intros E. rewrite (sp_disk _ _ _ (mu_spent _ _ _ T8)). by apply Hh, T7. }
  destruct (up_wf p sd _ s1 m T8) as (F & W & R).
  { by apply length_replicate. }
  { done. }
  { intros i e Hi. cbn in Hi. apply lookup_replicate in Hi as [-> _]. done. }
  { intros E. by apply Hcard, Htype. }
  apply returns_bind, load_exec_spec. rewrite Ep, Edisk, Eplat.
  eapply returns_mono; [apply (kernel_loaded p sd (rom C) type (rnd C) Htype _ m (vm s1) F gf gb gs); done|].
  cbv beta. intros _ v (W' & R' & Hc' & K' & Tb & Cu & Mc).
  apply returns_bind, returns_gets, returns_bind, returns_modify, returns_ret. split; [done|].
  exists type, d, s1, F. split; try done.
  - unfold view in *. cbn in *. unfold entry_status, trap_vector. congruence.
  - cbn. rewrite Cu, (sp_curr _ _ _ (mu_spent _ _ _ T8)). done.
Qed.

(** ** The kernel *)

Definition first_procs : table :=
  Process GPID_PROCESS PROC_RUNNING false 0 0 :: replicate 15 (Process 0 PROC_UNUSED false 0 0).

Lemma first_procs_wf : table_wf first_procs 1.
Proof.
  assert (Hl : ∀ i q, first_procs !! i = Some q →
    i = 0%nat ∧ q = Process GPID_PROCESS PROC_RUNNING false 0 0 ∨ q = Process 0 PROC_UNUSED false 0 0).
  { intros [|i] q Hq; [left; by injection Hq as <-|]. right. by apply lookup_replicate in Hq as [-> _]. }
  split; [done|done|..].
  - intros i q [[_ ->]| ->]%Hl; done.
  - intros i q [[_ ->]| ->]%Hl; done.
  - intros i j q r [[-> ->]| ->]%Hl [[-> ->]| ->]%Hl; done.
  - intros i q [[_ ->]| ->]%Hl; done.
Qed.

(** How the processor translates an address of user code. *)
Definition translated (t : translation_id) (va : Z) : option (Z * Z) :=
  match t with PAGE_TABLE => identity_mapped va | SOFT_TLB => untranslated va end.

(** The machine when the process server is entered. *)
Record booted (m : gmap Z block) (gf : list byte) (gb gs : Z) (pf : list byte) (pb ps : Z) b
    (k : kernel (board H D B)) : Prop := {
  bt_procs : proc_set k = first_procs ∧ proc_nprocs k = 1 ∧ proc_curr_idx k = 0;
  bt_choices : platform (earth k) = p ∧ may_choose (disk_kind (earth k)) ∧
    (p = ARTY → translation (paging (earth k)) = SOFT_TLB);
  bt_message : in_use (KERNEL_MSG_BUFF k) = 0;
  bt_console : talks (console (earth k)) ∧ is_kernel (console (earth k)) = false ∧
    pending (stdout (earth k)) = [];
  bt_armed : armed (dev (console (earth k)));
  bt_clock : mtimecmp (clock (earth k)) = 0x0FFFFFFFFFFFFFFF;
  bt_csrs : mtvec (earth k) = trap_vector (translation (paging (earth k))) ∧
    mie (earth k) = Z.lor (mie b) 0x888 ∧
    mstatus (earth k) = entry_status (translation (paging (earth k))) (mstatus b) ∧
    mepc_reg (earth k) = APPS_ENTRY;
  bt_handlers : intr_handler (earth k) = intr_entry_at (sym C) ∧
    excp_handler (earth k) = excp_entry_at (sym C);
  bt_kernel : kernel_at (vm (paging (earth k))) gf gb gs;
  bt_server : server_at (vm (paging (earth k))) pf pb ps;
  bt_space : curr_vm_pid (vm (paging (earth k))) = GPID_PROCESS ∧
    ∃ F, mmu_wf p sd (vm (paging (earth k))) F ∧ ready p (vm (paging (earth k)));
  bt_frames : (235 ≤ nfree (ftable (vm (paging (earth k)))))%nat ∧
    ∀ f r n, r ≠ 0 → r ≠ GPID_PROCESS → ¬ maps (ftable (vm (paging (earth k)))) f r n;
  bt_disk : p = QEMU → disk_kind (earth k) = SD_CARD → sd_holds (pdisk (vm (paging (earth k)))) m;
  bt_walk va : 0 ≤ va < 2 ^ 32 →
    walk (mem (vm (paging (earth k)))) (satp (paging (earth k))) va =
      translated (translation (paging (earth k))) va;
}.

(** The page tables are in frames that nobody else gets. *)
Lemma tables_kept m gf gb gs b b1 type d s1 F v2 F2 v3 F3 :
  entered m gf gb gs b b1 type d s1 F → mmu_wf p sd v3 F3 →
  others GPID_PROCESS (vm (paging b1)) F v2 F2 →
  (∀ g, 0 ≤ g < NFRAMES → (∀ n, ¬ maps (ftable v2) g (-1) n) → F3 g = F2 g) →
  same_frames (vm s1) (mem v3).
Proof.
  intros En W3 [_ O2 O3 _ _] G3 i e Hi Hu. destruct En as [_ _ _ _ _ _ Up W1 _ _ _ Tb _ Mc].
  destruct p eqn:Ep.
  2:{ rewrite (mu_arty _ _ _ Up eq_refl) in Hi. cbn in Hi. apply lookup_replicate in Hi as [-> _]. done. }
  assert (Hr : 0 ≤ Z.of_nat i < NFRAMES).
  { pose proof (lookup_lt_Some _ _ _ Hi) as Hl. rewrite (sp_len _ _ _ (mu_spent _ _ _ Up)) in Hl.
    change (i < length (replicate (Z.to_nat NFRAMES) no_mapping))%nat in Hl.
    rewrite length_replicate in Hl. unfold NFRAMES in *. lia. }
  rewrite <-Mc by (unfold in_cache; lia). pose proof (clean_lookup _ _ _ (sp_clean _ _ _ (mu_spent _ _ _ Up)) Hi) as Hcl.
  rewrite <-Tb in Hi. pose proof (O2 _ _ Hi Hu) as Hi2.
  rewrite <-(pg_frames _ _ _ _ (mw_paged _ _ _ _ W3)), <-(pg_frames _ _ _ _ (mw_paged _ _ _ _ W1)) by done.
  rewrite G3, (O3 _ e); [done|done|by rewrite Nat2Z.id|done|done|].
  intros n (e' & _ & He' & _ & Hpid & _). rewrite Nat2Z.id, Hi2 in He'. injection He' as <-.
  by destruct Hcl as [->| ->].
Qed.

Lemma kernel_kept (v v' : mmu D) file (b0 filesz : Z) :
  (∀ n, ¬ in_cache n → n < 0x8005 → mem v' n = mem v n) → kernel_at v file b0 filesz →
  kernel_at v' file b0 filesz.
Proof.
  intros Hm Hk a Ha. rewrite <-(Hk a Ha). unfold byte_at. rewrite Hm; [done|..];
    rewrite Z.shiftr_div_pow2 by lia; change (2 ^ 12) with 4096; change GRASS_ENTRY with 0x08002800 in Ha;
    change GRASS_SIZE with 0x2800 in Ha; unfold in_cache; change FRAME_PAGE with 0x80004;
    Z.to_euclidean_division_equations; lia.
Qed.

Lemma switch_spec pid b (Q : unit → board H D B → Prop) :
  returns (soft_tlb_switch (platform b) sd (rom C) (disk_kind b) (rnd C) pid) (vm (paging b))
    (λ _ v, Q tt (set_paging (PageTable.set_vm v (paging b)) b)) →
  returns (switch C pid) b Q.
Proof.
  intros ([] & v & E & HQ). unfold switch. do 3 apply returns_bind, returns_gets.
  apply returns_focus, returns_on_vm. exists tt, v. split; [|done]. by destruct (translation (paging b)).
Qed.

(** The last steps: user mode and the entry point. *)
Definition final_board b2 (s1 : pt_state D) (v3 : mmu D) : board H D B :=
  let b3 := set_paging (PageTable.set_vm v3 s1) b2 in
  set_csrs (mtvec b2) (mie b2) (mstatus b2) APPS_ENTRY (set_console (set_mode false (console b2)) b3).

Lemma booted_intro m gf gb gs pf pb ps b b1 type d s1 F b2 v2 F2 v3 F3 msg :
  entered m gf gb gs b b1 type d s1 F →
  view b2 = (p, type, PageTable.set_vm (vm (paging b1)) s1, clock b1,
    (trap_vector (translation s1), Z.lor (mie b) 0x888, entry_status (translation s1) (mstatus b),
     mepc_reg b), (intr_entry_at (sym C), excp_entry_at (sym C))) →
  same_console (console b1) (console b2) → idle b2 →
  others GPID_PROCESS (vm (paging b1)) F v2 F2 →
  mmu_wf p sd v3 F3 → ready p v3 → curr_vm_pid v3 = GPID_PROCESS → server_at v3 pf pb ps →
  (∀ n, ¬ in_cache n → n < 0x8005 → mem v3 n = mem v2 n) →
  (∀ g, 0 ≤ g < NFRAMES → (∀ n, ¬ maps (ftable v2) g (-1) n) → F3 g = F2 g) →
  in_use msg = 0 → ftable v3 = ftable v2 → (235 ≤ nfree (ftable v2))%nat →
  (p = QEMU → type = SD_CARD → sd_holds (pdisk v3) m) →
  booted m gf gb gs pf pb ps b (Kernel first_procs 0 1 msg (final_board b2 s1 v3)).
Proof.
  intros En V Hs [_ I2] O2 W3 R3 C3 Sv M3 G3 Hmsg T3 N2 D3.
  pose proof (tables_kept _ _ _ _ _ _ _ _ _ _ v2 F2 v3 F3 En W3 O2 G3) as Hsame.
  destruct En as [T1 _ [A1 A2] T4 T5 _ Up _ _ _ Hk Tb _ _]. unfold view in V.
  destruct Hs as [S1 S2 S3 S4 S5 S6].
  split; cbn [proc_set proc_nprocs proc_curr_idx KERNEL_MSG_BUFF earth final_board set_csrs set_console set_paging
    console stdout clock mtvec mie mstatus mepc_reg intr_handler excp_handler paging vm PageTable.set_vm
    translation satp is_kernel set_mode dev platform disk_kind].
  - done.
  - split; [congruence|]. split; [by assert (disk_kind b2 = type) as -> by congruence|].
    intros E. pose proof (mu_init _ _ _ Up) as Hi. destruct (translation s1); [|done].
    destruct Hi as [Hq _]. congruence.
  - done.
  - split; [by apply (same_talks (console b1))|done].
  - split; [by rewrite S5|by rewrite S6].
  - assert (clock b2 = clock b1) as -> by congruence. done.
  - split_and!; congruence.
  - split; congruence.
  - apply (kernel_kept (vm (paging b1))); [|done]. intros n Hn Hlt. rewrite M3 by done. by apply (ot_mem _ _ _ _ _ O2).
  - done.
  - split; [done|]. by exists F3.
  - rewrite T3. split; [done|]. intros f r n Hr Hrp Hf%(ot_only _ _ _ _ _ O2); [|done..].
    rewrite Tb in Hf. by apply (clean_maps _ _ _ _ (sp_clean _ _ _ (mu_spent _ _ _ Up))) in Hf.
  - assert (disk_kind b2 = type) as -> by congruence. done.
  - intros va Hva. unfold translated. pose proof (mu_init _ _ _ Up) as Hi.
    destruct (translation s1); [destruct Hi as [_ Hi]|]; by apply (in_walk _ _ _ _ Hi).
Qed.

Lemma grass_main_spec m gf gb gs pf pb ps b type d s1 F (k : kernel (board H D B)) :
  set_up → at_reset b m → image m gf gb gs pf pb ps → entered m gf gb gs b (earth k) type d s1 F →
  returns (grass_main C) (kernel_statics k) (λ a0 k', a0 = APPS_ARG ∧ booted m gf gb gs pf pb ps b k').
Proof.
  intros [Hp _ _ Hrnd _] [_ _ _ _ _ R6] [_ G2 G3] En. pose proof En as [T1 T2 T3 T4 T5 V Up W R Hc Hk Tb Cu Mc].
  assert (Htype : p = ARTY → type = SD_CARD).
  { intros E. destruct type; [done|]. by destruct (R6 E). }
  unfold grass_main. apply returns_bind, returns_earth.
  eapply returns_mono; [apply tty_critical_spec; [done|exact T2|apply chars_range]|cbv beta].
  intros _ b1 [V1 S1 _ I1]. cbn [earth kernel_statics] in V1, S1.
  apply returns_bind, returns_bind, returns_gets, returns_modify.
  do 2 (apply returns_bind, returns_earth, returns_modify). apply returns_bind, returns_earth.
  eapply returns_mono; [apply tty_info_spec; [done|exact I1|apply chars_range]|cbv beta].
  intros _ b2 [V2 S2 _ I2]. rewrite V in V1. cbn in S2.
  set (v1 := vm (paging (earth k))) in *.
  assert (Vb : view b2 = (p, type, PageTable.set_vm v1 s1, clock (earth k),
    (trap_vector (translation s1), Z.lor (mie b) 0x888, entry_status (translation s1) (mstatus b),
     mepc_reg b), (intr_entry_at (sym C), excp_entry_at (sym C)))).
  { unfold view in *. cbn in V2. congruence. }
  assert (Ep : paging b2 = PageTable.set_vm v1 s1) by exact (f_equal (λ v, v.1.1.1.2) Vb).
  assert (Edisk : disk_kind b2 = type) by exact (f_equal (λ v, v.1.1.1.1.2) Vb).
  assert (Eplat : platform b2 = p) by exact (f_equal (λ v, v.1.1.1.1.1) Vb).
  pose proof (sp_clean _ _ _ (mu_spent _ _ _ Up)) as Hclean.
  assert (Hfr : (240 ≤ nfree (ftable (vm s1)))%nat).
  { pose proof (sp_free _ _ _ (mu_spent _ _ _ Up)) as Hfr.
    change (nfree (replicate (Z.to_nat NFRAMES) no_mapping) ≤ 16 + nfree (ftable (vm s1)))%nat in Hfr.
    pose proof (proj2 unused_table). lia. }
  apply returns_bind, returns_earth, load_exec_spec. cbn [earth set_earth]. rewrite Ep, Edisk, Eplat.
  eapply returns_mono.
  { apply (server_loaded p sd (rom C) type (rnd C) Htype Hrnd _ m v1 F pf pb ps W R Hc G2); [apply G3, T5|done|..].
    - intros f n Hm. rewrite Tb in Hm. by apply (clean_maps _ _ _ _ Hclean) in Hm.
    - rewrite Tb. lia. }
  cbv beta. intros _ v2 (F2 & W2 & R2 & C2 & A2 & O2 & N2 & D2). rewrite Tb in N2.
  apply returns_bind. unfold alloc_pid. apply returns_bind, returns_gets.
  change (proc_alloc _ _) with (Some (1, Process 1 PROC_LOADING false 0 0 ::
    replicate 15 (Process 0 PROC_UNUSED false 0 0))). cbv iota beta.
  apply returns_bind, returns_modify, returns_ret, returns_bind, returns_modify.
  apply returns_bind, returns_earth, switch_spec.
  lazymatch goal with |- returns _ _ ?Q =>
    change (returns (soft_tlb_switch (platform b2) sd (rom C) (disk_kind b2) (rnd C) GPID_PROCESS) v2 Q) end.
  rewrite Edisk, Eplat.
  eapply returns_mono; [by apply (server_switched p sd (rom C) type (rnd C) Htype Hrnd v1 F v2 F2 pf pb ps)|cbv beta].
  intros _ v3 (F3 & W3 & R3 & T3' & C3 & Sv & D3 & M3 & G3').
  do 2 apply returns_bind, returns_earth, returns_modify. apply returns_ret. split; [done|].
  assert (Hall : same_console (console (earth k)) (console b2)) by (etrans; [exact S1|exact S2]).
  lazymatch goal with |- booted _ _ _ _ _ _ _ _ ?k' =>
    change k' with (Kernel first_procs 0 1 (KERNEL_MSG_BUFF k') (final_board b2 s1 v3)) end.
  apply (booted_intro m gf gb gs pf pb ps b (earth k) type d s1 F b2 v2 F2 v3 F3); try done; [lia|].
  intros Eq Et. rewrite D3 by done. by apply D2.
Qed.

Lemma boot_spec (k : kernel (board H D B)) m gf gb gs pf pb ps :
  set_up → at_reset (earth k) m → image m gf gb gs pf pb ps →
  returns (boot C) k (λ a0 k', a0 = APPS_ARG ∧ booted m gf gb gs pf pb ps (earth k) k').
Proof.
  intros Hs Hr Hi. unfold boot. apply returns_bind, returns_earth.
  eapply returns_mono; [by eapply earth_main_spec|cbv beta].
  intros e b' (-> & type & d & s1 & F & En). rewrite Z.eqb_refl.
  apply returns_bind, returns_modify. by eapply (grass_main_spec m _ _ _ _ _ _ _ type d s1 F (set_earth b' k)).
Qed.
End boot.

(** ** Boot from the image of the disk *)

(** An executable for boot as the compiler makes it. *)
Record kernel_exec (vaddr size : Z) (prog : list byte) (b0 filesz : Z) : Prop := {
  kx_elf : ∃ phoff hs memsz, elf_file prog phoff hs ∧
    only_segment hs (ProgramHeader (b0 * BLOCK_SIZE) vaddr filesz memsz);
  kx_b0 : 0 ≤ b0;
  kx_size : 0 ≤ filesz ≤ size;
  kx_end : b0 * BLOCK_SIZE + filesz ≤ Z.of_nat (length prog);
}.

Lemma padded_slice (l z : list byte) :
  BLOCK_SIZE ≤ Z.of_nat (length l) → slice (l ++ z) 0 = slice l 0.
Proof.
  intros Hl. unfold slice. rewrite !drop_0. rewrite take_app_le; [done|].
  change nbytes with 512%nat. change BLOCK_SIZE with 512 in Hl. lia.
Qed.

Lemma padded_exec vaddr size start prog b0 filesz file :
  kernel_exec vaddr size prog b0 filesz → exec_segment prog = Some file →
  GRASS_EXEC_START ≤ start ≤ DISK_BLOCKS - exec_size / BLOCK_SIZE →
  boot_file vaddr size start file b0 filesz.
Proof.
  intros [(phoff & hs & memsz & [E1 E2 E3 E4 E5] & Hs) K2 K3 K4] Hf Hst. unfold exec_segment in Hf.
  destruct (_ && _) eqn:Eb; [|done]. apply andb_true_iff in Eb as [_ Eb%Z.leb_le].
  injection Hf as <-. set (z := replicate _ _).
  assert (Hl : Z.of_nat (length (prog ++ z)) = exec_size).
  { unfold z. rewrite length_app, length_replicate. lia. }
  split; [|done|done|..].
  - exists phoff, hs, memsz. split; [|done]. split; rewrite ?padded_slice by done; try done.
    rewrite Hl. unfold exec_size. by vm_compute.
  - rewrite Hl. unfold nblk. revert K4 Eb. change exec_size with (256 * 512). change BLOCK_SIZE with 512.
    clear -K3 K2. intros. Z.to_euclidean_division_equations. lia.
  - rewrite Hl. lia.
Qed.

(** The blocks of the image [x] from [start] on are the executable [file]. *)
Definition segment_in (x : list byte) (start : Z) (file : list byte) : Prop :=
  ∀ n, 0 ≤ n → (n + 1) * BLOCK_SIZE ≤ Z.of_nat (length file) →
    0 ≤ start + n < GRASS_FS_START ∧ slice x (start + n) = slice file n.

Lemma image_segments host x m :
  Z.of_nat (length x) = DISK_BLOCKS * BLOCK_SIZE → m = disk_of DISK_BLOCKS (slice x) →
  (∀ (d : gmap Z block) m, sd_holds (sd := mem_sd) (size := DISK_BLOCKS) d m →
     (∀ b, 0 ≤ b < DISK_BLOCKS → m !!! b = slice x b) →
     (∀ i f, kernel_processes !! i = Some f → ∃ seg start, exec_segment (host f) = Some seg ∧
        exec_starts !! i = Some start ∧ on_card mem_sd start seg d) ∧
     ∃ fs room, card_files m fs room ∧
       ∀ ino c, contents !! ino = Some c → ∃ f, fs !! ino = Some f ∧ file_holds host c f) →
  ∀ i f, kernel_processes !! i = Some f → ∃ seg start,
    exec_segment (host f) = Some seg ∧ exec_starts !! i = Some start ∧ segment_in x start seg.
Proof.
  intros Hx Hm H i f Hi.
  destruct (H m m) as [Hk _].
  { split; [done|]. intros b Hb. subst m. rewrite disk_of_lookup by done. apply slice_wf; [lia|].
    rewrite Hx. change BLOCK_SIZE with 512. change DISK_BLOCKS with 8192 in *. lia. }
  { intros b Hb. subst m. by apply disk_of_lookup. }
  destruct (Hk i f Hi) as (seg & start & E1 & E2 & c & [<- _] & Hc). exists seg, start.
  split; [done|]. split; [done|]. intros n H0 Hn.
  assert (Hs : 2048 ≤ start ≤ 3072).
  { assert (Hst : Forall (λ start, 2048 ≤ start ≤ 3072) exec_starts) by (by repeat constructor).
    by eapply Forall_lookup_1 in Hst. }
  assert (Hseg : Z.of_nat (length seg) ≤ exec_size).
  { unfold exec_segment in E1. destruct (_ && _) eqn:Eb; [|done].
    apply andb_true_iff in Eb as [_ Eb%Z.leb_le]. injection E1 as <-.
    rewrite length_app, length_replicate. lia. }
  assert (Hr : 0 ≤ start + n < GRASS_FS_START).
  { change GRASS_FS_START with 4096. change BLOCK_SIZE with 512 in Hn. change exec_size with 131072 in Hseg. lia. }
  split; [done|]. rewrite <-(Hc n H0 Hn). subst m. rewrite disk_of_lookup; [done|].
  change DISK_BLOCKS with 8192. change GRASS_FS_START with 4096 in Hr. lia.
Qed.

(** The disk that may be chosen holds the image [x]. *)
Definition disk_holds {H} `{!Mmio H} (C : setting) (m : gmap Z block) (x : list byte) : Prop :=
  ∀ b, 0 ≤ b < DISK_BLOCKS →
    (may_choose (H := H) C SD_CARD → m !!! b = slice x b) ∧
    (may_choose (H := H) C FLASH_ROM →
       rom_bytes (rom C) (DISK_ROM_BASE + b * BLOCK_SIZE) BLOCK_SIZE = slice x b).

Lemma segment_stored {H} `{!Mmio H} (C : setting) m x start file type :
  disk_holds (H := H) C m x → segment_in x start file → may_choose (H := H) C type →
  stored (rom C) m type start file.
Proof.
  intros Hd Hs Hc. destruct type; intros n H0 Hn; destruct (Hs n H0 Hn) as [Hr <-];
    (apply (Hd (start + n)); [|done]); change DISK_BLOCKS with 8192; change GRASS_FS_START with 4096 in Hr; lia.
Qed.

Lemma exec_ranges :
  (GRASS_EXEC_START ≤ GRASS_EXEC_START ≤ DISK_BLOCKS - exec_size / BLOCK_SIZE) ∧
  (GRASS_EXEC_START ≤ SYS_PROC_EXEC_START ≤ DISK_BLOCKS - exec_size / BLOCK_SIZE).
Proof. by vm_compute. Qed.

Lemma boot_from_image {H D B K : Type} `{!Mmio H, !Uart H, !PlicRegs H, !Stdio B, !StdioLaws B}
    `{!Mmio D, !Mmio8 D, !SpiSlave K, HP : !SpiPort D K, HC : !SdProto K SDv2_high DISK_BLOCKS}
    (C : setting) `{HS : !SdCard (spi_sd (H := D) (fuel C)) DISK_BLOCKS} (gp pp gf pf x : list byte)
    (gb gs pb ps : Z) (k : kernel (board H D B)) (m : gmap Z block) :
  kernel_exec GRASS_ENTRY GRASS_SIZE gp gb gs → kernel_exec APPS_ENTRY APPS_SIZE pp pb ps →
  exec_segment gp = Some gf → exec_segment pp = Some pf →
  segment_in x GRASS_EXEC_START gf → segment_in x SYS_PROC_EXEC_START pf →
  set_up (H := H) (D := D) (K := K) C → at_reset (K := K) C (earth k) m → disk_holds (H := H) C m x →
  returns (boot C) k (λ a0 k', a0 = APPS_ARG ∧ booted C m gf gb gs pf pb ps (earth k) k').
Proof.
  intros Kg Kp Eg Ep Sg Sp Hset Hreset Hdisk. apply (boot_spec C k m gf gb gs pf pb ps Hset Hreset). split.
  - apply (padded_exec _ _ _ _ _ _ _ Kg Eg (proj1 exec_ranges)).
  - apply (padded_exec _ _ _ _ _ _ _ Kp Ep (proj2 exec_ranges)).
  - intros type Hc. split; [exact (segment_stored C m x _ gf type Hdisk Sg Hc)|].
    exact (segment_stored C m x _ pf type Hdisk Sp Hc).
Qed.

(** C7: From the files of the compiler to the first process.  [mkfs] builds an
    image; on a board whose SD card or flash memory holds it the boot sequence runs
    from reset to the entry of the process server, whatever the delays of the UART,
    the SPI controller and the card and whatever the user types before the answers.
    Then memory holds the kernel at [GRASS_ENTRY] and the process server at
    [APPS_ENTRY], each with zeros after the bytes of its file, and an empty argument
    list; the process server is the one process, running, in its own address space;
    the frame table and the page cache satisfy their invariant; addresses are
    translated as chosen; the kernel's handlers are registered and timer, software
    and UART interrupts are enabled; all messages have been sent and nothing is
    buffered. *)
Theorem image_boots {H D B K : Type} `{!Mmio H, !Uart H, !PlicRegs H, !Stdio B, !StdioLaws B}
    `{!Mmio D, !Mmio8 D, !SpiSlave K, HP : !SpiPort D K, HC : !SdProto K SDv2_high DISK_BLOCKS}
    (C : setting) `{HS : !SdCard (spi_sd (H := D) (fuel C)) DISK_BLOCKS}
    (host : string → list byte) (uninit : block) (buf : list byte)
    (gb gs pb ps : Z) :
  wf_block uninit → Z.of_nat (length buf) = exec_size →
  Forall (λ f, 0 < Z.of_nat (length (host f)) ≤ exec_size) kernel_processes →
  Forall (file_fits host) contents → (10 * cost host contents ≤ 4093)%nat →
  kernel_exec GRASS_ENTRY GRASS_SIZE (host "../build/release/grass.elf"%string) gb gs →
  kernel_exec APPS_ENTRY APPS_SIZE (host "../build/release/sys_proc.elf"%string) pb ps →
  set_up (H := H) (D := D) (K := K) C →
  ∃ img x gf pf, mkfs host uninit buf (demo_ram 4096) = Ret tt img ∧ disk_image host img = Some x ∧
    exec_segment (host "../build/release/grass.elf"%string) = Some gf ∧
    exec_segment (host "../build/release/sys_proc.elf"%string) = Some pf ∧
    Z.of_nat (length x) = DISK_BLOCKS * BLOCK_SIZE ∧
    ∀ (k : kernel (board H D B)) (m : gmap Z block),
      at_reset (K := K) C (earth k) m → disk_holds (H := H) C m x →
      returns (boot C) k (λ a0 k', a0 = APPS_ARG ∧ booted C m gf gb gs pf pb ps (earth k) k').
Proof.
  intros Hu Hb Hk Hf Hcost Kg Kp Hset.
  destruct (disk_image_spec' mem_sd host uninit buf Hu Hb Hk Hf Hcost) as (img & x & E1 & E2 & Hx & Hd).
  pose proof (image_segments host x _ Hx eq_refl Hd) as Hseg.
  destruct (Hseg 0%nat _ eq_refl) as (gf & g0 & Eg & Eg0 & Sg).
  destruct (Hseg 1%nat _ eq_refl) as (pf & p0 & Ep & Ep0 & Sp).
  injection Eg0 as <-. injection Ep0 as <-. exists img, x, gf, pf.
  split; [done|]. split; [done|]. split; [done|]. split; [done|]. split; [done|].
  intros k m Hreset Hdisk. exact (boot_from_image C _ _ gf pf x gb gs pb ps k m Kg Kp Eg Ep Sg Sp Hset Hreset Hdisk).
Qed.

(** A board with the console of BootDemo.v and the card of SdDemo.v, and an
    image whose programs are small. *)
#[local] Existing Instances hc_slave hc_mmio8 hc_port hc_proto.

Definition demo_setting (misa : Z) : setting :=
  Setting 3 3 1 misa 65000000 (λ _, Byte.x00) Z.of_nat (Symbols 0x80000000 0x80000100 0x80400000 0x80400100).
#[export] Instance demo_sd misa : SdCard (spi_sd (H := port) (fuel (demo_setting misa))) DISK_BLOCKS :=
  let patient := demo_patient in
  spi_sd_card (C := card) 3 (proj1 patient) (proj1 (proj2 patient))
    (proj1 (proj2 (proj2 patient))) eq_refl.

Definition demo_release (path : string) : list byte :=
  demo_elf (if String.eqb path "../build/release/grass.elf" then GRASS_ENTRY else APPS_ENTRY) 300.

Definition demo_board (m : gmap Z block) : kernel (board desk port (list Z)) :=
  let empty := TtyBuff [] 0 0 0 in
  Kernel [] 0 0 (KernelMsg 0 0 0 [])
    (Board (Tty empty empty 0 false (Desk [] [] 0 false 0 false)) [] QEMU FLASH_ROM SD_TYPE_UNKNOWN
      (PtState (Mmu [] 0 [] (λ _, zero_page) (fresh_port m) 0) 0 0 [] 0 0 0 SOFT_TLB)
      (Timer 0 0 []) 0 0 0 0 0 0).

Lemma demo_kernel_exec vaddr size :
  vaddr = APPS_ENTRY ∨ vaddr = GRASS_ENTRY → 300 ≤ size → kernel_exec vaddr size (demo_elf vaddr 300) 1 300.
Proof.
  intros Hv Hsize. destruct (demo_elf_ok vaddr 300) as (He & Hs & Hl).
  { destruct Hv as [->| ->]; auto. }
  split; [by exists 52, (demo_headers vaddr 300), 300|done|lia|by rewrite Hl].
Qed.

Lemma demo_set_up misa : set_up (H := desk) (D := port) (K := card) (demo_setting misa).
Proof.
  split; [simpl; lia|exact demo_patient| |simpl; lia|done].
  intros h. destruct (desk_answers h) as [h' E]. by exists 0x30, h'.
Qed.

Lemma demo_choice misa type : may_choose (H := desk) (demo_setting misa) type → type = SD_CARD.
Proof.
  intros (h & c & h' & E & ->). destruct (desk_answers h) as [h1 E1].
  unfold polls, rounds, demo_setting in E. rewrite E1 in E. injection E as <- _. done.
Qed.

Lemma demo_reset misa m : disk_wf DISK_BLOCKS m → at_reset (K := card) (demo_setting misa) (earth (demo_board m)) m.
Proof.
  intros Hm. split; [simpl; lia|done| |done| |].
  - intros _. exists (fresh_card m). split; [apply fresh_quiet|by apply fresh_powered].
  - intros n. cbn [demo_board earth paging vm mem]. apply length_replicate.
  - intros _ Hc. by apply demo_choice in Hc.
Qed.

Lemma image_boots_witness : ∃ m gf pf, exec_segment (demo_elf GRASS_ENTRY 300) = Some gf ∧
  exec_segment (demo_elf APPS_ENTRY 300) = Some pf ∧
  returns (boot (demo_setting 0)) (demo_board m) (λ a0 k', a0 = APPS_ARG ∧
    booted (demo_setting 0) m gf 1 300 pf 1 300 (earth (demo_board m)) k').
Proof.
  destruct (image_boots (H := desk) (D := port) (B := list Z) (K := card) (demo_setting 0) demo_release null_block
    (replicate (Z.to_nat exec_size) Byte.x00) 1 300 1 300) as (img & x & gf & pf & _ & _ & Eg & Ep & Hx & H).
  - reflexivity.
  - rewrite length_replicate, Z2Nat.id; [reflexivity|by vm_compute].
  - repeat constructor; by vm_compute.
  - repeat constructor; by vm_compute.
  - apply Nat.leb_le. vm_compute. reflexivity.
  - apply demo_kernel_exec; [by right|by vm_compute].
  - apply demo_kernel_exec; [by left|by vm_compute].
  - exact (demo_set_up 0).
  - set (m := disk_of DISK_BLOCKS (slice x)). exists m, gf, pf. split; [exact Eg|]. split; [exact Ep|].
    apply (H (demo_board m) m).
    + apply (demo_reset 0). intros b Hb. unfold m. rewrite disk_of_lookup by exact Hb.
      apply slice_wf; [lia|]. rewrite Hx. change BLOCK_SIZE with 512. change DISK_BLOCKS with 8192 in *. lia.
    + intros b Hb. split; [intros _; by apply disk_of_lookup|]. intros Hc. by apply demo_choice in Hc.
Defined.
