(* ===== verification/Libc.v ===== *)
(** * Hooks of the C library

    library/libc/malloc.c and library/libc/print.c: what the C library calls to
    grow the heap and to write.  [malloc] itself is the C library's and is an
    argument where it is used; so are the symbols [__heap_start] and [__heap_end]
    of the linker. *)

From coqutil Require Import Byte.
From S2P Require Import Prelude Layout Earth Paging User Servers.

(** ** library/libc/malloc.c *)

Section malloc.
Context {S : Type} (platform : platform_id) (heap_end : Z).
(** [earth->tty_write] *)
Context (tty_write : string → Z → M S Z).
(** A store of the processor: the address and the value.  What the one to
    0xFFFFFFF0 does is the business of the machine and of the trap handler. *)
Context (store : Z → Z → M S unit).

(** [brk], beside the state of the tty. *)
Definition heap : Type := Z * S.

Definition on_tty {A} (m : M S A) : M heap A := λ h,
  match m h.2 with
  | Ret a s => Ret a (h.1, s)
  | Fatal w s => Fatal w (h.1, s)
  | Undef w => Undef w
  | Spin => Spin
  end.

Definition heap_limit : Z :=
  match platform with QEMU => 0xa000000 | ARTY => heap_end end.

(** Pointers have 32 bits. *)
Definition _sbrk (size : Z) : M heap Z :=
  brk ← gets fst;
  _ ← (if heap_limit <? u32 (brk + size) then
         _ ← on_tty (tty_write "_sbrk: heap grows too large\r\n" 29);
         on_tty (store 0xFFFFFFF0 1)
       else mret tt);
  _ ← modify (λ h, (u32 (brk + size), h.2));
  mret brk.

(** A sequence of calls, and the blocks they give. *)
Fixpoint sbrks (sizes : list Z) : M heap (list Z) :=
  match sizes with
  | [] => mret []
  | n :: sizes => a ← _sbrk n; l ← sbrks sizes; mret (a :: l)
  end.

(** ** apps/user/crash1.c *)

Definition crash1 (malloc : Z → M heap Z) : M heap unit :=
  _ ← malloc (32 * 1024 * 1024); mret tt.
End malloc.

(** ** library/libc/print.c *)

Section print.
Context {D : Type} (tty_write_kernel : Z → Z → M D Z).

Definition STDOUT_FILENO : Z := 1.

(** In the kernel's mode the tty is called, in the user's mode the system. *)
Definition libc_write (is_kernel : bool) (file ptr len : Z) : U D Z :=
  if negb (file =? STDOUT_FILENO) then mret (-1)
  else if is_kernel then act (tty_write_kernel ptr len)
  else _write ptr len.

Definition _close (file : Z) : U D Z := mret (-1).
Definition _fstat (file stat : Z) : U D Z := mret (-1).
Definition _lseek (file ptr dir : Z) : U D Z := mret (-1).
Definition _read (file ptr len : Z) : U D Z := mret (-1).
Definition _isatty (file : Z) : U D Z := mret (if file =? STDOUT_FILENO then 1 else 0).
Definition _kill : U D unit := mret tt.
Definition _getpid : U D Z := mret (-1).
Definition _exit (junk : list byte) (status : Z) : U D unit :=
  _ ← sys_exit junk status; halt "exit".
End print.

(** ** The heap stays where it belongs *)

(** Where consecutive blocks of the given sizes start. *)
Fixpoint starts_at (a : Z) (sizes : list Z) : list Z :=
  match sizes with
  | [] => []
  | n :: sizes => a :: starts_at (a + n) sizes
  end.
Definition total (sizes : list Z) : Z := foldr Z.add 0 sizes.

Lemma total_nonneg sizes : Forall (λ n, 0 ≤ n < 2 ^ 31) sizes → 0 ≤ total sizes.
Proof. induction 1 as [|n l Hn _ IH]; unfold total in *; cbn [foldr]; lia. Qed.

(** A call that has room gives the old break; one that has none writes its
    message, makes the store, and goes on where the store does. *)
Section sbrk.
Context {S : Type} (platform : platform_id) (heap_end : Z).
Context (tty_write : string → Z → M S Z) (store : Z → Z → M S unit).
Local Abbreviation limit := (heap_limit platform heap_end).
Local Abbreviation sbrk := (_sbrk platform heap_end tty_write store).

Lemma sbrk_fits brk s n :
  is_u32 (brk + n) → brk + n ≤ limit → sbrk n (brk, s) = Ret brk (brk + n, s).
Proof.
  intros Hr Hn. unfold _sbrk. mstep. cbn [fst]. rewrite u32_small, (proj2 (Z.ltb_ge _ _)) by done.
  reflexivity.
Qed.

Lemma sbrk_overruns brk s n r s1 :
  is_u32 (brk + n) → limit < brk + n →
  tty_write "_sbrk: heap grows too large\r\n" 29 s = Ret r s1 →
  sbrk n (brk, s) = match store 0xFFFFFFF0 1 s1 with
                    | Ret _ s2 => Ret brk (brk + n, s2)
                    | Fatal w s2 => Fatal w (brk, s2)
                    | Undef w => Undef w
                    | Spin => Spin
                    end.
Proof.
  intros Hr Hn E. unfold _sbrk. mstep. cbn [fst]. rewrite u32_small, (proj2 (Z.ltb_lt _ _)) by done.
  unfold on_tty, mbind, M_bind. cbn [fst snd]. rewrite E. cbn [fst snd]. by destruct (store _ _ s1).
Qed.

Lemma sbrks_fit sizes : ∀ brk s,
  Forall (λ n, 0 ≤ n < 2 ^ 31) sizes → 0 ≤ brk → brk + total sizes ≤ limit → limit ≤ 2 ^ 31 →
  sbrks platform heap_end tty_write store sizes (brk, s) =
    Ret (starts_at brk sizes) (brk + total sizes, s).
Proof.
  induction sizes as [|n sizes IH]; intros brk s Hf Hb Ht Hl.
  { unfold total. cbn. by rewrite Z.add_0_r. }
  apply Forall_cons in Hf as [Hn Hf]. pose proof (total_nonneg _ Hf).
  change (total (n :: sizes)) with (n + total sizes) in *. cbn [sbrks starts_at].
  mrun (sbrk_fits brk s n ltac:(unfold is_u32; lia) ltac:(lia)).
  mrun (IH (brk + n) s Hf ltac:(lia) ltac:(lia) Hl). by rewrite Z.add_assoc.
Qed.

Lemma sbrks_app l1 l2 h :
  sbrks platform heap_end tty_write store (l1 ++ l2) h =
    (a ← sbrks platform heap_end tty_write store l1; b ← sbrks platform heap_end tty_write store l2;
     mret (a ++ b)) h.
Proof.
  revert h. induction l1 as [|n l1 IH]; intros h; cbn [sbrks app].
  - unfold mbind, M_bind, mret, M_ret. by destruct (sbrks _ _ _ _ l2 h).
  - unfold mbind, M_bind, mret, M_ret in *. destruct (sbrk n h) as [a h1| | |]; [|done..].
    rewrite IH. destruct (sbrks _ _ _ _ l1 h1) as [? h2| | |]; [|done..].
    by destruct (sbrks _ _ _ _ l2 h2).
Qed.
End sbrk.

Lemma starts_at_min l : ∀ x j b,
  Forall (λ n, 0 ≤ n < 2 ^ 31) l → starts_at x l !! j = Some b → x ≤ b.
Proof.
  induction l as [|k l IH]; intros x j b Hl Hb; [done|]. apply Forall_cons in Hl as [Hk Hl].
  destruct j as [|j]; cbn in Hb; [by injection Hb as <-|]. specialize (IH (x + k) j b Hl Hb). lia.
Qed.

Lemma starts_at_apart sizes : ∀ a0 limit i a m,
  Forall (λ n, 0 ≤ n < 2 ^ 31) sizes → a0 + total sizes ≤ limit →
  starts_at a0 sizes !! i = Some a → sizes !! i = Some m →
  a0 ≤ a ∧ a + m ≤ limit ∧ ∀ j b, (i < j)%nat → starts_at a0 sizes !! j = Some b → a + m ≤ b.
Proof.
  induction sizes as [|n sizes IH]; intros a0 limit i a m Hf Hle Ha Hm; [done|].
  apply Forall_cons in Hf as [Hn Hf]. pose proof (total_nonneg _ Hf).
  change (total (n :: sizes)) with (n + total sizes) in Hle. destruct i as [|i]; cbn in Ha, Hm.
  - injection Ha as <-. injection Hm as <-. split; [lia|]. split; [lia|].
    intros [|j] b Hj Hb; [lia|]. cbn in Hb. by eapply starts_at_min.
  - destruct (IH (a0 + n) limit i a m Hf ltac:(lia) Ha Hm) as (H1 & H2 & H3). split; [lia|].
    split; [done|]. intros [|j] b Hj Hb; [lia|]. apply (H3 j); [lia|done].
Qed.

(** C37: The heap, on both platforms.  Requests of non-negative sizes that have room
    get blocks that lie one after the other from [__heap_start], apart from each
    other and below the limit.  The first request without room has its message
    written and the store to 0xFFFFFFF0 made, with the break still where the
    granted blocks end; if that store does not come back, this is the end of the
    sequence; if it does, the call goes on and gives a block that ends above the
    limit.  A negative request that leaves the break non-negative is always
    granted: no lower bound is checked. *)
Theorem sbrk_within_heap {S} (platform : platform_id) (heap_start heap_end : Z)
    (tty_write : string → Z → M S Z) (store : Z → Z → M S unit) (sizes : list Z) (s : S) :
  let limit := heap_limit platform heap_end in
  let run := sbrks platform heap_end tty_write store in
  Forall (λ n, 0 ≤ n < 2 ^ 31) sizes → 0 ≤ heap_start → heap_start + total sizes ≤ limit →
  limit ≤ 2 ^ 31 →
  let brk := heap_start + total sizes in
  (run sizes (heap_start, s) = Ret (starts_at heap_start sizes) (brk, s) ∧
   ∀ i a n, starts_at heap_start sizes !! i = Some a → sizes !! i = Some n →
     heap_start ≤ a ∧ a + n ≤ limit ∧
     ∀ j b, (i < j)%nat → starts_at heap_start sizes !! j = Some b → a + n ≤ b) ∧
  (∀ n later r s1, limit < brk + n → n < 2 ^ 31 →
     tty_write "_sbrk: heap grows too large\r\n" 29 s = Ret r s1 →
     run (sizes ++ n :: later) (heap_start, s) =
       match store 0xFFFFFFF0 1 s1 with
       | Ret _ s2 => (l ← run later; mret (starts_at heap_start sizes ++ brk :: l)) (brk + n, s2)
       | Fatal w s2 => Fatal w (brk, s2)
       | Undef w => Undef w
       | Spin => Spin
       end) ∧
  ∀ n, n < 0 → 0 ≤ brk + n →
    _sbrk platform heap_end tty_write store n (brk, s) = Ret brk (brk + n, s).
Proof.
  intros limit run Hf Hs Ht Hl brk. pose proof (total_nonneg _ Hf).
  pose proof (sbrks_fit platform heap_end tty_write store sizes heap_start s Hf Hs Ht Hl) as E.
  split_and!.
  - exact E.
  - intros i a n. by apply starts_at_apart.
  - intros n later r s1 Hn Hn' Ew. unfold run. rewrite sbrks_app. mrun E. cbn [sbrks].
    assert (Hr : is_u32 (brk + n)) by (unfold is_u32; unfold limit, brk in *; lia).
    pose proof (sbrk_overruns platform heap_end tty_write store brk s n r s1 Hr Hn Ew) as E1.
    unfold mbind, M_bind, mret, M_ret. unfold brk in *. rewrite E1.
    destruct (store _ _ s1); [|done..]. by destruct (sbrks _ _ _ _ later _).
  - intros n Hn H0. apply sbrk_fits; unfold is_u32, limit, brk in *; lia.
Qed.

(** An application on the Arty board whose heap starts at 0x08007000, on a
    machine that stops at the store; and one that runs on. *)
Lemma sbrk_within_heap_witness :
  let tw := λ _ _, mret 0 : M unit Z in
  sbrks ARTY 0x08008000 tw (λ _ _, fatal "memory exception") [0x400; 0x800; 0x800] (0x08007000, tt) =
    Fatal "memory exception" (0x08007c00, tt) ∧
  sbrks ARTY 0x08008000 tw (λ _ _, mret tt) [0x400; 0x800; 0x800] (0x08007000, tt) =
    Ret [0x08007000; 0x08007400; 0x08007c00] (0x08008400, tt).
Proof.
  intros tw. split.
  - assert (H : Forall (λ n, 0 ≤ n < 2 ^ 31) [0x400; 0x800]) by (repeat constructor; done).
    apply (proj1 (proj2 (sbrk_within_heap ARTY 0x08007000 0x08008000 tw (λ _ _, fatal "memory exception")
      [0x400; 0x800] tt H ltac:(done) ltac:(done) ltac:(done))) 0x800 [] 0 tt); done.
  - assert (H : Forall (λ n, 0 ≤ n < 2 ^ 31) [0x400; 0x800]) by (repeat constructor; done).
    apply (proj1 (proj2 (sbrk_within_heap ARTY 0x08007000 0x08008000 tw (λ _ _, mret tt)
      [0x400; 0x800] tt H ltac:(done) ltac:(done) ltac:(done))) 0x800 [] 0 tt); done.
Defined.

(** crash1 gets to the store, wherever the heap of an application starts: a
    [malloc] that has too little memory asks for at least what it needs.  Where
    the store stops the program, [main] does not return. *)
Lemma crash1_stops {S} (platform : platform_id) (tty_write : string → Z → M S Z)
    (store : Z → Z → M S unit) (malloc : Z → M (heap (S := S)) Z) (brk : Z) (s s1 s2 : S) r w :
  APPS_ENTRY ≤ brk ≤ 0x08008000 →
  tty_write "_sbrk: heap grows too large\r\n" 29 s = Ret r s1 →
  store 0xFFFFFFF0 1 s1 = Fatal w s2 →
  (∀ n h, ∃ n' k, n ≤ n' < 2 ^ 31 ∧
     malloc n h = (a ← _sbrk platform 0x08008000 tty_write store n'; k a) h) →
  crash1 malloc (brk, s) = Fatal w (brk, s2).
Proof.
  intros Hb Ew Es Hm. change APPS_ENTRY with 0x08005000 in Hb.
  destruct (Hm (32 * 1024 * 1024) (brk, s)) as (n' & k & Hn & E).
  unfold crash1. unfold mbind at 1, M_bind at 1. rewrite E. unfold mbind at 1, M_bind at 1.
  rewrite (sbrk_overruns platform 0x08008000 tty_write store brk s n' r s1); [by rewrite Es|..|done].
  - unfold is_u32. lia.
  - unfold heap_limit. destruct platform; lia.
Qed.
