(* ===== verification/Context.v ===== *)
(** * Saving and restoring contexts

    The assembly code of earth/earth.s and grass/grass.s around the kernel: the
    entry of a trap, which saves the registers below the stack of the interrupted
    code, and [ctx_jump], which restores them.  The programs are lists of
    instructions on the registers, the control registers and the memory of a
    32-bit machine. *)

From coqutil Require Import Byte Word.LittleEndianList.
From S2P Require Import Prelude Layout.

Inductive reg :=
| ra | sp | gp | tp
| t0 | t1 | t2 | t3 | t4 | t5 | t6
| s0 | s1 | s2 | s3 | s4 | s5 | s6 | s7 | s8 | s9 | s10 | s11
| a0 | a1 | a2 | a3 | a4 | a5 | a6 | a7.
#[export] Instance reg_eq_dec : EqDecision reg.
Proof. solve_decision. Defined.

Record cpu := Cpu {
  regs : reg → Z;
  mscratch : Z;
  mepc : Z;
  mstatus : Z;
  memory : Z → byte;
}.

Definition set_reg (r : reg) (v : Z) (c : cpu) : cpu :=
  Cpu (λ x, if decide (x = r) then v else regs c x) (mscratch c) (mepc c) (mstatus c) (memory c).
Definition set_mscratch (v : Z) (c : cpu) : cpu := Cpu (regs c) v (mepc c) (mstatus c) (memory c).
Definition set_mstatus (v : Z) (c : cpu) : cpu := Cpu (regs c) (mscratch c) (mepc c) v (memory c).
Definition set_memory (m : Z → byte) (c : cpu) : cpu :=
  Cpu (regs c) (mscratch c) (mepc c) (mstatus c) m.

(** Words of memory; addresses wrap around. *)
Definition load_word (m : Z → byte) (a : Z) : Z :=
  le_combine ((λ i, m (u32 (a + Z.of_nat i))) <$> seq 0 4).
Definition store_word (a v : Z) (m : Z → byte) : Z → byte := λ b,
  let o := u32 (b - a) in if o <? 4 then nth (Z.to_nat o) (le_split 4 v) Byte.x00 else m b.

Inductive instr :=
| Sw (r : reg) (off : Z) (base : reg)
| Lw (r : reg) (off : Z) (base : reg)
| Addi (r src : reg) (imm : Z)
| Lui (r : reg) (imm : Z)
| Li (r : reg) (imm : Z)
| Csrw_mscratch (r : reg)
| Csrr_mscratch (r : reg)
| Csrrw_mscratch (r src : reg)
| Csrs_mstatus (r : reg)
| Csrc_mstatus (r : reg).

Definition exec1 (i : instr) (c : cpu) : cpu :=
  match i with
  | Sw r off b => set_memory (store_word (u32 (regs c b + off)) (regs c r) (memory c)) c
  | Lw r off b => set_reg r (load_word (memory c) (u32 (regs c b + off))) c
  | Addi r s imm => set_reg r (u32 (regs c s + imm)) c
  | Lui r imm => set_reg r (u32 (Z.shiftl imm 12)) c
  | Li r imm => set_reg r (u32 imm) c
  | Csrw_mscratch r => set_mscratch (regs c r) c
  | Csrr_mscratch r => set_reg r (mscratch c) c
  | Csrrw_mscratch r s => set_reg r (mscratch c) (set_mscratch (regs c s) c)
  | Csrs_mstatus r => set_mstatus (Z.lor (mstatus c) (regs c r)) c
  | Csrc_mstatus r => set_mstatus (Z.land (mstatus c) (Z.lnot (regs c r))) c
  end.
Definition exec (p : list instr) (c : cpu) : cpu := foldl (flip exec1) c p.

(** ** earth/earth.s *)

(** The registers that are stored, with their offsets, in the order of the code. *)
Definition saved : list (reg * Z) :=
  [(ra, 108); (a7, 104); (a6, 100); (a5, 96); (a4, 92); (a3, 88); (a2, 84); (a1, 80); (a0, 76);
   (t6, 72); (t5, 68); (t4, 64); (t3, 60); (t2, 56); (t1, 52);
   (s11, 44); (s10, 40); (s9, 36); (s8, 32); (s7, 28); (s6, 24); (s5, 20); (s4, 16); (s3, 12);
   (s2, 8); (s1, 4); (s0, 0)].

Definition TRAP_START : list instr :=
  [Csrw_mscratch sp; Lui sp 0x80004; Addi sp sp (-0x80); Csrrw_mscratch t0 t0; Addi t0 t0 (-116)] ++
  ((λ x, Sw x.1 x.2 t0) <$> saved) ++
  [Csrr_mscratch t1; Sw t1 48 t0; Csrw_mscratch t0].

(** They end with a jump to [trap_entry]. *)
Definition trap_entry_start : list instr := TRAP_START.
Definition trap_entry_vm : list instr :=
  [Csrw_mscratch t0; Li t0 0x20800; Csrs_mstatus t0; Csrr_mscratch t0] ++ TRAP_START.

(** Up to the call of [main]. *)
Definition earth_entry : list instr := [Li t0 0x8; Csrc_mstatus t0; Li sp 0x80003f80].

(** ** grass/grass.s *)

Definition grass_entry : list instr := [Li sp 0x80003f80].

(** The registers that are loaded, with their offsets. *)
Definition restored : list (reg * Z) :=
  [(ra, 108); (a7, 104); (a6, 100); (a5, 96); (a4, 92); (a3, 88); (a2, 84); (a1, 80); (a0, 76);
   (t6, 72); (t5, 68); (t4, 64); (t3, 60); (t2, 56); (t1, 52); (t0, 48);
   (s11, 44); (s10, 40); (s9, 36); (s8, 32); (s7, 28); (s6, 24); (s5, 20); (s4, 16); (s3, 12);
   (s2, 8); (s1, 4); (s0, 0)].

(** Up to [mret]: the program goes on at [mepc]. *)
Definition ctx_jump : list instr :=
  [Csrr_mscratch sp] ++
  ((λ x, Lw x.1 x.2 sp) <$> restored) ++
  [Addi sp sp 116].

(** ** apps/app.s *)

(** Up to the call of [main]: [argc] is in [a0], [argv] stays in [a1]. *)
Definition app_entry : list instr := [Lw a0 0 a0; Li sp 0x80002000].
