(* ===== verification/ContextCorrect.v ===== *)
(** * Contexts survive traps

    What the entry of a trap stores is what [ctx_jump] loads: a program that was
    interrupted goes on with its registers. *)

From coqutil Require Import Byte Word.LittleEndianList.
From S2P Require Import Prelude Layout Context.

(** ** Words of memory *)

Lemma load_word_ext (m m' : Z → byte) a :
  (∀ i, 0 ≤ i < 4 → m' (u32 (a + i)) = m (u32 (a + i))) → load_word m' a = load_word m a.
Proof.
  intros H. unfold load_word. f_equal. apply list_fmap_ext. intros i j Hj.
  apply lookup_seq in Hj as [-> Hi]. apply H. lia.
Qed.

Lemma load_store_same a v m : is_u32 v → load_word (store_word a v m) a = v.
Proof.
  intros Hv. rewrite <-(u32_small v Hv) at 2. unfold u32. change (2 ^ 32) with (2 ^ (Z.of_nat 4 * 8)).
  rewrite <-le_combine_split. unfold load_word. f_equal. unfold store_word.
  assert (Ho : ∀ i, 0 ≤ i < 4 → u32 (u32 (a + i) - a) = i).
  { intros i Hi. unfold u32. rewrite Zminus_mod_idemp_l. rewrite Z.add_simpl_l.
    apply Z.mod_small. lia. }
  cbn [seq fmap list_fmap]. rewrite !Ho by lia. reflexivity.
Qed.

(** Offsets from a common base that are a word apart. *)
Lemma load_store_other base o o' v m :
  0 ≤ o < 2 ^ 31 → 0 ≤ o' < 2 ^ 31 → o + 4 ≤ o' ∨ o' + 4 ≤ o →
  load_word (store_word (u32 (base + o')) v m) (u32 (base + o)) = load_word m (u32 (base + o)).
Proof.
  intros H1 H2 H3. apply load_word_ext. intros i Hi. unfold store_word.
  rewrite (proj2 (Z.ltb_ge _ _)); [done|]. unfold u32. rewrite Zplus_mod_idemp_l, Zminus_mod.
  rewrite !Zmod_mod, <-Zminus_mod. replace (base + o + i - (base + o')) with (o + i - o') by lia.
  destruct (decide (o' ≤ o + i)).
  - rewrite Z.mod_small; lia.
  - rewrite <-(Z.mod_unique (o + i - o') (2 ^ 32) (-1) (o + i - o' + 2 ^ 32)); lia.
Qed.

(** ** The frame *)

(** The words of a frame, with their offsets from its base. *)
Definition stores (base : Z) (ws : list (Z * Z)) (m : Z → byte) : Z → byte :=
  foldl (λ m w, store_word (u32 (base + w.1)) w.2 m) m ws.

Definition apart (ws : list (Z * Z)) : Prop :=
  ∀ i j x y, i ≠ j → ws !! i = Some x → ws !! j = Some y → x.1 + 4 ≤ y.1 ∨ y.1 + 4 ≤ x.1.
Definition in_frame (ws : list (Z * Z)) : Prop := ∀ x, x ∈ ws → 0 ≤ x.1 ≤ 112 ∧ is_u32 x.2.

Lemma stores_other base ws : ∀ m o,
  in_frame ws → 0 ≤ o < 2 ^ 31 → (∀ x, x ∈ ws → o + 4 ≤ x.1 ∨ x.1 + 4 ≤ o) →
  load_word (stores base ws m) (u32 (base + o)) = load_word m (u32 (base + o)).
Proof.
  induction ws as [|w ws IH]; intros m o Hf Ho Ha; [done|]. unfold stores. cbn [foldl].
  fold (stores base ws (store_word (u32 (base + w.1)) w.2 m)). rewrite IH.
  - apply load_store_other; [done| |apply Ha; left]. destruct (Hf w); [left|]. lia.
  - intros x Hx. apply Hf. by right.
  - done.
  - intros x Hx. apply Ha. by right.
Qed.

Lemma stores_at base ws : ∀ m i x,
  in_frame ws → apart ws → ws !! i = Some x → load_word (stores base ws m) (u32 (base + x.1)) = x.2.
Proof.
  induction ws as [|w ws IH]; intros m i x Hf Ha Hi; [done|]. unfold stores. cbn [foldl].
  fold (stores base ws (store_word (u32 (base + w.1)) w.2 m)).
  assert (Hf' : in_frame ws) by (intros y Hy; apply Hf; by right).
  destruct i as [|i].
  - injection Hi as <-. destruct (Hf w) as [Ho Hv]; [left|]. rewrite stores_other; [|done|lia|].
    + by apply load_store_same.
    + intros y Hy. apply list_elem_of_lookup_1 in Hy as [j Hj]. by apply (Ha 0%nat (S j)).
  - apply (IH _ i); [done| |done]. intros i1 j1 y z Hne H1 H2. apply (Ha (S i1) (S j1)); [lia|done..].
Qed.

(** Bytes outside the frame. *)
Lemma stores_outside base ws : ∀ m b,
  in_frame ws → 116 ≤ u32 (b - base) → stores base ws m b = m b.
Proof.
  induction ws as [|w ws IH]; intros m b Hf Hb; [done|]. unfold stores. cbn [foldl].
  fold (stores base ws (store_word (u32 (base + w.1)) w.2 m)). rewrite IH; [|intros x Hx; apply Hf; by right|done].
  unfold store_word. rewrite (proj2 (Z.ltb_ge _ _)); [done|].
  destruct (Hf w) as [Ho _]; [left|]. unfold u32 in *. rewrite Zminus_mod_idemp_r.
  replace (b - (base + w.1)) with (b - base - w.1) by lia. rewrite <-Zminus_mod_idemp_l.
  pose proof (Z.mod_pos_bound (b - base) (2 ^ 32) ltac:(lia)). rewrite Z.mod_small; lia.
Qed.

(** ** The programs *)

Lemma exec_app p q c : exec (p ++ q) c = exec q (exec p c).
Proof. apply foldl_app. Qed.

Lemma exec_cons i p c : exec (i :: p) c = exec p (exec1 i c).
Proof. done. Qed.

(** A row of stores changes nothing but memory, a row of loads nothing but
    registers. *)
Lemma exec_stores b l : ∀ c,
  exec ((λ x, Sw x.1 x.2 b) <$> l) c =
  set_memory (stores (regs c b) ((λ x, (x.2, regs c x.1)) <$> l) (memory c)) c.
Proof.
  induction l as [|[r o] l IH]; intros c; [by destruct c|]. cbn [fmap list_fmap].
  rewrite exec_cons, IH. reflexivity.
Qed.

Lemma exec_loads b l : ∀ c,
  b ∉ l.*1 → NoDup l.*1 →
  let c' := exec ((λ x, Lw x.1 x.2 b) <$> l) c in
  memory c' = memory c ∧ mscratch c' = mscratch c ∧ mepc c' = mepc c ∧
  (∀ r o, (r, o) ∈ l → regs c' r = load_word (memory c) (u32 (regs c b + o))) ∧
  ∀ r, r ∉ l.*1 → regs c' r = regs c r.
Proof.
  induction l as [|[r o] l IH]; intros c Hb Hnd.
  { simpl. split_and!; try done. intros r o Hr. by apply elem_of_nil in Hr. }
  cbn [fmap list_fmap] in Hb, Hnd |- *. apply not_elem_of_cons in Hb as [Hbr Hb].
  apply NoDup_cons in Hnd as [Hr Hnd]. rewrite exec_cons. cbn [exec1 fst snd].
  set (c1 := set_reg r _ c).
  destruct (IH c1 Hb Hnd) as (E1 & E2 & E3 & E4 & E5).
  assert (Hbase : regs c1 b = regs c b) by (cbn; by rewrite decide_False).
  split_and!; [done..| |].
  - intros x y Hx. apply elem_of_cons in Hx as [Hx|Hx].
    + injection Hx as -> ->. rewrite E5 by done. cbn. by rewrite decide_True.
    + rewrite (E4 _ _ Hx), Hbase. done.
  - intros x Hx. apply not_elem_of_cons in Hx as [Hxr Hx]. rewrite E5 by done. cbn. by rewrite decide_False.
Qed.

(** The words that a trap stores. *)
Definition frame_words (c : cpu) : list (Z * Z) :=
  ((λ x, (x.2, regs c x.1)) <$> saved) ++ [(48, regs c t0)].
Definition frame_base (c : cpu) : Z := u32 (regs c sp - 116).

Definition cpu_ok (c : cpu) : Prop := ∀ r, is_u32 (regs c r).

Lemma trap_start_eq c :
  cpu_ok c → let c1 := exec TRAP_START c in
  mscratch c1 = frame_base c ∧ memory c1 = stores (frame_base c) (frame_words c) (memory c) ∧
  regs c1 sp = 0x80003f80 ∧ mepc c1 = mepc c ∧ mstatus c1 = mstatus c.
Proof.
  intros Hc. unfold TRAP_START. rewrite !exec_app. cbv zeta.
  set (c2 := exec [Csrw_mscratch sp; Lui sp _; _; _; _] c).
  assert (H2 : regs c2 t0 = frame_base c ∧ mscratch c2 = regs c t0 ∧ memory c2 = memory c ∧
    regs c2 sp = 0x80003f80 ∧ mepc c2 = mepc c ∧ mstatus c2 = mstatus c ∧
    ∀ r, r ≠ t0 → r ≠ sp → regs c2 r = regs c r).
  { split_and!; try reflexivity. intros r H1 H2. cbn. by rewrite !decide_False. }
  clearbody c2. destruct H2 as (E1 & E2 & E3 & E4 & E5 & E6 & E7).
  assert (Hw : (λ x, (x.2, regs c2 x.1)) <$> saved = (λ x, (x.2, regs c x.1)) <$> saved).
  { apply list_fmap_ext. intros i x Hx. f_equal. apply E7; intros Heq;
      do 27 (destruct i as [|i]; [injection Hx as <-; done|]); done. }
  rewrite exec_stores, E1, E3, Hw. cbn. rewrite E1, E2.
  by split_and!.
Qed.

Definition apartb (ws : list (Z * Z)) : bool :=
  forallb (λ i, forallb (λ j, (i =? j)%nat ||
    (nth i ws.*1 0 + 4 <=? nth j ws.*1 0) || (nth j ws.*1 0 + 4 <=? nth i ws.*1 0))
    (seq 0 (length ws))) (seq 0 (length ws)).
Lemma apartb_sound ws : apartb ws = true → apart ws.
Proof.
  intros H i j x y Hne Hi Hj. unfold apartb in H. rewrite forallb_forall in H.
  specialize (H i ltac:(apply in_seq; apply lookup_lt_Some in Hi; lia)). rewrite forallb_forall in H.
  specialize (H j ltac:(apply in_seq; apply lookup_lt_Some in Hj; lia)).
  rewrite !orb_true_iff, Nat.eqb_eq, !Z.leb_le in H.
  assert (Hn : ∀ k z, ws !! k = Some z → nth k ws.*1 0 = z.1).
  { intros k z Hk. rewrite nth_lookup, list_lookup_fmap, Hk. done. }
  rewrite (Hn i x Hi), (Hn j y Hj) in H. tauto.
Qed.

Lemma frame_words_apart c : apart (frame_words c).
Proof. apply apartb_sound. reflexivity. Qed.

Lemma frame_words_in c : cpu_ok c → in_frame (frame_words c).
Proof.
  intros Hc x Hx. unfold frame_words in Hx. apply elem_of_app in Hx as [Hx|Hx].
  - apply list_elem_of_fmap in Hx as ([r o] & -> & Hr). split; [|apply Hc]. cbn [fst snd].
    assert (Hall : Forall (λ x : reg * Z, 0 ≤ x.2 ≤ 112) saved) by (repeat constructor; done).
    rewrite Forall_forall in Hall. exact (Hall _ Hr).
  - apply list_elem_of_singleton in Hx as ->. split; [cbn; lia|apply Hc].
Qed.

Lemma ctx_jump_eq c :
  let c' := exec ctx_jump c in
  memory c' = memory c ∧ mepc c' = mepc c ∧
  (∀ r o, (r, o) ∈ restored → regs c' r = load_word (memory c) (u32 (mscratch c + o))) ∧
  regs c' sp = u32 (mscratch c + 116) ∧
  ∀ r, r ∉ restored.*1 → r ≠ sp → regs c' r = regs c r.
Proof.
  unfold ctx_jump. rewrite !exec_app. cbv zeta.
  set (c2 := exec [Csrr_mscratch sp] c).
  destruct (exec_loads sp restored c2) as (E1 & E2 & E3 & E4 & E5).
  { apply (bool_decide_unpack _). vm_compute. exact I. }
  { apply (bool_decide_unpack _). vm_compute. exact I. }
  set (c3 := exec _ c2) in *. clearbody c3.
  assert (Hsp : regs c3 sp = mscratch c).
  { rewrite E5; [reflexivity|]. apply (bool_decide_unpack _). vm_compute. exact I. }
  split_and!; try done.
  - intros r o Hr. cbn. rewrite decide_False; [by rewrite (E4 _ _ Hr)|]. intros ->.
    assert (Hn : sp ∉ restored.*1) by (apply (bool_decide_unpack _); vm_compute; exact I).
    apply Hn. apply list_elem_of_fmap. by exists (sp, o).
  - cbn. by rewrite Hsp.
  - intros r Hr Hs. cbn. rewrite decide_False, E5 by done. cbn. by rewrite decide_False.
Qed.

Lemma frame_words_ext c c' :
  (∀ r, regs c' r = regs c r) → frame_words c' = frame_words c ∧ frame_base c' = frame_base c.
Proof.
  intros H. unfold frame_words, frame_base. rewrite !H. split; [|done]. f_equal.
  apply list_fmap_ext. intros i x _. by rewrite H.
Qed.

(** Both entries; with page tables the translation is switched on as well. *)
Lemma trap_entry_eq (vm : bool) c :
  cpu_ok c → let c1 := exec (if vm then trap_entry_vm else trap_entry_start) c in
  mscratch c1 = frame_base c ∧ memory c1 = stores (frame_base c) (frame_words c) (memory c) ∧
  regs c1 sp = 0x80003f80 ∧ mepc c1 = mepc c ∧
  mstatus c1 = if vm then Z.lor (mstatus c) 0x20800 else mstatus c.
Proof.
  intros Hc. destruct vm; [|by apply trap_start_eq]. unfold trap_entry_vm. rewrite exec_app. cbv zeta.
  set (c0 := exec [_; _; _; _] c).
  assert (Hr : ∀ r, regs c0 r = regs c r).
  { intros r. cbn. destruct (decide (r = t0)) as [->|H]; [done|]. done. }
  assert (Hc0 : cpu_ok c0) by (intros r; rewrite Hr; apply Hc).
  destruct (frame_words_ext c c0 Hr) as [Hw Hb].
  destruct (trap_start_eq c0 Hc0) as (E1 & E2 & E3 & E4 & E5). rewrite Hb in E1, E2. rewrite Hw in E2.
  by split_and!.
Qed.

Lemma frame_loads c m r o :
  cpu_ok c → (r, o) ∈ restored →
  (∀ i, 0 ≤ i < 112 → m (u32 (frame_base c + i)) =
     stores (frame_base c) (frame_words c) (memory c) (u32 (frame_base c + i))) →
  load_word m (u32 (frame_base c + o)) = regs c r.
Proof.
  intros Hc Hr Hm.
  assert (Ho : 0 ≤ o ≤ 108).
  { assert (Hall : Forall (λ x : reg * Z, 0 ≤ x.2 ≤ 108) restored) by (repeat constructor; done).
    rewrite Forall_forall in Hall. exact (Hall _ Hr). }
  assert (Hin : (o, regs c r) ∈ frame_words c).
  { unfold frame_words. apply elem_of_app.
    assert (Hall : Forall (λ x, x ∈ saved ∨ x = (t0, 48)) restored)
      by (apply (bool_decide_unpack _); vm_compute; exact I).
    rewrite Forall_forall in Hall. destruct (Hall _ Hr) as [Hs|[= -> ->]];
      [left|right; by apply list_elem_of_singleton].
    apply list_elem_of_fmap. by exists (r, o). }
  apply list_elem_of_lookup_1 in Hin as [i Hi].
  pose proof (stores_at (frame_base c) (frame_words c) (memory c) i (o, regs c r)
    (frame_words_in c Hc) (frame_words_apart c) Hi) as Hst. cbn [fst snd] in Hst. rewrite <-Hst.
  apply load_word_ext. intros j Hj.
  assert (E : u32 (u32 (frame_base c + o) + j) = u32 (frame_base c + (o + j))).
  { unfold u32. rewrite Zplus_mod_idemp_l. f_equal. lia. }
  rewrite E. apply Hm. lia.
Qed.

(** [ctx_jump] undoes the stores of a trap. *)
Lemma ctx_jump_restores c c2 :
  cpu_ok c → mscratch c2 = frame_base c → regs c2 gp = regs c gp → regs c2 tp = regs c tp →
  (∀ i, 0 ≤ i < 112 → memory c2 (u32 (frame_base c + i)) =
     stores (frame_base c) (frame_words c) (memory c) (u32 (frame_base c + i))) →
  ∀ r, regs (exec ctx_jump c2) r = regs c r.
Proof.
  intros Hc Hs Hgp Htp Hm r. destruct (ctx_jump_eq c2) as (_ & _ & J3 & J4 & J5).
  generalize dependent (exec ctx_jump c2). intros c3 J3 J4 J5. rewrite Hs in *.
  destruct (decide (r ∈ restored.*1)) as [Hr|Hr].
  - apply list_elem_of_fmap in Hr as ([r' o] & -> & Hr). cbn [fst]. rewrite (J3 _ _ Hr).
    by apply frame_loads.
  - destruct (decide (r = sp)) as [->|Hne].
    + rewrite J4. unfold frame_base, u32. rewrite Zplus_mod_idemp_l, Z.sub_add. by apply u32_small.
    + rewrite J5 by done. destruct (decide (r = gp ∨ r = tp)) as [[->| ->]|Hn]; [done..|].
      exfalso. apply Hr. apply (bool_decide_unpack _).
      destruct r; try (vm_compute; exact I); naive_solver.
Qed.

(** C16: A context survives a trap.  The entry of a trap, with or without page
    tables, stores the registers of the interrupted code in the 116 bytes below
    its stack pointer and changes no other byte of memory, switches to the
    kernel's stack and leaves the address of the frame in [mscratch].  If later,
    whatever has run in between, [mscratch] holds that address again, the frame has
    not been touched and [gp] and [tp] (which are not saved) are the same, then
    [ctx_jump] gives every register, the stack pointer included, the value it had
    when the trap was taken. *)
Theorem context_roundtrip (vm : bool) (c c2 : cpu) :
  let c1 := exec (if vm then trap_entry_vm else trap_entry_start) c in
  cpu_ok c → mscratch c2 = mscratch c1 → regs c2 gp = regs c gp → regs c2 tp = regs c tp →
  (∀ i, 0 ≤ i < 112 → memory c2 (u32 (frame_base c + i)) = memory c1 (u32 (frame_base c + i))) →
  regs c1 sp = 0x80003f80 ∧ mscratch c1 = frame_base c ∧ mepc c1 = mepc c ∧
  (∀ b, 116 ≤ u32 (b - frame_base c) → memory c1 b = memory c b) ∧
  memory (exec ctx_jump c2) = memory c2 ∧ mepc (exec ctx_jump c2) = mepc c2 ∧
  ∀ r, regs (exec ctx_jump c2) r = regs c r.
Proof.
  intros c1 Hc Hs Hgp Htp Hm. destruct (trap_entry_eq vm c Hc) as (E1 & E2 & E3 & E4 & _). fold c1 in E1, E2, E3, E4.
  clearbody c1. destruct (ctx_jump_eq c2) as (J1 & J2 & _). split_and!; [assumption..| |assumption|assumption|].
  - intros b Hb. rewrite E2. apply stores_outside; [by apply frame_words_in|done].
  - apply ctx_jump_restores; [done|by rewrite Hs|done|done|]. intros i Hi. rewrite <-E2. by apply Hm.
Qed.

(** A trap in code whose stack pointer is 0x80001f00; the kernel spoils all
    registers but [gp] and [tp]. *)
Definition demo_before : cpu :=
  Cpu (λ r, if decide (r = sp) then 0x80001f00 else 7) 0 0x08005010 0 (λ _, Byte.x00).
Definition demo_after : cpu :=
  Cpu (λ r, if decide (r = gp ∨ r = tp) then 7 else 99) 0x80001e8c 0 0
    (stores (frame_base demo_before) (frame_words demo_before) (memory demo_before)).

Lemma demo_before_ok : cpu_ok demo_before.
Proof. intros r. cbn. case_decide; done. Qed.

Lemma context_roundtrip_witness :
  regs (exec ctx_jump demo_after) sp = 0x80001f00 ∧ regs (exec ctx_jump demo_after) s3 = 7.
Proof.
  destruct (trap_entry_eq false demo_before demo_before_ok) as (E1 & E2 & _).
  destruct (context_roundtrip false demo_before demo_after demo_before_ok) as (_ & _ & _ & _ & _ & _ & H).
  - rewrite E1. reflexivity.
  - reflexivity.
  - reflexivity.
  - intros i _. rewrite E2. reflexivity.
  - rewrite !H. split; reflexivity.
Defined.
