(* ===== verification/ResumeThms.v ===== *)
(** * A process between two of its turns

    What the kernel of Kernel.v does for a process that is interrupted: through any
    number of traps of other processes it keeps the context of the process, and it
    hands that context back when the process has its turn again. *)

From S2P Require Import Prelude Layout Blocks Ring Uart Tty TtyOps Intr TtyCorrect.
From S2P Require Import Earth Process Kernel KernelInv KernelOps Sched KernelCorrect Machine KernelThms.

Section resume.
Context {E : Type} `{!Earth E, !EarthLaws E}.
Implicit Types k : kernel E.

(** Code of a process runs, with entry [i] of the table left to its process: the process
    server may allocate and free other entries, and nothing of process.c writes a
    context or makes a process ready that has run. *)
Record runs_user (i : Z) k k' : Prop := {
  ru_inv : user_inv k';
  ru_curr : proc_curr_idx k' = proc_curr_idx k;
  ru_same : same_proc (proc_at k i) (proc_at k' i);
  ru_sp : sp (proc_at k' i) = sp (proc_at k i);
  ru_mepc : mepc (proc_at k' i) = mepc (proc_at k i);
  ru_ready : status (proc_at k' i) = PROC_READY → status (proc_at k i) = PROC_READY;
}.

(** From a trap to the end of the first trap after which entry [i] is current. *)
Inductive away (u : kparams) (i : Z) : kernel E → resume → kernel E → Prop :=
| away_back w k r k' :
    trap_entry u w k = Ret (Some r) k' → proc_curr_idx k' = i → away u i k r k'
| away_on w k r k1 k2 r' k' :
    trap_entry u w k = Ret (Some r) k1 → proc_curr_idx k1 ≠ i → runs_user i k1 k2 →
    away u i k2 r' k' → away u i k r' k'.

(** A trap that resumes a process was an interrupt of the kernel. *)
Lemma trap_handled u w k r k' :
  user_inv k → trap_entry u w k = Ret (Some r) k' →
  user_inv k' ∧ handled_intr (proc_idle u) (Z.land (csr_of (earth k) MCAUSE) 0x3FF) k r k'.
Proof.
  intros Hinv Et. destruct (trap_entry_dispatch u w k Hinv) as (k1 & I1 & V1 & Hk & Ed).
  rewrite Ed in Et. clear Ed. destruct (_ =? 0); [done|]. set (id := Z.land _ _) in *.
  destruct (known_intr id) eqn:Ei.
  - destruct (intr_entry_spec u w id k1 I1 Ei) as [Es|(r' & k2 & E2 & I2 & H2)];
      unfold mbind, M_bind in Et; [by rewrite Es in Et|].
    rewrite E2 in Et. injection Et as <- <-. split; [done|]. by apply (handled_intr_earth _ _ k1).
  - unfold mbind, M_bind in Et. by rewrite intr_entry_unknown in Et.
Qed.

(** The context [s], [m] is kept in entry [i] of a process that has run. *)
Record holds (idle i x s m : Z) k : Prop := {
  ho_pid : pid (proc_at k i) = x;
  ho_sp : sp (proc_at k i) = s;
  ho_mepc : mepc (proc_at k i) = m ∨ killable (proc_at k i) = true ∧ mepc (proc_at k i) = idle;
  ho_run : status (proc_at k i) ≠ PROC_READY;
}.

Lemma holds_kept idle i x s m k k' :
  holds idle i x s m k → kept idle (proc_at k i) (proc_at k' i) → holds idle i x s m k'.
Proof.
  intros [H1 H2 H3 H4] [[K1 K2] K3 K4 K5]. split; [congruence|congruence| |auto].
  rewrite K2. destruct K4 as [->|[K4 ->]]; auto.
Qed.

Lemma holds_user idle i x s m k k' :
  holds idle i x s m k → runs_user i k k' → holds idle i x s m k'.
Proof.
  intros H [_ _ U1 U2 U3 U4]. eapply holds_kept; [done|]. split; auto.
Qed.

(** The context of entry [i] before a trap: in the processor when the process is
    running, else in the table. *)
Definition context_of (idle i x s m : Z) k : Prop :=
  if decide (proc_curr_idx k = i)
  then x = curr_pid k ∧ s = csr_of (earth k) MSCRATCH ∧ m = csr_of (earth k) MEPC
  else holds idle i x s m k.

(** The context that a process is resumed with. *)
Definition given_back (idle i x s m : Z) (r : resume) k' : Prop :=
  r = CtxJump ∧ curr_pid k' = x ∧ csr_of (earth k') MSCRATCH = s ∧
  (csr_of (earth k') MEPC = m ∨
   killable (proc_at k' i) = true ∧ csr_of (earth k') MEPC = idle).

Lemma saved_holds idle i x s m k k' :
  user_inv k → 0 ≤ i < MAX_NPROCESS → context_of idle i x s m k →
  Forall2 (kept idle) (saved_table k) (proc_set k') → holds idle i x s m k'.
Proof.
  intros Hinv Hi Hc HF. pose proof (ui_wf _ Hinv) as Hwf.
  pose proof (kw_curr _ Hwf). pose proof (tw_len _ _ (kw_table _ Hwf)) as Hl. unfold nprocess in Hl.
  assert (Hk : kept idle (saved_table k !!! Z.to_nat i) (proc_at k' i)).
  { assert (Hs : saved_table k !! Z.to_nat i = Some (saved_table k !!! Z.to_nat i)).
    { apply list_lookup_lookup_total_lt. unfold saved_table. rewrite length_alter, Hl. lia. }
    destruct (Forall2_lookup_l _ _ _ _ _ HF Hs) as (p' & Hp' & Hx).
    unfold proc_at. by rewrite (list_lookup_total_correct _ _ _ Hp'). }
  unfold saved_table in Hk. rewrite save_at in Hk. fold (proc_at k i) in Hk.
  unfold context_of in Hc. destruct (decide (proc_curr_idx k = i)) as [<-|Hne].
  - rewrite decide_True in Hk by (rewrite Hl; lia). destruct Hc as (-> & -> & ->).
    destruct Hk as [[K1 K2] K3 K4 K5]. simpl in *. split; [done|done| |].
    + rewrite K2. naive_solver.
    + intros Hr. apply K5 in Hr.
      pose proof (proj2 (ui_running _ Hinv _ _ (curr_lookup k Hwf)) ltac:(lia)). congruence.
  - rewrite decide_False in Hk by lia. by eapply holds_kept.
Qed.

(** One trap: a process that stays away keeps its context, and a process that
    comes back gets it. *)
Lemma trap_context u w i x s m k r k' :
  user_inv k → 0 ≤ i < MAX_NPROCESS → context_of (proc_idle u) i x s m k →
  trap_entry u w k = Ret (Some r) k' →
  user_inv k' ∧
  if decide (proc_curr_idx k' = i) then given_back (proc_idle u) i x s m r k'
  else holds (proc_idle u) i x s m k'.
Proof.
  intros Hinv Hi Hc Et. destruct (trap_handled u w k r k' Hinv Et) as [Hinv' Hh]. split; [done|].
  unfold handled_intr in Hh. destruct (_ && _).
  - destruct Hh as (-> & H1 & H2 & H3). unfold context_of in Hc. rewrite H2.
    destruct (decide (proc_curr_idx k = i)) as [Hci|Hne].
    + destruct Hc as (-> & -> & ->). split_and!; try done; [|by left].
      unfold curr_pid, proc_at. by rewrite H1, H2.
    + destruct Hc as [C1 C2 C3 C4]. unfold proc_at in *. split; unfold proc_at; by rewrite H1.
  - destruct Hh as (Hr & HF & Hen). pose proof (saved_holds _ _ _ _ _ _ _ Hinv Hi Hc HF) as Hh.
    destruct (decide (proc_curr_idx k' = i)) as [Hci|]; [|done].
    assert (r = CtxJump) as ->.
    { destruct r as [|a0 a1]; [done|]. exfalso. rewrite Hci in Hen.
      unfold context_of in Hc. destruct (decide (proc_curr_idx k = i)) as [<-|Hne].
      - pose proof (proj2 (ui_running _ Hinv _ _ (curr_lookup k (ui_wf _ Hinv)))
          ltac:(pose proof (kw_curr _ (ui_wf _ Hinv)); lia)).
        rewrite Hen in H by done. done.
      - by apply (ho_run _ _ _ _ _ _ Hc), Hen. }
    destruct Hr as [R1 R2]. destruct Hh as [H1 H2 H3 H4]. rewrite Hci in *.
    unfold given_back, curr_pid. rewrite Hci, R1, R2. by split_and!.
Qed.

(** C5: The kernel hands back what it was given.  A process is interrupted and
    other processes run, with any number of traps: system calls, timer and device interrupts,
    and processes that are started and freed.  At the end of the first trap after which
    the process is the current one again, the kernel resumes the process and does not enter
    it anew; the stack pointer that it loads is the one the process had
    at its interrupt, and the place where it goes on is the one where it was
    interrupted.  The only exception is a user process that Ctrl-C has sent to
    [proc_idle]. *)
Theorem context_given_back (u : kparams) (i : Z) k (r : resume) k' :
  user_inv k → i = proc_curr_idx k → away u i k r k' →
  user_inv k' ∧ proc_curr_idx k' = i ∧
  given_back (proc_idle u) i (curr_pid k) (csr_of (earth k) MSCRATCH) (csr_of (earth k) MEPC) r k'.
Proof.
  intros Hinv Hi Ha. assert (Hr : 0 ≤ i < MAX_NPROCESS) by (rewrite Hi; apply Hinv).
  assert (Hc : context_of (proc_idle u) i (curr_pid k) (csr_of (earth k) MSCRATCH)
    (csr_of (earth k) MEPC) k) by (unfold context_of; by rewrite decide_True).
  clear Hi. revert Hc. generalize (curr_pid k), (csr_of (earth k) MSCRATCH), (csr_of (earth k) MEPC).
  intros x s m Hc. induction Ha as [w k r k' Et Hb|w k r k1 k2 r' k' Et Hb Hu Ha IH].
  - destruct (trap_context u w i x s m k r k' Hinv Hr Hc Et) as [Hinv' Hg].
    rewrite decide_True in Hg by done. done.
  - destruct (trap_context u w i x s m k r k1 Hinv Hr Hc Et) as [Hinv1 Hg].
    rewrite decide_False in Hg by done. apply IH; [apply Hu|].
    unfold context_of. rewrite decide_False by (by rewrite (ru_curr _ _ _ Hu)).
    by eapply holds_user.
Qed.
End resume.

(** The timer interrupts process 5 and then process 6. *)
Definition demo_turn : kernel (machine sim) :=
  Kernel (demo_procs two_users) 4 6 no_msg
    (put_csr MSCRATCH 0x80001e8c demo_timer).
Definition demo_other (k : kernel (machine sim)) : kernel (machine sim) :=
  set_earth (put_csr MEPC 0x08005100 (put_csr MSCRATCH 0x80000e8c (earth k))) k.

Lemma put_csr_inv c v (k : kernel (machine sim)) :
  user_inv k → user_inv (set_earth (put_csr c v (earth k)) k).
Proof. intros [[W1 W2 W3 W4 W5] A R]. by split; [split| |]. Qed.

Lemma demo_turns :
  match trap_entry demo_u 0 demo_turn with
  | Ret (Some r) k1 =>
      r = CtxJump ∧ proc_curr_idx k1 = 5 ∧ curr_pid k1 = 6 ∧
      match trap_entry demo_u 0 (demo_other k1) with
      | Ret (Some _) k' => proc_curr_idx k' = 4
      | _ => False
      end
  | _ => False
  end.
Proof. vm_compute. by split_and!. Qed.

Lemma context_given_back_witness : ∃ k1 k',
  trap_entry demo_u 0 demo_turn = Ret (Some CtxJump) k1 ∧ curr_pid k1 = 6 ∧
  trap_entry demo_u 0 (demo_other k1) = Ret (Some CtxJump) k' ∧
  curr_pid k' = 5 ∧ m_csr (earth k') MSCRATCH = 0x80001e8c.
Proof.
  assert (Hinv : user_inv demo_turn).
  { pose proof (demo_user_inv [] (demo_sc 5 0 0)) as H.
    apply (put_csr_inv MEPC 0x08005044), (put_csr_inv MCAUSE (2 ^ 31 + 7)),
      (put_csr_inv MSCRATCH 0x80001e8c) in H. exact H. }
  pose proof demo_turns as H.
  destruct (trap_entry demo_u 0 demo_turn) as [[r|] k1| | |] eqn:E1; [|destruct H..].
  destruct H as (-> & Hi1 & Hp1 & H).
  destruct (trap_handled demo_u 0 demo_turn CtxJump k1 Hinv E1) as [Hinv1 _].
  destruct (trap_entry demo_u 0 (demo_other k1)) as [[r'|] k'| | |] eqn:E2; [|destruct H..].
  destruct (context_given_back demo_u 4 demo_turn r' k' Hinv eq_refl) as (_ & _ & G).
  - apply (away_on _ _ 0 demo_turn CtxJump k1 (demo_other k1) r' k' E1).
    + rewrite Hi1. discriminate.
    + split; [|reflexivity|by split|reflexivity|reflexivity|exact id].
      exact (put_csr_inv MEPC 0x08005100 _ (put_csr_inv MSCRATCH 0x80000e8c k1 Hinv1)).
    + exact (away_back _ _ 0 _ _ _ E2 H).
  - destruct G as (-> & G1 & G2 & _). exists k1, k'. split; [reflexivity|]. split; [exact Hp1|].
    split; [exact E2|]. split; [exact G1|exact G2].
Defined.
