(* ===== verification/SwitchThms.v ===== *)
(** * Processes across context switches

    The trap entry of earth/earth.s and [ctx_jump] of grass/grass.s (Context.v)
    on the memory of the software TLB (Mmu.v): a process is interrupted, its
    registers go to its stack, its pages are taken out and other processes run;
    when it is switched in again, it has all its registers. *)

From S2P Require Import Prelude Layout Blocks Store Ramdisk FsDisk.
From S2P Require Import Paging PagingOps Mmu MmuOps FsCorrect MmuCorrect.
From S2P Require Import Context ContextCorrect.

(** The byte of a page that is seen at an address. *)
Definition page_byte (x : page) (a : Z) : byte := nth (Z.to_nat (a mod PAGE_SIZE)) x Byte.x00.

(** The bytes that the processor finds in the memory of the memory management
    unit, and the pages of a memory. *)
Definition view {D} (s : mmu D) : Z → byte := λ a, page_byte (mem s (a / PAGE_SIZE)) a.
Definition page_at (m : Z → byte) (n : Z) : page :=
  (λ i, m (PAGE_SIZE * n + Z.of_nat i)) <$> seq 0 npage.

Lemma page_at_length m n : length (page_at m n) = npage.
Proof. unfold page_at. by rewrite length_fmap, length_seq. Qed.

Lemma page_byte_at m a : page_byte (page_at m (a / PAGE_SIZE)) a = m a.
Proof.
  pose proof (Z.mod_pos_bound a PAGE_SIZE ltac:(done)) as Hr.
  unfold page_byte, page_at. rewrite nth_lookup, list_lookup_fmap, lookup_seq_lt.
  - cbn. f_equal. rewrite Z2Nat.id by lia. symmetry. by apply Z_div_mod_eq_full.
  - change npage with 4096%nat. change PAGE_SIZE with 4096 in *. lia.
Qed.

(** The addresses of the frame that a trap builds, and its pages. *)
Definition in_save_area (c : cpu) (a : Z) : Prop := frame_base c ≤ a < frame_base c + 116.
Definition save_pages (c : cpu) : list Z :=
  [frame_base c / PAGE_SIZE; (frame_base c + 115) / PAGE_SIZE].

Lemma save_area_page c a : in_save_area c a → a / PAGE_SIZE ∈ save_pages c.
Proof.
  unfold in_save_area, save_pages. intros Ha. rewrite !elem_of_cons, elem_of_nil.
  change PAGE_SIZE with 4096. Z.to_euclidean_division_equations. lia.
Qed.

(** What the trap entry does to the pages of the process. *)
Definition trap_stores (vm : bool) (c : cpu) : list vm_ev :=
  let c1 := exec (if vm then trap_entry_vm else trap_entry_start) c in
  (λ n, StorePage n (page_at (memory c1) n)) <$> save_pages c.

(** While others run, and while the kernel handles requests of [p] itself, the
    addresses [R] of [p] are left alone. *)
Fixpoint spares (p : Z) (R : Z → Prop) (curr : Z) (A : spaces) (es : list vm_ev) : Prop :=
  match es with
  | [] => True
  | e :: es =>
      match e with
      | Switch _ => True
      | StorePage n x =>
          curr = p → ∀ a, R a → a / PAGE_SIZE = n → page_byte x a = page_byte (A p n) a
      end ∧ spares p R (spec_vm curr A e).1 (spec_vm curr A e).2 es
  end.

Lemma spares_keeps p R es : ∀ curr A a,
  spares p R curr A es → R a →
  page_byte ((spec_vms curr A es).2 p (a / PAGE_SIZE)) a = page_byte (A p (a / PAGE_SIZE)) a.
Proof.
  induction es as [|[q|n x] es IH]; intros curr A a Hs Ha; [done|..]; destruct Hs as [He Hs].
  - by apply (IH q A a).
  - cbn [spec_vms spec_vm fst snd] in *. rewrite (IH _ _ a Hs Ha).
    destruct (Z.eqb_spec p curr) as [->|]; [|done]. destruct (Z.eqb_spec (a / PAGE_SIZE) n) as [<-|]; [|done].
    by apply He.
Qed.

Section switch.
Context {D : Type} (platform : platform_id).
Context (sd : sd_driver D) (rom : Z → byte) (type : disk_type) (rnd : nat → Z).
Context `{!SdCard sd DISK_BLOCKS}.
Implicit Types s : mmu D.

(** The memory of [p] after the trap entry. *)
Definition trapped (vm : bool) (c : cpu) (p : Z) (A : spaces) : spaces :=
  (spec_vms p A (trap_stores vm c)).2.

Lemma trapped_page vm c p A n :
  (spec_vms p A (trap_stores vm c)).2 p n =
  if decide (n ∈ save_pages c)
  then page_at (memory (exec (if vm then trap_entry_vm else trap_entry_start) c)) n else A p n.
Proof.
  unfold trap_stores, save_pages. cbn -[exec page_at Z.div decide].
  rewrite Z.eqb_refl. cbn -[exec page_at Z.div decide].
  case_decide as Hn; rewrite !elem_of_cons, elem_of_nil in Hn;
    repeat case_match; rewrite ?Z.eqb_eq, ?Z.eqb_neq in *; subst; tauto.
Qed.

Lemma trapped_bytes vm c p A a :
  in_save_area c a →
  page_byte (trapped vm c p A p (a / PAGE_SIZE)) a =
  memory (exec (if vm then trap_entry_vm else trap_entry_start) c) a.
Proof.
  intros Ha. unfold trapped. rewrite trapped_page, decide_True by (by apply save_area_page).
  apply page_byte_at.
Qed.

(** The stack does not wrap around. *)
Lemma save_area_byte c i :
  cpu_ok c → 116 ≤ regs c sp → 0 ≤ i < 116 →
  u32 (frame_base c + i) = frame_base c + i ∧ in_save_area c (frame_base c + i).
Proof.
  intros Hc Hsp Hi. pose proof (Hc sp) as Hs. unfold in_save_area, frame_base, is_u32, u32 in *.
  rewrite (Z.mod_small (regs c sp - 116)) by lia. rewrite Z.mod_small by lia. lia.
Qed.

(** The page of the running process is what the processor sees. *)
Lemma shows_view s F A a :
  curr_vm_pid s ≠ 0 → shows s F A → (∃ i, maps (ftable s) i (curr_vm_pid s) (a / PAGE_SIZE)) →
  view s a = page_byte (A (curr_vm_pid s) (a / PAGE_SIZE)) a.
Proof.
  intros Hp HA [i Hi]. unfold view. rewrite (HA (curr_vm_pid s) (a / PAGE_SIZE) (mem s (a / PAGE_SIZE))); [done..|].
  exists i. by rewrite Z.eqb_refl.
Qed.

Lemma trapped_outside vm s F A c a :
  curr_vm_pid s ≠ 0 → shows s F A → cpu_ok c → 116 ≤ regs c sp → memory c = view s →
  is_u32 a → ¬ in_save_area c a → (∃ i, maps (ftable s) i (curr_vm_pid s) (a / PAGE_SIZE)) →
  page_byte (trapped vm c (curr_vm_pid s) A (curr_vm_pid s) (a / PAGE_SIZE)) a = view s a.
Proof.
  intros Hp HA Hc Hsp Hm Hu Ha Hmap. unfold trapped. rewrite trapped_page.
  case_decide; [|by rewrite (shows_view s F A a)].
  rewrite page_byte_at. destruct (trap_entry_eq vm c Hc) as (_ & -> & _). rewrite <-Hm.
  apply stores_outside; [by apply frame_words_in|]. unfold in_save_area in Ha.
  pose proof (Hc sp) as Hs. unfold is_u32 in *. revert Ha. unfold frame_base, u32.
  rewrite (Z.mod_small (regs c sp - 116)) by lia. intros Ha. Z.to_euclidean_division_equations. lia.
Qed.

(** C6: A process does not notice that others run.  A process is interrupted while
    it is switched in; the trap entry stores its registers in pages of the process,
    below its stack pointer.  Then follows any sequence of context switches and page
    writes, by other processes or by the kernel for this one, of which none changes
    the bytes [R] of the process itself, the frame among them, while it is switched
    in; the frames of the process may be evicted to the SD card and come back, and
    other processes may write the same addresses.  If the process is switched in at the
    end, then its bytes in [R] outside the frame are as they were, and
    [ctx_jump], with the address of the frame in [mscratch], gives every register the
    value it had when the process was interrupted. *)
Theorem registers_survive (vm : bool) s (F : Z → page) (A : spaces) (c : cpu) (R : Z → Prop)
    (es : list vm_ev) :
  let p := curr_vm_pid s in
  (platform = ARTY → type = SD_CARD) → (∀ n, 0 ≤ rnd n) →
  mmu_wf platform sd s F → ready platform s → shows s F A →
  cpu_ok c → 116 ≤ regs c sp → memory c = view s → (∀ a, in_save_area c a → R a) →
  (∀ n, n ∈ save_pages c → ∃ i, maps (ftable s) i p n) →
  vm_ok (ftable s) p es → spares p R p (trapped vm c p A) es →
  (spec_vms p (trapped vm c p A) es).1 = p →
  returns (run_vms platform sd rom type rnd (trap_stores vm c ++ es)) s (λ _ s',
    curr_vm_pid s' = p ∧
    (∀ a, R a → is_u32 a → ¬ in_save_area c a → (∃ i, maps (ftable s) i p (a / PAGE_SIZE)) →
      view s' a = view s a) ∧
    ∀ c2, memory c2 = view s' → mscratch c2 = frame_base c →
      regs c2 gp = regs c gp → regs c2 tp = regs c tp →
      ∀ r, regs (exec ctx_jump c2) r = regs c r).
Proof.
  intros p Htype Hrnd W Rd HA Hc Hsp Hmem HR Hmap Hok Hspare Hback.
  assert (Hok' : vm_ok (ftable s) p (trap_stores vm c ++ es)).
  { cbn -[exec page_at Z.div]. split_and!; try apply page_at_length; [..|done]; apply Hmap;
      unfold save_pages; rewrite !elem_of_cons; tauto. }
  eapply returns_mono; [by apply (run_vms_shows platform sd rom type rnd s F A)|cbv beta].
  intros _ s' (F' & W' & _ & Ht & Hcur & HA').
  change (spec_vms (curr_vm_pid s) A (trap_stores vm c ++ es))
    with (spec_vms p (trapped vm c p A) es) in Hcur, HA'.
  rewrite Hback in Hcur.
  assert (Hbytes : ∀ a, R a → (∃ i, maps (ftable s) i p (a / PAGE_SIZE)) →
    view s' a = page_byte (trapped vm c p A p (a / PAGE_SIZE)) a).
  { intros a Ha Hma. rewrite (shows_view s' F' _ a ltac:(apply W') HA') by (by rewrite Ht, Hcur).
    rewrite Hcur. by apply (spares_keeps p R es p). }
  split; [done|]. split.
  - intros a Ha Hu Hout Hma. rewrite (Hbytes a Ha Hma). by apply (trapped_outside vm s F A c a); [apply W|..].
  - intros c2 Hm2 Hs2 Hgp Htp. apply ctx_jump_restores; [done..|]. intros i Hi.
    destruct (save_area_byte c i Hc Hsp ltac:(lia)) as [-> Ha].
    rewrite Hm2, Hbytes; [|by apply HR|by apply Hmap, save_area_page].
    rewrite trapped_bytes by done. by destruct (trap_entry_eq vm c Hc) as (_ & -> & _).
Qed.
End switch.

(** Process 5 is interrupted with its stack in the page that process 6 overwrites
    with other bytes. *)
Definition demo_trap : cpu :=
  Cpu (λ r, if decide (r = sp) then 0x80000f00 else 7) 0 0x08005010 0 (view demo_arty).
Definition demo_between : list vm_ev := [Switch 6; StorePage 0x80000 (fill Byte.x41); Switch 5].

Lemma registers_survive_witness : ∃ s',
  run_vms ARTY mem_sd (λ _, Byte.x00) SD_CARD Z.of_nat
    (trap_stores false demo_trap ++ demo_between) demo_arty = Ret tt s' ∧
  ∀ c2, memory c2 = view s' → mscratch c2 = 0x80000e8c → regs c2 gp = 7 → regs c2 tp = 7 →
    regs (exec ctx_jump c2) sp = 0x80000f00 ∧ regs (exec ctx_jump c2) s3 = 7.
Proof.
  assert (H5 : ∃ i, maps (ftable demo_arty) i 5 0x80000).
  { exists 0. eexists. split_and!; [lia|reflexivity|done..]. }
  assert (H6 : ∃ i, maps (ftable demo_arty) i 6 0x80000).
  { exists 1. eexists. split_and!; [lia|reflexivity|done..]. }
  destruct (registers_survive ARTY mem_sd (λ _, Byte.x00) SD_CARD Z.of_nat false demo_arty
    (λ _, zero_page) (λ _ _, zero_page) demo_trap (in_save_area demo_trap) demo_between)
    as ([] & s' & E & _ & _ & Hr).
  - done.
  - lia.
  - apply demo_arty_wf.
  - right. left. unfold full. intros Hin. apply elem_of_seqZ in Hin. lia.
  - intros r n x Hr (i & _ & ->). by destruct (_ =? _).
  - intros r. cbn. case_decide; done.
  - vm_compute. discriminate.
  - done.
  - done.
  - intros n Hn. unfold save_pages in Hn. rewrite !elem_of_cons, elem_of_nil in Hn.
    destruct Hn as [->|[->|[]]]; exact H5.
  - split; [done|]. split; [exact H6|]. split; [apply length_replicate|done].
  - generalize (trapped false demo_trap (curr_vm_pid demo_arty) (λ _ _, zero_page)). intros A.
    cbn. split_and!; [exact I|discriminate|exact I|exact I].
  - done.
  - exists s'. split; [exact E|]. intros c2 Hm Hs Hgp Htp. rewrite !(Hr c2 Hm Hs Hgp Htp).
    by split.
Defined.
