(* ===== verification/Shell.v ===== *)
(** * The shell's input

    [read_chars] and [parse_request] of apps/system/sys_shell.c.  Characters are
    numbers; [parse_request] works on the characters before the final zero.
    [edit] and [words] are what the functions are for: line editing and the
    words of a line.  [argv] is an array of 16 rows of 32 characters. *)

From S2P Require Import Prelude Layout.

Abbreviation str := (list Z).

(** ** Reading a line *)

(** The buffer, and what was printed. *)
Record console := Console {
  cbuf : str;
  printed : str;
}.

Definition put_char (i c : Z) : M console unit :=
  b ← gets cbuf;
  b' ← arr_set b i c;
  modify (λ s, Console b' (printed s)).
Definition print (l : str) : M console unit := modify (λ s, Console (cbuf s) (printed s ++ l)).

(** The terminal: a character is read, a text is printed. *)
Class Terminal (T : Type → Type) := {
  tty_char : T unit;
  tty_print : str → T unit;
}.
#[export] Instance console_terminal : Terminal (M console) := {|
  tty_char := mret tt;
  tty_print := print;
|}.

Section read.
Context {T : Type → Type} `{!MRet T, !MBind T, !Lift console T, !Terminal T}.

(** The loop of [read_chars] at index [i]; [input] is what the tty will deliver.
    The result comes with the input that is left; [Spin] is waiting for more. *)
Fixpoint read_loop (len : Z) (input : str) (i : Z) : T (Z * str) :=
  if i <? len - 1 then
    match input with
    | [] => lift spin
    | c :: input =>
        _ ← tty_char;
        _ ← lift (put_char i c);
        if (c =? 0x03) || (c =? 0x0d) then
          _ ← (if c =? 0x03 then lift (put_char 0 0) else mret tt);
          _ ← lift (put_char i 0);
          _ ← tty_print [0x0d; 0x0a];
          mret (if c =? 0x03 then 0 else i, input)
        else if c =? 0x7f then
          _ ← (if negb (i =? 0) then tty_print [0x08; 0x20; 0x08] else mret tt);
          read_loop len input ((if negb (i =? 0) then i - 2 else i - 1) + 1)
        else
          _ ← (if negb (c =? 0) then tty_print [c] else mret tt);
          read_loop len input (i + 1)
    end
  else
    _ ← lift (put_char (len - 1) 0);
    mret (len - 1, input).

Definition read_chars (len : Z) (input : str) : T (Z * str) := read_loop len input 0.
End read.

(** ** Splitting it into words *)

Abbreviation argv_t := (list str).

Definition set_arg (nargs idx c : Z) : M argv_t unit :=
  argv ← gets id;
  row ← arr_get argv nargs;
  row' ← arr_set row idx c;
  argv' ← arr_set argv nargs row';
  modify (λ _, argv').

(** [None] is [return -1]. *)
Fixpoint parse_loop (buf : str) (idx nargs : Z) : M argv_t (option (Z * Z)) :=
  match buf with
  | [] => mret (Some (idx, nargs))
  | c :: buf =>
      if negb (c =? 0x20) then
        _ ← set_arg nargs idx c;
        if CMD_ARG_LEN <=? idx + 1 then mret None else parse_loop buf (idx + 1) nargs
      else if negb (idx =? 0) then
        _ ← set_arg nargs idx 0;
        if CMD_NARGS <=? nargs + 1 then mret None else parse_loop buf 0 (nargs + 1)
      else parse_loop buf idx nargs
  end.

(** The result and, on success, [req->argc]. *)
Definition parse_request (buf : str) : M argv_t (Z * option Z) :=
  _ ← modify (λ _, replicate (Z.to_nat CMD_NARGS) (replicate (Z.to_nat CMD_ARG_LEN) 0));
  r ← parse_loop buf 0 0;
  match r with
  | None => mret (-1, None)
  | Some (idx, nargs) => mret (0, Some (if negb (idx =? 0) then nargs + 1 else nargs))
  end.

(** ** What they are for *)

(** A line: ended by Enter or because it is full, or given up with Ctrl-C. *)
Inductive edited :=
| Line (l : str) (rest : str)
| Cancel (rest : str)
| More.

Fixpoint edit (len : Z) (input : str) (l : str) : edited :=
  if Z.of_nat (length l) <? len - 1 then
    match input with
    | [] => More
    | c :: input =>
        if c =? 0x03 then Cancel input
        else if c =? 0x0d then Line l input
        else if c =? 0x7f then edit len input (take (pred (length l)) l)
        else edit len input (l ++ [c])
    end
  else Line l input.

(** The words of a text, [cur] being the beginning of the first. *)
Fixpoint words (buf cur : str) : list str :=
  match buf with
  | [] => if decide (cur = []) then [] else [cur]
  | c :: buf =>
      if c =? 0x20 then (if decide (cur = []) then words buf [] else cur :: words buf [])
      else words buf (cur ++ [c])
  end.

(** How many of them are followed by a space. *)
Fixpoint closed (buf cur : str) : nat :=
  match buf with
  | [] => 0
  | c :: buf =>
      if c =? 0x20 then (if decide (cur = []) then closed buf [] else S (closed buf []))
      else closed buf (cur ++ [c])
  end.

(** A word in its row, and the array that holds the words. *)
Definition row_of (w : str) : str := w ++ replicate (Z.to_nat CMD_ARG_LEN - length w) 0.
Definition rows (ws : list str) : argv_t :=
  (row_of <$> ws) ++ replicate (Z.to_nat CMD_NARGS - length ws) (row_of []).
