(* ===== verification/ShellCorrect.v ===== *)
(** * Theorems about the shell's input

    [read_chars] is line editing, [parse_request] splits a line into words. *)

From S2P Require Import Prelude Layout Shell.

(** ** Reading a line *)

Lemma put_char_spec i c s :
  0 ≤ i < Z.of_nat (length (cbuf s)) →
  returns (put_char i c) s (λ _ s', s' = Console (<[Z.to_nat i:=c]> (cbuf s)) (printed s)).
Proof.
  intros Hi. unfold put_char. apply returns_bind, returns_gets, returns_bind.
  eexists _, _. split; [by apply arr_set_eq|]. by apply returns_modify.
Qed.

Lemma print_spec (b : bool) l s :
  returns (if b then print l else mret tt) s (λ _ s', cbuf s' = cbuf s).
Proof. destruct b; [by apply returns_modify|by apply returns_ret]. Qed.

(** The buffer holds [l] and has room. *)
Record typed (len : Z) (l : str) (s : console) : Prop := {
  ty_len : Z.of_nat (length (cbuf s)) = len;
  ty_take : take (length l) (cbuf s) = l;
}.

Definition read_post (len : Z) (e : edited) (r : Z * str) (s : console) : Prop :=
  Z.of_nat (length (cbuf s)) = len ∧
  match e with
  | Line l rest => r = (Z.of_nat (length l), rest) ∧
      take (length l) (cbuf s) = l ∧ cbuf s !! length l = Some 0
  | Cancel rest => r = (0, rest) ∧ cbuf s !! 0%nat = Some 0
  | More => False
  end.

Lemma typed_put len l s c :
  typed len l s → Z.of_nat (length l) < len →
  typed len (l ++ [c]) (Console (<[length l:=c]> (cbuf s)) (printed s)).
Proof.
  intros [T1 T2] Hl. split; simpl; [by rewrite length_insert|].
  rewrite length_app. simpl. rewrite Nat.add_1_r, (take_S_r _ _ c) by (apply list_lookup_insert_eq; lia).
  by rewrite take_insert_ge, T2 by lia.
Qed.

Lemma typed_take len l s n : typed len l s → (n ≤ length l)%nat → typed len (take n l) s.
Proof.
  intros [T1 T2] Hn. split; [done|]. rewrite length_take_le by done.
  rewrite <-T2 at 1. by rewrite take_take, Nat.min_l.
Qed.

(** Enter and Ctrl-C. *)
Lemma read_end len l s (c : Z) rest s1 :
  typed len l s → Z.of_nat (length l) < len →
  s1 = Console (<[length l:=c]> (cbuf s)) (printed s) →
  (c = 0x03 ∨ c = 0x0d) →
  returns (_ ← (if c =? 0x03 then put_char 0 0 else mret tt);
           _ ← put_char (Z.of_nat (length l)) 0;
           _ ← print [0x0d; 0x0a];
           mret (if c =? 0x03 then 0 else Z.of_nat (length l), rest)) s1
    (read_post len (if c =? 0x03 then Cancel rest else Line l rest)).
Proof.
  intros [T1 T2] Hl -> Hc. apply returns_bind.
  destruct (Z.eqb_spec c 0x03) as [->|Hne].
  - eapply returns_mono; [apply put_char_spec; simpl; rewrite length_insert; lia|cbv beta].
    intros _ s2 ->. apply returns_bind.
    eapply returns_mono; [apply put_char_spec; simpl; rewrite !length_insert; lia|cbv beta].
    intros _ s3 ->. apply returns_bind, returns_modify, returns_ret. unfold read_post. simpl.
    split; [by rewrite !length_insert|]. split; [done|]. rewrite Nat2Z.id.
    destruct (decide (length l = 0%nat)) as [E|E].
    + rewrite E. apply list_lookup_insert_eq. rewrite !length_insert. lia.
    + rewrite list_lookup_insert_ne by done. apply list_lookup_insert_eq.
      rewrite length_insert. lia.
  - apply returns_ret, returns_bind.
    eapply returns_mono; [apply put_char_spec; simpl; rewrite length_insert; lia|cbv beta].
    intros _ s2 ->. apply returns_bind, returns_modify, returns_ret. unfold read_post. simpl.
    split; [by rewrite !length_insert|]. split; [done|]. rewrite Nat2Z.id. split.
    + by rewrite !take_insert_ge, T2 by lia.
    + apply list_lookup_insert_eq. rewrite length_insert. lia.
Qed.

Lemma read_loop_spec len input : ∀ l s,
  typed len l s → Z.of_nat (length l) < len → edit len input l ≠ More →
  returns (read_loop (T := M console) len input (Z.of_nat (length l))) s (read_post len (edit len input l)).
Proof.
  induction input as [|c input IH]; intros l s T Hl Hm; cbn [read_loop edit] in *;
    destruct (Z.ltb_spec (Z.of_nat (length l)) (len - 1)) as [Hlt|Hge].
  1: done.
  1,3: assert (E : len - 1 = Z.of_nat (length l)) by lia; rewrite E; destruct T as [T1 T2];
    (apply returns_bind; eapply returns_mono; [apply put_char_spec; lia|cbv beta];
     intros _ s1 ->; apply returns_ret; unfold read_post; simpl; rewrite Nat2Z.id;
     split; [by rewrite length_insert|]; split; [done|]; split;
     [by rewrite take_insert_ge, T2|apply list_lookup_insert_eq; lia]).
  apply returns_bind, returns_ret.
  apply returns_bind. eapply returns_mono; [apply put_char_spec; destruct T; lia|cbv beta].
  intros _ s1 E1. rewrite Nat2Z.id in E1.
  destruct (Z.eqb_spec c 0x03) as [->|H3].
  { exact (read_end len l s 0x03 input s1 T Hl E1 (or_introl eq_refl)). }
  destruct (Z.eqb_spec c 0x0d) as [->|Hd].
  { exact (read_end len l s 0x0d input s1 T Hl E1 (or_intror eq_refl)). }
  cbn [orb].
  pose proof (typed_put len l s c T Hl) as T1. rewrite <-E1 in T1.
  assert (T0 : typed len l s1).
  { rewrite <-(take_app_length l [c]). apply typed_take; [done|]. rewrite length_app. lia. }
  destruct (Z.eqb_spec c 0x7f) as [->|H7]; apply returns_bind.
  - eapply returns_mono; [apply print_spec|cbv beta]. intros _ s2 E2.
    set (n := pred (length l)).
    assert (Hn : length (take n l) = n) by (apply length_take_le; lia).
    replace ((if negb (Z.of_nat (length l) =? 0) then Z.of_nat (length l) - 2
              else Z.of_nat (length l) - 1) + 1) with (Z.of_nat (length (take n l))).
    2:{ rewrite Hn. unfold n. destruct (Z.eqb_spec (Z.of_nat (length l)) 0); simpl; lia. }
    apply IH; [|lia|done]. apply (typed_take len l s2 n); [|lia].
    destruct T0. by split; rewrite E2.
  - eapply returns_mono; [apply print_spec|cbv beta]. intros _ s2 E2.
    replace (Z.of_nat (length l) + 1) with (Z.of_nat (length (l ++ [c])))
      by (rewrite length_app; simpl; lia).
    apply IH; [|rewrite length_app; simpl; lia|done]. destruct T1. by split; rewrite E2.
Qed.

(** C27: Reading a line.  For every input that ends the line, [read_chars] leaves
    in the buffer exactly the line that editing gives (backspace takes the last
    character away, Enter or a full buffer ends the line), zero-terminated, and
    returns its length; Ctrl-C returns 0 with an empty buffer.  It never writes
    outside the buffer. *)
Theorem read_chars_edits (len : Z) (input : str) (s : console) :
  Z.of_nat (length (cbuf s)) = len → 0 < len → edit len input [] ≠ More →
  returns (read_chars (T := M console) len input) s (read_post len (edit len input [])).
Proof. intros Hs Hlen Hm. apply (read_loop_spec len input [] s); [by split|simpl; lia|done]. Qed.

Lemma read_chars_edits_witness : ∃ s',
  read_chars 8 [108; 115; 120; 0x7f; 0x0d] (Console (replicate 8 0) []) = Ret (2, []) s' ∧
  take 3 (cbuf s') = [108; 115; 0].
Proof.
  destruct (read_chars_edits 8 [108; 115; 120; 0x7f; 0x0d] (Console (replicate 8 0) []))
    as (r & s' & E & _).
  - done.
  - done.
  - done.
  - vm_compute in E. injection E as <- <-. by eexists.
Defined.

(** ** Splitting it into words *)

Definition nargs_max : nat := Z.to_nat CMD_NARGS.
Definition arg_max : nat := Z.to_nat CMD_ARG_LEN.

Lemma row_length w : (length w ≤ arg_max)%nat → length (row_of w) = arg_max.
Proof. intros H. unfold row_of, arg_max in *. rewrite length_app, length_replicate. lia. Qed.

Lemma rows_length ws : (length ws ≤ nargs_max)%nat → length (rows ws) = nargs_max.
Proof.
  intros H. unfold rows, nargs_max in *. rewrite length_app, length_fmap, length_replicate. lia.
Qed.

(** The row of the word that is being read. *)
Lemma rows_last ws w :
  (length ws < nargs_max)%nat → rows (ws ++ [w]) !! length ws = Some (row_of w).
Proof.
  intros H. unfold rows. rewrite fmap_app, <-(assoc_L app).
  rewrite lookup_app_r by (by rewrite length_fmap). by rewrite length_fmap, Nat.sub_diag.
Qed.

Lemma rows_update ws w w' :
  (length ws < nargs_max)%nat →
  <[length ws:=row_of w']> (rows (ws ++ [w])) = rows (ws ++ [w']).
Proof.
  intros H. unfold rows. rewrite !fmap_app, !length_app, <-!(assoc_L app).
  rewrite insert_app_r_alt by (by rewrite length_fmap). by rewrite length_fmap, Nat.sub_diag.
Qed.

(** An empty last word is the same as none. *)
Lemma rows_nil ws : (length ws < nargs_max)%nat → rows (ws ++ [[]]) = rows ws.
Proof.
  intros H. unfold rows. rewrite fmap_app, length_app, <-(assoc_L app). f_equal. simpl.
  replace (Z.to_nat CMD_NARGS - length ws)%nat
    with (S (Z.to_nat CMD_NARGS - (length ws + 1)))%nat by (unfold nargs_max in H; lia).
  done.
Qed.

Lemma row_put w c :
  (length w < arg_max)%nat → <[length w:=c]> (row_of w) = row_of (w ++ [c]).
Proof.
  intros H. unfold row_of. rewrite insert_app_r_alt, Nat.sub_diag, <-(assoc_L app) by done.
  f_equal. rewrite length_app. simpl.
  replace (Z.to_nat CMD_ARG_LEN - length w)%nat
    with (S (Z.to_nat CMD_ARG_LEN - (length w + 1))) by (unfold arg_max in H; lia).
  done.
Qed.

Lemma row_end w : (length w < arg_max)%nat → <[length w:=0]> (row_of w) = row_of w.
Proof.
  intros H. apply list_insert_id. unfold row_of. rewrite lookup_app_r, Nat.sub_diag by done.
  apply lookup_replicate. split; [done|]. unfold arg_max in H. lia.
Qed.

Lemma set_arg_spec ws w c v :
  (length ws < nargs_max)%nat → (length w < arg_max)%nat →
  <[length w:=c]> (row_of w) = row_of v →
  returns (set_arg (Z.of_nat (length ws)) (Z.of_nat (length w)) c) (rows (ws ++ [w]))
    (λ _ a, a = rows (ws ++ [v])).
Proof.
  intros Hws Hw Hv. unfold set_arg. apply returns_bind, returns_gets, returns_bind. unfold id.
  assert (Hl : length (rows (ws ++ [w])) = nargs_max)
    by (apply rows_length; rewrite length_app; simpl; lia).
  eexists _, _. split; [apply arr_get_eq; rewrite Hl; lia|]. apply returns_bind.
  rewrite Nat2Z.id, (list_lookup_total_correct _ _ _ (rows_last ws w Hws)).
  eexists _, _. split; [apply arr_set_eq; rewrite row_length; lia|]. apply returns_bind.
  eexists _, _. split; [apply arr_set_eq; rewrite Hl; lia|]. apply returns_modify.
  by rewrite !Nat2Z.id, Hv, rows_update.
Qed.

(** The text after [ws] and the beginning [w] of a word fits into the array. *)
Definition fits (buf w : str) (n : nat) : Prop :=
  Forall (λ x, length x < arg_max)%nat (words buf w) ∧ (n + closed buf w < nargs_max)%nat.

Lemma words_first buf : ∀ w, w ≠ [] → ∃ x xs, words buf w = (w ++ x) :: xs.
Proof.
  induction buf as [|c buf IH]; intros w Hw; simpl.
  - rewrite decide_False by done. exists [], []. by rewrite app_nil_r.
  - destruct (c =? 0x20).
    + rewrite decide_False by done. eexists [], _. by rewrite app_nil_r.
    + destruct (IH (w ++ [c])) as (x & xs & ->); [by destruct w|].
      exists (c :: x), xs. by rewrite <-(assoc_L app).
Qed.

Lemma parse_loop_spec buf : ∀ ws w,
  (length ws < nargs_max)%nat → (length w < arg_max)%nat →
  returns (parse_loop buf (Z.of_nat (length w)) (Z.of_nat (length ws))) (rows (ws ++ [w])) (λ r a,
    match r with
    | Some (idx, nargs) => fits buf w (length ws) ∧ a = rows (ws ++ words buf w) ∧
        (if negb (idx =? 0) then nargs + 1 else nargs) = Z.of_nat (length (ws ++ words buf w))
    | None => ¬ fits buf w (length ws)
    end).
Proof.
  unfold fits. induction buf as [|c buf IH]; intros ws w Hws Hw; simpl.
  { apply returns_ret. destruct (decide (w = [])) as [->|Hne].
    - rewrite app_nil_r, rows_nil by done. simpl. split; [|done]. split; [done|lia].
    - destruct (Z.eqb_spec (Z.of_nat (length w)) 0) as [E|E]; [by destruct w|].
      split; [split; [by apply Forall_singleton|lia]|]. split; [done|]. rewrite length_app. simpl. lia. }
  destruct (Z.eqb_spec c 0x20) as [->|Hc]; simpl.
  - destruct (Z.eqb_spec (Z.of_nat (length w)) 0) as [E|E]; simpl.
    { destruct w as [|? ?]; [|done]. by apply IH. }
    assert (Hne : w ≠ []) by (by intros ->). rewrite !decide_False by done. apply returns_bind.
    eapply returns_mono; [apply (set_arg_spec ws w 0 w); [done..|by apply row_end]|cbv beta].
    intros _ a ->. destruct (Z.leb_spec CMD_NARGS (Z.of_nat (length ws) + 1)) as [Hfull|Hroom].
    { apply returns_ret. intros [_ Hn]. unfold nargs_max in *. lia. }
    replace (Z.of_nat (length ws) + 1) with (Z.of_nat (length (ws ++ [w])))
      by (rewrite length_app; simpl; lia).
    assert (Hws' : (length (ws ++ [w]) < nargs_max)%nat)
      by (rewrite length_app; simpl; unfold nargs_max; lia).
    rewrite <-(rows_nil (ws ++ [w])) by done.
    eapply returns_mono; [apply (IH (ws ++ [w]) [] Hws'); simpl; unfold arg_max, CMD_ARG_LEN; lia|cbv beta].
    rewrite <-!(assoc_L app), !length_app. simpl. intros [[idx nargs]|] a.
    + intros ((HF & Hn) & -> & ->). split; [split; [by constructor|lia]|]. done.
    + intros Hno [HF Hn]. apply Hno. apply Forall_cons in HF as [_ HF]. split; [done|lia].
  - apply returns_bind.
    eapply returns_mono; [apply (set_arg_spec ws w c (w ++ [c])); [done..|by apply row_put]|cbv beta].
    intros _ a ->. destruct (Z.leb_spec CMD_ARG_LEN (Z.of_nat (length w) + 1)) as [Hfull|Hroom].
    { apply returns_ret. intros [HF _].
      destruct (words_first buf (w ++ [c])) as (x & xs & E); [by destruct w|].
      rewrite E in HF. apply Forall_cons in HF as [HF _]. rewrite !length_app in HF.
      simpl in HF. unfold arg_max in *. lia. }
    replace (Z.of_nat (length w) + 1) with (Z.of_nat (length (w ++ [c])))
      by (rewrite length_app; simpl; lia).
    apply IH; [done|]. rewrite length_app. simpl. unfold arg_max. lia.
Qed.

(** At most one word is not followed by a space. *)
Lemma words_closed buf : ∀ cur, (length (words buf cur) ≤ S (closed buf cur))%nat.
Proof.
  induction buf as [|c buf IH]; intros cur; cbn [words closed]; [case_decide; simpl; lia|].
  destruct (c =? 0x20); [|apply IH]. case_decide; [apply IH|]. cbn [length]. specialize (IH []). lia.
Qed.

Lemma parse_request_spec (buf : str) (a : argv_t) :
  returns (parse_request buf) a (λ r a',
    if decide (Forall (λ w, length w < 32)%nat (words buf []) ∧ (closed buf [] < 16)%nat)
    then r = (0, Some (Z.of_nat (length (words buf [])))) ∧ a' = rows (words buf [])
    else r = (-1, None)).
Proof.
  unfold parse_request. apply returns_bind, returns_modify, returns_bind.
  change (replicate _ _) with (rows ([] ++ [[]])).
  eapply returns_mono; [apply (parse_loop_spec buf [] []); simpl; by apply Nat.ltb_lt|cbv beta].
  unfold fits. simpl. intros [[idx nargs]|] a'.
  - intros (Hf & -> & ->). apply returns_ret. by rewrite decide_True.
  - intros Hf. apply returns_ret. by rewrite decide_False.
Qed.

(** C28: Splitting a command.  [parse_request] succeeds exactly when every word
    of the line has at most 31 characters and at most 15 words are followed by
    a space.  Then [argc] is the number of words and [argv] holds exactly the
    words of the line, each padded with zeros in its row, the other rows zero;
    otherwise it returns -1.  It never writes outside the array. *)
Theorem parse_request_words (buf : str) (a : argv_t) :
  returns (parse_request buf) a (λ r a',
    if decide (Forall (λ w, length w < 32)%nat (words buf []) ∧ (closed buf [] < 16)%nat)
    then r = (0, Some (Z.of_nat (length (words buf [])))) ∧ a' = rows (words buf [])
    else r = (-1, None)).
Proof. apply parse_request_spec. Qed.

(** A line of nothing but spaces is a request with no words: [parse_request]
    succeeds with [argc = 0], and the shell and [app_spawn] then look at
    [argv[argc - 1]], before the array. *)
Example parse_request_blank : ∃ a',
  parse_request [0x20; 0x20] (rows []) = Ret (0, Some 0) a'.
Proof. eexists. by vm_compute. Qed.
