(* ===== verification/ShellMain.v ===== *)
(** * The shell

    [main] of apps/system/sys_shell.c as user code.  [input] is what the tty will
    deliver; the calls of [read_chars] to the tty are made ([CU]: user code with
    the line buffer as state of its own). *)

From coqutil Require Import Byte Word.LittleEndianList.
From S2P Require Import Prelude Layout Blocks Earth Dir Shell User Servers.

Definition CU (D A : Type) : Type := console → U D (A * console).
#[export] Instance CU_ret {D} : MRet (CU D) := λ A a c, mret (a, c).
#[export] Instance CU_bind {D} : MBind (CU D) := λ A B k m c, '(a, c) ← m c; k a c.
#[export] Instance CU_lift {D} : Lift console (CU D) := λ A m c,
  match m c with
  | Ret a c => mret (a, c)
  | Fatal w _ => halt w
  | Undef w => act (undef w)
  | Spin => act spin
  end.

Section shell.
Context {D : Type} (junk : list byte) (writes : string → list Z → list (Z * Z)) (c_addr : Z).
(** [grass->workdir] *)
Context (workdir : M D str).

#[local] Instance tty_terminal : Terminal (CU D) := {|
  tty_char := λ c, _ ← sys_tty_read c_addr; mret (tt, c);
  tty_print := λ l c, _ ← Servers.print writes "%s" l; mret (tt, c);
|}.

(** The characters before the zero. *)
Fixpoint text (buf : str) : option str :=
  match buf with
  | [] => None
  | c :: buf => if c =? 0 then Some [] else cons c <$> text buf
  end.

Definition code (s : string) : str := byte.unsigned <$> chars s.

(** [struct proc_request] with all its fields. *)
Definition request_bytes (type argc : Z) (argv : argv_t) : list byte :=
  le_split 4 type ++ le_split 4 argc ++ (byte.of_Z <$> concat argv).

(** A command that is not [killall]. *)
Definition run_command (line : str) : U D unit :=
  match parse_request line [] with
  | Ret (r, argc) argv =>
      match argc with
      | Some argc =>
          _ ← sys_send GPID_PROCESS (request_bytes PROC_SPAWN argc argv) (Z.of_nat proc_request_size);
          '(_, r) ← sys_recv 4;
          match r with
          | Some (_, reply) =>
              if negb (int_at reply 0 =? CMD_OK) then
                Servers.print writes "sys_shell: command causes an error" []
              else if (argc - 1 <? 0) || (CMD_NARGS <=? argc - 1) then act (undef "argv")
              else if negb (nth 0 (argv !!! Z.to_nat (argc - 1)) 0 =? 0x26) then
                _ ← sys_recv 4; mret tt
              else mret tt
          | None => act (undef "reply")
          end
      | None => Servers.print writes "sys_shell: too many arguments or argument too long" []
      end
  | Fatal w _ => halt w
  | Undef w => act (undef w)
  | Spin => act spin
  end.

(** [do printf(...); while (read_chars(buf, 256) == 0);]  Each round that goes on
    takes a character. *)
Definition print_prompt : CU D unit := λ c,
  dir ← act workdir;
  _ ← Servers.print writes "[1;32m->  [1;36m%s [1;0m " dir;
  mret (tt, c).
Fixpoint prompt (n : nat) (input : str) : CU D str :=
  match n with
  | O => lift spin
  | S n =>
      _ ← print_prompt;
      '(r, input) ← read_chars 256 input;
      if r =? 0 then prompt n input else mret input
  end.

(** The next line: [buf] and the input that is left. *)
Definition next_line (buf input : str) : U D (str * str) :=
  '(input, c) ← prompt (S (length input)) input (Console buf []);
  mret (cbuf c, input).

(** [if (strcmp(buf, "killall") == 0) ... else ...] *)
Definition do_line (buf : str) : U D unit :=
  match text buf with
  | Some line =>
      if decide (line = code "killall") then
        _ ← sys_send GPID_PROCESS (proc_request PROC_KILLALL junk) (Z.of_nat proc_request_size);
        mret tt
      else run_command line
  | None => act (undef "buf")
  end.

Fixpoint shell_loop (n : nat) (buf input : str) : U D unit :=
  match n with
  | O => act spin
  | S n =>
      _ ← do_line buf;
      '(buf, input) ← next_line buf input;
      shell_loop n buf input
  end.

(** [char buf[256] = "cd"] *)
Definition first_line : str := code "cd" ++ replicate 254 0.
Definition sys_shell (n : nat) (input : str) : U D unit :=
  _ ← Servers.print writes "Welcome to the egos-2000 shell!" [];
  shell_loop n first_line input.
End shell.
