(* ===== verification/ShellThms.v ===== *)
(** * The shell and the process server

    Commands that the shell passes on to the process server, and what [killall] does to
    the system. *)

From stdpp Require Import relations.
From coqutil Require Import Byte Word.LittleEndianList.
From S2P Require Import Prelude Layout Blocks Store Ramdisk FsDisk FsCorrect FileSystem Earth Process Dir.
From S2P Require Import Kernel KernelInv Shell ShellCorrect User Servers Net ServersCorrect Paging PagingOps Mmu MmuOps.
From S2P Require Import MmuCorrect Elf ElfThms SysProc SysProcCorrect SpawnCorrect SpawnThms ShellMain.

(** ** The request *)

(** The words of a line as characters, and as the bytes of [req.argv]. *)
Definition to_str (w : list byte) : str := byte.unsigned <$> w.
Definition args_bytes (ws : list (list byte)) : list byte :=
  byte.of_Z <$> concat (rows (to_str <$> ws)).

Definition arg_row (w : list byte) : list byte := w ++ replicate (32 - length w) nul.

Lemma to_str_bytes w : byte.of_Z <$> to_str w = w.
Proof.
  unfold to_str. rewrite <-list_fmap_compose. rewrite <-(list_fmap_id w) at 2.
  apply list_fmap_ext. intros i b _. apply byte.of_Z_unsigned.
Qed.

Lemma args_bytes_cons w ws :
  (length ws < 16)%nat → ∃ rest, args_bytes (w :: ws) = arg_row w ++ rest.
Proof.
  intros Hl. eexists. unfold args_bytes, rows. rewrite fmap_cons. cbn [fmap list_fmap concat app].
  rewrite fmap_app. f_equal. unfold row_of, arg_row. rewrite fmap_app, to_str_bytes, fmap_replicate.
  unfold to_str. by rewrite length_fmap.
Qed.

Lemma rows_wf ws :
  Forall (λ w, length w < 32)%nat ws → (length ws ≤ 16)%nat →
  Forall (λ r, length r = 32%nat) (rows (to_str <$> ws)) ∧ length (rows (to_str <$> ws)) = 16%nat.
Proof.
  intros Hw Hl. split; [|apply rows_length; by rewrite length_fmap].
  unfold rows. apply Forall_app. split; [|by apply Forall_replicate].
  apply Forall_fmap, Forall_fmap. eapply Forall_impl; [exact Hw|]. cbv beta. intros w H.
  unfold compose. apply row_length.
  unfold to_str. rewrite length_fmap. change arg_max with 32%nat. lia.
Qed.

Lemma args_bytes_length ws :
  Forall (λ w, length w < 32)%nat ws → (length ws ≤ 16)%nat → length (args_bytes ws) = 512%nat.
Proof.
  intros Hw Hl. destruct (rows_wf ws Hw Hl) as [H1 H2]. unfold args_bytes. rewrite length_fmap.
  by rewrite (List.length_concat_same_length 32 _ H1), H2.
Qed.

(** The first character of a row. *)
Lemma concat_row (rs : list str) i r :
  Forall (λ r, length r = 32%nat) rs → rs !! i = Some r → concat rs !! (i * 32)%nat = r !! 0%nat.
Proof.
  intros Hf. revert i. induction Hf as [|x rs Hx Hf IH]; intros i Hi; [done|].
  destruct i as [|i]; cbn [concat].
  - injection Hi as ->. by rewrite lookup_app_l by (rewrite Hx; simpl; lia).
  - rewrite lookup_app_r, Hx by (rewrite Hx; lia). rewrite <-(IH i) by done. f_equal. lia.
Qed.

Lemma last_row ws w c w' :
  Forall (λ w, length w < 32)%nat (ws ++ [w]) → (length (ws ++ [w]) ≤ 16)%nat → w = c :: w' →
  args_bytes (ws ++ [w]) !! (length ws * 32)%nat = Some c ∧
  nth 0 (rows (to_str <$> ws ++ [w]) !!! length ws) 0 = byte.unsigned c.
Proof.
  intros Hw Hl ->. destruct (rows_wf _ Hw Hl) as [H1 _]. rewrite length_app in Hl. cbn [length] in Hl.
  pose proof (rows_last (to_str <$> ws) (to_str (c :: w'))) as Hr. rewrite length_fmap in Hr.
  specialize (Hr ltac:(change nargs_max with 16%nat; lia)).
  rewrite fmap_app in *. cbn [fmap list_fmap] in *. split.
  - unfold args_bytes. rewrite fmap_app. cbn [fmap list_fmap]. rewrite list_lookup_fmap.
    rewrite (concat_row _ _ _ H1 Hr). cbn. by rewrite byte.of_Z_unsigned.
  - by rewrite (list_lookup_total_correct _ _ _ Hr).
Qed.

Lemma request_fields ws rest (req := request_bytes PROC_SPAWN (Z.of_nat (length ws)) (rows (to_str <$> ws))) :
  Forall (λ w, length w < 32)%nat ws → (length ws ≤ 16)%nat →
  length req = proc_request_size ∧ int_at (req ++ rest) 0 = PROC_SPAWN ∧
  req_argc (req ++ rest) = Z.of_nat (length ws) ∧ req_argv (req ++ rest) = args_bytes ws ∧
  drop 8 (req ++ rest) = args_bytes ws ++ rest.
Proof.
  intros Hw Hl. pose proof (args_bytes_length ws Hw Hl) as Ha. unfold req, request_bytes.
  fold (args_bytes ws). rewrite <-!(assoc_L app). split_and!.
  - rewrite !length_app, !length_le_split, Ha. done.
  - unfold int_at. by rewrite uint_at_start.
  - unfold req_argc, int_at. rewrite uint_at_app by done. rewrite u32_small by (unfold is_u32; lia).
    unfold s32. rewrite Z.mod_small; lia.
  - unfold req_argv. rewrite (assoc_L app (le_split 4 _)). apply bytes_at_app; [done|exact Ha].
  - rewrite (assoc_L app (le_split 4 _)). by apply drop_app_length'.
Qed.

(** What the process server sees of a command. *)
Lemma request_asks F ws name args rest es0 es1 :
  ws = name :: args → Forall (λ w, length w < 32)%nat ws → (length ws ≤ 16)%nat →
  directory F 0 es0 → findable es0 (chars "bin/") →
  directory F (lookup_ino es0 (chars "bin/")) es1 → findable es1 name →
  asks_for F (request_bytes PROC_SPAWN (Z.of_nat (length ws)) (rows (to_str <$> ws)) ++ rest) name es0 es1.
Proof.
  intros -> Hw Hl D1 F1 D2 F2. destruct (request_fields (name :: args) rest Hw Hl) as (_ & _ & _ & _ & Hd).
  destruct (args_bytes_cons name args) as (r & Hr); [cbn [length] in Hl; lia|].
  apply Forall_cons in Hw as [Hn _]. rewrite Hr in Hd. unfold arg_row in Hd.
  replace (32 - length name)%nat with (S (31 - length name)) in Hd by lia. cbn [replicate] in Hd.
  rewrite <-!(assoc_L app) in Hd. cbn [app] in Hd.
  split; try done; rewrite Hd; [apply find_nul_text, F2|by rewrite take_app_length].
Qed.

Section command.
Context {D : Type} (junk : list byte) (writes : string → list Z → list (Z * Z)) (c_addr : Z).
Context (workdir : M (world D) str).

(** The shell's code after the reply, in the middle of a round of its loop. *)
Definition shell_goes_on (argc : Z) (argv : argv_t) (n : nat) (buf input : str)
    (r : option (Z * list byte)) (sc : syscall) : prog (world D) (unit * syscall) :=
  pbind (match r return U (world D) unit with
         | Some (_, reply) =>
             if negb (int_at reply 0 =? CMD_OK) then
               Servers.print writes "sys_shell: command causes an error" []
             else if (argc - 1 <? 0) || (CMD_NARGS <=? argc - 1) then act (undef "argv")
             else if negb (nth 0 (argv !!! Z.to_nat (argc - 1)) 0 =? 0x26) then
               _ ← sys_recv 4; mret tt
             else mret tt
         | None => act (undef "reply")
         end sc)
    (λ r, ('(buf, input) ← next_line writes c_addr workdir buf input;
           shell_loop junk writes c_addr workdir n buf input) r.2).

Lemma shell_loop_asks n buf input line ws sc :
  text buf = Some line → line ≠ code "killall" → words line [] = to_str <$> ws →
  Forall (λ w, length w < 32)%nat ws → (closed line [] < 16)%nat →
  shell_loop junk writes c_addr workdir (S n) buf input sc =
  shell_asks (request_bytes PROC_SPAWN (Z.of_nat (length ws)) (rows (to_str <$> ws)))
    (shell_goes_on (Z.of_nat (length ws)) (rows (to_str <$> ws)) n buf input) sc.
Proof.
  intros Ht Hk Hws Hw Hc.
  assert (Hl : (length ws ≤ 16)%nat).
  { pose proof (words_closed line []) as H. rewrite Hws, length_fmap in H. lia. }
  destruct (parse_request_spec line []) as (r & a & E & H). rewrite decide_True in H.
  2:{ split; [|done]. rewrite Hws. apply Forall_fmap. eapply Forall_impl; [exact Hw|]. cbv beta.
      intros w Hlt. unfold compose, to_str. by rewrite length_fmap. }
  destruct H as [-> ->]. rewrite Hws, length_fmap in E.
  destruct (request_fields ws [] Hw Hl) as (Hreq & _).
  rewrite shell_asks_eq by done. cbn [shell_loop]. rewrite user_bind. unfold do_line. rewrite Ht.
  rewrite decide_False by done. unfold run_command. rewrite E. rewrite user_bind.
  rewrite sys_send_all; [|by rewrite Hreq|done]. reflexivity.
Qed.
End command.

(** The reply is CMD_OK and the command is not a background command: the shell waits. *)
Lemma shell_waits {D} junk writes c_addr (workdir : M (world D) str) ws w c w' n buf input sc :
  ws = w ++ [c :: w'] → c ≠ amp → Forall (λ w, length w < 32)%nat ws → (length ws ≤ 16)%nat →
  shell_goes_on junk writes c_addr workdir (Z.of_nat (length ws)) (rows (to_str <$> ws)) n buf input
    (Some (GPID_PROCESS, le_split 4 CMD_OK)) sc =
  Invoke (recv_sc sc) (λ sc,
    ('(buf, input) ← next_line writes c_addr workdir buf input;
     shell_loop junk writes c_addr workdir n buf input) sc).
Proof.
  intros -> Hc Hw Hl. destruct (last_row w _ c w' Hw Hl eq_refl) as [_ Hn].
  unfold shell_goes_on. change (int_at (le_split 4 CMD_OK) 0 =? CMD_OK) with true. cbn [negb].
  rewrite length_app in *. cbn [length] in *.
  replace (Z.of_nat (length w + 1) - 1) with (Z.of_nat (length w)) by lia.
  rewrite (proj2 (Z.ltb_ge _ _)), (proj2 (Z.leb_gt CMD_NARGS _)) by (change CMD_NARGS with 16; lia).
  rewrite Nat2Z.id, Hn. destruct (Z.eqb_spec (byte.unsigned c) 0x26) as [E|]; [|reflexivity].
  destruct Hc. rewrite <-(byte.of_Z_unsigned c), E. reflexivity.
Qed.

(** A line whose words are [ws], not for the background. *)
Record command_line (buf line : str) (ws : list (list byte)) : Prop := {
  cm_text : text buf = Some line;
  cm_other : line ≠ code "killall";
  cm_words : words line [] = to_str <$> ws;
  cm_short : Forall (λ w, length w < 32)%nat ws;
  cm_few : (closed line [] < 16)%nat;
  cm_waits : ∃ ws' c w', ws = ws' ++ [c :: w'] ∧ c ≠ amp;
}.

Section runs.
Context {D : Type} (junk : list byte) (fs : inode_store D) (inv : D → Prop) (sd : sd_driver D).
Context `{!SdCard sd DISK_BLOCKS} (rom : Z → byte) (type : disk_type) (rnd : nat → Z).
Context (translation : translation_id) (writes : string → list Z → list (Z * Z)) (c_addr : Z).
Context (workdir : M (world D) str).
Local Abbreviation loop := (proc_loop QEMU sd rom type rnd translation junk writes).
Local Abbreviation shell := (shell_loop junk writes c_addr workdir).
Implicit Types T : gmap Z (prog (world D) (unit * syscall)).

(** On QEMU: from any point where the shell has the line and the servers wait, whatever the
    scheduler does (each step is [forced]) the system gets to the point where the
    shell waits for process [pid], which is ready, with the pages of the program
    [file] and the words [ws] as arguments, and the servers wait.  [kf] is how many
    blocks the file server is asked for. *)
Definition command_runs (buf input : str) (ws : list (list byte)) (file : list byte) (b0 filesz pid : Z)
    (ps : table) (w : world D) (G : Z → page) : Prop :=
  ∃ kf v' G', mmu_wf QEMU sd v' G' ∧ inv (pdisk v') ∧
  app_pages pid (Z.of_nat (length ws)) (Some (args_bytes ws)) file b0 filesz (vm w) G v' G' ∧
  ∀ app_pid shell_waiting ssc psc dsc fsc T m ns n nd nf,
  apps_wait T → in_use m = 0 → msg_len_ok ssc → msg_len_ok dsc → msg_len_ok fsc →
  ∃ ssc' psc' dsc' fsc' m',
    let start := Net (servers junk fs (loop (S n) shell_waiting app_pid psc) (2 + nd) dsc (kf + nf) fsc
                   (<[GPID_SHELL:=shell (S ns) buf input ssc]> T)) m w in
    let goal := Net (servers junk fs (loop n true pid psc') nd dsc' nf fsc'
                   (<[GPID_SHELL:=Invoke (recv_sc ssc') (λ sc,
                      ('(buf, input) ← next_line writes c_addr workdir buf input; shell ns buf input) sc)]> T)) m'
                   (World (proc_set_ready pid ps) pid v') in
    rtc forced start goal ∧ in_use m' = 0.

Context (F : files) `{!FileStore fs inv F, !ReadsAlike fs}.

Lemma command_served buf line input name args es0 es1 f b0 filesz pid ps w G :
  command_line buf line (name :: args) →
  directory F 0 es0 → findable es0 (chars "bin/") →
  directory F (lookup_ino es0 (chars "bin/")) es1 → findable es1 name → 0 ≤ lookup_ino es1 name →
  F !! Z.to_nat (lookup_ino es1 name) = Some f → can_load sd translation f b0 filesz pid ps w G →
  (nbytes ≤ length junk)%nat → (∀ n, 0 ≤ rnd n) → inv (pdisk (vm w)) →
  command_runs buf input (name :: args) (concat f) b0 filesz pid ps w G.
Proof.
  set (ws := name :: args). intros [Ht Hk Hws Hw Hc (ws' & c & w' & Hlast & Hamp)] D1 F1 D2 F2 Hi HF Hl Hj Hrnd Hinv.
  assert (Hlen : (length ws ≤ 16)%nat).
  { pose proof (words_closed line []) as H. rewrite Hws, length_fmap in H. lia. }
  assert (Hlast' : args_bytes ws !!! Z.to_nat ((Z.of_nat (length ws) - 1) * CMD_ARG_LEN) ≠ amp).
  { rewrite Hlast in Hw, Hlen |- *. destruct (last_row ws' _ c w' Hw Hlen eq_refl) as [E _].
    rewrite length_app. cbn [length].
    replace (Z.to_nat ((Z.of_nat (length ws' + 1) - 1) * CMD_ARG_LEN)) with (length ws' * 32)%nat
      by (change CMD_ARG_LEN with 32; lia). by rewrite (list_lookup_total_correct _ _ _ E). }
  destruct (spawn_served junk fs inv F sd rom type rnd translation writes name es0 es1 f b0 filesz pid
    (Z.of_nat (length ws)) (args_bytes ws) ps G w) as (kf & v' & G' & W' & I' & P' & H); try done.
  { split; [unfold ws in *; cbn [length] in *; change CMD_NARGS with 16; lia|]. split; [|done].
    rewrite args_bytes_length by done. reflexivity. }
  exists kf, v', G'. split; [done|]. split; [done|]. split; [done|].
  intros app_pid shell_waiting ssc psc dsc fsc T m ns n nd nf HT Hm Hs Hd Hf.
  rewrite (shell_loop_asks junk writes c_addr workdir ns buf input line ws ssc Ht Hk Hws Hw Hc).
  set (req := request_bytes _ _ _).
  destruct (request_fields ws (drop proc_request_size (content (msg ssc))) Hw Hlen)
    as (R1 & R2 & R3 & R4 & _). fold req in R1, R2, R3, R4.
  destruct (H req (shell_goes_on junk writes c_addr workdir (Z.of_nat (length ws)) (rows (to_str <$> ws)) ns
    buf input) app_pid shell_waiting ssc psc dsc fsc T m n nd nf)
    as (ssc' & psc' & dsc' & fsc' & m' & L & Hm'); try done.
  { split; [|done]. by apply (request_asks F ws name args). }
  exists ssc', psc', dsc', fsc', m'. rewrite (shell_waits _ _ _ _ ws ws' c w') in L by done. by split.
Qed.
End runs.

(** C9: A command, from the line to the running program (on QEMU).  The shell has a
    line whose words are a program of the directory [bin/] and its arguments, not
    for the background; the servers wait for requests, nobody else is at work, and
    there are a free entry in the process table and five free frames.  Then
    whatever the scheduler does, the system gets to the state in which the shell
    waits for the program to end, all servers wait for requests, and a new
    process with the next pid is ready to run.  Its pages are those of
    [app_pages] (see [command_runs]): the program's segment, which has come through the file server
    block by block, then zeros, the words of the line as arguments, and a stack.
    No page of another process has changed, and the files are intact. *)
Theorem shell_command_served {D} (junk : list byte) (fs : inode_store D) (inv : D → Prop) (F : files)
    `{!FileStore fs inv F, !ReadsAlike fs} (sd : sd_driver D) `{!SdCard sd DISK_BLOCKS}
    (rom : Z → byte) (type : disk_type) (rnd : nat → Z) (translation : translation_id)
    (writes : string → list Z → list (Z * Z)) (c_addr : Z) (workdir : M (world D) str)
    (buf line input : str) (name : list byte) (args : list (list byte))
    (es0 es1 : list (list byte * Z)) (f : list block) (b0 filesz pid : Z) (ps : table)
    (G : Z → page) (w : world D) :
  command_line buf line (name :: args) →
  directory F 0 es0 → findable es0 (chars "bin/") →
  directory F (lookup_ino es0 (chars "bin/")) es1 → findable es1 name → 0 ≤ lookup_ino es1 name →
  F !! Z.to_nat (lookup_ino es1 name) = Some f → can_load sd translation f b0 filesz pid ps w G →
  (nbytes ≤ length junk)%nat → (∀ n, 0 ≤ rnd n) → inv (pdisk (vm w)) →
  command_runs junk fs inv sd rom type rnd translation writes c_addr workdir buf input (name :: args)
    (concat f) b0 filesz pid ps w G.
Proof. by apply command_served. Qed.

(** The line [prog -x]. *)
Lemma demo_line : command_line (code "prog -x" ++ replicate 249 0) (code "prog -x") [chars "prog"; chars "-x"].
Proof.
  split; [by vm_compute..| | |].
  - repeat constructor; apply Nat.ltb_lt; by vm_compute.
  - apply Nat.ltb_lt. by vm_compute.
  - by exists [chars "prog"], Byte.x2d, [Byte.x78].
Qed.

Lemma shell_command_served_witness : ∃ kf ssc' psc' dsc' fsc' m' v' G',
  let junk := replicate 600 Byte.x00 in
  let loop := proc_loop QEMU mem_sd (λ _, Byte.x00) SD_CARD Z.of_nat SOFT_TLB junk (λ _ _, []) in
  let shell := shell_loop junk (λ _ _, []) 0 (mret []) in
  let buf := code "prog -x" ++ replicate 249 0 in
  let start := Net (servers junk (ro_files demo_files) (loop 1%nat false 0 idle_sc) 3 idle_sc (kf + 1) idle_sc
                 (<[GPID_SHELL:=shell 2%nat buf [] idle_sc]> ∅)) (KernelMsg 0 0 0 []) demo_world in
  let goal := Net (servers junk (ro_files demo_files) (loop 0%nat true 5 psc') 1 dsc' 1 fsc'
                 (<[GPID_SHELL:=Invoke (recv_sc ssc') (λ sc,
                    ('(buf, input) ← next_line (λ _ _, []) 0 (mret []) buf []; shell 1%nat buf input) sc)]> ∅)) m'
                 (World (<[4%nat:=Process 5 PROC_READY true 0 0]> (demo_table 4)) 5 v') in
  rtc forced start goal ∧ owned v' G' 5 0x8005 (replicate 300 Byte.x41 ++ replicate (npage - 300) Byte.x00).
Proof.
  destruct (shell_command_served (replicate 600 Byte.x00) (ro_files demo_files) (λ _, True) demo_files mem_sd
    (λ _, Byte.x00) SD_CARD Z.of_nat SOFT_TLB (λ _ _, []) 0 (mret []) (code "prog -x" ++ replicate 249 0)
    (code "prog -x") [] (chars "prog") [chars "-x"] demo_root demo_bin
    demo_program 1 300 5 (<[4%nat:=Process 5 PROC_LOADING true 0 0]> (demo_table 4)) (λ _, zero_page) demo_world)
    as (kf & v' & G' & _ & _ & [Hp _] & H).
  - exact demo_line.
  - apply demo_directory.
  - apply findableb_sound. by vm_compute.
  - apply demo_directory.
  - apply findableb_sound. by vm_compute.
  - by vm_compute.
  - reflexivity.
  - exact demo_can_load.
  - apply Nat.leb_le. vm_compute. reflexivity.
  - lia.
  - exact Logic.I.
  - destruct (H 0 false idle_sc idle_sc idle_sc idle_sc ∅ (KernelMsg 0 0 0 []) 1%nat 0%nat 1%nat 1%nat)
      as (ssc' & psc' & dsc' & fsc' & m' & R & _).
    + intros q t _ _ _ _ Ht. by rewrite lookup_empty in Ht.
    + reflexivity.
    + reflexivity.
    + reflexivity.
    + reflexivity.
    + exists kf, ssc', psc', dsc', fsc', m', v', G'. split; [exact R|].
      specialize (Hp 0%nat ltac:(lia)). exact Hp.
Defined.

(** ** The shell between two commands *)

Lemma sends_bind {D A B} (Q : A → Prop) (R : B → Prop) (f : A → prog D B) : ∀ p : prog D A,
  sends_next Q p → (∀ a, Q a → sends_next R (f a)) → sends_next R (pbind p f).
Proof.
  fix IH 1. intros [a|sc k|m|w] H Hf; cbn [prog_bind sends_next] in *.
  - by apply Hf.
  - destruct H as [H|[H1 H2]]; [by left|right]. split; [done|]. intros sc'. apply IH; [apply H2|done].
  - intros d. specialize (H d). destruct (m d) as [t d'| | |]; [|done..]. by apply IH.
  - done.
Qed.

(** User code that uses the tty and works on its own until it sends a message. *)
Definition sends_first {D A} (u : U D A) : Prop := ∀ sc, sends_next (λ _, True) (u sc).

Section between.
Context {D : Type} (junk : list byte) (writes : string → list Z → list (Z * Z)) (c_addr : Z).
Context (workdir : M D str).

Lemma first_ret {A} (a : A) : sends_first (D := D) (mret a).
Proof. done. Qed.
Lemma first_bind {A B} (u : U D A) (f : A → U D B) :
  sends_first u → (∀ a, sends_first (f a)) → sends_first (u ≫= f).
Proof. intros Hu Hf sc. eapply sends_bind; [apply Hu|]. intros [a sc'] _. apply Hf. Qed.
Lemma first_act {A} (m : M D A) : sends_first (act m).
Proof. intros sc d. unfold act. by destruct (m d). Qed.

Lemma first_tty_read ptr : sends_first (D := D) (sys_tty_read ptr).
Proof. intros sc. right. by split. Qed.
Lemma first_print line args : sends_first (D := D) (Servers.print writes line args).
Proof.
  unfold Servers.print. induction (writes line args) as [|[ptr len] ws IH]; [apply first_ret|].
  cbn [write_all]. apply first_bind; [|done].
  assert (Hw : ∀ l, sends_first (D := D) (sys_tty_write ptr l)) by (intros l sc; right; by split).
  unfold _write. destruct (_ <? _); by apply first_bind.
Qed.

(** Whatever comes after a message is sent does not matter. *)
Lemma first_send {A} r m size (f : Z → U D A) :
  size ≤ SYSCALL_MSG_LEN → sends_first (sys_send r m size ≫= f).
Proof.
  intros Hs sc. apply (sends_bind (λ _, False)); [|done]. unfold sys_send.
  rewrite (proj2 (Z.ltb_ge _ _)) by lia. destruct (_ || _); [done|by left].
Qed.

Lemma first_run_command line : sends_first (run_command (D := D) writes line).
Proof.
  unfold run_command. destruct (parse_request line []) as [[r [argc|]] argv|w ?|w|].
  - by apply first_send.
  - apply first_print.
  - done.
  - apply first_act.
  - apply first_act.
Qed.

(** The line editor. *)
Definition reads_first {A} (m : CU D A) : Prop := ∀ c, sends_first (m c).
Lemma reads_bind {A B} (m : CU D A) (f : A → CU D B) :
  reads_first m → (∀ a, reads_first (f a)) → reads_first (m ≫= f).
Proof. intros Hm Hf c. apply first_bind; [apply Hm|]. intros [a c']. apply Hf. Qed.
Lemma reads_lift {A} (m : M console A) : reads_first (CU_lift A m).
Proof. intros c. unfold CU_lift. destruct (m c); [done|done|apply first_act..]. Qed.

#[local] Instance term : Terminal (CU D) := tty_terminal writes c_addr.
Lemma reads_char : reads_first tty_char.
Proof. intros c. apply first_bind; [apply first_tty_read|done]. Qed.
Lemma reads_print l : reads_first (tty_print l).
Proof. intros c. apply first_bind; [apply first_print|done]. Qed.

Lemma read_loop_first len input : ∀ i, reads_first (read_loop len input i).
Proof.
  assert (Hif : ∀ (b : bool) (m : CU D unit), reads_first m → reads_first (if b then m else mret tt)).
  { intros b m Hm. by destruct b. }
  induction input as [|c input IH]; intros i; cbn [read_loop]; (destruct (i <? len - 1);
    [|apply reads_bind; [apply reads_lift|done]]); [apply reads_lift|].
  apply reads_bind; [apply reads_char|intros _]. apply reads_bind; [apply reads_lift|intros _].
  destruct (_ || _); [|destruct (c =? 0x7f); (apply reads_bind; [apply Hif, reads_print|done])].
  apply reads_bind; [apply Hif, reads_lift|intros _]. apply reads_bind; [apply reads_lift|intros _].
  apply reads_bind; [apply reads_print|done].
Qed.

Lemma next_line_first buf input : sends_first (next_line writes c_addr workdir buf input).
Proof.
  unfold next_line. apply first_bind; [|by intros []]. revert input.
  assert (H : ∀ n input, reads_first (prompt writes c_addr workdir n input)).
  { induction n as [|n IH]; intros input; cbn [prompt]; [apply reads_lift|].
    apply reads_bind; [|intros _; apply reads_bind; [apply read_loop_first|]].
    - intros c. apply first_bind; [apply first_act|intros dir]. apply first_bind; [apply first_print|done].
    - intros [r rest]. by destruct (r =? 0). }
  intros input. apply H.
Qed.

(** The shell never asks for a message before it has sent one. *)
Lemma shell_loop_first n : ∀ buf input, sends_first (shell_loop junk writes c_addr workdir n buf input).
Proof.
  induction n as [|n IH]; intros buf input; cbn [shell_loop]; [apply first_act|].
  apply first_bind; [|intros _; apply first_bind; [apply next_line_first|by intros []]].
  unfold do_line. destruct (text buf); [|apply first_act].
  case_decide; [by apply first_send|apply first_run_command].
Qed.
End between.

(** ** killall *)

Section killall.
Context {D : Type} (platform : platform_id) (sd : sd_driver D) `{!SdCard sd DISK_BLOCKS}.
Context (rom : Z → byte) (type : disk_type) (rnd : nat → Z) (translation : translation_id).
Context (junk : list byte) (writes : string → list Z → list (Z * Z)).
Local Abbreviation loop := (proc_loop platform sd rom type rnd translation junk writes).

(** All user processes can be freed. *)
Lemma free_users_returns ps : ∀ (v : mmu D) G, mmu_wf platform sd v G →
  returns (free_users mmu_free ps) v (λ _ _, True).
Proof using Type.
  induction ps as [|p ps IH]; intros v G W; cbn [free_users]; [by apply returns_ret|].
  apply returns_bind. destruct (_ && _).
  - apply returns_bind. eapply returns_mono; [by apply (free_loop_spec platform sd (pid p) _ v G 0)|cbv beta].
    intros _ v1 (G1 & R). apply returns_ret, returns_bind.
    eapply returns_mono; [by apply (IH v1 G1), R|]. intros ps' v2 _. by apply returns_ret.
  - apply returns_ret, returns_bind.
    eapply returns_mono; [by apply (IH v G)|]. intros ps' v2 _. by apply returns_ret.
Qed.

(** The process server takes the request and is about to send the shell a reply. *)
Lemma loop_killall n ap sc sc1 buf (w : world D) G :
  mmu_wf platform sd (vm w) G → int_at buf 0 = PROC_KILLALL → (4 ≤ length buf)%nat →
  loop (S n) true ap sc = Invoke (recv_sc sc) (λ sc,
    pbind (proc_handle platform sd rom type rnd translation junk writes (sender (msg sc))
             (take (Z.to_nat SYSCALL_MSG_LEN) (content (msg sc))) true ap sc)
      (λ r, (let '(sw, ap) := r.1 in loop n sw ap) r.2)) ∧
  ∃ m w', pbind (proc_handle platform sd rom type rnd translation junk writes GPID_SHELL buf true ap sc1)
      (λ r, (let '(sw, ap) := r.1 in loop n sw ap) r.2) = Act m ∧
    m w = Ret (Invoke (send_sc GPID_SHELL (take 4 buf) sc1) (λ sc, loop n true ap sc)) w'.
Proof using Type.
  intros W E Hl. split; [cbn [proc_loop]; rewrite recv_then; reflexivity|].
  destruct (free_users_returns (procs w) (vm w) G W) as (ps' & v' & Ef & _).
  assert (Eg : grass_proc_free (-1) w = Ret tt (World ps' (nprocs w) v')).
  { unfold grass_proc_free. mstep. assert (Ev : on_vm (proc_free mmu_free (-1) (procs w)) w =
      Ret ps' (set_vm v' w)) by (unfold on_vm, proc_free; rewrite Z.eqb_refl, Ef; done).
    by mrun Ev. }
  unfold proc_handle. rewrite E. eexists _, (World ps' (nprocs w) v'). split; [reflexivity|].
  unfold act. rewrite Eg. cbn [prog_bind fst snd]. unfold reply_shell, mbind, U_bind.
  rewrite sys_send_eq by (change SYSCALL_MSG_LEN with 1024; lia). reflexivity.
Qed.

Context (c_addr : Z) (workdir : M (world D) str).
Local Abbreviation shell := (shell_loop junk writes c_addr workdir).

Lemma shell_killall n buf input sc :
  (proc_request_size ≤ length junk)%nat → text buf = Some (code "killall") →
  shell (S n) buf input sc =
  Invoke (send_sc GPID_PROCESS (proc_request PROC_KILLALL junk) sc) (λ sc,
    ('(buf, input) ← next_line writes c_addr workdir buf input; shell n buf input) sc).
Proof using Type.
  intros Hj Ht. cbn [shell_loop]. rewrite user_bind. unfold do_line. rewrite Ht, decide_True by done.
  rewrite user_bind, sys_send_all; [reflexivity| |done]. unfold proc_request.
  rewrite overwrite_length, length_take; [lia|]. rewrite length_le_split, length_take.
  unfold proc_request_size in *. lia.
Qed.

Lemma killall_reply_stays np ns ap buf input ssc psc (T : gmap Z (prog (world D) (unit * syscall))) m w G :
  (proc_request_size ≤ length junk)%nat → text buf = Some (code "killall") →
  mmu_wf platform sd (vm w) G → in_use m = 0 → msg_len_ok ssc →
  ∃ n, rtc step (Net (<[GPID_SHELL:=shell (S ns) buf input ssc]>
                    (<[GPID_PROCESS:=loop (S np) true ap psc]> T)) m w) n ∧
    ksender (mailbox n) = GPID_PROCESS ∧ stale n GPID_SHELL.
Proof using Type.
  intros Hj Ht W Hm Hs. rewrite shell_killall by done.
  set (sc1 := send_sc GPID_PROCESS (proc_request PROC_KILLALL junk) ssc). set (c1 := content (msg sc1)).
  assert (Hreq : length (proc_request PROC_KILLALL junk) = proc_request_size).
  { unfold proc_request. rewrite overwrite_length, length_take; [lia|].
    rewrite length_le_split, length_take. unfold proc_request_size in *. lia. }
  assert (Hl1 : length c1 = Z.to_nat SYSCALL_MSG_LEN).
  { apply send_sc_ok; [|done]. rewrite Hreq. apply Nat.leb_le. done. }
  assert (Ht1 : int_at c1 0 = PROC_KILLALL).
  { unfold c1, sc1, send_sc. cbn [msg content]. unfold proc_request. rewrite overwrite_start, <-(assoc_L app).
    unfold int_at. by rewrite uint_at_start. }
  set (psc1 := received GPID_SHELL c1 (recv_sc psc)).
  destruct (loop_killall np ap psc psc1 c1 w G W Ht1) as (El & a & w' & Ea & Ew).
  { rewrite Hl1. apply Nat.leb_le. done. }
  rewrite El. eexists. split.
  { eapply rtc_l; [apply (step_send _ GPID_SHELL sc1); [apply lookup_insert_eq|done..]|]. cbn [tasks shared].
    rewrite insert_insert_eq. change (receiver (msg sc1)) with GPID_PROCESS. fold c1.
    eapply rtc_l; [eapply (step_recv _ GPID_PROCESS (recv_sc psc) _ GPID_SHELL c1); [|done..]|].
    { cbn [tasks]. rewrite lookup_insert_ne by done. apply lookup_insert_eq. }
    cbn [tasks shared msg sender content]. rewrite take_ge by (by rewrite Hl1).
    fold (received GPID_SHELL c1 (recv_sc psc)). fold psc1. rewrite Ea.
    eapply rtc_l; [exists GPID_PROCESS; eapply step_act; [apply lookup_insert_eq|exact Ew]|].
    cbn [tasks mailbox]. rewrite insert_insert_eq.
    eapply rtc_once, (step_send _ GPID_PROCESS); [apply lookup_insert_eq|done..]. }
  split; [done|]. split; [done|]. split; [done|]. cbn [tasks].
  rewrite lookup_insert_ne, lookup_insert_ne, lookup_insert_eq by done. eexists. split; [done|].
  apply first_bind; [apply next_line_first|]. intros [b i]. apply shell_loop_first.
Qed.
End killall.

(** C39: [killall] at the prompt can stop the system for ever, on both platforms.
    The shell has the line [killall]; the last command was one of the foreground,
    so [shell_waiting] is set in the process server, which waits for a request; no
    message is on its way.  The shell sends the request and does not ask for a
    reply, but the server sends one.  Then, whatever is typed and whatever the
    other processes are, the reply stays in the kernel's only message buffer: in
    every later state the shell does not ask for it, and a process that asks for
    a message or wants to send one, the shell with its next command included, is
    where it was in all states after that. *)
Theorem killall_deadlock {D} (platform : platform_id) (sd : sd_driver D) `{!SdCard sd DISK_BLOCKS}
    (rom : Z → byte) (type : disk_type) (rnd : nat → Z) (translation : translation_id) (junk : list byte)
    (writes : string → list Z → list (Z * Z)) (c_addr : Z) (workdir : M (world D) str)
    (np ns : nat) (app_pid : Z) (buf input : str) (ssc psc : syscall)
    (T : gmap Z (prog (world D) (unit * syscall))) (m : kernel_msg) (w : world D) (G : Z → page) :
  let loop := proc_loop platform sd rom type rnd translation junk writes in
  let shell := shell_loop junk writes c_addr workdir in
  let start := Net (<[GPID_SHELL:=shell (S ns) buf input ssc]>
                 (<[GPID_PROCESS:=loop (S np) true app_pid psc]> T)) m w in
  (proc_request_size ≤ length junk)%nat → text buf = Some (code "killall") →
  mmu_wf platform sd (vm w) G → in_use m = 0 → msg_len_ok ssc →
  ∃ n, rtc step start n ∧
    in_use (mailbox n) = 1 ∧ ksender (mailbox n) = GPID_PROCESS ∧ kreceiver (mailbox n) = GPID_SHELL ∧
    ∀ n', rtc step n n' →
      mailbox n' = mailbox n ∧ waits_to_recv (tasks n' !! GPID_SHELL) = false ∧
      ∀ q n'', wants_msg n' q → rtc step n' n'' → tasks n'' !! q = tasks n' !! q.
Proof.
  intros loop shell start Hj Ht W Hm Hs.
  destruct (killall_reply_stays platform sd rom type rnd translation junk writes c_addr workdir np ns app_pid
    buf input ssc psc T m w G Hj Ht W Hm Hs) as (n & Hr & Hk & Hst). pose proof Hst as (H1 & H2 & _).
  exists n. split_and!; try done. intros n' Hn'.
  destruct (stale_for_ever n n' _ Hst Hn') as (Hst' & Hm' & _). split; [done|]. split.
  - destruct Hst' as (_ & _ & t & -> & H). destruct t as [|sc k| |]; try done. cbn [waits_to_recv].
    apply Z.eqb_neq. intros E. cbn [sends_next] in H. unfold is_tty in H. rewrite E in H.
    by destruct H as [|[]].
  - intros q n'' Hq Hn''. by apply (stale_for_ever n' n'' _ Hst' Hn'').
Qed.

(** Somebody typed [killall] and goes on with [ls]. *)
Lemma killall_deadlock_witness : ∃ n,
  let junk := replicate 600 Byte.x00 in
  rtc step (Net (<[GPID_SHELL:=shell_loop junk (λ _ _, [(0, 1)]) 0 (mret []) 9
                      (code "killall" ++ replicate 249 0) (code "ls" ++ [13]) idle_sc]>
              (<[GPID_PROCESS:=proc_loop QEMU mem_sd (λ _, Byte.x00) SD_CARD Z.of_nat SOFT_TLB junk
                                 (λ _ _, [(0, 1)]) 9 true 5 idle_sc]> ∅)) (KernelMsg 0 0 0 []) demo_world) n ∧
  ∀ n', rtc step n n' → mailbox n' = mailbox n.
Proof.
  destruct (killall_deadlock QEMU mem_sd (λ _, Byte.x00) SD_CARD Z.of_nat SOFT_TLB (replicate 600 Byte.x00)
    (λ _ _, [(0, 1)]) 0 (mret []) 8 8 5 (code "killall" ++ replicate 249 0) (code "ls" ++ [13]) idle_sc idle_sc
    ∅ (KernelMsg 0 0 0 []) demo_world (λ _, zero_page)) as (n & R & _ & _ & _ & H).
  - apply Nat.leb_le. vm_compute. reflexivity.
  - by vm_compute.
  - apply demo_can_load.
  - reflexivity.
  - reflexivity.
  - exists n. split; [exact R|]. intros n' Hn'. apply (H n' Hn').
Defined.
