(* ===== verification/ImageThms.v ===== *)
(** * Commands from the disk image

    All parts together: the image that mkfs builds is on the SD card, the file
    server reads it through the tree file system, the disk layer and the driver of
    the card, and the shell's commands run the programs that were given to
    mkfs. *)

From coqutil Require Import Byte.
From S2P Require Import Prelude Layout Blocks Store Treedisk Ramdisk FsDisk FsCorrect FileSystem Earth Process Dir.
From S2P Require Import SdCorrect Mkfs MkfsCorrect Kernel Shell User Servers Net ServersCorrect.
From S2P Require Import Paging PagingOps Mmu MmuOps MmuCorrect PageTable Elf ElfCorrect ElfThms.
From S2P Require Import SysProc SysProcCorrect SpawnCorrect SpawnThms NetThms ShellMain ShellThms.

(** ** Reads of the tree file system *)

(** Stores whose [read] does not look at the buffer it fills. *)
Class FillsBuffer {S} (st : inode_store S) :=
  fills_buffer ino b buf buf' : read st ino b buf = read st ino b buf'.

#[export] Instance fs_disk_fills {D} (sd : sd_driver D) rom type : FillsBuffer (fs_disk_init sd rom type).
Proof. intros ino b buf buf'. reflexivity. Qed.
#[export] Instance ramdisk_fills size : FillsBuffer (ramdisk_init size).
Proof. intros ino b buf buf'. reflexivity. Qed.

Lemma read_walk_alike {S} (ts : treedisk_state S) `{!FillsBuffer (below ts)} n b off buf buf' :
  read_walk ts n b off buf = read_walk ts n b off buf'.
Proof.
  destruct n; cbn [read_walk]; destruct (b =? 0); try done;
    unfold below_read; by rewrite (fills_buffer _ _ buf buf').
Qed.

#[export] Instance treedisk_reads_alike {S} uninit (bs : inode_store S) bino `{!FillsBuffer bs} :
  ReadsAlike (treedisk_init uninit bs bino).
Proof.
  intros ino b buf buf' s r s' E. cbn [treedisk_init read] in *. unfold treedisk_read in *.
  apply bind_ret_inv in E as (sn & s1 & E1 & E2). rewrite (bind_ret_eq _ _ _ _ _ E1).
  destruct sn as [sn|]; [|injection E2 as _ <-; by eexists].
  destruct (inode_nblocks sn <=? b); [injection E2 as _ <-; by eexists|].
  rewrite (read_walk_alike _ _ _ _ buf' buf). by exists r.
Qed.

(** ** Programs *)

(** A program that the loader accepts, and room for a process. *)
Record executable (prog : list byte) (b0 filesz : Z) : Prop := {
  ex_elf : ∃ phoff hs memsz, elf_file prog phoff hs ∧
    only_segment hs (ProgramHeader (b0 * BLOCK_SIZE) APPS_ENTRY filesz memsz);
  ex_b0 : 0 ≤ b0;
  ex_filesz : 0 ≤ filesz ≤ APPS_SIZE;
  ex_end : b0 * BLOCK_SIZE + filesz ≤ Z.of_nat (length prog);
}.
Record room_for {D} (sd : sd_driver D) `{!SdCard sd DISK_BLOCKS} (translation : translation_id) (pid : Z)
    (ps : table) (w : world D) (G : Z → page) : Prop := {
  rf_alloc : proc_alloc (procs w) (nprocs w) = Some (pid, ps);
  rf_pid : 0 < pid;
  rf_curr : pid ≠ curr_vm_pid (vm w);
  rf_table : translation = PAGE_TABLE → pid < 32;
  rf_wf : mmu_wf QEMU sd (vm w) G;
  rf_new fr n : ¬ maps (ftable (vm w)) fr pid n;
  rf_free : (5 ≤ nfree (ftable (vm w)))%nat;
}.

(** A file that starts with the program. *)
Section prefix.
Context (prog file : list byte).
Hypothesis Hpre : take (length prog) file = prog.

Lemma prefix_length : (length prog ≤ length file)%nat.
Proof using All. rewrite <-Hpre at 1. rewrite length_take. lia. Qed.

Lemma prefix_part a n :
  (a + n ≤ length prog)%nat → take n (drop a file) = take n (drop a prog).
Proof using All.
  intros H. rewrite <-Hpre at 1. rewrite skipn_firstn_comm, take_take. f_equal. lia.
Qed.

Lemma elf_file_prefix phoff hs : elf_file prog phoff hs → elf_file file phoff hs.
Proof using All.
  intros [H1 H2 H3 H4 H5]. pose proof prefix_length.
  assert (E : slice file 0 = slice prog 0).
  { unfold slice. change (Z.to_nat (0 * BLOCK_SIZE)) with 0%nat. apply prefix_part.
    unfold nbytes. change BLOCK_SIZE with 512 in *. lia. }
  split; rewrite ?E; try done. lia.
Qed.

Lemma image_page_prefix b0 filesz j :
  0 ≤ b0 → 0 ≤ filesz → b0 * BLOCK_SIZE + filesz ≤ Z.of_nat (length prog) →
  image_page file b0 filesz j = image_page prog b0 filesz j.
Proof using All.
  intros H0 H1 H2. unfold image_page, image, seg. rewrite prefix_part; [done|].
  change BLOCK_SIZE with 512 in *. lia.
Qed.
End prefix.

(** The file that holds a program of the host. *)
Lemma held_program host c path f :
  file_holds host c f → host_file c = Some path → Forall wf_block f →
  take (length (host path)) (concat f) = host path ∧
  Z.of_nat (length (concat f)) = Z.of_nat (nblocks (length (host path))) * BLOCK_SIZE.
Proof.
  unfold file_holds. intros Hf Hc Hwf. rewrite Hc in Hf. destruct Hf as [Hl Ht].
  assert (E : mjoin f = concat f) by (clear; induction f as [|b f IH]; [done|]; cbn; by rewrite <-IH).
  rewrite E in Ht. split; [done|]. rewrite concat_length by done. rewrite Hl. change nbytes with 512%nat. change BLOCK_SIZE with 512. lia.
Qed.

Lemma held_can_load {D} (sd : sd_driver D) `{!SdCard sd DISK_BLOCKS} translation prog f b0 filesz pid ps w G :
  take (length prog) (concat f) = prog →
  Z.of_nat (length (concat f)) = Z.of_nat (nblocks (length prog)) * BLOCK_SIZE →
  Forall wf_block f → Z.of_nat (length prog) ≤ exec_size →
  executable prog b0 filesz → room_for sd translation pid ps w G →
  can_load sd translation f b0 filesz pid ps w G.
Proof.
  intros Hpre Hlen Hwf Hsz [(phoff & hs & memsz & E1 & E2) B1 B2 B3] [R1 R2 R3 R4 R5 R6 R7].
  pose proof (Nat.div_mod_eq (length prog + 511) 512) as Hdiv.
  pose proof (Nat.mod_upper_bound (length prog + 511) 512 ltac:(lia)) as Hmod.
  unfold nblocks in Hlen. change exec_size with 131072 in Hsz. change BLOCK_SIZE with 512 in Hlen, B3.
  split; try done.
  - pose proof (concat_length f Hwf) as Hc. unfold nbytes in Hc. change BLOCK_SIZE with 512 in Hc. lia.
  - exists phoff, hs, memsz. split; [by apply (elf_file_prefix prog)|done].
  - unfold nblk. rewrite Hlen. change BLOCK_SIZE with 512. Z.to_euclidean_division_equations. lia.
Qed.

(** ** The directories of the image *)

Definition bin_entries : list (list byte * Z) :=
  [(chars "./", 6); (chars "../", 0); (chars "echo", 7); (chars "cat", 8); (chars "ls", 9); (chars "cd", 10);
   (chars "pwd", 11); (chars "clock", 12); (chars "crash1", 13); (chars "crash2", 14); (chars "ult", 15)].
Definition programs : list string :=
  ["echo"; "cat"; "ls"; "cd"; "pwd"; "clock"; "crash1"; "crash2"; "ult"]%string.
Definition exec_path (s : string) : string := ("../build/release/" ++ s ++ ".elf")%string.

Lemma bin_block : strncpy_block (nth 6 contents String.EmptyString) = dir_block bin_entries.
Proof. by vm_compute. Qed.

Definition program_check (s : string) : bool :=
  let ino := lookup_ino bin_entries (chars s) in
  findableb bin_entries (chars s) && (0 <=? ino) &&
  match contents !! Z.to_nat ino with
  | Some c => bool_decide (host_file c = Some (exec_path s))
  | None => false
  end.
Lemma program_checked s :
  s ∈ programs → findable bin_entries (chars s) ∧ 0 ≤ lookup_ino bin_entries (chars s) ∧
  ∃ c, contents !! Z.to_nat (lookup_ino bin_entries (chars s)) = Some c ∧ host_file c = Some (exec_path s).
Proof.
  intros Hs. assert (H : forallb program_check programs = true) by (vm_compute; reflexivity).
  rewrite forallb_forall in H. specialize (H s). rewrite <-list_elem_of_In in H. specialize (H Hs).
  unfold program_check in H. rewrite !andb_true_iff in H. destruct H as [[H1 H2] H3].
  split; [by apply findableb_sound|]. split; [by apply Z.leb_le|].
  destruct (contents !! _) as [c|]; [|done]. exists c. split; [done|]. by apply bool_decide_eq_true in H3.
Qed.

(** The files that mkfs has written. *)
Definition image_files (host : string → list byte) (F : files) : Prop :=
  ∀ ino c, contents !! ino = Some c → ∃ f, F !! ino = Some f ∧ file_holds host c f.

Lemma image_directories host F :
  image_files host F → directory F 0 root_entries ∧ directory F 6 bin_entries.
Proof.
  intros H. split.
  - destruct (H 0%nat _ eq_refl) as (f & Hf & Hh). change (f = [strncpy_block (nth 0 contents String.EmptyString)]) in Hh.
    rewrite root_block in Hh. subst f. split; [lia|exact Hf|apply (bool_decide_unpack _); vm_compute; exact Logic.I|
      apply Nat.ltb_lt; vm_compute; reflexivity].
  - destruct (H 6%nat _ eq_refl) as (f & Hf & Hh). change (f = [strncpy_block (nth 6 contents String.EmptyString)]) in Hh.
    rewrite bin_block in Hh. subst f. split; [lia|exact Hf|apply (bool_decide_unpack _); vm_compute; exact Logic.I|
      apply Nat.ltb_lt; vm_compute; reflexivity].
Qed.

Lemma command_runs_prefix {D} junk (fs : inode_store D) inv sd `{!SdCard sd DISK_BLOCKS} rom type rnd translation
    writes c_addr workdir buf input ws prog file b0 filesz pid ps w G :
  take (length prog) file = prog → executable prog b0 filesz →
  command_runs junk fs inv sd rom type rnd translation writes c_addr workdir buf input ws file b0 filesz pid ps w G →
  command_runs junk fs inv sd rom type rnd translation writes c_addr workdir buf input ws prog b0 filesz pid ps w G.
Proof.
  intros Hpre [_ B1 B2 B3] (kf & v' & G' & W' & I' & [E4 E5] & H).
  exists kf, v', G'. split; [exact W'|]. split; [exact I'|]. split; [|exact H]. split; [|exact E5].
  intros i Hi. rewrite <-(image_page_prefix prog file) by (done || lia). by apply E4.
Qed.

(** A command, when the file system holds the files of the image. *)
Lemma image_command {D} (sd : sd_driver D) `{!SdCard sd DISK_BLOCKS} (host : string → list byte) (fs : inode_store D)
    (inv : D → Prop) (F : files) `{!FileStore fs inv F, !ReadsAlike fs} junk rom type rnd translation writes c_addr
    workdir (w : world D) s args lbuf line input b0 filesz pid ps G :
  Forall (file_fits host) contents → (nbytes ≤ length junk)%nat → (∀ n, 0 ≤ rnd n) →
  image_files host F → inv (pdisk (vm w)) →
  s ∈ programs → executable (host (exec_path s)) b0 filesz → room_for sd translation pid ps w G →
  command_line lbuf line (chars s :: args) →
  command_runs junk fs inv sd rom type rnd translation writes c_addr workdir lbuf input (chars s :: args)
    (host (exec_path s)) b0 filesz pid ps w G.
Proof.
  intros Hf Hj Hrnd HF Hinv Hs He Hr Hline.
  assert (Hwf : Forall (Forall wf_block) F) by (by eapply fst_wf).
  destruct (image_directories host F HF) as [D1 D2].
  destruct (program_checked s Hs) as (Hfind & Hino & c & Hcont & Hpath).
  destruct (HF _ _ Hcont) as (f & Hff & Hh).
  assert (Hwff : Forall wf_block f) by (by eapply Forall_lookup_1 in Hwf).
  destruct (held_program host c _ f Hh Hpath Hwff) as [Hpre Hlen].
  assert (Hfit : Z.of_nat (length (host (exec_path s))) ≤ exec_size).
  { eapply Forall_lookup_1 in Hf; [|exact Hcont]. unfold file_fits in Hf. by rewrite Hpath in Hf. }
  eapply (command_runs_prefix junk _ inv sd); [exact Hpre|exact He|].
  refine (command_served junk fs inv sd rom type rnd translation writes c_addr
    workdir F lbuf line input (chars s) args root_entries bin_entries f b0 filesz pid ps w G Hline D1 _ D2 Hfind Hino
    Hff _ Hj Hrnd Hinv).
  - apply findableb_sound. vm_compute. reflexivity.
  - exact (held_can_load sd translation (host (exec_path s)) f b0 filesz pid ps w G Hpre Hlen Hwff Hfit He Hr).
Qed.

(** The file system of the card. *)
Lemma card_stores {D} (sd : sd_driver D) `{!SdCard sd DISK_BLOCKS} rom (d : D) m F room :
  sd_holds d m → card_files m F room →
  stores (BlockStore0 := fs_disk_store sd rom m) (fs_disk_init sd rom SD_CARD) 0 (FS_DISK_SIZE / BLOCK_SIZE) F d.
Proof.
  intros Hm (d' & free & Hd & H1 & H2 & H3). exists room, d', free. split; [|exact (conj H1 (conj H2 H3))].
  exists m. split; [exact Hm|]. split; [exact Hd|]. intros b _. reflexivity.
Qed.

(** C8: From the host's program to the running process, on QEMU.  mkfs builds a disk
    image from the executables of the kernel and the user programs.  On a card
    with that image, for each of the programs in [bin/] that is an executable with
    one segment at [APPS_ENTRY]: a command line of the foreground that names it,
    when the servers wait, nobody else is at work, and there are a free entry in
    the process table and five free frames, ends, whatever the scheduler does, with the shell waiting for a new ready process whose pages
    hold the segment of the host's file, and the words of the line as arguments
    ([command_runs]); all servers wait again and the files on the card are
    unchanged.  The messages go through the directory, file and process servers,
    the blocks through the tree file system, the disk layer and the card's driver. *)
Theorem image_command_served {D} (sd : sd_driver D) `{!SdCard sd DISK_BLOCKS} (host : string → list byte)
    (uninit uninit' : block) (buf junk : list byte) (rom : Z → byte) (rnd : nat → Z)
    (translation : translation_id) (writes : string → list Z → list (Z * Z)) (c_addr : Z)
    (workdir : M (world D) str) :
  wf_block uninit → Z.of_nat (length buf) = exec_size →
  Forall (λ f, 0 < Z.of_nat (length (host f)) ≤ exec_size) kernel_processes →
  Forall (file_fits host) contents → (10 * cost host contents ≤ 4093)%nat →
  (nbytes ≤ length junk)%nat → (∀ n, 0 ≤ rnd n) →
  ∃ img x, mkfs host uninit buf (demo_ram 4096) = Ret tt img ∧ disk_image host img = Some x ∧
    Z.of_nat (length x) = DISK_BLOCKS * BLOCK_SIZE ∧
    ∀ (w : world D) (m : gmap Z block) (s : string) (args : list (list byte)) (lbuf line input : str)
      (b0 filesz pid : Z) (ps : table) (G : Z → page),
    sd_holds (pdisk (vm w)) m → (∀ b, 0 ≤ b < DISK_BLOCKS → m !!! b = slice x b) →
    s ∈ programs → executable (host (exec_path s)) b0 filesz → room_for sd translation pid ps w G →
    command_line lbuf line (chars s :: args) →
    let disk := fs_disk_init sd rom SD_CARD in
    ∃ F, image_files host F ∧
      command_runs junk (treedisk_init uninit' disk 0)
        (stores (BlockStore0 := fs_disk_store sd rom m) disk 0 (FS_DISK_SIZE / BLOCK_SIZE) F)
        sd rom SD_CARD rnd translation writes c_addr workdir lbuf input (chars s :: args)
        (host (exec_path s)) b0 filesz pid ps w G.
Proof.
  intros Hu Hb Hk Hf Hc Hj Hrnd.
  destruct (disk_image_spec' sd host uninit buf Hu Hb Hk Hf Hc) as (img & x & E & Ex & Hlx & Hcard).
  exists img, x. split; [done|]. split; [done|]. split; [done|].
  intros w m s args lbuf line input b0 filesz pid ps G Hm Hx Hs He Hr Hline disk.
  destruct (Hcard _ m Hm Hx) as (_ & F & room & Hfs & HF). exists F. split; [exact HF|].
  exact (image_command sd host (treedisk_init uninit' disk 0) _ F junk rom SD_CARD rnd translation writes c_addr workdir
    w s args lbuf line input b0 filesz pid ps G Hf Hj Hrnd HF (card_stores sd rom _ m F room Hm Hfs) Hs He Hr Hline).
Qed.

(** The line [ls -x] on a card with an image in which all programs are the same
    small executable. *)
Definition demo_programs (path : string) : list byte := demo_elf APPS_ENTRY 300.
Definition card_world (m : gmap Z block) : world (gmap Z block) :=
  World (demo_table 4) 4 (with_disk m (boot_mmu [])).

Lemma demo_executable : executable (demo_elf APPS_ENTRY 300) 1 300.
Proof.
  destruct (demo_elf_ok APPS_ENTRY 300 ltac:(by left)) as (He & Hs & Hl).
  split; [|lia|done|by rewrite Hl]. by exists 52, (demo_headers APPS_ENTRY 300), 300.
Qed.

Lemma blank_free : (5 ≤ nfree (replicate (Z.to_nat NFRAMES) no_mapping))%nat.
Proof. apply Nat.leb_le. vm_compute. reflexivity. Qed.
Lemma boot_free m : (5 ≤ nfree (ftable (with_disk m (boot_mmu []))))%nat.
Proof. exact blank_free. Qed.
Lemma blank_unmapped fr n : ¬ maps (replicate (Z.to_nat NFRAMES) no_mapping) fr 5 n.
Proof. exact (boot_maps [] fr 5 n). Qed.
Lemma boot_unmapped m fr n : ¬ maps (ftable (with_disk m (boot_mmu []))) fr 5 n.
Proof. exact (blank_unmapped fr n). Qed.

Lemma card_room m : room_for mem_sd SOFT_TLB 5 (<[4%nat:=Process 5 PROC_LOADING true 0 0]> (demo_table 4))
  (card_world m) (λ _, zero_page).
Proof.
  split.
  - reflexivity.
  - lia.
  - cbn [card_world vm]. done.
  - done.
  - cbn [card_world vm]. apply wf_with_disk, boot_mmu_wf.
  - exact (boot_unmapped m).
  - exact (boot_free m).
Qed.

Lemma ls_line : command_line (code "ls -x" ++ replicate 251 0) (code "ls -x") [chars "ls"; chars "-x"].
Proof.
  split; [by vm_compute..| | |].
  - repeat constructor; apply Nat.ltb_lt; by vm_compute.
  - apply Nat.ltb_lt. by vm_compute.
  - by exists [chars "ls"], Byte.x2d, [Byte.x78].
Qed.

Lemma image_command_served_witness : ∃ (m : gmap Z block) F,
  let junk := replicate 600 Byte.x00 in
  let disk := fs_disk_init mem_sd (λ _, Byte.x00) SD_CARD in
  image_files demo_programs F ∧
  command_runs junk (treedisk_init null_block disk 0)
    (stores (BlockStore0 := fs_disk_store mem_sd (λ _, Byte.x00) m) disk 0 (FS_DISK_SIZE / BLOCK_SIZE) F)
    mem_sd (λ _, Byte.x00) SD_CARD Z.of_nat SOFT_TLB (λ _ _, []) 0 (mret [])
    (code "ls -x" ++ replicate 251 0) [] [chars "ls"; chars "-x"] (demo_elf APPS_ENTRY 300) 1 300 5
    (<[4%nat:=Process 5 PROC_LOADING true 0 0]> (demo_table 4)) (card_world m) (λ _, zero_page).
Proof.
  destruct (image_command_served mem_sd demo_programs null_block null_block
    (replicate (Z.to_nat exec_size) Byte.x00) (replicate 600 Byte.x00) (λ _, Byte.x00) Z.of_nat SOFT_TLB
    (λ _ _, []) 0 (mret [])) as (img & x & _ & _ & Hx & H).
  - reflexivity.
  - rewrite length_replicate, Z2Nat.id; [reflexivity|by vm_compute].
  - repeat constructor; by vm_compute.
  - repeat constructor; by vm_compute.
  - apply Nat.leb_le. vm_compute. reflexivity.
  - apply Nat.leb_le. vm_compute. reflexivity.
  - lia.
  - set (m := disk_of DISK_BLOCKS (slice x)).
    destruct (H (card_world m) m "ls"%string [chars "-x"] (code "ls -x" ++ replicate 251 0) (code "ls -x") [] 1 300 5
      (<[4%nat:=Process 5 PROC_LOADING true 0 0]> (demo_table 4)) (λ _, zero_page)) as (F & HF & R).
    + split; [reflexivity|]. intros b Hb. unfold m. rewrite disk_of_lookup by exact Hb.
      apply slice_wf; [lia|]. rewrite Hx.
      change BLOCK_SIZE with 512. change DISK_BLOCKS with 8192 in *. lia.
    + intros b Hb. by apply disk_of_lookup.
    + right; right; left.
    + exact demo_executable.
    + apply card_room.
    + exact ls_line.
    + exists m, F. split; [exact HF|exact R].
Defined.
