(* ===== verification/Start.v ===== *)
(** * How processes start

    The network of Net.v has a fixed set of processes.  Here a process that the
    process server has loaded and made ready starts to run the program it holds:
    [sys_step] adds that step.  [inevitable P n]: every run from [n] gets to a state
    with [P], whatever the scheduler does, whether the tty takes what is written
    or refuses it, and whatever is in the system call area of a new process.

    [will]: what user code gets to when its process is the only one that can move. *)

From stdpp Require Import relations.
From coqutil Require Import Byte Word.LittleEndianList.
From S2P Require Import Prelude Layout Blocks Store Ramdisk FsDisk Earth Process Dir.
From S2P Require Import Kernel KernelInv User Servers Net ServersCorrect Paging Mmu Elf SysProc SysProcCorrect.

Definition is_ready (p : Z) (ps : table) : bool :=
  existsb (λ q, (pid q =? p) && bool_decide (status q = PROC_READY)) ps.

Section start.
Context {D : Type} (program : Z → option (U (world D) unit)).
Implicit Types n : net (world D).
Implicit Types T : gmap Z (prog (world D) (unit * syscall)).
Implicit Types w : world D.
Implicit Types P : net (world D) → Prop.

Inductive sys_step n : net (world D) → Prop :=
| sys_goes n' : step n n' → sys_step n n'
| sys_starts p u sc :
    program p = Some u → tasks n !! p = None → is_ready p (procs (shared n)) = true → msg_len_ok sc →
    sys_step n (Net (<[p:=u sc]> (tasks n)) (mailbox n) (shared n)).

Inductive inevitable P n : Prop :=
| inev_now : P n → inevitable P n
| inev_later : (∃ n', sys_step n n') → (∀ n', sys_step n n' → inevitable P n') → inevitable P n.

Lemma inevitable_mono P Q n : (∀ n', P n' → Q n') → inevitable P n → inevitable Q n.
Proof using Type.
  intros H. induction 1 as [n Hn|n He _ IH]; [by apply inev_now, H|]. by apply inev_later.
Qed.

(** ** Steps that nothing can prevent *)

Lemma inev_forced P n n' :
  (∀ p, is_Some (program p) → is_ready p (procs (shared n)) = true → is_Some (tasks n !! p)) →
  forced n n' → inevitable P n' → inevitable P n.
Proof using Type.
  intros Hs [H1 H2] HP. apply inev_later; [exists n'; by constructor|].
  intros n2 [n2' H|p u sc Hp Ht Hr _]; [by rewrite (H2 _ H)|].
  destruct (Hs p) as [t Et]; [by eexists|done|congruence].
Qed.

(** Everybody has started. *)
Lemma inev_run P n n' :
  (∀ p, is_Some (program p) → is_Some (tasks n !! p)) → rtc forced n n' → inevitable P n' → inevitable P n.
Proof using Type.
  intros Hs Hr HP. induction Hr as [n|n n1 n' Hf Hr IH]; [done|].
  apply (inev_forced P n n1); [by auto|done|]. apply IH; [|done]. intros p Hp. destruct Hf as [[q Hq] _].
  destruct (Hs p Hp) as [t Et].
  destruct Hq; cbn [tasks]; (destruct (decide (p = q)) as [->|Hne]; [rewrite lookup_insert_eq; by eexists|]);
    rewrite lookup_insert_ne by done; by eexists.
Qed.

(** ** One process at work *)

(** Process [p] is the only one that can move. *)
Record alone p T (mb : kernel_msg) (ps : table) : Prop := {
  al_idle : others_idle T p;
  al_free : in_use mb = 0;
  al_started q : is_Some (program q) → is_ready q ps = true → q = p ∨ is_Some (T !! q);
}.

Lemma alone_others p T mb ps t : alone p T mb ps → others_idle (<[p:=t]> T) p.
Proof using Type. intros [H _ _] q t' Hq Ht. rewrite lookup_insert_ne in Ht by done. by eapply H. Qed.

Lemma alone_started p T mb ps t q :
  alone p T mb ps → is_Some (program q) → is_ready q ps = true → is_Some (<[p:=t]> T !! q).
Proof using Type.
  intros Ha Hq Hr. destruct (decide (q = p)) as [->|Hne]; [rewrite lookup_insert_eq; by eexists|].
  rewrite lookup_insert_ne by done. by destruct (al_started _ _ _ _ Ha q Hq Hr).
Qed.

Lemma inev_act P p T mb w w' m t :
  alone p T mb (procs w) → m w = Ret t w' →
  inevitable P (Net (<[p:=t]> T) mb w') → inevitable P (Net (<[p:=Act m]> T) mb w).
Proof using Type.
  intros Ha E HP. eapply inev_forced; [|eapply (forced_act _ p); cbn [tasks mailbox shared]; [|exact E|..]|].
  - intros q. cbn [tasks shared]. by apply (alone_started _ _ mb (procs w)).
  - apply lookup_insert_eq.
  - apply Ha.
  - by eapply alone_others.
  - cbn [tasks mailbox]. by rewrite insert_insert_eq.
Qed.

(** The tty takes the bytes or refuses them. *)
Lemma inev_write P p T mb w sc k :
  alone p T mb (procs w) → type sc = TTY_WRITE →
  (∀ r, inevitable P (Net (<[p:=k (Syscall SYS_UNUSED (msg sc) r)]> T) mb w)) →
  inevitable P (Net (<[p:=Invoke sc k]> T) mb w).
Proof using Type.
  intros Ha Ht HP. apply inev_later.
  { eexists. constructor. exists p. eapply step_tty; [apply lookup_insert_eq|right; by eauto]. }
  intros n2 [n2' [q Hq]|q u sc' Hq Hn Hr _].
  2:{ destruct (alone_started p T mb (procs w) (Invoke sc k) q) as [t Et]; [done|by eexists|done|].
      cbn [tasks] in Hn. congruence. }
  destruct (decide (q = p)) as [->|Hne].
  - destruct Hq as [sc1 k1 msg' m' E Hs|sc1 k1 sc' E Hs|m t d E Hs]; cbn [tasks mailbox shared] in *;
      rewrite lookup_insert_eq in E; simplify_eq.
    + unfold serve_msg in Hs. by rewrite Ht in Hs.
    + rewrite insert_insert_eq. destruct Hs as [Hs|[_ [->| ->]]]; [by rewrite Ht in Hs|apply HP..].
  - exfalso. destruct (<[p:=Invoke sc k]> T !! q) as [t|] eqn:Et.
    2:{ destruct Hq; cbn [tasks] in *; congruence. }
    eapply (idle_stays (Net _ mb w) q t); [done| | |exact Hq].
    + by eapply (alone_others p T mb (procs w)).
    + intros [Hu _]. apply Hu, (al_free _ _ _ _ Ha).
Qed.

(** ** What user code gets to *)

Section will.
Context (p : Z) (T : gmap Z (prog (world D) (unit * syscall))) (mb : kernel_msg).

Definition will {A} (u : U (world D) A) w (Q : A → world D → Prop) : Prop :=
  ∀ C P sc, around C → msg_len_ok sc →
  (∀ a sc' w', Q a w' → msg_len_ok sc' → inevitable P (Net (<[p:=C (Done (a, sc'))]> T) mb w')) →
  inevitable P (Net (<[p:=C (u sc)]> T) mb w).

Lemma will_ret {A} (a : A) w (Q : A → world D → Prop) : Q a w → will (mret a) w Q.
Proof using Type. intros HQ C P sc HC Hs HP. by apply HP. Qed.

Lemma will_bind {A B} (u : U (world D) A) (f : A → U (world D) B) w Q :
  will u w (λ a w', will (f a) w' Q) → will (u ≫= f) w Q.
Proof using Type.
  intros Hu C P sc HC Hs HP. rewrite user_bind.
  apply (Hu (λ p, C (pbind p (λ r, f r.1 r.2)))); [by apply around_bind|done|].
  intros a sc1 w1 Hf Hs1. by apply (Hf C).
Qed.

Lemma will_mono {A} (u : U (world D) A) w (Q Q' : A → world D → Prop) :
  will u w Q → (∀ a w', Q a w' → Q' a w') → will u w Q'.
Proof using Type. intros Hu HQ C P sc HC Hs HP. apply Hu; [done..|]. intros a sc' w' Ha. by apply HP, HQ. Qed.

Lemma will_act {A} (m : M (world D) A) w a w' (Q : A → world D → Prop) :
  alone p T mb (procs w) → m w = Ret a w' → Q a w' → will (act m) w Q.
Proof using Type.
  intros Ha E HQ C P sc HC Hs HP. unfold act.
  destruct (ar_act _ HC (λ w, match m w with
    | Ret a w => Ret (Done (a, sc)) w | Fatal why w => Fatal why w | Undef why => Undef why | Spin => Spin
    end) w (Done (a, sc)) w') as (m' & -> & Er).
  { by rewrite E. }
  eapply inev_act; [done|exact Er|]. by apply HP.
Qed.

(** The system call area of a process that writes keeps its size. *)
Lemma put_content_length o bs (m : sys_msg) :
  (o + length bs ≤ length (content m))%nat → length (content (put_content o bs m)) = length (content m).
Proof using Type.
  intros Hl. unfold put_content, overwrite. cbn [content]. rewrite !length_app, length_take, length_drop. lia.
Qed.

Lemma will_write ptr len w (Q : Z → world D → Prop) :
  alone p T mb (procs w) → (∀ r, Q r w) → will (sys_tty_write ptr len) w Q.
Proof using Type.
  intros Ha HQ C P sc HC Hs HP. unfold sys_tty_write.
  change (inevitable P (Net (<[p:=C (Invoke (Syscall TTY_WRITE
    (put_content 4 (le_split 4 len) (put_content 0 (le_split 4 ptr) (msg sc))) (retval sc))
    (λ sc, Done (retval sc, sc)))]> T) mb w)).
  rewrite (ar_invoke _ HC). apply inev_write; [done|done|]. intros r. apply HP; [apply HQ|].
  unfold msg_len_ok in *. cbn [msg].
  rewrite !put_content_length; rewrite ?put_content_length; rewrite ?length_le_split, ?Hs; [done|..];
    change (Z.to_nat SYSCALL_MSG_LEN) with (2 * 512)%nat; lia.
Qed.

Lemma will_print (writes : string → list Z → list (Z * Z)) line args w (Q : unit → world D → Prop) :
  alone p T mb (procs w) → Q tt w → will (print writes line args) w Q.
Proof using Type.
  intros Ha HQ. unfold print. induction (writes line args) as [|[ptr len] ws IH]; [by apply will_ret|].
  cbn [write_all]. apply will_bind. unfold _write.
  destruct (_ <? _); apply will_bind, will_write; [done| |done|]; intros r; by apply will_ret.
Qed.

(** The loader, on memory alone. *)
Definition runs_as (A : Type) (u : U (world D) A) (m : M (mmu D) A) : Prop :=
  ∀ w a v, alone p T mb (procs w) → m (vm w) = Ret a v → will u w (λ b w', b = a ∧ w' = set_vm v w).

Lemma runs_lift {A} (m : M (mmu D) A) : runs_as A (lift m) m.
Proof using Type.
  intros w a v Ha E. unfold lift, lift_vm. eapply will_act; [done| |by split].
  unfold on_vm. by rewrite E.
Qed.

Lemma runs_through : through runs_as.
Proof using Type.
  split.
  - intros A a w b v Ha [= <- <-]. apply will_ret. by destruct w.
  - intros A B u m f g Hu Hf w b v Ha E. apply bind_ret_inv in E as (a & v1 & E1 & E2).
    apply will_bind. eapply will_mono; [by apply Hu|cbv beta]. intros ? w1 [-> ->].
    by apply (Hf a (set_vm v1 w)).
  - intros A m _. apply runs_lift.
Qed.
End will.

(** ** Processes that start and report *)

(** Everybody waits, and one process is to start. *)
Lemma inev_start P T mb w q u :
  (∀ q t, T !! q = Some t → idle t) → in_use mb = 0 → program q = Some u → T !! q = None →
  is_ready q (procs w) = true →
  (∀ r, is_Some (program r) → is_ready r (procs w) = true → r = q ∨ is_Some (T !! r)) →
  (∀ sc, msg_len_ok sc → inevitable P (Net (<[q:=u sc]> T) mb w)) → inevitable P (Net T mb w).
Proof using Type.
  intros Hi Hm Hu Hq Hr Hall HP. apply inev_later.
  { eexists. apply (sys_starts (Net T mb w) q u
      (Syscall 0 (SysMsg 0 0 (replicate (Z.to_nat SYSCALL_MSG_LEN) nul)) 0)); done. }
  intros n' [n2 [r Hs]|r u' sc Hr' Hn Hrr Hsc].
  - exfalso. destruct (T !! r) as [t|] eqn:Et; [|by destruct Hs; cbn [tasks] in *; congruence].
    eapply (idle_stays (Net T mb w) r t); [done|by eapply Hi| |exact Hs]. by intros [? _].
  - cbn [tasks shared mailbox] in *. destruct (Hall r) as [->|[t Et]]; [by eexists|done| |congruence].
    rewrite Hu in Hr'. injection Hr' as <-. by apply HP.
Qed.

(** Process [a] sends to [b], which waits; then [a] waits. *)
Lemma inev_transfer P a b sca ka scb kb T mb w :
  a ≠ b → (∀ q t, q ≠ a → q ≠ b → T !! q = Some t → idle t) → in_use mb = 0 →
  (∀ r, is_Some (program r) → is_ready r (procs w) = true → r = a ∨ r = b ∨ is_Some (T !! r)) →
  type sca = SYS_SEND → receiver (msg sca) = b → type scb = SYS_RECV → idle (ka (served sca)) →
  inevitable P (Net (<[b:=kb (received a (content (msg sca)) scb)]> (<[a:=ka (served sca)]> T))
    (KernelMsg 0 a b (content (msg sca))) w) →
  inevitable P (Net (<[b:=Invoke scb kb]> (<[a:=Invoke sca ka]> T)) mb w).
Proof using Type.
  intros Hab Hq Hm Hall Ha Hr Hb Hi HP.
  assert (Hst : ∀ ta tb r, is_Some (program r) → is_ready r (procs w) = true →
    is_Some (<[b:=tb]> (<[a:=ta]> T) !! r)).
  { intros ta tb r Hpr Hrr. destruct (decide (r = b)) as [->|]; [rewrite lookup_insert_eq; by eexists|].
    rewrite lookup_insert_ne by done. destruct (decide (r = a)) as [->|]; [rewrite lookup_insert_eq; by eexists|].
    rewrite lookup_insert_ne by done. by destruct (Hall r Hpr Hrr) as [|[|]]. }
  eapply inev_forced; [by apply Hst|eapply (forced_send _ a sca ka); cbn [tasks]; [|done|done|]|].
  - by rewrite lookup_insert_ne, lookup_insert_eq.
  - intros q t Hqa Ht. destruct (decide (q = b)) as [->|Hqb].
    + rewrite lookup_insert_eq in Ht. by injection Ht as <-.
    + rewrite !lookup_insert_ne in Ht by done. by eapply Hq.
  - cbn [tasks mailbox shared]. rewrite (insert_insert_ne _ a b), insert_insert_eq, Hr by done.
    eapply inev_forced; [by apply Hst|eapply (forced_recv _ b scb kb); cbn [tasks]; [|done|done|]|].
    + by rewrite lookup_insert_eq.
    + intros q t Hqb Ht. rewrite lookup_insert_ne in Ht by done. destruct (decide (q = a)) as [->|Hqa].
      * rewrite lookup_insert_eq in Ht. by injection Ht as <-.
      * rewrite lookup_insert_ne in Ht by done. by eapply Hq.
    + cbn [tasks mailbox shared]. rewrite insert_insert_eq. exact HP.
Qed.
End start.
