(* ===== verification/StartThms.v ===== *)
(** * The servers start

    [main] of the process server after boot: it loads the file server, the directory
    server and the shell one after the other, waiting for each server's report, and
    the shell gives its first command, [cd]. *)

From stdpp Require Import relations.
From coqutil Require Import Byte Word.LittleEndianList.
From S2P Require Import BootThms.
From S2P Require Import Prelude Layout Blocks Store Ramdisk FsDisk FileSystem Earth Process Dir.
From S2P Require Import Kernel KernelInv User Servers Net ServersCorrect Paging PagingOps Mmu MmuOps MmuCorrect.
From S2P Require Import Elf ElfCorrect ElfThms SysProc SysProcCorrect SpawnCorrect SpawnThms.
From S2P Require Import Shell ShellMain ShellThms Start.

(** ** The process table *)

Definition procs_upto (k : nat) : table :=
  Process GPID_PROCESS PROC_RUNNING false 0 0 ::
  ((λ i, Process (2 + Z.of_nat i) PROC_READY false 0 0) <$> seq 0 k) ++
  replicate (15 - k) (Process 0 PROC_UNUSED false 0 0).
Definition procs_loading (k : nat) : table :=
  <[S k:=Process (2 + Z.of_nat k) PROC_LOADING (GPID_USER_START <=? 2 + Z.of_nat k) 0 0]> (procs_upto k).

Lemma alloc_server k :
  (k < 4)%nat → proc_alloc (procs_upto k) (1 + Z.of_nat k) = Some (2 + Z.of_nat k, procs_loading k).
Proof. intros Hk. do 4 (destruct k as [|k]; [reflexivity|]). lia. Qed.

Lemma server_ready k :
  (k < 3)%nat → proc_set_ready (2 + Z.of_nat k) (procs_loading k) = procs_upto (S k).
Proof. intros Hk. do 3 (destruct k as [|k]; [reflexivity|]). lia. Qed.

Lemma is_ready_upto k : (k < 3)%nat → is_ready (2 + Z.of_nat k) (procs_upto (S k)) = true.
Proof. intros Hk. do 3 (destruct k as [|k]; [reflexivity|]). lia. Qed.

Lemma ready_upto k p :
  (k < 4)%nat → is_ready p (procs_upto k) = true ∨ is_ready p (procs_loading k) = true → 2 ≤ p < 2 + Z.of_nat k.
Proof.
  intros Hk H. destruct k as [|[|[|[|k]]]]; [..|lia];
    (destruct H as [H|H]; unfold is_ready, procs_loading, procs_upto in H; cbn in H;
     rewrite ?orb_true_iff, ?andb_true_iff, ?Z.eqb_eq in H; naive_solver lia).
Qed.

(** ** Loading a server *)

(** An executable of a server, which [reader] reads. *)
Record server_file {D} (sd : sd_driver D) `{!SdCard sd DISK_BLOCKS} (inv : D → Prop)
    (reader : Z → M (mmu D) block) (file : list byte) (b0 filesz : Z) : Prop := {
  sf_elf : ∃ phoff hs memsz, elf_file file phoff hs ∧
    only_segment hs (ProgramHeader (b0 * BLOCK_SIZE) APPS_ENTRY filesz memsz);
  sf_b0 : 0 ≤ b0;
  sf_size : 0 ≤ filesz ≤ APPS_SIZE;
  sf_fits : (b0 + Z.of_nat (nblk filesz)) * BLOCK_SIZE ≤ Z.of_nat (length file);
  sf_reads : plain_reads sd inv reader file;
}.

(** Process [pid] has the pages of the program [file], with the given arguments. *)
Definition has_program {D} (v : mmu D) (G : Z → page) (pid argc : Z) (argv : option (list byte))
    (file : list byte) (b0 filesz : Z) : Prop :=
  (∀ i, (i < 3)%nat → owned v G pid (Z.shiftr APPS_ENTRY 12 + Z.of_nat i) (image_page file b0 filesz i)) ∧
  ∃ y z, owned v G pid (Z.shiftr APPS_ARG 12) y ∧ args_page argc (default [] argv) y ∧
         owned v G pid (Z.shiftr APPS_ARG 12 + 1) z.

Lemma has_program_loaded {D} pid argc argv file b0 filesz (v v' : mmu D) G G' :
  app_pages pid argc argv file b0 filesz v G v' G' → has_program v' G' pid argc argv file b0 filesz.
Proof. intros (H1 & H2 & _). by split. Qed.

Lemma has_program_kept {D} pid argc argv file b0 filesz q argc' argv' file' b0' filesz' (v v' : mmu D) G G' :
  app_pages q argc' argv' file' b0' filesz' v G v' G' → pid ≠ 0 → pid ≠ q →
  has_program v G pid argc argv file b0 filesz → has_program v' G' pid argc argv file b0 filesz.
Proof.
  intros (_ & _ & _ & Hk) H0 Hq [H1 (y & z & H2 & H3 & H4)]. split; [intros i Hi; by apply Hk, H1|].
  exists y, z. split_and!; [by apply Hk|done|by apply Hk].
Qed.

Section servers.
Context {D : Type} (inv : D → Prop) (sd : sd_driver D) `{!SdCard sd DISK_BLOCKS}.
Context (rom : Z → byte) (type : disk_type) (rnd : nat → Z) (translation : translation_id).
Hypothesis Hrnd : ∀ n, 0 ≤ rnd n.
Implicit Types w : world D.

(** The system with [k] servers loaded by the process server. *)
Record phase (k : nat) w (G : Z → page) : Prop := {
  ph_procs : procs w = procs_upto k;
  ph_nprocs : nprocs w = 1 + Z.of_nat k;
  ph_wf : mmu_wf QEMU sd (vm w) G;
  ph_curr : curr_vm_pid (vm w) = GPID_PROCESS;
  ph_new f r n : 1 + Z.of_nat k < r → ¬ maps (ftable (vm w)) f r n;
  ph_free : (20 ≤ nfree (ftable (vm w)) + 5 * k)%nat;
  ph_disk : inv (pdisk (vm w));
}.

Lemma load_server k w G start file b0 filesz :
  (k < 3)%nat → phase k w G → server_file sd inv (exec_read sd rom type start) file b0 filesz →
  ∃ v' G', elf_load QEMU sd rom type rnd translation (exec_read sd rom type start) (2 + Z.of_nat k) 0 None (vm w) =
      Ret tt v' ∧
    phase (S k) (World (procs_upto (S k)) (2 + Z.of_nat k) v') G' ∧
    app_pages (2 + Z.of_nat k) 0 None file b0 filesz (vm w) G v' G'.
Proof using Hrnd.
  intros Hk [P1 P2 P3 P4 P5 P6 P7] [(phoff & hs & memsz & F1 & F2) F3 F4 F5 F6].
  destruct (elf_load_app_spec QEMU sd rom type rnd translation (2 + Z.of_nat k) inv
    (exec_read sd rom type start) file phoff hs b0 filesz memsz 0 None (vm w) G)
    as ([] & v' & E & G' & W' & C' & A' & I' & _ & O' & N');
    [done|done|lia|rewrite P4; unfold GPID_PROCESS; lia|lia|done|by apply plain_reads_reads|done|done|
     intros f n; apply P5; lia|lia|done|done|done|done|done|done|].
  exists v', G'. split; [done|]. split; [|done]. split; cbn [procs nprocs vm]; try done.
  - lia.
  - by rewrite C'.
  - intros f r n Hr Hm. apply (ot_only _ _ _ _ _ O') in Hm; [|lia..]. eapply P5; [|exact Hm]. lia.
  - lia.
Qed.

(** ** The process server at work *)

Context (junk : list byte) (writes : string → list Z → list (Z * Z)) (c_addr : Z) (workdir : M (world D) str).
Context (fs : inode_store D).
Local Abbreviation wfs := (world_fs fs).

(** The programs of the servers, by pid; [nd], [nf] and [ns] are the numbers of
    requests and of commands they may serve. *)
Definition server_programs (nd nf ns : nat) (input : str) (p : Z) : option (U (world D) unit) :=
  if p =? GPID_FILE then Some (sys_file writes wfs nf)
  else if p =? GPID_DIR then Some (sys_dir junk writes nd)
  else if p =? GPID_SHELL then Some (sys_shell junk writes c_addr workdir ns input)
  else None.

Context (nd nf ns : nat) (input : str).
Local Abbreviation program := (server_programs nd nf ns input).
Implicit Types T : gmap Z (prog (world D) (unit * syscall)).

(** The servers that are loaded have started, and wait. *)
Record waiting (k : nat) T (mb : kernel_msg) : Prop := {
  wt_idle q t : T !! q = Some t → idle t;
  wt_free : in_use mb = 0;
  wt_dom q : is_Some (T !! q) ↔ 2 ≤ q < 2 + Z.of_nat k;
}.

Lemma waiting_alone k T mb ps :
  (k < 4)%nat → waiting k T mb → ps = procs_upto k ∨ ps = procs_loading k →
  alone program GPID_PROCESS T mb ps.
Proof using Type.
  clear Hrnd. intros Hk [W1 W2 W3] Hps. split; [intros q t _; apply W1|done|].
  intros q _ Hr. right. apply W3, (ready_upto k q Hk). by destruct Hps as [->| ->]; [left|right].
Qed.

Lemma will_spawn T mb k w start v' :
  (k < 3)%nat → procs w = procs_upto k → nprocs w = 1 + Z.of_nat k → waiting k T mb →
  elf_load QEMU sd rom type rnd translation (exec_read sd rom type start) (2 + Z.of_nat k) 0 None (vm w) =
    Ret tt v' →
  will program GPID_PROCESS T mb (sys_spawn QEMU sd rom type rnd translation writes start) w
    (λ _ w', w' = World (procs_upto (S k)) (2 + Z.of_nat k) v').
Proof using Type.
  clear Hrnd. intros Hk P1 P2 Hw E. unfold sys_spawn.
  assert (A1 : alone program GPID_PROCESS T mb (procs_upto k)) by (apply (waiting_alone k); auto with lia).
  assert (A2 : alone program GPID_PROCESS T mb (procs_loading k)) by (apply (waiting_alone k); auto with lia).
  apply will_bind. eapply (will_act _ _ _ _ _ w (2 + Z.of_nat k) (World (procs_loading k) (2 + Z.of_nat k) (vm w))).
  { by rewrite P1. }
  { unfold grass_proc_alloc. rewrite gets_bind. unfold id. rewrite P1, P2, alloc_server by lia. reflexivity. }
  rewrite (proj2 (Z.leb_le _ _)), (proj2 (Z.leb_le (2 + Z.of_nat k) 4)) by lia. cbn [andb].
  apply will_bind, will_print; [done|]. apply will_bind.
  eapply will_mono; [apply (elf_load_rel _ (runs_through program GPID_PROCESS T mb) sd rom type rnd translation
    (sys_proc_read sd rom type start) (exec_read sd rom type start)); [|done|exact E]|].
  { intros n. apply runs_lift. }
  cbv beta. intros _ w' [_ ->]. eapply will_act; [done|reflexivity|].
  cbn [procs nprocs vm set_vm]. by rewrite server_ready.
Qed.

(** The code of a server up to its loop. *)
Definition reporting (line report : string) (loop : U (world D) unit) : U (world D) unit :=
  _ ← Servers.print writes line []; _ ← notify report; loop.
(** The code of the process server that waits for the report. *)
Definition told (R : U (world D) unit) (buf : list byte) : U (world D) unit :=
  s ← cstring buf 0; _ ← Servers.print writes "sys_proc receives: %s" (byte.unsigned <$> s); R.
Definition awaits (R : U (world D) unit) : U (world D) unit := '(_, buf) ← recv_msg; told R buf.

(** A report is a string that fits into a message. *)
Definition report_ok (report : string) : Prop :=
  nul ∉ chars report ∧ (length (chars report) < Z.to_nat SYSCALL_MSG_LEN)%nat.

Lemma waiting_insert k T mb t :
  waiting k T mb → idle t → waiting (S k) (<[2 + Z.of_nat k:=t]> T) mb.
Proof using Type.
  clear Hrnd. intros [W1 W2 W3] Ht. split; [|done|].
  - intros q t' Hq. destruct (decide (q = 2 + Z.of_nat k)) as [->|Hne].
    + rewrite lookup_insert_eq in Hq. by injection Hq as <-.
    + rewrite lookup_insert_ne in Hq by done. by eapply W1.
  - intros q. destruct (decide (q = 2 + Z.of_nat k)) as [->|Hne].
    + rewrite lookup_insert_eq. split; [lia|by eexists].
    + rewrite lookup_insert_ne, W3 by done. lia.
Qed.

Lemma report_sent report loop sc :
  report_ok report → msg_len_ok sc →
  (_ ← notify report; loop) sc =
    Invoke (send_sc GPID_PROCESS (chars report ++ [nul]) sc) (loop : U (world D) unit) ∧
  content (msg (send_sc GPID_PROCESS (chars report ++ [nul]) sc)) =
    chars report ++ nul :: drop (S (length (chars report))) (content (msg sc)) ∧
  msg_len_ok (send_sc GPID_PROCESS (chars report ++ [nul]) sc).
Proof using Type.
  clear Hrnd. intros [_ Hl] Hsc. split; [|split].
  - rewrite user_bind. unfold notify. rewrite user_bind, sys_send_all; [reflexivity|done|].
    rewrite length_app. cbn [length]. lia.
  - unfold send_sc. cbn [msg content]. rewrite length_app, <-(assoc_L app). cbn [length app].
    by rewrite Nat.add_1_r.
  - apply send_sc_ok; [|done]. rewrite length_app. cbn [length]. lia.
Qed.

Lemma will_be_told T mb k w (R : U (world D) unit) report c sc P :
  (k < 4)%nat → waiting k T mb → procs w = procs_upto k → report_ok report → msg_len_ok sc →
  (∀ sc, msg_len_ok sc → inevitable program P (Net (<[GPID_PROCESS:=R sc]> T) mb w)) →
  inevitable program P (Net (<[GPID_PROCESS:=told R (chars report ++ nul :: c) sc]> T) mb w).
Proof using Type.
  clear Hrnd. intros Hk Hw P1 [Hn _] Hsc HP. unfold told, cstring. rewrite drop_0.
  rewrite (find_nul_text (chars report) c) by done. rewrite user_bind. cbn [prog_bind mret U_ret fst snd].
  rewrite user_bind.
  apply (will_print program GPID_PROCESS T mb writes _ _ w (λ _ w', w' = w)
    (waiting_alone k T mb (procs w) Hk Hw (or_introl P1)) eq_refl
    (λ p, pbind p (λ r, R r.2))); [apply (around_bind (λ p, p)), around_id|done|].
  intros [] sc' w' -> Hs'. by apply HP.
Qed.

Lemma start_alone k T mb w t :
  (k < 3)%nat → waiting k T mb → procs w = procs_upto (S k) → idle t →
  alone program (2 + Z.of_nat k) (<[GPID_PROCESS:=t]> T) mb (procs w).
Proof using Type.
  clear Hrnd. intros Hk [W1 W2 W3] P1 Ht. split; [|done|].
  - intros q t' _ Hq. destruct (decide (q = GPID_PROCESS)) as [->|Hne].
    + rewrite lookup_insert_eq in Hq. by injection Hq as <-.
    + rewrite lookup_insert_ne in Hq by done. by eapply W1.
  - intros q _ Hr. rewrite P1 in Hr. pose proof (ready_upto (S k) q ltac:(lia) (or_introl Hr)) as Hq.
    destruct (decide (q = 2 + Z.of_nat k)) as [|Hne]; [by left|right].
    rewrite lookup_insert_ne by (unfold GPID_PROCESS; lia). apply W3. lia.
Qed.

(** A server starts and reports. *)
Lemma server_reports T mb k w (R : U (world D) unit) report line loop sc P :
  (k < 3)%nat → waiting k T mb → procs w = procs_upto (S k) →
  program (2 + Z.of_nat k) = Some (reporting line report loop) → (∀ sc, idle (loop sc)) →
  report_ok report → msg_len_ok sc →
  (∀ sc1 scq mb', msg_len_ok sc1 → msg_len_ok scq → in_use mb' = 0 →
    inevitable program P (Net (<[GPID_PROCESS:=R sc1]> (<[2 + Z.of_nat k:=loop scq]> T)) mb' w)) →
  inevitable program P (Net (<[GPID_PROCESS:=awaits R sc]> T) mb w).
Proof using Type.
  clear Hrnd. intros Hk Hw P1 Hpr Hloop Hrep Hsc HP. unfold awaits. rewrite recv_then.
  set (p1 := Invoke _ _). assert (Hp1 : idle p1) by done.
  pose proof (start_alone k T mb w p1 Hk Hw P1 Hp1) as Ha. pose proof Hw as [W1 W2 W3].
  assert (Hne : GPID_PROCESS ≠ 2 + Z.of_nat k) by (unfold GPID_PROCESS; lia).
  apply (inev_start program P _ mb w (2 + Z.of_nat k) (reporting line report loop)); [|done|done|..].
  { intros q t Hq. destruct (decide (q = GPID_PROCESS)) as [->|Hq1].
    - rewrite lookup_insert_eq in Hq. by injection Hq as <-.
    - rewrite lookup_insert_ne in Hq by done. by eapply W1. }
  { rewrite lookup_insert_ne by done. apply eq_None_not_Some. rewrite W3. lia. }
  { rewrite P1. by apply is_ready_upto. }
  { exact (al_started _ _ _ _ _ Ha). }
  intros scq Hq. unfold reporting. rewrite user_bind.
  apply (will_print program _ _ mb writes _ _ w (λ _ w', w' = w) Ha eq_refl
    (λ p, pbind p (λ r, (_ ← notify report; loop) r.2))); [apply (around_bind (λ p, p)), around_id|done|].
  intros [] sc' w' -> Hs'. cbn [prog_bind snd fst].
  destruct (report_sent report loop sc' Hrep Hs') as (-> & Hc & Hlen).
  rewrite insert_insert_ne by done. subst p1.
  apply inev_transfer; [done|intros q t _ _; apply W1|done| |done|done|done|apply Hloop|].
  { intros r Hr1 Hr2. destruct (al_started _ _ _ _ _ Ha r Hr1 Hr2) as [|Hr]; [by left|].
    destruct (decide (r = GPID_PROCESS)) as [|Hr3]; [by right; left|]. rewrite lookup_insert_ne in Hr by done. by right; right. }
  cbn [received msg content sender]. rewrite take_ge by (by rewrite Hlen). rewrite Hc.
  apply (will_be_told _ _ (S k)); [lia|by apply waiting_insert|done|done|..].
  - unfold msg_len_ok. cbn [received msg content]. by rewrite <-Hc.
  - intros sc1 Hs1. apply HP; [done|exact Hlen|done].
Qed.

Lemma spawn_then T mb k w start v' (R : U (world D) unit) sc P :
  (k < 3)%nat → procs w = procs_upto k → nprocs w = 1 + Z.of_nat k → waiting k T mb → msg_len_ok sc →
  elf_load QEMU sd rom type rnd translation (exec_read sd rom type start) (2 + Z.of_nat k) 0 None (vm w) =
    Ret tt v' →
  (∀ sc, msg_len_ok sc → inevitable program P (Net (<[GPID_PROCESS:=R sc]> T) mb
     (World (procs_upto (S k)) (2 + Z.of_nat k) v'))) →
  inevitable program P (Net (<[GPID_PROCESS:=
    (_ ← sys_spawn QEMU sd rom type rnd translation writes start; R) sc]> T) mb w).
Proof using Type.
  clear Hrnd. intros Hk P1 P2 Hw Hsc E HP. rewrite user_bind.
  apply (will_spawn T mb k w start v' Hk P1 P2 Hw E (λ p, pbind p (λ r, R r.2)));
    [apply (around_bind (λ p, p)), around_id|done|].
  intros [] sc' w' -> Hs'. by apply HP.
Qed.

Local Abbreviation loop := (proc_loop QEMU sd rom type rnd translation junk writes).
Local Abbreviation spawns start R := (_ ← sys_spawn QEMU sd rom type rnd translation writes start; R).

Lemma servers_shell_out p t dsc fsc T :
  <[GPID_SHELL:=t]> (servers junk fs p nd dsc nf fsc T) = servers junk fs p nd dsc nf fsc (<[GPID_SHELL:=t]> T).
Proof using Type. by rewrite servers_shell. Qed.

Lemma servers_wait p dsc fsc q t :
  idle p → servers junk fs p nd dsc nf fsc ∅ !! q = Some t → idle t.
Proof using Type.
  clear Hrnd. intros Hp Hq. unfold servers, two in Hq. destruct (decide (q = GPID_PROCESS)) as [->|].
  { rewrite lookup_insert_eq in Hq. by apply (inj Some) in Hq as <-. }
  rewrite lookup_insert_ne in Hq by done. destruct (decide (q = GPID_DIR)) as [->|].
  { rewrite lookup_insert_eq in Hq. apply (inj Some) in Hq as <-. apply dir_loop_idle. }
  rewrite lookup_insert_ne in Hq by done. destruct (decide (q = GPID_FILE)) as [->|].
  { rewrite lookup_insert_eq in Hq. apply (inj Some) in Hq as <-. apply file_loop_idle. }
  by rewrite lookup_insert_ne, lookup_empty in Hq.
Qed.

Lemma servers_started p dsc fsc r :
  is_ready r (procs_upto 3) = true →
  r = GPID_SHELL ∨ is_Some (servers junk fs p nd dsc nf fsc ∅ !! r).
Proof using Type.
  clear Hrnd. intros Hr. pose proof (ready_upto 3 r ltac:(lia) (or_introl Hr)) as Hr'. unfold servers, two.
  destruct (decide (r = GPID_SHELL)) as [|Hne]; [by left|right]. unfold GPID_SHELL in Hne.
  rewrite lookup_insert_ne by (unfold GPID_PROCESS; lia).
  destruct (decide (r = GPID_DIR)) as [->|]; [rewrite lookup_insert_eq; by eexists|].
  rewrite lookup_insert_ne by done.
  assert (r = GPID_FILE) as -> by (unfold GPID_DIR, GPID_FILE in *; lia). rewrite lookup_insert_eq. by eexists.
Qed.

Lemma shell_starts P n waiting0 psc dsc fsc mb v :
  in_use mb = 0 →
  (∀ ssc, msg_len_ok ssc → inevitable program P (Net (servers junk fs (loop n waiting0 0 psc) nd dsc nf fsc
      (<[GPID_SHELL:=shell_loop junk writes c_addr workdir ns first_line input ssc]> ∅)) mb
      (World (procs_upto 3) 4 v))) →
  inevitable program P (Net (servers junk fs (loop n waiting0 0 psc) nd dsc nf fsc ∅) mb (World (procs_upto 3) 4 v)).
Proof using Type.
  clear Hrnd. intros Hm HP.
  apply (inev_start program P _ mb _ GPID_SHELL (sys_shell junk writes c_addr workdir ns input));
    [|done|reflexivity|reflexivity|reflexivity|..].
  - intros q t. apply servers_wait, loop_idle.
  - intros r _ Hr. destruct (servers_started (loop n waiting0 0 psc) dsc fsc r Hr); [by left|by right].
  - intros ssc Hs. unfold sys_shell. rewrite user_bind.
    apply (will_print program GPID_SHELL _ mb writes _ _ (World (procs_upto 3) 4 v)
      (λ _ w', w' = World (procs_upto 3) 4 v)) with (C := λ p, pbind p (λ r,
        shell_loop junk writes c_addr workdir ns first_line input r.2));
      [|done|apply (around_bind (λ p, p)), around_id|done|].
    + split; [intros q t _; apply servers_wait, loop_idle|done|]. intros r _. apply servers_started.
    + intros [] ssc' w' -> Hs'. cbn [prog_bind snd]. rewrite servers_shell_out. by apply HP.
Qed.

(** From the first instruction of the process server to the first of the shell. *)
Lemma servers_start P n waiting0 sc mb w v1 v2 v3 :
  procs w = procs_upto 0 → nprocs w = 1 → msg_len_ok sc → in_use mb = 0 →
  (let load start := elf_load QEMU sd rom type rnd translation (exec_read sd rom type start) in
   load SYS_FILE_EXEC_START GPID_FILE 0 None (vm w) = Ret tt v1 ∧
   load SYS_DIR_EXEC_START GPID_DIR 0 None v1 = Ret tt v2 ∧
   load SYS_SHELL_EXEC_START GPID_SHELL 0 None v2 = Ret tt v3) →
  (∀ psc dsc fsc ssc mb', msg_len_ok psc → msg_len_ok dsc → msg_len_ok fsc → msg_len_ok ssc → in_use mb' = 0 →
    inevitable program P (Net (servers junk fs (loop n waiting0 0 psc) nd dsc nf fsc
      (<[GPID_SHELL:=shell_loop junk writes c_addr workdir ns first_line input ssc]> ∅)) mb'
      (World (procs_upto 3) 4 v3))) →
  inevitable program P
    (Net {[GPID_PROCESS:=sys_proc QEMU sd rom type rnd translation junk writes n waiting0 sc]} mb w).
Proof using Type.
  clear Hrnd. intros P1 P2 Hsc Hm (E1 & E2 & E3) HP.
  set (R2 := spawns SYS_SHELL_EXEC_START (loop n waiting0 0)).
  set (R1 := spawns SYS_DIR_EXEC_START (awaits R2)).
  change (sys_proc _ _ _ _ _ _ _ _ _ _) with
    (_ ← Servers.print writes "Enter kernel process GPID_PROCESS" []; spawns SYS_FILE_EXEC_START (awaits R1)).
  assert (W0 : waiting 0 ∅ mb).
  { split; [by intros q t Hq; rewrite lookup_empty in Hq|done|].
    intros q. rewrite lookup_empty. split; [by intros []|lia]. }
  rewrite <-insert_empty, user_bind.
  apply (will_print program GPID_PROCESS ∅ mb writes _ _ w (λ _ w', w' = w)
    (waiting_alone 0 ∅ mb (procs w) ltac:(lia) W0 (or_introl P1)) eq_refl
    (λ p, pbind p (λ r, spawns SYS_FILE_EXEC_START (awaits R1) r.2)));
    [apply (around_bind (λ p, p)), around_id|done|]. intros [] sc1 w' -> Hs1. cbn [prog_bind snd].
  apply (spawn_then ∅ mb 0 w _ v1); [lia|done..|]. clear sc1 Hs1. intros sc1 Hs1.
  apply (server_reports ∅ mb 0 _ R1 "Finish GPID_FILE initialization" "Enter kernel process GPID_FILE"
    (file_loop wfs nf)); [lia|done|done|reflexivity|apply file_loop_idle| |done|].
  { split; [by vm_compute; set_solver|by vm_compute; lia]. }
  clear sc1 Hs1. intros sc1 fsc mb1 Hs1 Hf Hm1. set (T1 := <[2 + Z.of_nat 0:=file_loop wfs nf fsc]> ∅).
  assert (W1 : waiting 1 T1 mb1).
  { apply waiting_insert; [|apply file_loop_idle]. by destruct W0; split. }
  apply (spawn_then T1 mb1 1 _ _ v2); [lia|done..|]. clear sc1 Hs1. intros sc1 Hs1.
  apply (server_reports T1 mb1 1 _ R2 "Finish GPID_DIR initialization" "Enter kernel process GPID_DIR"
    (dir_loop junk nd)); [lia|done|done|reflexivity|apply dir_loop_idle| |done|].
  { split; [by vm_compute; set_solver|by vm_compute; lia]. }
  clear sc1 Hs1. intros sc1 dsc mb2 Hs1 Hd Hm2. set (T2 := <[2 + Z.of_nat 1:=dir_loop junk nd dsc]> T1).
  assert (W2 : waiting 2 T2 mb2).
  { apply waiting_insert; [|apply dir_loop_idle]. by destruct W1; split. }
  apply (spawn_then T2 mb2 2 _ _ v3); [lia|done..|]. clear sc1 Hs1. intros psc Hs.
  apply shell_starts; [done|]. intros ssc Hss. by apply HP.
Qed.
End servers.

(** ** The first command *)

Section up.
Context {D : Type} (junk : list byte) (fs : inode_store D) (inv : D → Prop) (F : files).
Context `{!FileStore fs inv F, !ReadsAlike fs} (sd : sd_driver D) `{!SdCard sd DISK_BLOCKS}.
Context (rom : Z → byte) (type : disk_type) (rnd : nat → Z) (translation : translation_id).
Context (writes : string → list Z → list (Z * Z)) (c_addr : Z) (workdir : M (world D) str).
Local Abbreviation loop := (proc_loop QEMU sd rom type rnd translation junk writes).
Local Abbreviation shell := (shell_loop junk writes c_addr workdir).

(** The system is up: the servers wait for requests, process 5 is ready, and the
    shell waits for it to end before it reads a command. *)
Definition up (n nd nf ns : nat) (input : str) (v : mmu D) (s : net (world D)) : Prop :=
  ∃ ssc psc dsc fsc m, in_use m = 0 ∧
    s = Net (servers junk fs (loop n true GPID_USER_START psc) nd dsc nf fsc
          (<[GPID_SHELL:=Invoke (recv_sc ssc) (λ sc,
             ('(buf, input) ← next_line writes c_addr workdir first_line input; shell ns buf input) sc)]> ∅)) m
          (World (proc_set_ready GPID_USER_START (procs_loading 3)) GPID_USER_START v).

Lemma first_command : command_line first_line (code "cd") [chars "cd"].
Proof.
  split; [by vm_compute..| | |].
  - repeat constructor; apply Nat.ltb_lt; by vm_compute.
  - apply Nat.ltb_lt. by vm_compute.
  - by exists [], Byte.x63, [Byte.x64].
Qed.

Local Abbreviation server start := (server_file sd inv (exec_read sd rom type start)).

(** The four programs, in the pages of their processes. *)
Record programs_in (v : mmu D) (G : Z → page) (ffile dfile sfile cfile : list byte) (fb fz db dz sb sz cb cz : Z) :
    Prop := {
  pi_file : has_program v G GPID_FILE 0 None ffile fb fz;
  pi_dir : has_program v G GPID_DIR 0 None dfile db dz;
  pi_shell : has_program v G GPID_SHELL 0 None sfile sb sz;
  pi_cd : has_program v G GPID_USER_START 1 (Some (args_bytes [chars "cd"])) cfile cb cz;
}.

Lemma load_servers w G ffile dfile sfile fb fz db dz sb sz :
  (∀ n, 0 ≤ rnd n) → phase inv sd 0 w G →
  server SYS_FILE_EXEC_START ffile fb fz → server SYS_DIR_EXEC_START dfile db dz →
  server SYS_SHELL_EXEC_START sfile sb sz →
  ∃ v1 v2 v3 G3, phase inv sd 3 (World (procs_upto 3) 4 v3) G3 ∧
    (let load start := elf_load QEMU sd rom type rnd translation (exec_read sd rom type start) in
     load SYS_FILE_EXEC_START GPID_FILE 0 None (vm w) = Ret tt v1 ∧
     load SYS_DIR_EXEC_START GPID_DIR 0 None v1 = Ret tt v2 ∧
     load SYS_SHELL_EXEC_START GPID_SHELL 0 None v2 = Ret tt v3) ∧
    has_program v3 G3 GPID_FILE 0 None ffile fb fz ∧ has_program v3 G3 GPID_DIR 0 None dfile db dz ∧
    has_program v3 G3 GPID_SHELL 0 None sfile sb sz.
Proof.
  intros Hrnd P0 S1 S2 S3.
  destruct (load_server inv sd rom type rnd translation Hrnd 0 w G _ _ _ _ ltac:(lia) P0 S1)
    as (v1 & G1 & E1 & P1 & A1).
  destruct (load_server inv sd rom type rnd translation Hrnd 1 _ G1 _ _ _ _ ltac:(lia) P1 S2)
    as (v2 & G2 & E2 & P2 & A2).
  destruct (load_server inv sd rom type rnd translation Hrnd 2 _ G2 _ _ _ _ ltac:(lia) P2 S3)
    as (v3 & G3 & E3 & P3 & A3).
  exists v1, v2, v3, G3. split; [exact P3|]. split; [by split_and!|]. split_and!.
  - eapply has_program_kept; [exact A3|done|done|]. eapply has_program_kept; [exact A2|done|done|].
    by eapply has_program_loaded.
  - eapply has_program_kept; [exact A3|done|done|]. by eapply has_program_loaded.
  - by eapply has_program_loaded.
Qed.

Lemma all_started nd nf ns input p t dsc fsc q :
  is_Some (server_programs junk writes c_addr workdir fs nd nf ns input q) →
  is_Some (servers junk fs p nd dsc nf fsc (<[GPID_SHELL:=t]> ∅) !! q).
Proof.
  unfold server_programs, servers, two. intros Hq.
  destruct (Z.eqb_spec q GPID_FILE) as [E|]; [rewrite E; by eexists|].
  destruct (Z.eqb_spec q GPID_DIR) as [E|]; [rewrite E; by eexists|].
  destruct (Z.eqb_spec q GPID_SHELL) as [E|]; [rewrite E; by eexists|]. by destruct Hq.
Qed.

Lemma system_starts w G input ffile dfile sfile cfile fb fz db dz sb sz cb cz :
  (∀ n, 0 ≤ rnd n) → phase inv sd 0 w G →
  server SYS_FILE_EXEC_START ffile fb fz → server SYS_DIR_EXEC_START dfile db dz →
  server SYS_SHELL_EXEC_START sfile sb sz →
  (∀ w3 G3, phase inv sd 3 w3 G3 →
    command_runs junk fs inv sd rom type rnd translation writes c_addr workdir first_line input [chars "cd"]
      cfile cb cz GPID_USER_START (procs_loading 3) w3 G3) →
  ∃ kf v G', mmu_wf QEMU sd v G' ∧ inv (pdisk v) ∧
    programs_in v G' ffile dfile sfile cfile fb fz db dz sb sz cb cz ∧
    ∀ n nd nf ns waiting0 sc mb, msg_len_ok sc → in_use mb = 0 →
      inevitable (server_programs junk writes c_addr workdir fs (2 + nd) (kf + nf) (S ns) input)
        (up n nd nf ns input v)
        (Net {[GPID_PROCESS:=sys_proc QEMU sd rom type rnd translation junk writes (S n) waiting0 sc]} mb w).
Proof.
  intros Hrnd P0 S1 S2 S3 Hcd.
  destruct (load_servers w G ffile dfile sfile fb fz db dz sb sz Hrnd P0 S1 S2 S3)
    as (v1 & v2 & v3 & G3 & P3 & E & H1 & H2 & H3).
  destruct (Hcd _ _ P3) as (kf & v & G' & W & I & A & Hrun). exists kf, v, G'.
  split; [done|]. split; [done|]. split.
  { split; [eapply has_program_kept; [exact A|done|done|done]..|by eapply has_program_loaded]. }
  intros n nd nf ns waiting0 sc mb Hsc Hm. destruct P0 as [P1 P2 _ _ _ _ _].
  eapply servers_start; [done|done|done|done|exact E|]. intros psc dsc fsc ssc mb' Hp Hd Hf Hs Hm'.
  destruct (Hrun 0 waiting0 ssc psc dsc fsc ∅ mb' ns n nd nf) as (ssc' & psc' & dsc' & fsc' & m' & L & Hm2);
    [|done..|].
  { intros q t _ _ _ _ Ht. by rewrite lookup_empty in Ht. }
  eapply inev_run; [intros q; apply all_started|exact L|]. apply inev_now.
  exists ssc', psc', dsc', fsc', m'. by split.
Qed.
End up.
