(* ===== verification/SystemThms.v ===== *)
(** * The system comes up

    From the files of the compiler to the first command: the image of MkfsCorrect.v,
    the boot sequence of BootThms.v and the start of the servers of StartThms.v, one
    after the other, on a board with page tables or the software TLB (QEMU) and
    the image on the SD card. *)

From stdpp Require Import relations.
From coqutil Require Import Byte.
From S2P Require Import Prelude Layout Blocks Store Ramdisk FsDisk FileSystem Treedisk Ring Uart Tty TtyOps Intr.
From S2P Require Import Sd SdSpec SdDemo SdCorrect PageTable Machine Timer Boot BootCorrect BootDemo BootThms.
From S2P Require Import FsCorrect Mkfs MkfsCorrect Earth Process Kernel KernelInv User Servers Net ServersCorrect.
From S2P Require Import Paging PagingOps Mmu MmuOps MmuCorrect Elf ElfCorrect ElfThms Dir.
From S2P Require Import SysProc SysProcCorrect SpawnCorrect SpawnThms Shell ShellMain ShellThms ImageThms Start StartThms.

(** ** The executables on the card *)

Section card.
Context {D : Type} (sd : sd_driver D) `{!SdCard sd DISK_BLOCKS} (rom : Z → byte) (m : gmap Z block) (F : files).

(** The file system's part of the card holds the files [F], the rest is that of [m]. *)
Definition card_holds (d : D) : Prop :=
  stores (BlockStore0 := fs_disk_store sd rom m) (fs_disk_init sd rom SD_CARD) 0 (FS_DISK_SIZE / BLOCK_SIZE) F d.

Lemma card_holds_read d d' :
  (∀ c, sd_holds d c → sd_holds d' c) → card_holds d → card_holds d'.
Proof.
  intros Hd (room & d0 & free & (c & Hc & H1 & H2) & H3). exists room, d0, free. split; [|exact H3].
  exists c. split; [by apply Hd|done].
Qed.

Lemma card_holds_segment x start seg d :
  (∀ b, 0 ≤ b < DISK_BLOCKS → m !!! b = slice x b) → segment_in x start seg →
  card_holds d → on_card sd start seg d.
Proof.
  intros Hx Hs (room & d0 & free & (c & Hc & _ & Hrest) & _). exists c. split; [done|].
  intros n H0 Hn. destruct (Hs n H0 Hn) as [Hr <-]. rewrite <-Hx; [apply Hrest; apply Hr|].
  change DISK_BLOCKS with 8192. change GRASS_FS_START with 4096 in Hr. lia.
Qed.

Lemma server_on_card x prog start seg b0 filesz :
  (∀ b, 0 ≤ b < DISK_BLOCKS → m !!! b = slice x b) →
  kernel_exec APPS_ENTRY APPS_SIZE prog b0 filesz → exec_segment prog = Some seg →
  GRASS_EXEC_START ≤ start ≤ DISK_BLOCKS - exec_size / BLOCK_SIZE → segment_in x start seg →
  server_file sd card_holds (exec_read sd rom SD_CARD start) seg b0 filesz.
Proof.
  intros Hx Hk He Hst Hs. destruct (padded_exec _ _ _ _ _ _ _ Hk He Hst) as [B1 B2 B3 B4 [B5 B6]].
  split; try done. intros s n HI H0 Hn.
  eapply returns_mono; [apply (exec_read_spec sd rom SD_CARD start seg B5 B6 eq_refl s n); [|done|done]|cbv beta].
  - by apply (card_holds_segment x).
  - intros blk s' (-> & _ & E & Hc). split_and!; [done| |done|done]. by eapply card_holds_read.
Qed.
End card.

(** ** After boot *)

Section system.
Context {H D B K : Type} `{!Mmio H, !Uart H, !PlicRegs H, !Stdio B, !StdioLaws B}.
Context `{!Mmio D, !Mmio8 D, !SpiSlave K, HP : !SpiPort D K, HC : !SdProto K SDv2_high DISK_BLOCKS}.
Context (C : setting) `{HS : !SdCard (spi_sd (H := D) (fuel C)) DISK_BLOCKS}.
Local Abbreviation sd := (spi_sd (H := D) (fuel C)).

(** What the process server acts on: the kernel's process table and the memory. *)
Definition world_of (k : kernel (board H D B)) : world D :=
  World (proc_set k) (proc_nprocs k) (PageTable.vm (paging (earth k))).

Lemma booted_phase m gf gb gs pf pb ps b k F :
  booted C m gf gb gs pf pb ps b k → platform_of C = QEMU →
  card_holds sd (rom C) m F (pdisk (vm (world_of k))) →
  ∃ G, phase (card_holds sd (rom C) m F) sd 0 (world_of k) G.
Proof.
  intros [[B1 [B2 _]] _ _ _ _ _ _ _ _ _ [B3 (G & B4 & _)] [B5 B6] _ _] Hq Hd. rewrite Hq in B4.
  exists G. split; try done.
  - intros f r n Hr. apply B6; unfold GPID_PROCESS; lia.
  - cbn [world_of vm]. lia.
Qed.

Lemma phase_room inv translation w G :
  phase inv sd 3 w G → room_for sd translation GPID_USER_START (procs_loading 3) w G.
Proof.
  intros [P1 P2 P3 P4 P5 P6 P7]. split; try done.
  - rewrite P1, P2. by apply (alloc_server 3); lia.
  - by rewrite P4.
  - intros fr n. apply P5. unfold GPID_USER_START. lia.
  - lia.
Qed.

(** The image as a whole: [seg] gives for each executable the first block and the
    size of its segment. *)
Context (host : string → list byte) (seg : string → Z * Z).
Local Abbreviation b0 s := (seg s).1.
Local Abbreviation size s := (seg s).2.

(** An executable as it is in the image. *)
Definition stored_exec (s : string) : list byte := default [] (exec_segment (host (exec_path s))).

Definition user_exec (s : string) : Prop :=
  kernel_exec APPS_ENTRY APPS_SIZE (host (exec_path s)) (b0 s) (size s).

(** After boot every run gets to the point where the system is [up]; then memory
    holds the servers and the first command in the pages of their processes. *)
Definition comes_up (junk : list byte) (uninit : block) (writes : string → list Z → list (Z * Z)) (c_addr : Z)
    (workdir : M (world D) str) (input : str) (m : gmap Z block) (k : kernel (board H D B)) : Prop :=
  let t := PageTable.translation (paging (earth k)) in
  let fs := treedisk_init uninit (fs_disk_init sd (rom C) SD_CARD) 0 in
  ∃ F kf v G, image_files host F ∧ mmu_wf QEMU sd v G ∧ card_holds sd (rom C) m F (pdisk v) ∧
    programs_in v G (stored_exec "sys_file") (stored_exec "sys_dir") (stored_exec "sys_shell")
      (host (exec_path "cd")) (b0 "sys_file") (size "sys_file") (b0 "sys_dir") (size "sys_dir")
      (b0 "sys_shell") (size "sys_shell") (b0 "cd") (size "cd") ∧
    ∀ n nd nf ns waiting0 sc mb, msg_len_ok sc → in_use mb = 0 →
      inevitable (server_programs junk writes c_addr workdir fs (2 + nd) (kf + nf) (S ns) input)
        (up junk fs sd (rom C) SD_CARD (rnd C) t writes c_addr workdir n nd nf ns input v)
        (Net {[GPID_PROCESS:=sys_proc QEMU sd (rom C) SD_CARD (rnd C) t junk writes (S n) waiting0 sc]}
           mb (world_of k)).

(** The executable [s] is in the image [x], from block [start] on. *)
Definition in_image (x : list byte) (start : Z) (s : string) : Prop :=
  exec_segment (host (exec_path s)) = Some (stored_exec s) ∧ segment_in x start (stored_exec s).

Lemma servers_in_image x :
  (∀ i f, kernel_processes !! i = Some f → ∃ seg start,
     exec_segment (host f) = Some seg ∧ exec_starts !! i = Some start ∧ segment_in x start seg) →
  in_image x GRASS_EXEC_START "grass" ∧ in_image x SYS_PROC_EXEC_START "sys_proc" ∧
  in_image x SYS_FILE_EXEC_START "sys_file" ∧ in_image x SYS_DIR_EXEC_START "sys_dir" ∧
  in_image x SYS_SHELL_EXEC_START "sys_shell".
Proof.
  intros Hx. assert (Hi : ∀ i s start, kernel_processes !! i = Some (exec_path s) → exec_starts !! i = Some start →
    in_image x start s).
  { intros i s start Hi Hst. destruct (Hx i _ Hi) as (seg' & start' & E1 & E2 & E3).
    rewrite Hst in E2. injection E2 as <-. unfold in_image, stored_exec. by rewrite E1. }
  split_and!; [by apply (Hi 0%nat)|by apply (Hi 1%nat)|by apply (Hi 2%nat)|by apply (Hi 3%nat)|by apply (Hi 4%nat)].
Qed.

Lemma exec_start_ranges :
  let ok start := GRASS_EXEC_START ≤ start ≤ DISK_BLOCKS - exec_size / BLOCK_SIZE in
  ok SYS_FILE_EXEC_START ∧ ok SYS_DIR_EXEC_START ∧ ok SYS_SHELL_EXEC_START.
Proof. by vm_compute. Qed.

Lemma servers_come_up junk uninit writes c_addr workdir input m gf gb gs pf pb ps b k x F room :
  booted C m gf gb gs pf pb ps b k → platform_of C = QEMU → disk_kind (earth k) = SD_CARD →
  (∀ b, 0 ≤ b < DISK_BLOCKS → m !!! b = slice x b) → card_files m F room → image_files host F →
  Forall (file_fits host) contents → (nbytes ≤ length junk)%nat → (∀ n, 0 ≤ rnd C n) →
  in_image x SYS_FILE_EXEC_START "sys_file" → in_image x SYS_DIR_EXEC_START "sys_dir" →
  in_image x SYS_SHELL_EXEC_START "sys_shell" →
  Forall user_exec ["sys_file"; "sys_dir"; "sys_shell"; "cd"] →
  comes_up junk uninit writes c_addr workdir input m k.
Proof.
  intros Hb Hq Hk Hx Hc HF Hf Hj Hrnd [I1 I2] [I3 I4] [I5 I6] Hu.
  pose proof (card_stores sd (rom C) _ m F room (bt_disk _ _ _ _ _ _ _ _ _ _ Hb Hq Hk) Hc) as Hd.
  destruct (booted_phase m gf gb gs pf pb ps b k F Hb Hq Hd) as (G & P0).
  destruct exec_start_ranges as (R1 & R2 & R3). rewrite !Forall_cons in Hu.
  destruct Hu as (U1 & U2 & U3 & U4 & _).
  set (fs := treedisk_init uninit (fs_disk_init sd (rom C) SD_CARD) 0).
  destruct (system_starts junk fs (card_holds sd (rom C) m F) sd (rom C) SD_CARD (rnd C)
    (PageTable.translation (paging (earth k))) writes c_addr workdir (world_of k) G input
    (stored_exec "sys_file") (stored_exec "sys_dir") (stored_exec "sys_shell") (host (exec_path "cd"))
    (b0 "sys_file") (size "sys_file") (b0 "sys_dir") (size "sys_dir")
    (b0 "sys_shell") (size "sys_shell") (b0 "cd") (size "cd") Hrnd P0) as (kf & v & G' & W & Hv & Hp & Hi).
  - exact (server_on_card sd (rom C) m F x _ _ _ _ _ Hx U1 I1 R1 I2).
  - exact (server_on_card sd (rom C) m F x _ _ _ _ _ Hx U2 I3 R2 I4).
  - exact (server_on_card sd (rom C) m F x _ _ _ _ _ Hx U3 I5 R3 I6).
  - intros w3 G3 P3. destruct U4 as [X1 X2 X3 X4].
    apply (image_command sd host fs (card_holds sd (rom C) m F) F junk (rom C) SD_CARD (rnd C) _ writes c_addr
      workdir w3 "cd" [] first_line (code "cd")); try done.
    + apply P3.
    + by repeat constructor.
    + by eapply phase_room.
    + apply first_command.
  - by exists F, kf, v, G'.
Qed.
End system.

(** C4: The system comes up.  From the files of the compiler [mkfs] builds an image.
    On a QEMU board whose SD card holds the image, where the user chooses the card,
    the boot sequence runs from reset to the entry of the process server
    ([booted]).  From there, with either translation, whatever the scheduler and
    the tty do, the process server loads the file server, the directory server and the
    shell, waits for the report of the first two, and starts [cd] for the shell; the
    system gets to the state in which all servers wait for requests and the shell
    waits for [cd] to end ([comes_up]).  Then each of the four processes has the
    pages of its executable, and the files on the card are those of the image. *)
Theorem system_comes_up {H D B K : Type} `{!Mmio H, !Uart H, !PlicRegs H, !Stdio B, !StdioLaws B}
    `{!Mmio D, !Mmio8 D, !SpiSlave K, HP : !SpiPort D K, HC : !SdProto K SDv2_high DISK_BLOCKS}
    (C : setting) `{HS : !SdCard (spi_sd (H := D) (fuel C)) DISK_BLOCKS}
    (host : string → list byte) (seg : string → Z * Z) (uninit uninit' : block) (buf junk : list byte)
    (writes : string → list Z → list (Z * Z)) (c_addr : Z) (workdir : M (world D) str) (input : str) :
  wf_block uninit → Z.of_nat (length buf) = exec_size → (nbytes ≤ length junk)%nat →
  Forall (λ f, 0 < Z.of_nat (length (host f)) ≤ exec_size) kernel_processes →
  Forall (file_fits host) contents → (10 * cost host contents ≤ 4093)%nat →
  kernel_exec GRASS_ENTRY GRASS_SIZE (host (exec_path "grass")) (seg "grass"%string).1 (seg "grass"%string).2 →
  Forall (user_exec host seg) ["sys_proc"; "sys_file"; "sys_dir"; "sys_shell"; "cd"]%string →
  set_up (H := H) (D := D) (K := K) C → platform_of C = QEMU →
  (∀ type, may_choose (H := H) C type → type = SD_CARD) →
  ∃ img x, mkfs host uninit buf (demo_ram 4096) = Ret tt img ∧ disk_image host img = Some x ∧
    Z.of_nat (length x) = DISK_BLOCKS * BLOCK_SIZE ∧
    ∀ (k : kernel (board H D B)) (m : gmap Z block),
      at_reset (K := K) C (earth k) m → (∀ b, 0 ≤ b < DISK_BLOCKS → m !!! b = slice x b) →
      returns (boot C) k (λ a0 k', a0 = APPS_ARG ∧
        booted C m (stored_exec host "grass") (seg "grass"%string).1 (seg "grass"%string).2
          (stored_exec host "sys_proc") (seg "sys_proc"%string).1 (seg "sys_proc"%string).2 (earth k) k' ∧
        comes_up C host seg junk uninit' writes c_addr workdir input m k').
Proof.
  intros Hu Hb Hj Hk Hf Hcost Kg Ke Hset Hq Hch. pose proof Ke as Ke'.
  rewrite Forall_cons in Ke'. destruct Ke' as [Kp Kr].
  destruct (disk_image_spec' (spi_sd (fuel C)) host uninit buf Hu Hb Hk Hf Hcost)
    as (img & x & E1 & E2 & Hx & Hd).
  destruct (disk_image_spec' mem_sd host uninit buf Hu Hb Hk Hf Hcost) as (img' & x' & E1' & E2' & _ & Hd').
  rewrite E1 in E1'. injection E1' as <-. rewrite E2 in E2'. injection E2' as <-.
  destruct (servers_in_image host x (image_segments host x _ Hx eq_refl Hd')) as ([G1 G2] & [P1 P2] & I1 & I2 & I3).
  exists img, x. split; [done|]. split; [done|]. split; [done|]. intros k m Hreset Hm.
  eapply returns_mono.
  { apply (boot_from_image C _ _ _ _ x _ _ _ _ k m Kg Kp G1 P1 G2 P2 Hset Hreset).
    intros b' Hb'. split; [intros _; by apply Hm|]. intros Hc. by apply Hch in Hc. }
  cbv beta. intros a0 k' [Ha Hbo]. split; [done|]. split; [done|].
  pose proof (Hch _ (proj1 (proj2 (bt_choices _ _ _ _ _ _ _ _ _ _ Hbo)))) as Hsd.
  destruct (Hd _ m (bt_disk _ _ _ _ _ _ _ _ _ _ Hbo Hq Hsd) Hm) as (_ & F & room & Hc & HF).
  exact (servers_come_up C host seg junk uninit' writes c_addr workdir input m _ _ _ _ _ _ _ k' x F room Hbo Hq Hsd Hm
    Hc HF Hf Hj (su_rnd _ Hset) I1 I2 I3 Kr).
Qed.

(** The board of BootThms.v as QEMU, with programs of 300 bytes. *)
#[local] Existing Instances hc_slave hc_mmio8 hc_port hc_proto.
Definition demo_segments (s : string) : Z * Z := (1, 300).

Lemma demo_user_execs :
  Forall (user_exec demo_release demo_segments) ["sys_proc"; "sys_file"; "sys_dir"; "sys_shell"; "cd"]%string.
Proof. repeat (constructor; [apply demo_kernel_exec; [by left|by vm_compute]|]). constructor. Qed.

Lemma system_comes_up_witness : ∃ m,
  let C := demo_setting MISA_SMODE in
  returns (boot C) (demo_board m) (λ a0 k', a0 = APPS_ARG ∧
    booted C m (stored_exec demo_release "grass") 1 300 (stored_exec demo_release "sys_proc") 1 300
      (earth (demo_board m)) k' ∧
    comes_up C demo_release demo_segments (replicate 600 Byte.x00) null_block (λ _ _, []) 0 (mret []) [] m k').
Proof.
  destruct (system_comes_up (H := desk) (D := port) (B := list Z) (K := card) (demo_setting MISA_SMODE)
    demo_release demo_segments null_block null_block (replicate (Z.to_nat exec_size) Byte.x00)
    (replicate 600 Byte.x00) (λ _ _, []) 0 (mret []) []) as (img & x & _ & _ & Hx & H).
  - reflexivity.
  - rewrite length_replicate, Z2Nat.id; [reflexivity|by vm_compute].
  - apply Nat.leb_le. vm_compute. reflexivity.
  - repeat constructor; by vm_compute.
  - repeat constructor; by vm_compute.
  - apply Nat.leb_le. vm_compute. reflexivity.
  - apply demo_kernel_exec; [by right|by vm_compute].
  - exact demo_user_execs.
  - exact (demo_set_up MISA_SMODE).
  - reflexivity.
  - exact (demo_choice MISA_SMODE).
  - set (m := disk_of DISK_BLOCKS (slice x)). exists m. apply (H (demo_board m) m).
    + apply demo_reset. intros b Hb. unfold m. rewrite disk_of_lookup by exact Hb.
      apply slice_wf; [lia|]. rewrite Hx. change BLOCK_SIZE with 512. change DISK_BLOCKS with 8192 in *. lia.
    + intros b Hb. by apply disk_of_lookup.
Defined.
